(* ===== verification/_CoqProject ===== *)
-Q . S2P
Prelude.v
HyperSDK.v
Sample.v
State.v
Wire.v
Storage.v
Ledger.v
Genesis.v
Actions.v
ChainInv.v
Transfer.v
SequencerMsg.v
Auth.v
Sha256.v
Auction.v
EpochExit.v
RollupRegister.v
Registry.v
StateManager.v
Chain.v
WireTypes.v
Parallel.v
Schedule.v
RollupRegistry.v
Block.v
Commit.v
Json.v
Archiver.v
Config.v
Controller.v
Server.v
BlockRun.v
ChainSpec.v
Ownership.v
NodeSync.v
ArchiveRun.v
TxFee.v
Client.v
Cli.v
CliHost.v
Panels.v
Initialize.v
Binding.v
Main.v
Examples.v
NodeExamples.v
SyncExamples.v
CliExamples.v
ChainExamples.v
BindingExamples.v
