(* ===== verification/Prelude.v ===== *)
(** * SeqVM: a verification library for nodekit-seq

    The program is a virtual machine for a shared sequencer: rollups register,
    builders bid for the right to build an epoch, users transfer funds and
    submit rollup transactions. It runs inside a host (hypersdk on avalanchego),
    which gossips, builds and verifies blocks and calls the machine's code for
    every transaction. This library models the machine, translated from the
    sources under [src/], and proves what it promises.

    ** How a call is modelled

    A Go function that may fail returns [res A]: a value, an error or a panic
    ([Prelude]). One that changes a shared object of type [S] (the state of a
    transaction, a packer, a reply, a hash) is a computation [M S A], which
    returns the changed object in every case. Integers are [Z], kept in the range
    of their Go type by [u64] and [i64] at each operation that wraps; byte arrays
    are [arr n], slices are [list byte]. Loops are structural recursions over the
    slice they walk; Sha256's take the number of blocks as an argument computed
    from the input's length, and the one unbounded loop, of the command line
    ([Cli]), takes fuel, shown to be enough once the awaited result is
    reported.

    ** What is not in the repository

    Everything imported from the host and other modules is a field of a type
    class: [HyperSDK] has most of them, [Commit] has Keccak, [Block] the host's
    blocks, [Archiver] the database mapper, [Config] the host's defaults,
    [Json] encoding/json, [TxFee] the host's transactions, [Client] its requests
    and polling, [Cli], [CliHost] and [Panels] its command line, [Initialize] its
    constructors, [Binding] go-ethereum's contracts, [Main] the process. What the repository relies on is a second
    class, named [...Spec], of documented laws.
    Each of them has a concrete instance ([Sample] and the [...Examples] modules)
    so that no hypothesis is empty, and every theorem with a hypothesis is
    applied to a concrete input, in a module [...Examples] of its file, in
    [Examples], which runs a short history of the chain, in [NodeExamples], which
    runs a node, its server, clients and the commands that submit, in
    [SyncExamples], which runs blocks through a node and insertions through the
    archive, in [CliExamples], which runs the other commands, in
    [ChainExamples], which runs the abstract chain and a schedule beside the
    history, or in [BindingExamples], which runs the contract binding.

    ** The parts

    - [Prelude], [State], [Wire]: bytes, integers, errors, state passing,
      postconditions; reads, writes and frames of the key-value state;
      round trips of packers.
    - [Storage] ([src/storage]): every key, record and accessor. [Ledger]: the
      balances as a ledger with a total supply.
    - [Genesis] ([src/genesis], [src/consts]): parameters, allocations, rules.
    - [Actions] ([src/actions/utils.go], [consts.go], [errors.go]): helpers and
      the interface [ChainAction] of an action. [ChainInv]: the invariant of the
      chain and the contract [ChainActionSpec] of an action.
    - [Transfer], [SequencerMsg], [Auction], [EpochExit], [RollupRegister]
      ([src/actions]): one file per action: every method, and the action's
      instance of the contract. [Sha256] is the digest bids are signed over.
    - [Auth] ([src/auth]): the BLS and ed25519 signatures and the batch verifier.
    - [Registry] ([src/registry]): the five actions as one type, and the tables
      of unmarshallers. [WireTypes]: what those can return.
    - [StateManager] ([src/controller/state_manager.go]): the host's keys, fees.
    - [Chain]: the steps of the chain (actions, fees, the host's own writes) and
      what is reachable from a genesis. [Parallel]: an action needs no right and
      no key but what its [StateKeys] declares. [Schedule]: transactions of
      several actions, and the orders they may run in; which of them conflict is
      computed from the [StateKeys] of their actions.
    - [ChainSpec]: the abstract machine the chain implements (balances, rollups,
      exits, winning bids), its events, and the map [abs] from the contents of
      the state. [Ownership]: who can change what of it.
    - [RollupRegistry] ([src/rollup_registry]), [Controller]
      ([src/controller/controller.go], [resolutions.go], [metrics.go]): what
      happens when a block is accepted, and the queries of the committed state.
    - [Commit] ([src/types/commit.go] and part of [types.go]): commitments to
      headers; [Json]: their JSON forms. [Archiver] ([src/archiver]): the table
      of accepted blocks.
    - [Config] ([src/config]): the node's configuration. [Initialize]
      ([Initialize] of [controller.go]): how a node starts from its bytes.
    - [Server] ([src/rpc/jsonrpc_server.go], [dependencies.go]): the JSON-RPC
      handlers, against an interface that the controller implements. [TxFee]:
      [SubmitMsgTx] and the fee of a transaction. [Client]
      ([src/rpc/jsonrpc_client.go], [multi_jsonrpc_client.go]): the clients,
      over a transport that, connected to a node, is answered by [Server].
    - [Cli] ([src/cmd/seq-cli/cmd/action.go], with parts of [resolutions.go] and
      [handler.go]): the commands that submit actions. [CliHost] ([root.go],
      [genesis.go], [key.go], [chain.go], [spam.go], [errors.go] and the rest of
      [resolutions.go] and [handler.go]): the flags, the other commands and the
      callbacks they give the host. [Panels] ([prometheus.go]): the dashboard.
    - [Binding] ([src/sequencer]): the generated binding of the contract that
      verifies the chain on Ethereum, its iterators over logs and its watchers.
      [Main] ([src/cmd/seqvm], [main.go] of [seq-cli], [src/factory.go],
      [src/version]): the binaries.
    - [BlockRun], [NodeSync], [ArchiveRun]: how the parts work together, below.

    ** How the parts interact

    Three relations put the parts in motion. [Chain.reachable] follows the state
    alone. [NodeSync.node_run] follows a node: the host executes a block on the
    state ([BlockRun.block_run]: fees, writes of the host, and the actions of
    each successful transaction, executed in place, so that the actions of the
    accepted block are the mutated ones) and then calls [Accepted], which
    updates the registry in memory from those actions. [ArchiveRun.arch_step]
    follows the archive: [Accepted] starts a goroutine for each block, and the
    two steps of an insertion interleave with those of the others; an insertion
    begins when the database has a free connection, of which it may have as few
    as one, and holds it until it commits or rolls back. The invariant
    of the second is that the registry in memory holds what the state holds
    ([in_sync]), of the third that the rows are those of the blocks whose
    insertion succeeded and the connections in use those of the insertions under
    way ([arch_inv]); both are proved by rule induction.
    [ChainSpec.history] is [reachable] with its events: each of them is a step of
    the abstract machine, so what is proved of the machine, by induction on the
    list of events, holds of the code. In [Binding], where Go's [select] chooses,
    an iterator and a watch are step relations interleaved with the goroutine of
    their subscription ([feed_step]).

    ** What the theorems show

    - The chain: from any genesis that loads, every reachable state has a
      well-formed ledger whose supply is the genesis supply less the fees, and a
      registry that lists exactly the registered rollups; no action panics there;
      an action changes only the keys it declares to write, and on states that
      grant what it declares depends only on the declared keys, so that every
      schedule of a block that keeps transactions with conflicting declarations
      in order ends as the block does.
    - The chain as a whole refines the abstract machine. Hence every change of a
      balance is accounted for and consented to by its owner; only its authority
      changes a rollup or its exits; the winning bid of an epoch is the last
      valid one, and is fixed once the epoch starts.
    - The actions: [Transfer], [Auction] on every branch; [EpochExit] and
      [RollupRegistration] refine abstract steps on a list of exits and on a
      registry of infos; accepting conditions are exact; executing a registration
      twice is the same as once.
    - Blocks: accepting a block updates the rollup registry, the counters and the
      stored results as specified; the fee manager's promise agrees with what it
      deducts. Along every run from the genesis, the rollups a node serves from
      memory are those of the state, valid and not exited; after a restart they
      are only those registered or changed since.
    - The wire: whatever the bytes, what the type tables unmarshal is an error or
      a well-typed action, so the theorems on the chain hold of every action that
      can arrive.
    - The archive: in every interleaving of acceptances and insertions it holds
      one row for each block whose insertion succeeded; every insertion ends,
      within a bounded number of steps and under any scheduler, and gives back
      its connection (a deletion that fails does not: [Archiver]).
    - The node's answers: what is archived is what is served; header ranges are
      complete and consecutive; listings of rollups and messages are complete;
      a client reads the registry of the committed state, and its wait for a
      transaction ends with what the node recorded; commitments bind headers; a
      node starts as its configuration and genesis say.
    - Encodings: every action, signature, bid, result and list reads back from
      its bytes; the cases where it does not are stated exactly.
    - Bounds: no credit overflows a [uint64]; when the fee of a generated
      transaction fits, it is exact whatever the order of the map it sums.
    - The command line: an exit by the rollup command is refused in every state,
      and a bid of the auction command unless its signature, of one message, also
      verifies for another; a generated genesis is read
      back as the flags asked, with an epoch length that never divides by zero;
      the actor of a generated or imported key signs for its own address.
    - The binding: its calls conform to the ABI and never panic on the answer; an
      iterator over logs loses no event, a watch forwards them in order and
      releases its subscription.

    ** What is not modelled

    Input and output (HTTP, logs, traces, printing), tests. The binding of the contract is
    modelled on the generic contract of go-ethereum, which is a parameter, and
    its ABI as a list of entries instead of a JSON text; an event that fails to
    parse is left empty. JSON encoding and decoding are parameters.
    The fields of [types.go] that nothing uses are left out. Mutexes guard whole
    methods, which are single steps here. Of the commands of [seq-cli], the loops
    of the host that drive the callbacks ([WatchChain], [Spam], [SetKey],
    [Balance]) are the host's. The commands, prompts and flags are parsed by
    cobra, so a command takes the flags as an argument. *)

From Stdlib Require Import ZArith Lia Strings.Byte Strings.String Eqdep_dec.
From stdpp Require Import base numbers countable gmap list strings.

#[export] Set Default Goal Selector "!".

Declare Scope go_scope.
Delimit Scope go_scope with go.

Create HintDb seqvm.

Local Open Scope Z_scope.

(** ** Bytes *)

Abbreviation bytes := (list byte).

#[export] Instance byte_eq_decision : EqDecision byte := Byte.byte_eq_dec.

#[export] Program Instance byte_countable : Countable byte :=
  inj_countable Byte.to_N Byte.of_N Byte.of_to_N.

Definition Z_of_byte (b : byte) : Z := Z.of_N (Byte.to_N b).

(** [byte(z)]: Go's conversion keeps the low eight bits. *)
Definition byte_of_Z (z : Z) : byte :=
  match Byte.of_N (Z.to_N (z mod 256)) with
  | Some b => b
  | None => x00
  end.

Definition zeros (n : nat) : bytes := replicate n x00.

Lemma Z_of_byte_bound b : 0 <= Z_of_byte b < 256.
Proof. destruct b; cbv; split; congruence. Qed.

Lemma Z_of_byte_of_Z z : Z_of_byte (byte_of_Z z) = z mod 256.
Proof.
  unfold Z_of_byte, byte_of_Z.
  pose proof (Z.mod_pos_bound z 256 ltac:(lia)) as Hz.
  destruct (Byte.of_N (Z.to_N (z mod 256))) as [b|] eqn:E.
  - apply Byte.to_of_N in E. lia.
  - apply Byte.of_N_None_iff in E. lia.
Qed.

Lemma Z_of_byte_inj a b : Z_of_byte a = Z_of_byte b -> a = b.
Proof.
  unfold Z_of_byte. intros H%N2Z.inj.
  apply (f_equal Byte.of_N) in H. rewrite !Byte.of_to_N in H. by injection H.
Qed.

Lemma byte_of_Z_of_byte b : byte_of_Z (Z_of_byte b) = b.
Proof.
  apply Z_of_byte_inj. rewrite Z_of_byte_of_Z.
  apply Z.mod_small, Z_of_byte_bound.
Qed.

(** ** Big-endian encoding (encoding/binary) *)

Fixpoint be_enc (n : nat) (z : Z) : bytes :=
  match n with
  | O => []
  | S n => byte_of_Z (z / 256 ^ Z.of_nat n) :: be_enc n z
  end.

Fixpoint be_dec (l : bytes) : Z :=
  match l with
  | [] => 0
  | b :: l => Z_of_byte b * 256 ^ Z.of_nat (length l) + be_dec l
  end.

Lemma length_be_enc n z : length (be_enc n z) = n.
Proof. induction n; simpl; congruence. Qed.

Lemma pow256_pos n : 0 < 256 ^ Z.of_nat n.
Proof. apply Z.pow_pos_nonneg; lia. Qed.

Lemma pow256_S n : 256 ^ Z.of_nat (S n) = 256 ^ Z.of_nat n * 256.
Proof. rewrite Nat2Z.inj_succ, Z.pow_succ_r; lia. Qed.

Lemma be_dec_bound l : 0 <= be_dec l < 256 ^ Z.of_nat (length l).
Proof.
  induction l as [|b l IH]; simpl be_dec; [simpl; lia|].
  cbn [length]. rewrite pow256_S.
  pose proof (Z_of_byte_bound b). nia.
Qed.

Lemma be_dec_enc n z : be_dec (be_enc n z) = z mod 256 ^ Z.of_nat n.
Proof.
  induction n as [|n IH]; simpl be_enc; simpl be_dec.
  - by rewrite Z.mod_1_r.
  - rewrite length_be_enc, IH, Z_of_byte_of_Z, pow256_S.
    pose proof (pow256_pos n).
    rewrite Z.rem_mul_r by lia. lia.
Qed.

Lemma be_dec_inj l1 l2 :
  length l1 = length l2 -> be_dec l1 = be_dec l2 -> l1 = l2.
Proof.
  revert l2. induction l1 as [|b1 l1 IH]; intros [|b2 l2] Hl Hd; try done.
  cbn [be_dec length] in *. injection Hl as Hl. rewrite Hl in Hd.
  pose proof (be_dec_bound l1) as H1. pose proof (be_dec_bound l2) as H2.
  rewrite Hl in H1. pose proof (pow256_pos (length l2)).
  assert (Z_of_byte b1 = Z_of_byte b2) as Hb by nia.
  f_equal; [by apply Z_of_byte_inj|]. apply IH; [done|]. rewrite Hb in Hd. lia.
Qed.

Lemma be_enc_dec l : be_enc (length l) (be_dec l) = l.
Proof.
  apply be_dec_inj; [apply length_be_enc|].
  rewrite be_dec_enc. apply Z.mod_small, be_dec_bound.
Qed.

(** The decoder used on a value that carries the encoding as a prefix. *)
Lemma be_dec_enc_small n z :
  0 <= z < 256 ^ Z.of_nat n -> be_dec (be_enc n z) = z.
Proof. intros. rewrite be_dec_enc. by apply Z.mod_small. Qed.

Lemma be_enc_inj n a b :
  0 <= a < 256 ^ Z.of_nat n -> 0 <= b < 256 ^ Z.of_nat n ->
  be_enc n a = be_enc n b -> a = b.
Proof.
  intros Ha Hb H. apply (f_equal be_dec) in H.
  by rewrite !be_dec_enc_small in H.
Qed.

(** ** Machine integers

    A [uint64] is a [Z] in [0, 2^64); arithmetic wraps, conversions wrap. *)

Definition u64_mod : Z := 18446744073709551616.
Definition MaxUint64 : Z := 18446744073709551615.
Definition u64 (z : Z) : Z := z mod u64_mod.
Definition i64 (z : Z) : Z :=
  let u := u64 z in if u <? 9223372036854775808 then u else u - u64_mod.

Definition is_u64 (z : Z) : Prop := 0 <= z < u64_mod.
Definition is_i64 (z : Z) : Prop := -9223372036854775808 <= z < 9223372036854775808.

Lemma u64_mod_pow : u64_mod = 256 ^ Z.of_nat 8.
Proof. reflexivity. Qed.

Lemma u64_small z : is_u64 z -> u64 z = z.
Proof. intros. by apply Z.mod_small. Qed.

Lemma u64_is_u64 z : is_u64 (u64 z).
Proof. by apply Z.mod_pos_bound. Qed.

Lemma is_u64_be z : is_u64 z -> be_dec (be_enc 8 z) = z.
Proof. intros. by apply be_dec_enc_small. Qed.

Lemma i64_u64 z : is_i64 z -> i64 (u64 z) = z.
Proof.
  unfold is_i64, i64, u64, u64_mod. intros Hz.
  rewrite Z.mod_mod by lia.
  destruct (Z.ltb_spec (z mod 18446744073709551616) 9223372036854775808);
    destruct (Z.lt_ge_cases z 0).
  - exfalso.
    pose proof (Z.mod_unique z 18446744073709551616 (-1) (z + 18446744073709551616)).
    lia.
  - rewrite Z.mod_small; lia.
  - rewrite <- (Z.mod_unique z 18446744073709551616 (-1) (z + 18446744073709551616)); lia.
  - rewrite Z.mod_small in *; lia.
Qed.

(** ** Errors

    [errors.New] makes a sentinel, [fmt.Errorf] a formatted error that may
    wrap another one with [%w]; [errors.Is] walks the chain of wrapped errors. *)

Inductive fmtarg :=
  | AInt (z : Z)
  | ABytes (b : bytes)
  | AStr (s : string).

Inductive error :=
  | ErrNew (text : string)
  | Errorf (format : string) (args : list fmtarg)
  | ErrWrap (format : string) (args : list fmtarg) (wrapped : error).

Fixpoint errors_Is (e target : error) : bool :=
  match e with
  | ErrNew t =>
      match target with
      | ErrNew t' => bool_decide (t = t')
      | _ => false
      end
  | Errorf _ _ => false
  | ErrWrap _ _ w => errors_Is w target
  end.

(** ** Outcomes

    A call returns a value, returns an error, or panics. *)

Inductive panic_reason :=
  | PIndex            (** index or slice bounds out of range *)
  | PNil              (** nil pointer dereference *)
  | PDivide           (** integer divide by zero *)
  | PTypeAssert       (** failed interface conversion *)
  | PMessage (s : string).

Inductive res (A : Type) :=
  | Ok (a : A)
  | Err (e : error)
  | Panic (p : panic_reason).
Arguments Ok {A} a.
Arguments Err {A} e.
Arguments Panic {A} p.

#[export] Instance res_ret : MRet res := fun A a => Ok a.
#[export] Instance res_bind : MBind res := fun A B f m =>
  match m with
  | Ok a => f a
  | Err e => Err e
  | Panic p => Panic p
  end.

Definition is_panic {A} (r : res A) : bool :=
  match r with Panic _ => true | _ => false end.

Definition is_ok {A} (r : res A) : bool :=
  match r with Ok _ => true | _ => false end.

(** [if err != nil { return fmt.Errorf("...: %w", err) }] *)
Definition map_err {A} (f : error -> error) (r : res A) : res A :=
  match r with
  | Err e => Err (f e)
  | r => r
  end.

(** ** Slices *)

(** [copy(dst, src)]: the shorter of the two lengths is copied. *)
Definition copy (dst src : bytes) : bytes :=
  take (length dst) src ++ drop (length src) dst.

(** [dst[i] = b] *)
Definition set_index (dst : bytes) (i : nat) (b : byte) : res bytes :=
  if (i <? length dst)%nat then Ok (<[i := b]> dst) else Panic PIndex.

(** [l[i]] *)
Definition index (l : bytes) (i : nat) : res byte :=
  match l !! i with
  | Some b => Ok b
  | None => Panic PIndex
  end.

(** [l[i:j]] and [l[i:]]; the capacity of the slice is its length. *)
Definition slice (l : bytes) (i j : nat) : res bytes :=
  if ((i <=? j) && (j <=? length l))%nat then Ok (take (j - i) (drop i l)) else Panic PIndex.

Definition slice_from (l : bytes) (i : nat) : res bytes :=
  if (i <=? length l)%nat then Ok (drop i l) else Panic PIndex.

(** [f(dst[i:])] for an [f] that writes into the slice it is given: the bytes
    before [i] keep their value. *)
Definition update_from (dst : bytes) (i : nat) (f : bytes -> res bytes) : res bytes :=
  if (i <=? length dst)%nat
  then match f (drop i dst) with
       | Ok tl => Ok (take i dst ++ tl)
       | Err e => Err e
       | Panic p => Panic p
       end
  else Panic PIndex.

(** [binary.BigEndian.PutUint16/PutUint64] write a prefix of the slice and
    panic when it is too short; [Uint64] reads a prefix. *)
Definition put_be (n : nat) (v : Z) (b : bytes) : res bytes :=
  if (n <=? length b)%nat then Ok (be_enc n v ++ drop n b) else Panic PIndex.

Definition PutUint16 (v : Z) (b : bytes) : res bytes := put_be 2 v b.
Definition PutUint64 (v : Z) (b : bytes) : res bytes := put_be 8 v b.

Definition Uint64 (b : bytes) : res Z :=
  if (8 <=? length b)%nat then Ok (be_dec (take 8 b)) else Panic PIndex.

Definition AppendUint64 (b : bytes) (v : Z) : bytes := b ++ be_enc 8 v.

(** [bytes.Equal] *)
Definition bytes_Equal (a b : bytes) : bool := bool_decide (a = b).

#[global] Arguments copy : simpl never.
#[global] Arguments set_index : simpl never.
#[global] Arguments index : simpl never.
#[global] Arguments slice : simpl never.
#[global] Arguments slice_from : simpl never.
#[global] Arguments update_from : simpl never.
#[global] Arguments put_be : simpl never.
#[global] Arguments Uint64 : simpl never.
#[global] Arguments be_enc : simpl never.
#[global] Arguments be_dec : simpl never.

Lemma bytes_Equal_spec a b : bytes_Equal a b = true <-> a = b.
Proof. apply bool_decide_eq_true. Qed.

Lemma length_copy dst src : length (copy dst src) = length dst.
Proof. unfold copy. rewrite length_app, length_take, length_drop. lia. Qed.

Lemma copy_same_length dst src : length dst = length src -> copy dst src = src.
Proof.
  intros H. unfold copy. rewrite H, firstn_all, drop_ge by lia. apply app_nil_r.
Qed.

Lemma copy_short dst src :
  (length src <= length dst)%nat -> copy dst src = src ++ drop (length src) dst.
Proof. intros. unfold copy. by rewrite take_ge by lia. Qed.

Lemma Uint64_enc v rest : is_u64 v -> Uint64 (be_enc 8 v ++ rest) = Ok v.
Proof.
  intros. unfold Uint64. rewrite length_app, length_be_enc.
  replace (8 <=? 8 + length rest)%nat with true by (symmetry; apply Nat.leb_le; lia).
  rewrite take_app_length' by (by rewrite length_be_enc). by rewrite is_u64_be.
Qed.

Lemma Uint64_total b : (8 <= length b)%nat -> exists v, Uint64 b = Ok v /\ is_u64 v.
Proof.
  intros Hb. exists (be_dec (take 8 b)). unfold Uint64.
  rewrite (proj2 (Nat.leb_le _ _) Hb). split; [done|].
  pose proof (be_dec_bound (take 8 b)) as H. rewrite length_take in H.
  by replace (8 `min` length b)%nat with 8%nat in H by lia.
Qed.

(** ** Fixed-size arrays [[n]byte] *)

Record arr (n : nat) := Arr {
  arr_list :> bytes;
  arr_len : (length arr_list =? n)%nat = true
}.
Arguments Arr {n} _ _.
Arguments arr_list {n} _.
Arguments arr_len {n} _.

Lemma length_arr {n} (a : arr n) : length a = n.
Proof. apply Nat.eqb_eq, arr_len. Qed.

Lemma arr_eq {n} (a b : arr n) : arr_list a = arr_list b -> a = b.
Proof.
  destruct a as [l Hl], b as [l' Hl']; simpl. intros <-.
  f_equal. apply UIP_dec, bool_eq_dec.
Qed.

#[export] Instance arr_eq_decision n : EqDecision (arr n).
Proof.
  intros a b. destruct (decide (arr_list a = arr_list b)) as [H|H].
  - left. by apply arr_eq.
  - right. by intros ->.
Defined.

#[export] Instance arr_countable n : Countable (arr n).
Proof.
  refine (inj_countable arr_list (fun l =>
    match decide ((length l =? n)%nat = true) with
    | left H => Some (Arr l H)
    | right _ => None
    end) _).
  intros [l Hl]. simpl. destruct (decide _) as [H|]; [|done].
  f_equal. by apply arr_eq.
Defined.

Lemma arr_of_len n (l : bytes) :
  (length (copy (zeros n) l) =? n)%nat = true.
Proof. apply Nat.eqb_eq. rewrite length_copy. apply length_replicate. Qed.

(** A proof of [b = true] that computes when [b] does. *)
Definition canonical (b : bool) : b = true -> b = true :=
  match b with
  | true => fun _ => eq_refl
  | false => fun H => H
  end.

(** [var a [n]byte; copy(a[:], l)] *)
Definition arr_of (n : nat) (l : bytes) : arr n :=
  Arr (copy (zeros n) l) (canonical _ (arr_of_len n l)).

Definition arr_zero (n : nat) : arr n := arr_of n [].

Lemma arr_of_list {n} (l : bytes) : length l = n -> arr_list (arr_of n l) = l.
Proof. intros. apply copy_same_length. unfold zeros. by rewrite length_replicate. Qed.

Lemma arr_of_arr {n} (a : arr n) : arr_of n a = a.
Proof. apply arr_eq, arr_of_list, length_arr. Qed.

(** ** State passing

    [M S A] is the meaning of a Go function that may change a shared object of
    type [S], return an [A], return an error or panic. The object is changed
    in place: the changes made before an error stay. *)

Definition M (S A : Type) : Type := S -> S * res A.

#[export] Instance M_ret S : MRet (M S) := fun A a s => (s, Ok a).
#[export] Instance M_bind S : MBind (M S) := fun A B f m s =>
  match m s with
  | (s', Ok a) => f a s'
  | (s', Err e) => (s', Err e)
  | (s', Panic p) => (s', Panic p)
  end.

Definition lift {S A} (r : res A) : M S A := fun s => (s, r).
Definition throw {S A} (e : error) : M S A := fun s => (s, Err e).
Definition gopanic {S A} (p : panic_reason) : M S A := fun s => (s, Panic p).
Definition get {S} : M S S := fun s => (s, Ok s).
Definition modify {S} (f : S -> S) : M S unit := fun s => (f s, Ok tt).
Definition wrap_err {S A} (f : error -> error) (m : M S A) : M S A :=
  fun s => let '(s', r) := m s in (s', map_err f r).

(** ** Postconditions

    [wp m s Q]: run from [s], [m] ends in a state and an outcome that satisfy
    [Q]. [M] is total, so the partial and the total readings agree. *)

Definition wp {S A} (m : M S A) (s : S) (Q : S -> res A -> Prop) : Prop :=
  Q (fst (m s)) (snd (m s)).

Section wp.
Context {S A B : Type}.
Implicit Types (s : S).

Lemma wp_mono (m : M S A) s (Q Q' : S -> res A -> Prop) :
  (forall s' r, Q s' r -> Q' s' r) -> wp m s Q -> wp m s Q'.
Proof. unfold wp. auto. Qed.

Lemma wp_conseq (m : M S A) s (Q Q' : S -> res A -> Prop) :
  wp m s Q -> (forall s' r, Q s' r -> Q' s' r) -> wp m s Q'.
Proof. unfold wp. auto. Qed.

Lemma wp_ret (a : A) s (Q : S -> res A -> Prop) : Q s (Ok a) -> wp (mret a) s Q.
Proof. done. Qed.

Lemma wp_lift (r : res A) s (Q : S -> res A -> Prop) : Q s r -> wp (lift r) s Q.
Proof. done. Qed.

Lemma wp_throw e s (Q : S -> res A -> Prop) : Q s (Err e) -> wp (throw e) s Q.
Proof. done. Qed.

Lemma wp_get s (Q : S -> res S -> Prop) : Q s (Ok s) -> wp get s Q.
Proof. done. Qed.

Lemma wp_bind (m : M S A) (k : A -> M S B) s (Q : S -> res B -> Prop) :
  wp m s (fun s' r =>
    match r with
    | Ok a => wp (k a) s' Q
    | Err e => Q s' (Err e)
    | Panic p => Q s' (Panic p)
    end) -> wp (m ≫= k) s Q.
Proof.
  unfold wp, mbind, M_bind. destruct (m s) as [s' [a|e|p]]; done.
Qed.

Lemma wp_wrap_err f (m : M S A) s (Q : S -> res A -> Prop) :
  wp m s (fun s' r => Q s' (map_err f r)) -> wp (wrap_err f m) s Q.
Proof. unfold wp, wrap_err. by destruct (m s). Qed.

Lemma wp_run (m : M S A) s (Q : S -> res A -> Prop) s' r :
  m s = (s', r) -> wp m s Q <-> Q s' r.
Proof. unfold wp. by intros ->. Qed.

Lemma wp_eq (m m' : M S A) s (Q : S -> res A -> Prop) : m s = m' s -> wp m' s Q -> wp m s Q.
Proof. unfold wp. by intros ->. Qed.

Lemma wp_intro (m : M S A) s (Q : S -> res A -> Prop) :
  (forall s' r, m s = (s', r) -> Q s' r) -> wp m s Q.
Proof. intros H. apply H. by destruct (m s). Qed.

Lemma bind_run (m : M S A) (k : A -> M S B) s s' a :
  m s = (s', Ok a) -> (m ≫= k) s = k a s'.
Proof. unfold mbind, M_bind. by intros ->. Qed.

Lemma bind_run_err (m : M S A) (k : A -> M S B) s s' e :
  m s = (s', Err e) -> (m ≫= k) s = (s', Err e).
Proof. unfold mbind, M_bind. by intros ->. Qed.

(** A composite that succeeds is a success of both parts. *)
Lemma bind_Ok_inv (m : M S A) (k : A -> M S B) s s' b :
  (m ≫= k) s = (s', Ok b) -> exists s1 a, m s = (s1, Ok a) /\ k a s1 = (s', Ok b).
Proof.
  unfold mbind, M_bind. destruct (m s) as [s1 [a|e|p]]; intros H; eauto; done.
Qed.
End wp.

Lemma bind_lift_Ok {S A B} (a : A) (k : A -> M S B) s : (lift (Ok a) ≫= k) s = k a s.
Proof. done. Qed.

Lemma bind_get {S B} (k : S -> M S B) s : (get ≫= k) s = k s s.
Proof. done. Qed.

Lemma bind_ret {S A B} (a : A) (k : A -> M S B) s : (mret a ≫= k) s = k a s.
Proof. done. Qed.

Lemma bind_modify {S B} f (k : unit -> M S B) s : (modify f ≫= k) s = k tt (f s).
Proof. done. Qed.

Lemma bind_assoc {T A B C} (m : M T A) (k : A -> M T B) (K : B -> M T C) t :
  ((m ≫= k) ≫= K) t = (m ≫= (fun a => k a ≫= K)) t.
Proof. unfold mbind, M_bind. by destruct (m t) as [? [| |]]. Qed.

Lemma bind_eq {T A B} (m m' : M T A) (k : A -> M T B) t t' :
  m t = m' t' -> (m ≫= k) t = (m' ≫= k) t'.
Proof. unfold mbind, M_bind. by intros ->. Qed.

Lemma bind_lift {S A B} (r : res A) (a : A) (k : A -> M S B) s :
  r = Ok a -> (lift r ≫= k) s = k a s.
Proof. by intros ->. Qed.

Lemma bind_Ok {A B} (a : A) (k : A -> res B) : Ok a ≫= k = k a.
Proof. done. Qed.

Lemma res_bind_Ok_inv {A B} (r : res A) (k : A -> res B) b :
  r ≫= k = Ok b -> exists a, r = Ok a /\ k a = Ok b.
Proof. destruct r; simpl; intros; eauto; done. Qed.

#[export] Hint Resolve wp_ret wp_lift wp_throw wp_get : seqvm.

(** One step through the structure of a computation. *)
Ltac wp_step :=
  match goal with
  | |- wp (mbind _ _) _ _ => apply wp_bind
  | |- wp (mret _) _ _ => apply wp_ret
  | |- wp (lift _) _ _ => apply wp_lift
  | |- wp (throw _) _ _ => apply wp_throw
  | |- wp get _ _ => apply wp_get
  | |- wp (wrap_err _ _) _ _ => apply wp_wrap_err
  end.

Ltac wp_steps := repeat (wp_step; simpl).

(** Split a successful run into the runs of its parts. *)
Ltac inv_ok H :=
  let s := fresh "s" in let a := fresh "a" in let H1 := fresh "Hrun" in
  first [ apply bind_Ok_inv in H as (s & a & H1 & H)
        | apply res_bind_Ok_inv in H as (a & H1 & H) ].

(** Concrete machine integers are in range. *)
Ltac in_range :=
  unfold is_u64, is_i64, u64_mod;
  first [ lia | simpl; lia | vm_compute; repeat split; (discriminate || reflexivity) ].
Ltac all_in_range := repeat (apply Forall_cons; split; [in_range|]); apply Forall_nil; done.

(** A run, known from its outcome. *)
Lemma run_eq {S X} (m : S * res X) x : snd m = Ok x -> m = (fst m, Ok x).
Proof. destruct m. simpl. by intros ->. Qed.

Lemma run_eq2 {S A X} (m : (S * A) * res X) a x :
  snd (fst m) = a -> snd m = Ok x -> m = ((fst (fst m), a), Ok x).
Proof. destruct m as [[]]. simpl. by intros -> ->. Qed.
