(* ===== verification/HyperSDK.v ===== *)
(** * HyperSDK: the code outside the repository

    The repository is a virtual machine plugged into hypersdk and avalanchego;
    none of that code is part of it. Every type and function the repository
    imports is a field of one of the classes below, so that each definition of
    the development takes it as an argument, and what the repository relies on
    is stated in the classes whose name ends in [Spec]: they say what the
    packages document, operation by operation. [Sample] gives an instance of
    all of them. *)

From stdpp Require Import base numbers countable gmap list strings.
From Stdlib Require Import ZArith Lia Strings.Byte.
From S2P Require Import Prelude.

Local Open Scope Z_scope.

(** ** Constants (hypersdk/consts, hypersdk/codec, avalanchego/ids) *)

Class HyperConsts := {
  AddressLen : nat;
  IDLen : nat;
  Uint16Len : nat;
  Uint64Len : nat;
  IntLen : nat;
  MillisecondsPerSecond : Z;
  NetworkSizeLimit : Z;
  MaxNamespaceLen : Z
}.

Class HyperConstsSpec `{HyperConsts} : Prop := {
  AddressLen_33 : AddressLen = 33%nat;
  IDLen_32 : IDLen = 32%nat;
  Uint16Len_2 : Uint16Len = 2%nat;
  Uint64Len_8 : Uint64Len = 8%nat
}.

(** [codec.Address] and [ids.ID] are byte arrays. *)
Abbreviation Address := (arr AddressLen).
Abbreviation ID := (arr IDLen).

(** ** Checked arithmetic (avalanchego/utils/math) *)

Class SafeMath := {
  ErrOverflow : error;
  ErrUnderflow : error;
  Add64 : Z -> Z -> res Z;
  Sub64 : Z -> Z -> res Z
}.

Class SafeMathSpec `{SafeMath} : Prop := {
  Add64_spec a b : is_u64 a -> is_u64 b ->
    Add64 a b = if a + b <? u64_mod then Ok (a + b) else Err ErrOverflow;
  Sub64_spec a b : is_u64 a -> is_u64 b ->
    Sub64 a b = if b <=? a then Ok (a - b) else Err ErrUnderflow
}.

(** ** Key-value state (hypersdk/state, avalanchego/database) *)

Class DatabaseErrors := {
  ErrNotFound : error;
  ErrInvalidKeyOrPermission : error
}.

Class DatabaseErrorsSpec `{DatabaseErrors} : Prop := {
  ErrNotFound_sentinel : exists t, ErrNotFound = ErrNew t;
  ErrInvalidKeyOrPermission_Is :
    errors_Is ErrInvalidKeyOrPermission ErrNotFound = false
}.

(** [state.Permissions]: a set of rights, built from constants with [|]. *)
Class StatePermissions := {
  Permissions : Type;
  Read : Permissions;
  Allocate : Permissions;
  Write : Permissions;
  All : Permissions;
  perm_or : Permissions -> Permissions -> Permissions;
  perm_Has : Permissions -> Permissions -> bool
}.

Class StatePermissionsSpec `{StatePermissions} : Prop := {
  Has_refl p : perm_Has p p = true;
  Has_All p : perm_Has All p = true;
  Has_or_l p q r : perm_Has p r = true -> perm_Has (perm_or p q) r = true;
  Has_or_r p q r : perm_Has q r = true -> perm_Has (perm_or p q) r = true
}.

(** [state.Keys]. A map literal with repeated keys keeps the last value, which
    is how the gc compiler evaluates it. *)
Abbreviation Keys := (gmap bytes Permissions).

Definition keys_literal `{StatePermissions} (l : list (bytes * Permissions)) : Keys :=
  foldl (fun m kp => <[kp.1 := kp.2]> m) ∅ l.

(** [state.Immutable] and [state.Mutable]. *)
Class Immutable (S : Type) := GetValue : S -> bytes -> res bytes.

Class Mutable (S : Type) `{Immutable S} := {
  Insert : bytes -> bytes -> M S unit;
  Remove : bytes -> M S unit
}.

(** What a [Mutable] promises: the contents [view] are visible through the
    permissions [scope] the transaction declared; an operation that is not
    permitted, or a value that does not fit the chunks its key reserves,
    changes nothing and is an error. *)
Class MutableSpec (S : Type) `{DatabaseErrors, StatePermissions, Mutable S} := {
  view : S -> gmap bytes bytes;
  scope : S -> bytes -> Permissions;
  ValueFits : bytes -> bytes -> bool;
  permitted_insert : S -> bytes -> bytes -> bool := fun s k v =>
    ValueFits k v &&
    match view s !! k with
    | Some _ => perm_Has (scope s k) Write
    | None => perm_Has (scope s k) Allocate
    end;
  GetValue_spec s k :
    GetValue s k =
    if perm_Has (scope s k) Read then
      match view s !! k with Some v => Ok v | None => Err ErrNotFound end
    else Err ErrInvalidKeyOrPermission;
  Insert_ok s k v : permitted_insert s k v = true ->
    wp (Insert k v) s (fun s' r =>
      r = Ok tt /\ view s' = <[k := v]> (view s) /\ scope s' = scope s);
  Insert_denied s k v : permitted_insert s k v = false ->
    wp (Insert k v) s (fun s' r => (exists e, r = Err e) /\ s' = s);
  Remove_ok s k : perm_Has (scope s k) Write = true ->
    wp (Remove k) s (fun s' r =>
      r = Ok tt /\ view s' = delete k (view s) /\ scope s' = scope s);
  Remove_denied s k : perm_Has (scope s k) Write = false ->
    wp (Remove k) s (fun s' r => (exists e, r = Err e) /\ s' = s);
  (** a key ends in the number of 64-byte chunks its value may take *)
  ValueFits_chunks p c v :
    0 <= c < 65536 -> Z.of_nat (length v) <= 64 * c ->
    ValueFits (p ++ be_enc 2 c) v = true
}.

(** avalanchego's [database.KeyValueReader] and [KeyValueWriter]. *)
Class KeyValueWriter (D : Type) := { Put : bytes -> bytes -> M D unit }.
Class KeyValueReader (D : Type) := { Get : D -> bytes -> res bytes }.

Class KeyValueDBSpec (D : Type) `{DatabaseErrors, KeyValueWriter D, KeyValueReader D} : Prop := {
  Put_Get d k v d' : Put k v d = (d', Ok tt) -> Get d' k = Ok v;
  Put_Get_ne d k k' v d' : Put k v d = (d', Ok tt) -> k <> k' -> Get d' k' = Get d k'
}.

(** [database.Batch]: writes are collected and applied together. *)
Class Batching (D B : Type) `{KeyValueReader D, KeyValueWriter B} := {
  NewBatch_db : B;
  Batch_Write : B -> M D unit
}.

(** The value the last write of a list gives to a key. *)
Definition last_write (ops : list (bytes * bytes)) (k : bytes) : option bytes :=
  snd <$> last (filter (fun kv => kv.1 = k) ops).

Class BatchingSpec (D B : Type) `{Batching D B} := {
  batch_ops : B -> list (bytes * bytes);
  NewBatch_ops : batch_ops NewBatch_db = [];
  Put_ops b b' k v u : Put k v b = (b', Ok u) -> batch_ops b' = batch_ops b ++ [(k, v)];
  Put_no_panic b k v : is_panic (snd (Put k v b)) = false;
  Write_Get b d d' u k : Batch_Write b d = (d', Ok u) ->
    Get d' k = match last_write (batch_ops b) k with Some v => Ok v | None => Get d k end;
  Write_failed b d : is_ok (snd (Batch_Write b d)) = false ->
    fst (Batch_Write b d) = d /\ is_panic (snd (Batch_Write b d)) = false
}.

(** ** Packer (hypersdk/codec) *)

Class Codec `{HyperConsts} := {
  Packer : Type;
  NewWriter : Z -> Z -> Packer;
  NewReader : bytes -> Z -> Packer;
  Packer_Err : Packer -> option error;
  Packer_Bytes : Packer -> bytes;
  PackUint64_op : Z -> Packer -> Packer;
  PackInt_op : Z -> Packer -> Packer;
  PackBytes_op : bytes -> Packer -> Packer;
  PackFixedBytes_op : bytes -> Packer -> Packer;
  PackAddress_op : Address -> Packer -> Packer;
  UnpackUint64_op : bool -> Packer -> Packer * Z;
  UnpackInt_op : bool -> Packer -> Packer * Z;
  UnpackBytes_op : Z -> bool -> Packer -> Packer * bytes;
  UnpackFixedBytes_op : nat -> Packer -> Packer * bytes;
  UnpackAddress_op : Packer -> Packer * Address;
  BytesLen : bytes -> Z;
  EmptyAddress : Address;
  ToAddress : bytes -> Address * option error;
  CreateAddress : Z -> ID -> Address;
  ParseAddressBech32 : string -> string -> res Address;
  ToID : bytes -> ID
}.

(** A call on a packer never returns an error: the packer remembers it. *)
Definition packs `{Codec} (f : Packer -> Packer) : M Packer unit :=
  fun p => (f p, Ok tt).
Definition unpacks `{Codec} {A} (f : Packer -> Packer * A) : M Packer A :=
  fun p => let '(p', a) := f p in (p', Ok a).

Definition PackUint64 `{Codec} n := packs (PackUint64_op n).
Definition PackInt `{Codec} n := packs (PackInt_op n).
Definition PackBytes `{Codec} b := packs (PackBytes_op b).
Definition PackFixedBytes `{Codec} b := packs (PackFixedBytes_op b).
Definition PackAddress `{Codec} a := packs (PackAddress_op a).
Definition UnpackUint64 `{Codec} r := unpacks (UnpackUint64_op r).
Definition UnpackInt `{Codec} r := unpacks (UnpackInt_op r).
Definition UnpackBytes `{Codec} n r := unpacks (UnpackBytes_op n r).
Definition UnpackFixedBytes `{Codec} n := unpacks (UnpackFixedBytes_op n).
Definition UnpackAddress `{Codec} := unpacks UnpackAddress_op.

(** [return v, p.Err()] *)
Definition ret_Err `{Codec} {A} (a : A) : M Packer A := fun p =>
  match Packer_Err p with
  | None => (p, Ok a)
  | Some e => (p, Err e)
  end.

(** What the codec documents. A writer without an error holds the encodings of
    what was packed, in order; a reader whose remaining input starts with the
    encoding of a value returns it and moves past it; an error never goes
    away. *)
Class CodecSpec `{Codec} := {
  enc_u64 : Z -> bytes;
  enc_int : Z -> bytes;
  enc_bytes : bytes -> bytes;
  remaining : Packer -> bytes;
  wrote (p p' : Packer) (e : bytes) : Prop :=
    Packer_Err p' = None ->
    Packer_Err p = None /\ Packer_Bytes p' = Packer_Bytes p ++ e;
  NewWriter_Err n l : Packer_Err (NewWriter n l) = None;
  NewWriter_Bytes n l : Packer_Bytes (NewWriter n l) = [];
  NewReader_Err b l : Packer_Err (NewReader b l) = None;
  NewReader_remaining b l : remaining (NewReader b l) = b;
  PackUint64_wrote n p : wrote p (PackUint64_op n p) (enc_u64 n);
  PackInt_wrote n p : wrote p (PackInt_op n p) (enc_int n);
  PackBytes_wrote b p : wrote p (PackBytes_op b p) (enc_bytes b);
  PackFixedBytes_wrote b p : wrote p (PackFixedBytes_op b p) b;
  PackAddress_wrote a p : wrote p (PackAddress_op a p) (arr_list a);
  UnpackUint64_ok req n p rest :
    is_u64 n -> (req = true -> n <> 0) ->
    Packer_Err p = None -> remaining p = enc_u64 n ++ rest ->
    exists p', UnpackUint64_op req p = (p', n) /\ Packer_Err p' = None /\ remaining p' = rest;
  UnpackUint64_zero p rest :
    Packer_Err p = None -> remaining p = enc_u64 0 ++ rest ->
    Packer_Err (fst (UnpackUint64_op true p)) <> None;
  UnpackInt_ok req n p rest :
    0 <= n < 2147483648 -> (req = true -> n <> 0) ->
    Packer_Err p = None -> remaining p = enc_int n ++ rest ->
    exists p', UnpackInt_op req p = (p', n) /\ Packer_Err p' = None /\ remaining p' = rest;
  UnpackBytes_ok lim req b p rest :
    Z.of_nat (length b) < 4294967296 ->
    (lim < 0 \/ Z.of_nat (length b) <= lim) -> (req = true -> b <> []) ->
    Packer_Err p = None -> remaining p = enc_bytes b ++ rest ->
    exists p', UnpackBytes_op lim req p = (p', b) /\ Packer_Err p' = None /\ remaining p' = rest;
  UnpackFixedBytes_ok n b p rest :
    length b = n ->
    Packer_Err p = None -> remaining p = b ++ rest ->
    exists p', UnpackFixedBytes_op n p = (p', b) /\ Packer_Err p' = None /\ remaining p' = rest;
  UnpackAddress_ok a p rest :
    a <> EmptyAddress ->
    Packer_Err p = None -> remaining p = arr_list a ++ rest ->
    exists p', UnpackAddress_op p = (p', a) /\ Packer_Err p' = None /\ remaining p' = rest;
  Unpack_sticky p :
    Packer_Err p <> None ->
    (forall r, Packer_Err (fst (UnpackUint64_op r p)) <> None) /\
    (forall r, Packer_Err (fst (UnpackInt_op r p)) <> None) /\
    (forall n r, Packer_Err (fst (UnpackBytes_op n r p)) <> None) /\
    (forall n, Packer_Err (fst (UnpackFixedBytes_op n p)) <> None) /\
    Packer_Err (fst (UnpackAddress_op p)) <> None;
  ToAddress_ok (a : Address) : ToAddress a = (a, None)
}.

(** ** hypersdk/actions: the arcadia data shared with the host chain *)

(** The fields the repository reads and writes of [hactions.RollupInfo] and
    [hactions.EpochInfo]; [hactions.EpochExitInfo] has the one field [Exits]. *)
Record RollupInfo `{HyperConsts} := {
  FeeRecipient : Address;
  RI_Namespace : bytes;
  AuthoritySEQAddress : Address;
  SequencerPublicKey : bytes;
  StartEpoch : Z;
  ExitEpoch : Z
}.

Record EpochInfo := {
  EI_Epoch : Z;
  EI_Namespace : bytes
}.

Record EpochExitInfo := { Exits : list EpochInfo }.

(** [info.StartEpoch = s; info.ExitEpoch = e] *)
Definition with_epochs `{HyperConsts} (i : RollupInfo) (s e : Z) : RollupInfo :=
  {| FeeRecipient := FeeRecipient i; RI_Namespace := RI_Namespace i;
     AuthoritySEQAddress := AuthoritySEQAddress i;
     SequencerPublicKey := SequencerPublicKey i;
     StartEpoch := s; ExitEpoch := e |}.

Class HActions `{Codec} := {
  RollupInfo_Size : RollupInfo -> Z;
  RollupInfo_Marshal_op : RollupInfo -> Packer -> Packer;
  UnmarshalRollupInfo : M Packer RollupInfo;
  RollupInfo_ID : RollupInfo -> ID;
  RollupInfo_ValidAtEpoch : RollupInfo -> Z -> bool;
  RollupInfo_Exited : RollupInfo -> Z -> bool;
  EpochInfo_Size : EpochInfo -> Z;
  EpochInfo_Marshal_op : EpochInfo -> Packer -> Packer;
  UnmarshalEpochInfo : M Packer EpochInfo;
  EpochExitInfo_Marshal_op : EpochExitInfo -> Packer -> Packer;
  UnmarshalEpochExitsInfo : M Packer EpochExitInfo;
  PackNamespaces_h : list bytes -> res bytes;
  UnpackNamespaces_h : bytes -> res (list bytes);
  RollupInfoKey_h : bytes -> bytes;
  RollupRegistryKey_h : bytes;
  EpochExitsKey_h : Z -> bytes;
  ArcadiaBidKey_h : Z -> bytes;
  EpochExitID : Z;
  RollupRegisterID : Z;
  RollupRegisterComputeUnits : Z;
  EpochExitsChunks : Z;
  RollupInfoChunks : Z;
  RollupRegistryChunks : Z
}.

Definition RollupInfo_Marshal `{HActions} i := packs (RollupInfo_Marshal_op i).
Definition EpochInfo_Marshal `{HActions} i := packs (EpochInfo_Marshal_op i).
Definition EpochExitInfo_Marshal `{HActions} i := packs (EpochExitInfo_Marshal_op i).

(** The first bytes the virtual machine uses for its own keys of the state
    database (balances, height, timestamp, fee, fee market). *)
Definition seqvm_prefixes : bytes := [x00; x04; x05; x06; x0a].

Class HActionsSpec `{HActions, !CodecSpec} := {
  RollupInfo_encodable : RollupInfo -> Prop;
  EpochInfo_encodable : EpochInfo -> Prop;
  Namespace_encodable : bytes -> Prop;
  enc_RollupInfo : RollupInfo -> bytes;
  enc_EpochInfo : EpochInfo -> bytes;
  RollupInfo_wrote i p : wrote p (RollupInfo_Marshal_op i p) (enc_RollupInfo i);
  EpochInfo_wrote i p : wrote p (EpochInfo_Marshal_op i p) (enc_EpochInfo i);
  UnmarshalRollupInfo_ok i p rest :
    RollupInfo_encodable i ->
    Packer_Err p = None -> remaining p = enc_RollupInfo i ++ rest ->
    exists p', UnmarshalRollupInfo p = (p', Ok i) /\ Packer_Err p' = None /\ remaining p' = rest;
  UnmarshalEpochInfo_ok i p rest :
    EpochInfo_encodable i ->
    Packer_Err p = None -> remaining p = enc_EpochInfo i ++ rest ->
    exists p', UnmarshalEpochInfo p = (p', Ok i) /\ Packer_Err p' = None /\ remaining p' = rest;
  UnmarshalEpochExitsInfo_Marshal i n :
    Forall EpochInfo_encodable (Exits i) ->
    let w := EpochExitInfo_Marshal_op i (NewWriter n NetworkSizeLimit) in
    Packer_Err w = None ->
    snd (UnmarshalEpochExitsInfo (NewReader (Packer_Bytes w) NetworkSizeLimit)) = Ok i;
  UnpackNamespaces_Pack l b :
    Forall Namespace_encodable l -> PackNamespaces_h l = Ok b -> UnpackNamespaces_h b = Ok l;
  PackNamespaces_no_panic l : is_panic (PackNamespaces_h l) = false;
  (** the fields are coded one by one *)
  RollupInfo_encodable_ns i : RollupInfo_encodable i -> Namespace_encodable (RI_Namespace i);
  RollupInfo_encodable_epochs i j :
    RollupInfo_encodable i -> RollupInfo_encodable j ->
    RollupInfo_encodable (with_epochs i (StartEpoch j) (ExitEpoch j)) /\
    RollupInfo_encodable (with_epochs i (StartEpoch j) (ExitEpoch i));
  (** the keys of different data differ, and none is a key of the machine *)
  RollupInfoKey_inj a b : RollupInfoKey_h a = RollupInfoKey_h b -> a = b;
  EpochExitsKey_inj a b : is_u64 a -> is_u64 b -> EpochExitsKey_h a = EpochExitsKey_h b -> a = b;
  ArcadiaBidKey_inj a b : is_u64 a -> is_u64 b -> ArcadiaBidKey_h a = ArcadiaBidKey_h b -> a = b;
  RollupInfoKey_ne_registry a : RollupInfoKey_h a <> RollupRegistryKey_h;
  RollupInfoKey_ne_exits a e : RollupInfoKey_h a <> EpochExitsKey_h e;
  RollupInfoKey_ne_bid a e : RollupInfoKey_h a <> ArcadiaBidKey_h e;
  RollupRegistryKey_ne_exits e : RollupRegistryKey_h <> EpochExitsKey_h e;
  RollupRegistryKey_ne_bid e : RollupRegistryKey_h <> ArcadiaBidKey_h e;
  EpochExitsKey_ne_bid a b : EpochExitsKey_h a <> ArcadiaBidKey_h b;
  hactions_prefix k :
    (exists ns, k = RollupInfoKey_h ns) \/ k = RollupRegistryKey_h \/
    (exists e, k = EpochExitsKey_h e) \/ (exists e, k = ArcadiaBidKey_h e) ->
    exists b rest, k = b :: rest /\ b ∉ seqvm_prefixes
}.

(** The Go types of what is unpacked, whatever the input: a [uint64]; at most
    [limit] bytes when there is a limit, and never 2^32 or more, since four bytes
    carry the length. The arcadia data is unpacked field by field, so it can be
    packed again. *)
Class CodecTypes `{HActions, !CodecSpec, !HActionsSpec} : Prop := {
  UnpackUint64_u64 r p : is_u64 (snd (UnpackUint64_op r p));
  UnpackBytes_len n r p :
    Z.of_nat (length (snd (UnpackBytes_op n r p))) < 4294967296 /\
    (0 <= n -> Z.of_nat (length (snd (UnpackBytes_op n r p))) <= n);
  UnmarshalRollupInfo_typed p :
    match snd (UnmarshalRollupInfo p) with
    | Ok i => RollupInfo_encodable i
    | Err _ => True
    | Panic _ => False
    end;
  UnmarshalEpochInfo_typed p :
    match snd (UnmarshalEpochInfo p) with
    | Ok i => EpochInfo_encodable i
    | Err _ => True
    | Panic _ => False
    end
}.

(** [RollupInfo.ID] hashes the namespace; a rollup that has exited by an epoch
    has exited by any later one. *)
Class RollupInfoSpec `{HActions} := {
  rollup_id : bytes -> ID;
  RollupInfo_ID_ns i : RollupInfo_ID i = rollup_id (RI_Namespace i);
  RollupInfo_Exited_mono i e e' :
    e <= e' -> RollupInfo_Exited i e = true -> RollupInfo_Exited i e' = true
}.

(** ** Fees (hypersdk/fees): [Dimensions] is an array of unit counts. *)
Abbreviation Dimensions := (list Z).

Class Fees := {
  DimensionsLen : nat;
  Dimensions_Bytes : Dimensions -> bytes;
  UnpackDimensions : bytes -> res Dimensions
}.

Class FeesSpec `{Fees} := {
  Dimensions_wf : Dimensions -> Prop;
  length_Dimensions_Bytes d : Dimensions_wf d -> length (Dimensions_Bytes d) = DimensionsLen;
  UnpackDimensions_Bytes d : Dimensions_wf d -> UnpackDimensions (Dimensions_Bytes d) = Ok d
}.

(** ** Signatures (hypersdk/crypto) *)

Class BLSCrypto := {
  bls_PublicKey : Type;
  bls_Signature : Type;
  bls_PrivateKey : Type;
  bls_PublicKeyLen : nat;
  bls_SignatureLen : nat;
  bls_PublicKeyFromBytes : bytes -> res bls_PublicKey;
  bls_SignatureFromBytes : bytes -> res bls_Signature;
  bls_PublicKeyToBytes : bls_PublicKey -> bytes;
  bls_SignatureToBytes : bls_Signature -> bytes;
  bls_Verify : bytes -> bls_PublicKey -> bls_Signature -> bool;
  bls_Sign : bytes -> bls_PrivateKey -> bls_Signature;
  bls_PublicFromPrivateKey : bls_PrivateKey -> bls_PublicKey
}.

Class BLSCryptoSpec `{BLSCrypto} : Prop := {
  bls_PublicKeyLen_48 : bls_PublicKeyLen = 48%nat;
  bls_SignatureLen_96 : bls_SignatureLen = 96%nat;
  length_PublicKeyToBytes k : length (bls_PublicKeyToBytes k) = bls_PublicKeyLen;
  length_SignatureToBytes g : length (bls_SignatureToBytes g) = bls_SignatureLen;
  PublicKeyFromBytes_To k : bls_PublicKeyFromBytes (bls_PublicKeyToBytes k) = Ok k;
  SignatureFromBytes_To g : bls_SignatureFromBytes (bls_SignatureToBytes g) = Ok g;
  PublicKeyFromBytes_len b k :
    bls_PublicKeyFromBytes b = Ok k -> length b = bls_PublicKeyLen;
  SignatureFromBytes_len b g :
    bls_SignatureFromBytes b = Ok g -> length b = bls_SignatureLen;
  PublicKeyFromBytes_no_panic b : is_panic (bls_PublicKeyFromBytes b) = false;
  SignatureFromBytes_no_panic b : is_panic (bls_SignatureFromBytes b) = false;
  bls_Verify_Sign m k : bls_Verify m (bls_PublicFromPrivateKey k) (bls_Sign m k) = true
}.

Class ED25519Crypto := {
  ed25519_PublicKeyLen : nat;
  ed25519_SignatureLen : nat;
  ed25519_PrivateKey : Type;
  ed25519_MinBatchSize : Z;
  ed25519_Verify : bytes -> arr ed25519_PublicKeyLen -> arr ed25519_SignatureLen -> bool;
  ed25519_Sign : bytes -> ed25519_PrivateKey -> arr ed25519_SignatureLen;
  ed25519_PublicKeyOf : ed25519_PrivateKey -> arr ed25519_PublicKeyLen
}.

Class ED25519CryptoSpec `{ED25519Crypto} : Prop := {
  ed25519_MinBatchSize_pos : 0 < ed25519_MinBatchSize;
  ed25519_Verify_Sign m k : ed25519_Verify m (ed25519_PublicKeyOf k) (ed25519_Sign m k) = true
}.

Class CryptoErrors := { ErrInvalidSignature : error }.

(** hypersdk's [ed25519.Batch]: it collects signatures and verifies them
    together when the function [VerifyAsync] returned is run. *)
Class ED25519BatchOps `{ED25519Crypto} := {
  EDBatch : Type;
  NewBatch : Z -> EDBatch;
  EDBatch_Add : bytes -> arr ed25519_PublicKeyLen -> arr ed25519_SignatureLen -> EDBatch -> EDBatch;
  EDBatch_Verify : EDBatch -> bool
}.

Class ED25519BatchSpec `{ED25519BatchOps} := {
  batch_items : EDBatch -> list (bytes * arr ed25519_PublicKeyLen * arr ed25519_SignatureLen);
  batch_items_New n : batch_items (NewBatch n) = [];
  batch_items_Add m k g b : batch_items (EDBatch_Add m k g b) = batch_items b ++ [(m, k, g)];
  EDBatch_Verify_spec b :
    EDBatch_Verify b = true <->
    Forall (fun '(m, k, g) => ed25519_Verify m k g = true) (batch_items b)
}.

(** ** Type registry (hypersdk/codec.TypeParser) *)

Class TypeParsers := {
  TypeParser : Type -> Type;
  NewTypeParser {A} : TypeParser A;
  Register {A} : Z -> A -> M (TypeParser A) unit;
  LookupIndex {A} : TypeParser A -> Z -> option A
}.

(** Registering an identifier twice is an error and changes nothing. *)
Class TypeParsersSpec `{TypeParsers} : Prop := {
  NewTypeParser_lookup {A} i : LookupIndex (NewTypeParser (A := A)) i = None;
  Register_new {A} i (a : A) p : LookupIndex p i = None ->
    exists p', Register i a p = (p', Ok tt) /\
      forall j, LookupIndex p' j = if decide (j = i) then Some a else LookupIndex p j;
  Register_dup {A} i (a : A) p : LookupIndex p i <> None ->
    exists e, Register i a p = (p, Err e)
}.
