(* ===== verification/Sample.v ===== *)
(** * Sample: one instance of the packages outside the repository

    A small byte-level implementation of the classes of [HyperSDK]: it shows
    that the documented behaviour is consistent, and it is what the closed
    examples of the other files run on. Nothing in it describes the code of
    hypersdk or avalanchego. *)

From stdpp Require Import base numbers countable gmap list strings.
From Stdlib Require Import ZArith Lia Strings.Byte Strings.Ascii.
From S2P Require Import Prelude HyperSDK.

Local Open Scope Z_scope.

(** The instances are exported by the module: a file sees them once it
    imports [Sample.Instances]. *)
Module Instances.

#[export] Instance s_consts : HyperConsts := {|
AddressLen := 33; IDLen := 32; Uint16Len := 2; Uint64Len := 8; IntLen := 4;
MillisecondsPerSecond := 1000; NetworkSizeLimit := 2097152; MaxNamespaceLen := 32
|}.

#[export] Instance s_consts_spec : HyperConstsSpec.
Proof. done. Qed.

#[export] Instance s_math : SafeMath := {|
ErrOverflow := ErrNew "overflow"; ErrUnderflow := ErrNew "underflow";
Add64 a b := if a + b <? u64_mod then Ok (a + b) else Err (ErrNew "overflow");
Sub64 a b := if b <=? a then Ok (a - b) else Err (ErrNew "underflow")
|}.

#[export] Instance s_math_spec : SafeMathSpec.
Proof. done. Qed.

#[export] Instance s_dberrors : DatabaseErrors := {|
ErrNotFound := ErrNew "not found";
ErrInvalidKeyOrPermission := ErrNew "invalid key or key permission"
|}.

#[export] Instance s_dberrors_spec : DatabaseErrorsSpec.
Proof. split; [by eexists | done]. Qed.

(** read, allocate, write *)
#[export] Instance s_perms : StatePermissions := {|
Permissions := bool * bool * bool;
Read := (true, false, false);
Allocate := (true, true, false);
Write := (true, false, true);
All := (true, true, true);
perm_or p q := (p.1.1 || q.1.1, p.1.2 || q.1.2, p.2 || q.2);
perm_Has p q := implb q.1.1 p.1.1 && implb q.1.2 p.1.2 && implb q.2 p.2
|}.

#[export] Instance s_perms_spec : StatePermissionsSpec.
Proof.
split.
- by intros [[[] []] []].
- by intros [[[] []] []].
- by intros [[[] []] []] [[[] []] []] [[[] []] []].
- by intros [[[] []] []] [[[] []] []] [[[] []] []].
Qed.

(** *** State *)

Record store := Store {
st_view : gmap bytes bytes;
st_scope : bytes -> bool * bool * bool
}.

Definition key_chunks (k : bytes) : Z := be_dec (drop (length k - 2) k).
Definition fits (k v : bytes) : bool := Z.of_nat (length v) <=? 64 * key_chunks k.

Definition store_insert_ok (s : store) (k v : bytes) : bool :=
fits k v &&
match st_view s !! k with
| Some _ => perm_Has (st_scope s k) Write
| None => perm_Has (st_scope s k) Allocate
end.

#[export] Instance s_immutable : Immutable store := fun s k =>
if perm_Has (st_scope s k) Read then
  match st_view s !! k with Some v => Ok v | None => Err ErrNotFound end
else Err ErrInvalidKeyOrPermission.

#[export] Instance s_mutable : Mutable store := {|
Insert k v s :=
  if store_insert_ok s k v
  then (Store (<[k := v]> (st_view s)) (st_scope s), Ok tt)
  else (s, Err ErrInvalidKeyOrPermission);
Remove k s :=
  if perm_Has (st_scope s k) Write
  then (Store (delete k (st_view s)) (st_scope s), Ok tt)
  else (s, Err ErrInvalidKeyOrPermission)
|}.

Lemma fits_chunks p c v :
0 <= c < 65536 -> Z.of_nat (length v) <= 64 * c -> fits (p ++ be_enc 2 c) v = true.
Proof.
intros Hc Hv. apply Z.leb_le. unfold key_chunks.
rewrite length_app, length_be_enc.
replace (length p + 2 - 2)%nat with (length p) by lia.
rewrite drop_app_length, be_dec_enc_small; [done|].
by change (256 ^ Z.of_nat 2) with 65536.
Qed.

#[export] Instance s_mutable_spec : MutableSpec store.
Proof.
refine {| view := st_view; scope := st_scope; ValueFits := fits |}.
- done.
- intros s k v H. unfold wp. cbn -[store_insert_ok].
  change (store_insert_ok s k v = true) in H. by rewrite H.
- intros s k v H. unfold wp. cbn -[store_insert_ok].
  change (store_insert_ok s k v = false) in H. rewrite H. simpl. eauto.
- intros s k H. unfold wp. cbn in H |- *. by rewrite H.
- intros s k H. unfold wp. cbn in H |- *. rewrite H. simpl. eauto.
- apply fits_chunks.
Defined.

#[export] Instance s_dbw : KeyValueWriter (gmap bytes bytes) := {| Put k v d := (<[k := v]> d, Ok tt) |}.
#[export] Instance s_dbr : KeyValueReader (gmap bytes bytes) := {|
Get d k := match d !! k with Some v => Ok v | None => Err ErrNotFound end
|}.

#[export] Instance s_db_spec : KeyValueDBSpec (gmap bytes bytes).
Proof.
split.
- intros d k v d' [= <-]. simpl. by rewrite lookup_insert_eq.
- intros d k k' v d' [= <-] Hne. simpl. by rewrite lookup_insert_ne.
Qed.

#[export] Instance s_batchw : KeyValueWriter (list (bytes * bytes)) := {|
Put k v b := (b ++ [(k, v)], Ok tt)
|}.
#[export] Instance s_batching : Batching (gmap bytes bytes) (list (bytes * bytes)) := {|
NewBatch_db := [];
Batch_Write b d := (foldl (fun d kv => <[kv.1 := kv.2]> d) d b, Ok tt)
|}.

#[export] Instance s_batching_spec : BatchingSpec (gmap bytes bytes) (list (bytes * bytes)).
Proof.
refine {| batch_ops := fun b : list (bytes * bytes) => b |}; try done.
- by intros b b' k v u [= <- _].
- intros b d d' u k [= <- _]. cbn [Get s_dbr].
  induction b as [|[k' v] b IH] using rev_ind; [done|].
  unfold last_write in *. rewrite foldl_app, filter_app, filter_cons, filter_nil. simpl.
  destruct (decide (k' = k)) as [->|Hne].
  + by rewrite lookup_insert_eq, last_snoc.
  + by rewrite lookup_insert_ne, app_nil_r.
Defined.

(** *** Packer *)

Record packer := MkPacker {
pk_out : bytes;
pk_in : bytes;
pk_limit : Z;
pk_err : option error
}.

Definition pk_fail (p : packer) : packer :=
MkPacker (pk_out p) (pk_in p) (pk_limit p) (Some (ErrNew "packer")).

Definition pk_put (e : bytes) (p : packer) : packer :=
match pk_err p with
| Some _ => p
| None =>
    if Z.of_nat (length (pk_out p) + length e) <=? pk_limit p
    then MkPacker (pk_out p ++ e) (pk_in p) (pk_limit p) None
    else pk_fail p
end.

(** Read [n] bytes. *)
Definition pk_take (n : nat) (p : packer) : packer * bytes :=
match pk_err p with
| Some _ => (p, zeros n)
| None =>
    if (n <=? length (pk_in p))%nat
    then (MkPacker (pk_out p) (drop n (pk_in p)) (pk_limit p) None, take n (pk_in p))
    else (pk_fail p, zeros n)
end.

Definition pk_require (b : bool) (p : packer) : packer :=
if b then p else pk_fail p.

Definition pk_take_num (n : nat) (req : bool) (p : packer) : packer * Z :=
let '(p', l) := pk_take n p in
let v := be_dec l in
(pk_require (negb (req && (v =? 0))) p', v).

Definition pk_take_bytes (lim : Z) (req : bool) (p : packer) : packer * bytes :=
let '(p1, n) := pk_take_num 4 false p in
if (0 <=? lim) && (lim <? n) then (pk_fail p1, [])
else if Z.of_nat (length (pk_in p1)) <? n then (pk_fail p1, [])
else
let '(p2, b) := pk_take (Z.to_nat n) p1 in
(pk_require (negb (req && bool_decide (b = []))) p2, b).

Definition s_enc_bytes (b : bytes) : bytes := be_enc 4 (Z.of_nat (length b)) ++ b.

Fixpoint string_bytes (s : string) : bytes :=
match s with
| EmptyString => []
| String a s => Ascii.byte_of_ascii a :: string_bytes s
end.

#[export] Instance s_codec : Codec := {|
Packer := packer;
NewWriter _ l := MkPacker [] [] l None;
NewReader b l := MkPacker [] b l None;
Packer_Err := pk_err;
Packer_Bytes := pk_out;
PackUint64_op n := pk_put (be_enc 8 n);
PackInt_op n := pk_put (be_enc 4 n);
PackBytes_op b := pk_put (s_enc_bytes b);
PackFixedBytes_op b := pk_put b;
PackAddress_op a := pk_put (arr_list a);
UnpackUint64_op := pk_take_num 8;
UnpackInt_op := pk_take_num 4;
UnpackBytes_op := pk_take_bytes;
UnpackFixedBytes_op := pk_take;
UnpackAddress_op p := let '(p', l) := pk_take 33 p in (p', arr_of 33 l);
BytesLen b := 4 + Z.of_nat (length b);
EmptyAddress := arr_zero 33;
ToAddress b :=
  if (length b =? 33)%nat then (arr_of 33 b, None)
  else (arr_zero 33, Some (ErrNew "address length"));
CreateAddress t i := arr_of 33 (byte_of_Z t :: arr_list i);
ParseAddressBech32 _ s := Ok (arr_of 33 (string_bytes s));
ToID b := arr_of 32 b
|}.

Lemma pk_put_wrote e (p : packer) :
pk_err (pk_put e p) = None ->
pk_err p = None /\ pk_out (pk_put e p) = pk_out p ++ e.
Proof.
unfold pk_put. destruct (pk_err p) eqn:E; [congruence|].
by destruct (_ <=? _).
Qed.

Lemma pk_take_ok b (p : packer) rest :
pk_err p = None -> pk_in p = b ++ rest ->
pk_take (length b) p = (MkPacker (pk_out p) rest (pk_limit p) None, b).
Proof.
intros He Hi. unfold pk_take. rewrite He, Hi, length_app.
rewrite (proj2 (Nat.leb_le _ _)) by lia.
by rewrite drop_app_length, take_app_length.
Qed.

Lemma pk_take_num_ok n req v (p : packer) rest :
0 <= v < 256 ^ Z.of_nat n -> (req = true -> v <> 0) ->
pk_err p = None -> pk_in p = be_enc n v ++ rest ->
pk_take_num n req p = (MkPacker (pk_out p) rest (pk_limit p) None, v).
Proof.
intros Hv Hreq He Hi. unfold pk_take_num.
pose proof (pk_take_ok (be_enc n v) p rest He Hi) as Ht.
rewrite length_be_enc in Ht. rewrite Ht, be_dec_enc_small by done.
destruct req; simpl; [|done].
by rewrite (proj2 (Z.eqb_neq v 0)) by auto.
Qed.

Lemma pk_take_bytes_ok lim req b (p : packer) rest :
Z.of_nat (length b) < 4294967296 ->
lim < 0 \/ Z.of_nat (length b) <= lim -> (req = true -> b <> []) ->
pk_err p = None -> pk_in p = s_enc_bytes b ++ rest ->
pk_take_bytes lim req p = (MkPacker (pk_out p) rest (pk_limit p) None, b).
Proof.
intros Hb Hlim Hreq He Hi. unfold pk_take_bytes.
unfold s_enc_bytes in Hi. rewrite <- app_assoc in Hi.
rewrite (pk_take_num_ok 4 false (Z.of_nat (length b)) p (b ++ rest));
  [|change (256 ^ Z.of_nat 4) with 4294967296; lia|done|done|done].
replace ((0 <=? lim) && (lim <? Z.of_nat (length b))) with false
  by (symmetry; apply andb_false_iff; destruct Hlim; [left|right]; lia).
cbn [pk_in]. rewrite length_app.
rewrite (proj2 (Z.ltb_ge _ _)) by lia.
rewrite Nat2Z.id, (pk_take_ok b _ rest) by done. cbn [pk_out pk_limit].
destruct req; simpl; [|done].
rewrite bool_decide_eq_false_2 by auto. done.
Qed.

Lemma pk_take_sticky n (p : packer) :
pk_err p <> None -> pk_take n p = (p, zeros n).
Proof. unfold pk_take. by destruct (pk_err p). Qed.

Lemma pk_require_sticky b (p : packer) :
pk_err p <> None -> pk_err (pk_require b p) <> None.
Proof. by destruct b. Qed.

Lemma pk_take_num_sticky n r (p : packer) :
pk_err p <> None -> pk_err (fst (pk_take_num n r p)) <> None.
Proof.
intros H. unfold pk_take_num. rewrite pk_take_sticky by done.
by apply pk_require_sticky.
Qed.

Lemma pk_take_bytes_sticky l r (p : packer) :
pk_err p <> None -> pk_err (fst (pk_take_bytes l r p)) <> None.
Proof.
intros H. unfold pk_take_bytes.
pose proof (pk_take_num_sticky 4 false p H) as H1.
destruct (pk_take_num 4 false p) as [p1 n]. cbn [fst] in H1.
destruct (_ && _); [done|]. destruct (_ <? _); [done|].
rewrite pk_take_sticky by done. by apply pk_require_sticky.
Qed.

#[export] Instance s_codec_spec : CodecSpec.
Proof.
refine {| enc_u64 := be_enc 8; enc_int := be_enc 4; enc_bytes := s_enc_bytes;
          remaining := pk_in |}.
all: try (intros; apply pk_put_wrote; assumption).
all: try done.
- intros req n p rest Hn Hreq He Hi. eexists. split; [by apply pk_take_num_ok|done].
- intros p rest He Hi. cbn -[pk_take_num]. unfold pk_take_num.
  pose proof (pk_take_ok (be_enc 8 0) p rest He Hi) as Ht.
  rewrite length_be_enc in Ht. by rewrite Ht.
- intros req n p rest Hn Hreq He Hi. eexists.
  split; [apply pk_take_num_ok; try done|done].
  change (256 ^ Z.of_nat 4) with 4294967296. lia.
- intros lim req b p rest Hb Hl Hreq He Hi. eexists.
  split; [by apply pk_take_bytes_ok|done].
- intros n b p rest <- He Hi. eexists. split; [by apply pk_take_ok|done].
- intros a p rest _ He Hi. eexists. cbn -[pk_take].
  pose proof (pk_take_ok (arr_list a) p rest He Hi) as Ht.
  rewrite length_arr in Ht. cbn [AddressLen s_consts] in Ht. rewrite Ht.
  split; [f_equal; apply arr_of_arr|done].
- intros p H. repeat split; intros.
  + by apply pk_take_num_sticky.
  + by apply pk_take_num_sticky.
  + by apply pk_take_bytes_sticky.
  + cbn -[pk_take]. by rewrite pk_take_sticky.
  + cbn -[pk_take]. by rewrite pk_take_sticky.
- intros a. cbn. pose proof (length_arr a) as Ha. cbn in Ha. rewrite Ha. cbn.
  f_equal. apply arr_of_arr.
Defined.

(** *** Arcadia data *)

Definition s_enc_RollupInfo (i : RollupInfo) : bytes :=
arr_list (FeeRecipient i) ++ s_enc_bytes (RI_Namespace i) ++
arr_list (AuthoritySEQAddress i) ++ s_enc_bytes (SequencerPublicKey i) ++
be_enc 8 (StartEpoch i) ++ be_enc 8 (ExitEpoch i).

Definition s_enc_EpochInfo (i : EpochInfo) : bytes :=
be_enc 8 (EI_Epoch i) ++ s_enc_bytes (EI_Namespace i).

(** A list is coded element by element, [x01] before each, [x00] at the end. *)
Fixpoint s_enc_list (l : list bytes) : bytes :=
match l with
| [] => [x00]
| b :: l => x01 :: s_enc_bytes b ++ s_enc_list l
end.

(** Any bytes the elements do not fill decode with enough fuel. *)
Fixpoint s_dec_list (fuel : nat) : M Packer (list bytes) :=
match fuel with
| O => throw (ErrNew "list")
| S fuel =>
    t ← UnpackFixedBytes 1;
    if bool_decide (t = [x01]) then
      b ← UnpackBytes (-1) false;
      l ← s_dec_list fuel;
      mret (b :: l)
    else mret []
end.

Definition s_UnmarshalRollupInfo : M Packer RollupInfo :=
fee ← UnpackFixedBytes 33;
ns ← UnpackBytes (-1) false;
auth ← UnpackFixedBytes 33;
pk ← UnpackBytes (-1) false;
st ← UnpackUint64 false;
ex ← UnpackUint64 false;
ret_Err {| FeeRecipient := arr_of 33 fee; RI_Namespace := ns;
           AuthoritySEQAddress := arr_of 33 auth; SequencerPublicKey := pk;
           StartEpoch := st; ExitEpoch := ex |}.

(** Refuses a namespace an [EpochInfo] of 2^32 bytes would have. *)
Definition s_UnmarshalEpochInfo : M Packer EpochInfo :=
e ← UnpackUint64 false;
ns ← UnpackBytes 4294967283 false;
ret_Err {| EI_Epoch := e; EI_Namespace := ns |}.

Definition s_decode_EpochInfo (b : bytes) : res EpochInfo :=
snd (s_UnmarshalEpochInfo (NewReader b 2097152)).

Fixpoint s_decode_all (l : list bytes) : res (list EpochInfo) :=
match l with
| [] => Ok []
| b :: l => i ← s_decode_EpochInfo b; r ← s_decode_all l; Ok (i :: r)
end.

Definition s_UnmarshalEpochExitsInfo : M Packer EpochExitInfo := fun p =>
(l ← s_dec_list (length (pk_in p)); r ← lift (s_decode_all l); ret_Err {| Exits := r |}) p.

Definition s_short (b : bytes) : bool := Z.of_nat (length b) <? 4294967296.

(** Refuses what four length bytes cannot carry. *)
Definition s_list_put (l : list bytes) (p : packer) : packer :=
if forallb s_short l then pk_put (s_enc_list l) p else pk_fail p.

#[export] Instance s_hactions : HActions := {|
RollupInfo_Size i := Z.of_nat (length (s_enc_RollupInfo i));
RollupInfo_Marshal_op i := pk_put (s_enc_RollupInfo i);
UnmarshalRollupInfo := s_UnmarshalRollupInfo;
RollupInfo_ID i := ToID (RI_Namespace i);
RollupInfo_ValidAtEpoch i e :=
  (StartEpoch i <=? e) && ((ExitEpoch i =? 0) || (e <? ExitEpoch i));
RollupInfo_Exited i e := negb (ExitEpoch i =? 0) && (ExitEpoch i <=? e);
EpochInfo_Size i := Z.of_nat (length (s_enc_EpochInfo i));
EpochInfo_Marshal_op i := pk_put (s_enc_EpochInfo i);
UnmarshalEpochInfo := s_UnmarshalEpochInfo;
EpochExitInfo_Marshal_op i := s_list_put (map s_enc_EpochInfo (Exits i));
UnmarshalEpochExitsInfo := s_UnmarshalEpochExitsInfo;
PackNamespaces_h l :=
  if forallb s_short l then Ok (s_enc_list l) else Err (ErrNew "namespaces");
UnpackNamespaces_h b := snd (s_dec_list (length b) (NewReader b 2097152));
RollupInfoKey_h ns := xf0 :: ns ++ be_enc 2 8;
RollupRegistryKey_h := xf1 :: be_enc 2 64;
EpochExitsKey_h e := xf2 :: be_enc 8 e ++ be_enc 2 64;
ArcadiaBidKey_h e := xf3 :: be_enc 8 e ++ be_enc 2 3;
EpochExitID := 3; RollupRegisterID := 4; RollupRegisterComputeUnits := 10;
EpochExitsChunks := 64; RollupInfoChunks := 8; RollupRegistryChunks := 64
|}.

Abbreviation at_in p r := (MkPacker (pk_out p) r (pk_limit p) None).

Lemma run_fixed n b (p : packer) rest :
length b = n -> pk_err p = None -> pk_in p = b ++ rest ->
UnpackFixedBytes n p = (at_in p rest, Ok b).
Proof.
intros <- He Hi. unfold UnpackFixedBytes, unpacks. cbn -[pk_take].
by rewrite (pk_take_ok b p rest).
Qed.

Lemma run_u64 v (p : packer) rest :
is_u64 v -> pk_err p = None -> pk_in p = be_enc 8 v ++ rest ->
UnpackUint64 false p = (at_in p rest, Ok v).
Proof.
intros Hv He Hi. unfold UnpackUint64, unpacks. cbn -[pk_take_num be_enc].
by rewrite (pk_take_num_ok 8 false v p rest).
Qed.

Lemma run_bytes b (p : packer) rest :
Z.of_nat (length b) < 4294967296 -> pk_err p = None -> pk_in p = s_enc_bytes b ++ rest ->
UnpackBytes (-1) false p = (at_in p rest, Ok b).
Proof.
intros Hv He Hi. unfold UnpackBytes, unpacks. cbn -[pk_take_bytes].
rewrite (pk_take_bytes_ok (-1) false b p rest); [done|done|lia|done|done|done].
Qed.

Lemma run_limited n b (p : packer) rest :
Z.of_nat (length b) <= n < 4294967296 -> pk_err p = None -> pk_in p = s_enc_bytes b ++ rest ->
UnpackBytes n false p = (at_in p rest, Ok b).
Proof.
intros Hv He Hi. unfold UnpackBytes, unpacks. cbn -[pk_take_bytes].
rewrite (pk_take_bytes_ok n false b p rest); [done|lia|lia|done|done|done].
Qed.

Lemma s_short_spec b : s_short b = true <-> Z.of_nat (length b) < 4294967296.
Proof. apply Z.ltb_lt. Qed.

Lemma s_dec_list_ok l (p : packer) rest fuel :
Forall (fun b => s_short b = true) l -> (length (s_enc_list l) <= fuel)%nat ->
pk_err p = None -> pk_in p = s_enc_list l ++ rest ->
s_dec_list fuel p = (at_in p rest, Ok l).
Proof.
intros Hl. revert p fuel. induction Hl as [|b l Hb Hl IH]; intros p fuel Hf He Hi.
- destruct fuel as [|fuel]; [simpl in Hf; lia|]. cbn [s_dec_list].
  by rewrite (bind_run _ _ _ _ _ (run_fixed 1 [x00] p rest eq_refl He Hi)).
- destruct fuel as [|fuel]; [simpl in Hf; lia|]. cbn [s_dec_list].
  cbn [s_enc_list] in Hf, Hi. simpl in Hf. rewrite length_app in Hf.
  cbn [app] in Hi. rewrite <- app_assoc in Hi.
  rewrite (bind_run _ _ _ _ _ (run_fixed 1 [x01] p _ eq_refl He Hi)).
  rewrite bool_decide_eq_true_2 by done.
  apply s_short_spec in Hb.
  rewrite (bind_run _ _ _ _ _ (run_bytes b (at_in p _) _ Hb eq_refl eq_refl)).
  by rewrite (bind_run _ _ _ _ _ (IH (at_in (at_in p _) _) fuel ltac:(lia) eq_refl eq_refl)).
Qed.

Definition s_RollupInfo_encodable (i : RollupInfo) : Prop :=
s_short (RI_Namespace i) = true /\ s_short (SequencerPublicKey i) = true /\
is_u64 (StartEpoch i) /\ is_u64 (ExitEpoch i).

Definition s_EpochInfo_encodable (i : EpochInfo) : Prop :=
s_short (EI_Namespace i) = true /\ s_short (s_enc_EpochInfo i) = true /\
is_u64 (EI_Epoch i).

Lemma s_UnmarshalRollupInfo_ok i (p : packer) rest :
s_RollupInfo_encodable i -> pk_err p = None -> pk_in p = s_enc_RollupInfo i ++ rest ->
s_UnmarshalRollupInfo p = (at_in p rest, Ok i).
Proof.
intros (Hns%s_short_spec & Hpk%s_short_spec & Hst & Hex) He Hi.
unfold s_enc_RollupInfo in Hi. rewrite <- !app_assoc in Hi.
unfold s_UnmarshalRollupInfo.
rewrite (bind_run _ _ _ _ _ (run_fixed 33 _ p _ (length_arr _) He Hi)).
rewrite (bind_run _ _ _ _ _ (run_bytes _ (at_in p _) _ Hns eq_refl eq_refl)).
rewrite (bind_run _ _ _ _ _ (run_fixed 33 _ (at_in p _) _ (length_arr _) eq_refl eq_refl)).
rewrite (bind_run _ _ _ _ _ (run_bytes _ (at_in p _) _ Hpk eq_refl eq_refl)).
rewrite (bind_run _ _ _ _ _ (run_u64 _ (at_in p _) _ Hst eq_refl eq_refl)).
rewrite (bind_run _ _ _ _ _ (run_u64 _ (at_in p _) _ Hex eq_refl eq_refl)).
unfold ret_Err. simpl. f_equal. f_equal.
destruct i as [a ns b pk st ex]; simpl.
f_equal; apply (@arr_of_arr 33).
Qed.

Lemma s_UnmarshalEpochInfo_ok i (p : packer) rest :
s_EpochInfo_encodable i -> pk_err p = None -> pk_in p = s_enc_EpochInfo i ++ rest ->
s_UnmarshalEpochInfo p = (at_in p rest, Ok i).
Proof.
intros (_ & Hns%s_short_spec & Hep) He Hi.
unfold s_enc_EpochInfo, s_enc_bytes in Hns. rewrite !length_app, !length_be_enc in Hns.
unfold s_enc_EpochInfo in Hi. rewrite <- !app_assoc in Hi.
unfold s_UnmarshalEpochInfo.
rewrite (bind_run _ _ _ _ _ (run_u64 _ p _ Hep He Hi)).
rewrite (bind_run _ _ _ _ _ (run_limited 4294967283 (EI_Namespace i) (at_in p _) _ ltac:(lia) eq_refl eq_refl)).
by destruct i.
Qed.

Lemma s_decode_all_ok l :
Forall s_EpochInfo_encodable l -> s_decode_all (map s_enc_EpochInfo l) = Ok l.
Proof.
induction 1 as [|i l Hi Hl IH]; [done|]. cbn [map s_decode_all].
unfold s_decode_EpochInfo. rewrite (s_UnmarshalEpochInfo_ok i _ []); [|done|done|].
- simpl. by rewrite IH.
- simpl. by rewrite app_nil_r.
Qed.

Lemma s_list_put_ok l (p : packer) :
pk_err (s_list_put l p) = None ->
Forall (fun b => s_short b = true) l /\ pk_out (s_list_put l p) = pk_out p ++ s_enc_list l.
Proof.
unfold s_list_put. destruct (forallb s_short l) eqn:E; [|done].
intros H. split; [|by apply pk_put_wrote].
apply Forall_forall. intros b Hb%list_elem_of_In.
by apply (proj1 (forallb_forall _ _) E).
Qed.

Lemma be_enc_app_inj (a b s : Z) n :
0 <= a < 256 ^ Z.of_nat n -> 0 <= b < 256 ^ Z.of_nat n ->
be_enc n a ++ be_enc 2 s = be_enc n b ++ be_enc 2 s -> a = b.
Proof. intros Ha Hb H%app_inv_tail. by eapply be_enc_inj. Qed.

#[export] Instance s_hactions_spec : HActionsSpec.
Proof.
refine {| RollupInfo_encodable := s_RollupInfo_encodable;
          EpochInfo_encodable := s_EpochInfo_encodable;
          Namespace_encodable := fun b => s_short b = true;
          enc_RollupInfo := s_enc_RollupInfo; enc_EpochInfo := s_enc_EpochInfo |}.
- intros i p H. by apply pk_put_wrote.
- intros i p H. by apply pk_put_wrote.
- intros i p rest Hi He Hp. eexists. split; [by apply s_UnmarshalRollupInfo_ok|done].
- intros i p rest Hi He Hp. eexists. split; [by apply s_UnmarshalEpochInfo_ok|done].
- intros [l] n Hl w [Hs Hw]%s_list_put_ok. cbn in Hl, Hw. subst w.
  cbn -[s_list_put]. rewrite Hw. unfold s_UnmarshalEpochExitsInfo.
  assert (s_dec_list (length (s_enc_list (map s_enc_EpochInfo l)))
            (MkPacker [] (s_enc_list (map s_enc_EpochInfo l)) 2097152 None) =
          (MkPacker [] [] 2097152 None, Ok (map s_enc_EpochInfo l))) as Hd.
  { apply (s_dec_list_ok _ (MkPacker [] _ _ _) []); auto. simpl. by rewrite app_nil_r. }
  rewrite (bind_run _ _ _ _ _ Hd).
  unfold mbind, M_bind, lift. by rewrite s_decode_all_ok.
- intros l b Hl. cbn -[s_enc_list s_dec_list]. destruct (forallb _ _); [|done].
  intros [= <-].
  rewrite (s_dec_list_ok l _ []); auto. simpl. by rewrite app_nil_r.
- intros l. cbn. by destruct (forallb _ _).
- by intros i (? & ? & ?).
- intros i j (? & ? & ? & ?) (? & ? & ? & ?). done.
- intros a b [= H%app_inv_tail]. done.
- intros a b Ha Hb H. apply (f_equal tail) in H. exact (be_enc_app_inj a b 64 8 Ha Hb H).
- intros a b Ha Hb H. apply (f_equal tail) in H. exact (be_enc_app_inj a b 3 8 Ha Hb H).
- done.
- done.
- done.
- done.
- done.
- done.
- intros k [[? ->]|[->|[[? ->]|[? ->]]]]; do 2 eexists; (split; [reflexivity|]);
    intros Hin%list_elem_of_In; simpl in Hin; intuition discriminate.
Defined.

Lemma pk_take_length n (p : packer) : length (snd (pk_take n p)) = n.
Proof.
unfold pk_take. unfold zeros. destruct (pk_err p); [apply length_replicate|].
destruct (Nat.leb_spec n (length (pk_in p))); [|apply length_replicate].
cbn [snd]. rewrite length_take. lia.
Qed.

Lemma pk_take_num_range n r (p : packer) : 0 <= snd (pk_take_num n r p) < 256 ^ Z.of_nat n.
Proof.
unfold pk_take_num. pose proof (pk_take_length n p) as Hl.
destruct (pk_take n p) as [p' l]. cbn [snd] in *. rewrite <- Hl. apply be_dec_bound.
Qed.

Lemma pk_take_bytes_len lim r (p : packer) :
let b := snd (pk_take_bytes lim r p) in
Z.of_nat (length b) < 4294967296 /\ (0 <= lim -> Z.of_nat (length b) <= lim).
Proof.
intros b. unfold b, pk_take_bytes. pose proof (pk_take_num_range 4 false p) as Hn.
destruct (pk_take_num 4 false p) as [p1 n]. cbn [snd] in Hn.
destruct ((0 <=? lim) && (lim <? n)) eqn:El; [cbn; lia|].
destruct (Z.of_nat (length (pk_in p1)) <? n); [cbn; lia|].
pose proof (pk_take_length (Z.to_nat n) p1) as Hl.
destruct (pk_take (Z.to_nat n) p1) as [p2 l]. cbn [snd] in *. rewrite Hl.
change (256 ^ Z.of_nat 4) with 4294967296 in Hn. split; [lia|]. intros H0. lia.
Qed.

#[export] Instance s_codec_types : CodecTypes.
Proof.
split.
- intros r p. exact (pk_take_num_range 8 r p).
- intros n r p. apply pk_take_bytes_len.
- intros p. cbn [UnmarshalRollupInfo s_hactions]. unfold s_UnmarshalRollupInfo, mbind, M_bind, UnpackFixedBytes,
    UnpackBytes, UnpackUint64, unpacks, UnpackFixedBytes_op, UnpackBytes_op, UnpackUint64_op, s_codec.
  destruct (pk_take 33 p) as [p1 fee]. pose proof (pk_take_bytes_len (-1) false p1) as [H2 _].
  destruct (pk_take_bytes (-1) false p1) as [p2 ns]. destruct (pk_take 33 p2) as [p3 auth].
  pose proof (pk_take_bytes_len (-1) false p3) as [H4 _]. destruct (pk_take_bytes (-1) false p3) as [p4 pk].
  pose proof (pk_take_num_range 8 false p4) as H5. destruct (pk_take_num 8 false p4) as [p5 st].
  pose proof (pk_take_num_range 8 false p5) as H6. destruct (pk_take_num 8 false p5) as [p6 ex].
  cbn [snd] in *. unfold ret_Err. cbn [Packer_Err s_codec]. destruct (pk_err p6); [done|].
  split; [by apply s_short_spec|]. split; [by apply s_short_spec|]. by split.
- intros p. cbn [UnmarshalEpochInfo s_hactions]. unfold s_UnmarshalEpochInfo, mbind, M_bind,
    UnpackBytes, UnpackUint64, unpacks, UnpackBytes_op, UnpackUint64_op, s_codec.
  pose proof (pk_take_num_range 8 false p) as H1. destruct (pk_take_num 8 false p) as [p1 e].
  pose proof (pk_take_bytes_len 4294967283 false p1) as [H2 H3].
  destruct (pk_take_bytes 4294967283 false p1) as [p2 ns].
  cbn [snd] in *. unfold ret_Err. cbn [Packer_Err s_codec]. destruct (pk_err p2); [done|].
  split; [by apply s_short_spec|]. split; [|done]. apply s_short_spec.
  unfold s_enc_EpochInfo, s_enc_bytes. rewrite !length_app, !length_be_enc. cbn [EI_Epoch EI_Namespace]. lia.
Qed.

#[export] Instance s_rollup_info_spec : RollupInfoSpec.
Proof.
refine {| rollup_id := ToID |}; [done|].
intros i e e' Hle. cbn. rewrite !andb_true_iff, !negb_true_iff, !Z.leb_le, !Z.eqb_neq. lia.
Defined.

(** *** Fees and signatures *)

#[export] Instance s_fees : Fees := {|
DimensionsLen := 40;
Dimensions_Bytes d := concat (map (be_enc 8) d);
UnpackDimensions b :=
  Ok [be_dec (take 8 b); be_dec (take 8 (drop 8 b)); be_dec (take 8 (drop 16 b));
      be_dec (take 8 (drop 24 b)); be_dec (take 8 (drop 32 b))]
|}.

Lemma take_be (a : Z) l : take 8 (be_enc 8 a ++ l) = be_enc 8 a.
Proof. apply take_app_length'. by rewrite length_be_enc. Qed.

Lemma drop_be n (a : Z) l : (8 <= n)%nat -> drop n (be_enc 8 a ++ l) = drop (n - 8) l.
Proof. intros. rewrite drop_app_ge; by rewrite length_be_enc. Qed.

#[export] Instance s_fees_spec : FeesSpec.
Proof.
refine {| Dimensions_wf d := length d = 5%nat /\ Forall is_u64 d |}.
- intros d [Hl _]. cbn -[be_enc]. clear -Hl.
  destruct d as [|a [|b [|c [|d [|e [|]]]]]]; try discriminate.
  cbn -[be_enc]. by rewrite !length_app, !length_be_enc.
- intros d [Hl Hu].
  destruct d as [|a [|b [|c [|d [|e [|]]]]]]; try discriminate.
  repeat (apply Forall_cons in Hu as [? Hu]).
  cbn [UnpackDimensions Dimensions_Bytes s_fees map concat].
  rewrite (drop_be 8 a), (drop_be 16 a), (drop_be 24 a), (drop_be 32 a) by lia.
  cbn [Nat.sub]. rewrite drop_0, (drop_be 8 b), (drop_be 16 b), (drop_be 24 b) by lia.
  cbn [Nat.sub]. rewrite drop_0, (drop_be 8 c), (drop_be 16 c) by lia.
  cbn [Nat.sub]. rewrite drop_0, (drop_be 8 d) by lia.
  cbn [Nat.sub]. rewrite drop_0, !take_be, !is_u64_be by done. done.
Defined.

#[export] Instance s_bls : BLSCrypto := {|
bls_PublicKey := arr 48; bls_Signature := arr 96; bls_PrivateKey := arr 48;
bls_PublicKeyLen := 48; bls_SignatureLen := 96;
bls_PublicKeyFromBytes b :=
  if (length b =? 48)%nat then Ok (arr_of 48 b) else Err (ErrNew "invalid public key");
bls_SignatureFromBytes b :=
  if (length b =? 96)%nat then Ok (arr_of 96 b) else Err (ErrNew "invalid signature");
bls_PublicKeyToBytes := arr_list;
bls_SignatureToBytes := arr_list;
bls_Verify m k g := bool_decide (g = arr_of 96 (be_enc 8 (Z.of_nat (length m)) ++ arr_list k ++ m));
bls_Sign m k := arr_of 96 (be_enc 8 (Z.of_nat (length m)) ++ arr_list k ++ m);
bls_PublicFromPrivateKey k := k
|}.

#[export] Instance s_bls_spec : BLSCryptoSpec.
Proof.
split; try done.
- intros k. apply length_arr.
- intros g. apply length_arr.
- intros k. cbn. rewrite length_arr. cbn. by rewrite (@arr_of_arr 48).
- intros g. cbn. rewrite length_arr. cbn. by rewrite (@arr_of_arr 96).
- intros b k. cbn. destruct (Nat.eqb_spec (length b) 48); done.
- intros b g. cbn. destruct (Nat.eqb_spec (length b) 96); done.
- intros b. cbn. by destruct (_ =? _)%nat.
- intros b. cbn. by destruct (_ =? _)%nat.
- intros m k. by apply bool_decide_eq_true_2.
Qed.

#[export] Instance s_ed25519 : ED25519Crypto := {|
ed25519_PublicKeyLen := 32; ed25519_SignatureLen := 64;
ed25519_PrivateKey := arr 32; ed25519_MinBatchSize := 16;
ed25519_Verify m k g := bool_decide (g = arr_of 64 (arr_list k ++ m));
ed25519_Sign m k := arr_of 64 (arr_list k ++ m);
ed25519_PublicKeyOf k := k
|}.

#[export] Instance s_ed25519_spec : ED25519CryptoSpec.
Proof. split; [done|]. intros m k. by apply bool_decide_eq_true_2. Qed.

#[export] Instance s_crypto_errors : CryptoErrors := {| ErrInvalidSignature := ErrNew "invalid signature" |}.

#[export] Instance s_ed25519_batch : ED25519BatchOps := {|
EDBatch := list (bytes * arr 32 * arr 64);
NewBatch _ := [];
EDBatch_Add m k g b := b ++ [(m, k, g)];
EDBatch_Verify b := forallb (fun '(m, k, g) => ed25519_Verify m k g) b
|}.

#[export] Instance s_ed25519_batch_spec : ED25519BatchSpec.
Proof.
refine {| batch_items b := b |}; try done.
intros b. cbn. rewrite forallb_forall, Forall_forall.
split; intros Hb [[m k] g] Hin; apply (Hb (m, k, g)); by apply list_elem_of_In.
Defined.

#[export] Instance s_parsers : TypeParsers := {|
TypeParser A := list (Z * A);
NewTypeParser A := [];
LookupIndex A p i := snd <$> head (filter (fun x => x.1 = i) p);
Register A i a p :=
  match head (filter (fun x => x.1 = i) p) with
  | None => (p ++ [(i, a)], Ok tt)
  | Some _ => (p, Err (ErrNew "duplicate item"))
  end
|}.

#[export] Instance s_parsers_spec : TypeParsersSpec.
Proof.
split; cbn [LookupIndex Register NewTypeParser s_parsers].
- done.
- intros A i a p Hn. destruct (head _) eqn:E; [done|]. eexists. split; [done|].
  intros j. rewrite filter_app, filter_cons, filter_nil. simpl.
  destruct (decide (i = j)) as [->|Hne].
  + rewrite decide_True by done. revert E.
    match goal with |- head ?l = None -> _ => generalize l end. by intros [|].  
  + rewrite decide_False by done. by rewrite app_nil_r.
- intros A i a p Hn. destruct (head _); [by eexists|done].
Qed.

(** *** Data for the examples *)

Definition w_addr (z : Z) : Address := arr_of 33 (be_enc 33 z).
Definition w_id (z : Z) : ID := arr_of 32 (be_enc 32 z).

(** A store that permits everything. *)
Definition w_store (v : gmap bytes bytes) : store := Store v (fun _ => (true, true, true)).

End Instances.
