(* ===== verification/State.v ===== *)
(** * State: reasoning about the key-value state

    The accessors of the repository are proved against the contract
    [MutableSpec]. A read is a lookup in [view]; a write either happens and is
    an update of [view], or is an error and changes nothing. *)

From stdpp Require Import base numbers countable gmap list.
From Stdlib Require Import ZArith Lia Strings.Byte.
From S2P Require Import Prelude HyperSDK.

Local Open Scope Z_scope.

(** What a read of the key returns when it is permitted. *)
Definition view_get `{DatabaseErrors} (v : gmap bytes bytes) (k : bytes) : res bytes :=
  match v !! k with
  | Some b => Ok b
  | None => Err ErrNotFound
  end.

Section state.
Context `{DE : DatabaseErrors} `{SP : StatePermissions} {S : Type} `{MU : Mutable S}.
Context {MS : MutableSpec S}.
Implicit Types (s : S).

Definition can (s : S) (k : bytes) (p : Permissions) : Prop :=
  perm_Has (scope s k) p = true.

Lemma GetValue_view s k : can s k Read -> GetValue s k = view_get (view s) k.
Proof. unfold can, view_get. intros Hk. by rewrite GetValue_spec, Hk. Qed.

(** A write that happened. *)
Definition updated (s s' : S) (v : gmap bytes bytes) : Prop :=
  view s' = v /\ scope s' = scope s.

Lemma Insert_allowed s k v :
  ValueFits k v = true ->
  (is_Some (view s !! k) -> can s k Write) ->
  (view s !! k = None -> can s k Allocate) ->
  wp (Insert k v) s (fun s' r => r = Ok tt /\ updated s s' (<[k := v]> (view s))).
Proof.
  intros Hf Hw Ha. apply Insert_ok. unfold permitted_insert. rewrite Hf. simpl.
  destruct (view s !! k) eqn:E; [by apply Hw|by apply Ha].
Qed.

Lemma Insert_cases s k v :
  wp (Insert k v) s (fun s' r =>
    (r = Ok tt /\ updated s s' (<[k := v]> (view s))) \/ ((exists e, r = Err e) /\ s' = s)).
Proof.
  destruct (permitted_insert s k v) eqn:E.
  - eapply wp_conseq; [by apply Insert_ok|]. intros s' r Hr. by left.
  - eapply wp_conseq; [by apply Insert_denied|]. intros s' r Hr. by right.
Qed.

Lemma Remove_allowed s k :
  can s k Write ->
  wp (Remove k) s (fun s' r => r = Ok tt /\ updated s s' (delete k (view s))).
Proof. intros. by apply Remove_ok. Qed.

Lemma Remove_cases s k :
  wp (Remove k) s (fun s' r =>
    (r = Ok tt /\ updated s s' (delete k (view s))) \/ ((exists e, r = Err e) /\ s' = s)).
Proof.
  destruct (perm_Has (scope s k) Write) eqn:E.
  - eapply wp_conseq; [by apply Remove_ok|]. intros s' r Hr. by left.
  - eapply wp_conseq; [by apply Remove_denied|]. intros s' r Hr. by right.
Qed.

Lemma Insert_Ok_inv s s' k v u :
  Insert k v s = (s', Ok u) -> updated s s' (<[k := v]> (view s)).
Proof.
  intros Hr. pose proof (Insert_cases s k v) as Hc. unfold wp in Hc. rewrite Hr in Hc.
  by destruct Hc as [[_ Hc]|[[e Hc] _]].
Qed.

Lemma Remove_Ok_inv s s' k u :
  Remove k s = (s', Ok u) -> updated s s' (delete k (view s)).
Proof.
  intros Hr. pose proof (Remove_cases s k) as Hc. unfold wp in Hc. rewrite Hr in Hc.
  by destruct Hc as [[_ Hc]|[[e Hc] _]].
Qed.

Lemma Insert_no_panic s k v : is_panic (snd (Insert k v s)) = false.
Proof.
  pose proof (Insert_cases s k v) as Hc. unfold wp in Hc.
  by destruct Hc as [[-> _]|[[e ->] _]].
Qed.

Lemma Remove_no_panic s k : is_panic (snd (Remove k s)) = false.
Proof.
  pose proof (Remove_cases s k) as Hc. unfold wp in Hc.
  by destruct Hc as [[-> _]|[[e ->] _]].
Qed.

Lemma updated_lookup s s' k v : updated s s' (<[k := v]> (view s)) -> view s' !! k = Some v.
Proof. intros [-> _]. apply lookup_insert_eq. Qed.

Lemma updated_lookup_ne s s' k k' v :
  updated s s' (<[k := v]> (view s)) -> k <> k' -> view s' !! k' = view s !! k'.
Proof. intros [-> _] Hne. by apply lookup_insert_ne. Qed.

Lemma updated_can s s' v k p : updated s s' v -> can s k p -> can s' k p.
Proof. unfold can. by intros [_ ->]. Qed.
End state.

#[export] Hint Resolve updated_can : seqvm.

(** Permissions of a literal of state keys. *)
Section literal.
Context `{SP : StatePermissions} {SPS : StatePermissionsSpec}.

Lemma keys_literal_snoc l k p : keys_literal (l ++ [(k, p)]) = <[k := p]> (keys_literal l).
Proof. unfold keys_literal. by rewrite foldl_app. Qed.

Lemma keys_literal_lookup l k :
  keys_literal l !! k = snd <$> last (filter (fun kp => kp.1 = k) l).
Proof.
  induction l as [|[k' p] l IH] using rev_ind; [done|].
  rewrite keys_literal_snoc, filter_app, filter_cons, filter_nil.
  destruct (decide (k' = k)) as [->|Hne].
  - rewrite lookup_insert_eq, decide_True by done. by rewrite last_snoc.
  - rewrite lookup_insert_ne, IH, decide_False by done. by rewrite app_nil_r.
Qed.
End literal.

(** ** Frames

    [frame P m]: whatever its outcome, [m] keeps the permissions and changes
    only keys in [P]. *)

Create HintDb frame.

Section frame.
Context `{DE : DatabaseErrors} `{SP : StatePermissions} {S : Type} `{MU : Mutable S}.
Context {MS : MutableSpec S}.
Implicit Types (s : S) (P : bytes -> Prop).

Definition touches P s s' : Prop :=
  scope s' = scope s /\ forall k, ~ P k -> view s' !! k = view s !! k.

Definition frame {A} P (m : M S A) : Prop := forall s, wp m s (fun s' _ => touches P s s').

Lemma touches_refl P s : touches P s s.
Proof. done. Qed.

Lemma touches_trans P s1 s2 s3 : touches P s1 s2 -> touches P s2 s3 -> touches P s1 s3.
Proof. intros [Hs1 Hv1] [Hs2 Hv2]. split; [congruence|]. intros k Hk. by rewrite Hv2, Hv1. Qed.

Lemma frame_ret {A} P (a : A) : frame P (mret a).
Proof. by intros s. Qed.
Lemma frame_lift {A} P (r : res A) : frame P (lift r).
Proof. by intros s. Qed.
Lemma frame_throw {A} P e : frame P (throw (A := A) e).
Proof. by intros s. Qed.
Lemma frame_panic {A} P p : frame P (gopanic (A := A) p).
Proof. by intros s. Qed.
Lemma frame_get P : frame P get.
Proof. by intros s. Qed.

(** The continuation may use what the first part returned. *)
Lemma frame_bind_res {A B} P (m : M S A) (k : A -> M S B) :
  frame P m -> (forall s s' a, m s = (s', Ok a) -> frame P (k a)) -> frame P (m ≫= k).
Proof.
  intros Hm Hk s. specialize (Hm s). unfold wp, mbind, M_bind in *.
  destruct (m s) as [s1 [a|e|p]] eqn:E; [|done|done]. simpl in Hm.
  eapply touches_trans; [exact Hm|]. apply (Hk _ _ _ E).
Qed.

Lemma frame_bind {A B} P (m : M S A) (k : A -> M S B) :
  frame P m -> (forall a, frame P (k a)) -> frame P (m ≫= k).
Proof. intros Hm Hk. by apply frame_bind_res. Qed.

(** A value read from the state. *)
Lemma frame_read {A B} P (f : S -> res A) (k : A -> M S B) :
  (forall s a, f s = Ok a -> frame P (k a)) -> frame P (mu ← get; a ← lift (f mu); k a).
Proof.
  intros Hk s. unfold wp, mbind, M_bind, get, lift. destruct (f s) eqn:E; [|done|done].
  by apply (Hk s).
Qed.

Lemma frame_wrap {A} P f (m : M S A) : frame P m -> frame P (wrap_err f m).
Proof. intros Hm s. specialize (Hm s). unfold wp, wrap_err in *. by destruct (m s). Qed.

Lemma frame_insert P k v : P k -> frame P (Insert k v).
Proof.
  intros Hk s. eapply wp_conseq; [apply Insert_cases|].
  intros s' r [[_ [Hv Hs]]|[_ ->]]; [|done]. split; [done|].
  intros k' Hk'. rewrite Hv, lookup_insert_ne; [done|]. by intros ->.
Qed.

Lemma frame_remove P k : P k -> frame P (Remove k).
Proof.
  intros Hk s. eapply wp_conseq; [apply Remove_cases|].
  intros s' r [[_ [Hv Hs]]|[_ ->]]; [|done]. split; [done|].
  intros k' Hk'. rewrite Hv, lookup_delete_ne; [done|]. by intros ->.
Qed.

(** The keys of [P] are all that a run can have changed. *)
Lemma frame_run {A} P (m : M S A) s s' r : frame P m -> m s = (s', r) -> touches P s s'.
Proof. intros Hm Hr. specialize (Hm s). unfold wp in Hm. by rewrite Hr in Hm. Qed.
End frame.

#[export] Hint Resolve frame_ret frame_lift frame_throw frame_panic frame_get
  frame_insert frame_remove : frame.

(** Follow the structure of a computation; what is left are the writes. *)
Ltac frame_steps :=
  repeat (first
    [ solve [auto with frame]
    | match goal with
      | |- frame _ (mbind _ _) => apply frame_bind; [|intros ?]
      | |- frame _ (wrap_err _ _) => apply frame_wrap
      | |- frame _ (if ?b then _ else _) => destruct b
      | |- frame _ (match ?x with _ => _ end) => destruct x
      | |- frame _ (let '(_, _) := ?x in _) => destruct x
      end ]).
