(* ===== verification/Wire.v ===== *)
(** * Wire: reasoning about packers

    [writes m e]: the packing code [m] appends exactly [e] to a writer that
    ends without an error. [reads u a e]: the unpacking code [u] returns [a]
    from every reader that starts with [e] and consumes exactly [e]. Both
    compose along the sequencing of the code, so that the round trip of a
    message is read off its [Marshal] and [Unmarshal]. *)

From stdpp Require Import base numbers list.
From Stdlib Require Import ZArith Lia Strings.Byte.
From S2P Require Import Prelude HyperSDK.

Local Open Scope Z_scope.

Create HintDb wire.

Section wire.
Context `{HC : HyperConsts} {CO : Codec} {CS : CodecSpec}.

Definition writes (m : M Packer unit) (e : bytes) : Prop :=
  forall p, exists p', m p = (p', Ok tt) /\ wrote p p' e.

Definition reads {A} (u : M Packer A) (a : A) (e : bytes) : Prop :=
  forall p rest, Packer_Err p = None -> remaining p = e ++ rest ->
  exists p', u p = (p', Ok a) /\ Packer_Err p' = None /\ remaining p' = rest.

(** An error set on the way in is still set on the way out. *)
Definition sticky {A} (u : M Packer A) : Prop :=
  forall p, Packer_Err p <> None -> Packer_Err (fst (u p)) <> None.

Lemma writes_packs f e : (forall p, wrote p (f p) e) -> writes (packs f) e.
Proof. intros Hf p. by exists (f p). Qed.

Lemma writes_nil : writes (mret tt) [].
Proof.
  intros p. exists p. split; [done|]. unfold wrote. by rewrite app_nil_r.
Qed.

Lemma writes_seq m1 m2 e1 e2 :
  writes m1 e1 -> writes m2 e2 -> writes (m1;; m2) (e1 ++ e2).
Proof.
  intros H1 H2 p. destruct (H1 p) as (p1 & Hr1 & Hw1).
  destruct (H2 p1) as (p2 & Hr2 & Hw2). exists p2.
  rewrite (bind_run _ _ _ _ _ Hr1). split; [done|].
  intros He. destruct (Hw2 He) as [He1 Hb2]. destruct (Hw1 He1) as [He0 Hb1].
  split; [done|]. by rewrite Hb2, Hb1, app_assoc.
Qed.

Lemma PackUint64_writes n : writes (PackUint64 n) (enc_u64 n).
Proof. apply writes_packs, PackUint64_wrote. Qed.
Lemma PackInt_writes n : writes (PackInt n) (enc_int n).
Proof. apply writes_packs, PackInt_wrote. Qed.
Lemma PackBytes_writes b : writes (PackBytes b) (enc_bytes b).
Proof. apply writes_packs, PackBytes_wrote. Qed.
Lemma PackFixedBytes_writes b : writes (PackFixedBytes b) b.
Proof. apply writes_packs, PackFixedBytes_wrote. Qed.
Lemma PackAddress_writes a : writes (PackAddress a) (arr_list a).
Proof. apply writes_packs, PackAddress_wrote. Qed.

Lemma reads_unpacks {A} (f : Packer -> Packer * A) a e :
  (forall p rest, Packer_Err p = None -> remaining p = e ++ rest ->
    exists p', f p = (p', a) /\ Packer_Err p' = None /\ remaining p' = rest) ->
  reads (unpacks f) a e.
Proof.
  intros Hf p rest He Hi. destruct (Hf p rest He Hi) as (p' & Hp & Hrest).
  exists p'. split; [|done]. unfold unpacks. by rewrite Hp.
Qed.

Lemma reads_ret {A} (a : A) : reads (mret a) a [].
Proof. intros p rest He Hi. by exists p. Qed.

Lemma reads_ret_Err {A} (a : A) : reads (ret_Err a) a [].
Proof. intros p rest He Hi. exists p. unfold ret_Err. by rewrite He. Qed.

Lemma reads_bind {A B} (u : M Packer A) (k : A -> M Packer B) a b e1 e2 :
  reads u a e1 -> reads (k a) b e2 -> reads (u ≫= k) b (e1 ++ e2).
Proof.
  intros H1 H2 p rest He Hi. rewrite <- app_assoc in Hi.
  destruct (H1 p _ He Hi) as (p1 & Hr1 & He1 & Hi1).
  destruct (H2 p1 _ He1 Hi1) as (p2 & Hr2 & Hrest2).
  exists p2. by rewrite (bind_run _ _ _ _ _ Hr1).
Qed.

(** The last step of an unmarshaller, which consumes nothing. *)
Lemma reads_bind_last {A B} (u : M Packer A) (k : A -> M Packer B) a b e :
  reads u a e -> reads (k a) b [] -> reads (u ≫= k) b e.
Proof. intros H1 H2. rewrite <- (app_nil_r e). by eapply reads_bind. Qed.

Lemma UnpackUint64_reads req n :
  is_u64 n -> (req = true -> n <> 0) -> reads (UnpackUint64 req) n (enc_u64 n).
Proof. intros. apply reads_unpacks. intros. by apply UnpackUint64_ok. Qed.
Lemma UnpackInt_reads req n :
  0 <= n < 2147483648 -> (req = true -> n <> 0) -> reads (UnpackInt req) n (enc_int n).
Proof. intros. apply reads_unpacks. intros. by apply UnpackInt_ok. Qed.
Lemma UnpackBytes_reads lim req b :
  Z.of_nat (length b) < 4294967296 ->
  (lim < 0 \/ Z.of_nat (length b) <= lim) -> (req = true -> b <> []) ->
  reads (UnpackBytes lim req) b (enc_bytes b).
Proof. intros. apply reads_unpacks. intros. by apply UnpackBytes_ok. Qed.
Lemma UnpackFixedBytes_reads n b :
  length b = n -> reads (UnpackFixedBytes n) b b.
Proof. intros. apply reads_unpacks. intros. by apply UnpackFixedBytes_ok. Qed.
Lemma UnpackAddress_reads a :
  a <> EmptyAddress -> reads UnpackAddress a (arr_list a).
Proof. intros. apply reads_unpacks. intros. by apply UnpackAddress_ok. Qed.

(** A message packed without an error unpacks to itself. *)
Lemma wire_roundtrip {A} (m : M Packer unit) (u : M Packer A) a e n l l' w :
  writes m e -> reads u a e ->
  fst (m (NewWriter n l)) = w -> Packer_Err w = None ->
  snd (u (NewReader (Packer_Bytes w) l')) = Ok a.
Proof.
  intros Hm Hu <- He. destruct (Hm (NewWriter n l)) as (p' & Hr & Hw).
  rewrite Hr in He |- *. destruct (Hw He) as [_ Hb]. simpl in *.
  rewrite NewWriter_Bytes in Hb. rewrite Hb. simpl.
  destruct (Hu (NewReader e l') []) as (p'' & Hr' & _).
  - apply NewReader_Err.
  - by rewrite NewReader_remaining, app_nil_r.
  - by rewrite Hr'.
Qed.

Lemma sticky_unpacks {A} (f : Packer -> Packer * A) :
  (forall p, Packer_Err p <> None -> Packer_Err (fst (f p)) <> None) ->
  sticky (unpacks f).
Proof.
  intros Hf p He. specialize (Hf p He). unfold unpacks. by destruct (f p).
Qed.
Lemma UnpackUint64_sticky r : sticky (UnpackUint64 r).
Proof. apply sticky_unpacks. intros p He. by apply (Unpack_sticky p He). Qed.
Lemma UnpackInt_sticky r : sticky (UnpackInt r).
Proof. apply sticky_unpacks. intros p He. by apply (Unpack_sticky p He). Qed.
Lemma UnpackBytes_sticky n r : sticky (UnpackBytes n r).
Proof. apply sticky_unpacks. intros p He. by apply (Unpack_sticky p He). Qed.
Lemma UnpackFixedBytes_sticky n : sticky (UnpackFixedBytes n).
Proof. apply sticky_unpacks. intros p He. by apply (Unpack_sticky p He). Qed.
Lemma UnpackAddress_sticky : sticky UnpackAddress.
Proof. apply sticky_unpacks. intros p He. by apply (Unpack_sticky p He). Qed.
End wire.

#[export] Hint Resolve PackUint64_writes PackInt_writes PackBytes_writes
  PackFixedBytes_writes PackAddress_writes writes_nil writes_seq : wire.
#[export] Hint Resolve UnpackUint64_reads UnpackInt_reads UnpackBytes_reads
  UnpackFixedBytes_reads UnpackAddress_reads reads_ret reads_ret_Err : wire.
#[export] Hint Resolve UnpackUint64_sticky UnpackInt_sticky UnpackBytes_sticky
  UnpackFixedBytes_sticky UnpackAddress_sticky : wire.

(** Follow an unmarshaller step by step; the side conditions are left. *)
Ltac reads_steps :=
  repeat first
    [ apply reads_ret_Err
    | apply reads_ret
    | eapply reads_bind_last; [|solve [apply reads_ret_Err | apply reads_ret]]
    | eapply reads_bind ].

Section hactions_wire.
Context `{HC : HyperConsts} {CO : Codec} {HA : HActions} {CS : CodecSpec} {HS : HActionsSpec}.

Lemma RollupInfo_writes i : writes (RollupInfo_Marshal i) (enc_RollupInfo i).
Proof. apply writes_packs, RollupInfo_wrote. Qed.
Lemma EpochInfo_writes i : writes (EpochInfo_Marshal i) (enc_EpochInfo i).
Proof. apply writes_packs, EpochInfo_wrote. Qed.
Lemma RollupInfo_reads i :
  RollupInfo_encodable i -> reads UnmarshalRollupInfo i (enc_RollupInfo i).
Proof. intros ? p rest. by apply UnmarshalRollupInfo_ok. Qed.
Lemma EpochInfo_reads i :
  EpochInfo_encodable i -> reads UnmarshalEpochInfo i (enc_EpochInfo i).
Proof. intros ? p rest. by apply UnmarshalEpochInfo_ok. Qed.
End hactions_wire.

#[export] Hint Resolve RollupInfo_writes EpochInfo_writes RollupInfo_reads
  EpochInfo_reads : wire.
