(* ===== verification/Storage.v ===== *)
(** * Storage: the layout of the state and of the meta database

    [src/storage/*.go]: the keys of the state database, the encoding of each
    value, and the accessors the actions and the RPC server use. *)

From stdpp Require Import base numbers countable gmap list strings.
From Stdlib Require Import ZArith Lia Strings.Byte.
From S2P Require Import Prelude HyperSDK State Wire Sample.

Local Open Scope Z_scope.

(** ** Keys (storage.go) *)

Definition txPrefix : byte := x00.
Definition balancePrefix : byte := x00.
Definition heightPrefix : byte := x04.
Definition timestampPrefix : byte := x05.
Definition feePrefix : byte := x06.
Definition blockPrefix : byte := x09.
Definition feeMarketPrefix : byte := x0a.

Definition BalanceChunks : Z := 1.

Definition failureByte : byte := x00.
Definition successByte : byte := x01.

Definition HeightKey : bytes := [heightPrefix].
Definition TimestampKey : bytes := [timestampPrefix].
Definition FeeKey : bytes := [feePrefix].
Definition FeeMarketKey : bytes := [feeMarketPrefix].

(** [errors.go] *)
Definition ErrInvalidBalance : error := ErrNew "invalid balance".

(** [type ReadState func(context.Context, [][]byte) ([][]byte, []error)] *)
Definition ReadState : Type := list bytes -> list bytes * list (option error).

(** [values, errs := f(ctx, [][]byte{k})], then [values[0], errs[0]]. *)
Definition read_one (f : ReadState) (k : bytes) : res bytes :=
  let '(values, errs) := f [k] in
  match values !! 0%nat, errs !! 0%nat with
  | Some v, Some None => Ok v
  | Some _, Some (Some e) => Err e
  | _, _ => Panic PIndex
  end.

Section keys.
Context `{HC : HyperConsts} `{HA : HActions}.

(** [balanceKeyPool]: a pooled buffer has this length and any contents. *)
Definition balanceKeyPool_len : nat := 1 + AddressLen + Uint16Len.

(** [BalanceKey] writes into the buffer [k] it took from the pool. *)
Definition BalanceKey_in (k : bytes) (pk : Address) : res bytes :=
  k ← set_index k 0 balancePrefix;
  k ← update_from k 1 (fun d => Ok (copy d pk));
  update_from k (1 + AddressLen) (PutUint16 BalanceChunks).

(** The key, read out of a fresh buffer. *)
Definition BalanceKey (pk : Address) : bytes :=
  match BalanceKey_in (zeros balanceKeyPool_len) pk with
  | Ok k => k
  | _ => []
  end.

Definition PrefixBlockKey (block parent : ID) : res bytes :=
  k ← set_index (zeros (1 + IDLen * 2)) 0 blockPrefix;
  k ← update_from k 1 (fun d => Ok (copy d block));
  k ← update_from k (1 + IDLen * 2) (PutUint16 BalanceChunks);
  update_from k (1 + IDLen) (fun d => Ok (copy d parent)).

(** transaction.go *)
Definition TxKey (id : ID) : res bytes :=
  k ← set_index (zeros (1 + IDLen)) 0 txPrefix;
  update_from k 1 (fun d => Ok (copy d id)).

Definition ArcadiaBidKey (epoch : Z) : bytes := ArcadiaBidKey_h epoch.
Definition EpochExitsKey (epoch : Z) : bytes := EpochExitsKey_h epoch.
Definition RollupInfoKey (namespace : bytes) : bytes := RollupInfoKey_h namespace.
Definition RollupRegistryKey : bytes := RollupRegistryKey_h.

(** utils.go *)
Definition PackNamespaces (namespaces : list bytes) : res bytes :=
  PackNamespaces_h namespaces.
Definition UnpackNamespaces (raw : bytes) : res (list bytes) :=
  UnpackNamespaces_h raw.

Fixpoint pack_each (epochs : list Z) : M Packer unit :=
  match epochs with
  | [] => mret tt
  | e :: epochs => PackUint64 e;; pack_each epochs
  end.

(** [return p.Bytes(), p.Err()] *)
Definition bytes_Err (p : Packer) : res bytes :=
  match Packer_Err p with
  | None => Ok (Packer_Bytes p)
  | Some e => Err e
  end.

Definition PackEpochs (epochs : list Z) : res bytes :=
  let n := Z.of_nat (length epochs) in
  let p := NewWriter (n * 8) NetworkSizeLimit in
  bytes_Err (fst ((PackInt n;; pack_each epochs) p)).

Fixpoint unpack_each (n : nat) : M Packer (list Z) :=
  match n with
  | O => mret []
  | S n => e ← UnpackUint64 true; es ← unpack_each n; mret (e :: es)
  end.

(** [make([]uint64, 0, eLen)] panics on a negative capacity. *)
Definition UnpackEpochs (raw : bytes) : res (list Z) :=
  snd ((eLen ← UnpackInt false;
        if eLen <? 0 then gopanic PIndex else
        epochs ← unpack_each (Z.to_nat eLen);
        ret_Err epochs) (NewReader raw NetworkSizeLimit)).
End keys.

(** ** Balances (balance.go) *)

Section balance.
Context `{HC : HyperConsts} `{SM : SafeMath} `{DE : DatabaseErrors}.

Definition innerGetBalance (v : res bytes) : res (Z * bool) :=
  match v with
  | Err e => if errors_Is e ErrNotFound then Ok (0, false) else Err e
  | Ok v => b ← Uint64 v; Ok (b, true)
  | Panic p => Panic p
  end.

(** Used to serve RPC queries *)
Definition GetBalanceFromState (f : ReadState) (addr : Address) : res Z :=
  let k := BalanceKey addr in
  '(bal, _) ← innerGetBalance (read_one f k);
  Ok bal.

Section immutable.
Context {S : Type} `{IM : Immutable S}.

Definition getBalance (im : S) (addr : Address) : res (bytes * Z * bool) :=
  let k := BalanceKey addr in
  '(bal, exists_) ← innerGetBalance (GetValue im k);
  Ok (k, bal, exists_).

Definition GetBalance (im : S) (addr : Address) : res Z :=
  '(_, bal, _) ← getBalance im addr;
  Ok bal.
End immutable.

Section mutable.
Context {S : Type} `{MU : Mutable S}.

Definition setBalance (key : bytes) (balance : Z) : M S unit :=
  Insert key (AppendUint64 [] balance).

Definition SetBalance (addr : Address) (balance : Z) : M S unit :=
  let k := BalanceKey addr in
  setBalance k balance.

Definition DeleteBalance (addr : Address) : M S unit := Remove (BalanceKey addr).

Definition AddBalance (addr : Address) (amount : Z) (create : bool) : M S unit :=
  mu ← get;
  '(key, bal, exists_) ← lift (getBalance mu addr);
  (* Don't add balance if account doesn't exist. This
     can be useful when processing fee refunds. *)
  if negb exists_ && negb create then mret tt else
  nbal ← lift (map_err (fun _ =>
    ErrWrap "%w: could not add balance (bal=%d, addr=%v, amount=%d)"
      [AInt bal; ABytes addr; AInt amount] ErrInvalidBalance) (Add64 bal amount));
  setBalance key nbal.

Definition SubBalance (addr : Address) (amount : Z) : M S unit :=
  mu ← get;
  '(key, bal, _) ← lift (getBalance mu addr);
  nbal ← lift (map_err (fun _ =>
    ErrWrap "%w: could not subtract balance (bal=%d, addr=%v, amount=%d)"
      [AInt bal; ABytes addr; AInt amount] ErrInvalidBalance) (Sub64 bal amount));
  if nbal =? 0 then
    (* If there is no balance left, we should delete the record instead of
       setting it to 0. *)
    Remove key
  else setBalance key nbal.
End mutable.
End balance.

(** ** Arcadia bids (arcadia.go) *)

Section arcadia.
Context `{HC : HyperConsts} `{HA : HActions} `{DE : DatabaseErrors}.

(** [errs[0] == database.ErrNotFound] compares sentinels by identity. *)
Definition same_error (a b : error) : bool :=
  match a, b with
  | ErrNew x, ErrNew y => bool_decide (x = y)
  | _, _ => false
  end.

(** [nil] when no bid is stored for the epoch. *)
Definition GetArcadiaBuilderFromState (f : ReadState) (epoch : Z) : res (option bytes) :=
  let k := ArcadiaBidKey epoch in
  match read_one f k with
  | Err e => if same_error e ErrNotFound then Ok None else Err e
  | Ok v => b ← slice v 8 (8 + 48); Ok (Some b)
  | Panic p => Panic p
  end.

Section immutable.
Context {S : Type} `{IM : Immutable S}.

Definition GetArcadiaBidValue (im : S) (epoch : Z) : res Z :=
  let k := ArcadiaBidKey epoch in
  v ← GetValue im k;
  v8 ← slice v 0 8;
  Uint64 v8.

Definition GetArcadiaBuilderInfoAndSignature (im : S) (epoch : Z) : res (bytes * bytes) :=
  let k := ArcadiaBidKey epoch in
  v ← GetValue im k;
  pk ← slice v 8 (8 + 48);
  sig ← slice_from v (8 + 48);
  Ok (pk, sig).
End immutable.

Definition StoreArcadiaBidInfo {S : Type} `{MU : Mutable S}
    (epoch bidPrice : Z) (bidderPublicKey bidderSignature : bytes) : M S unit :=
  let k := ArcadiaBidKey epoch in
  let v := zeros (8 + 48 + 96) in
  v ← lift (PutUint64 bidPrice v);
  v ← lift (update_from v 8 (fun d => Ok (copy d bidderPublicKey)));
  v ← lift (update_from v (8 + 48) (fun d => Ok (copy d bidderSignature)));
  Insert k v.
End arcadia.

(** ** Rollup infos, the rollup registry and epoch exits *)

Section rollups.
Context `{HC : HyperConsts} `{HA : HActions} `{DE : DatabaseErrors}.

(** A stored value, decoded; [(nil, false, nil)] when there is none. *)
Definition inner_get {A} (decode : bytes -> res A) (v : res bytes) : res (option A * bool) :=
  match v with
  | Err e => if errors_Is e ErrNotFound then Ok (None, false) else Err e
  | Ok v => info ← decode v; Ok (Some info, true)
  | Panic p => Panic p
  end.

Definition innerGetRollupInfo : res bytes -> res (option RollupInfo * bool) :=
  inner_get (fun v => snd (UnmarshalRollupInfo (NewReader v NetworkSizeLimit))).

Definition innerGetRegistry : res bytes -> res (option (list bytes) * bool) :=
  inner_get UnpackNamespaces.

Definition innerGetEpochExits : res bytes -> res (option EpochExitInfo * bool) :=
  inner_get (fun v => snd (UnmarshalEpochExitsInfo (NewReader v NetworkSizeLimit))).

(** A nil slice of namespaces is an empty one. *)
Definition nil_slice {A} (l : option (list A)) : list A := default [] l.

Definition GetRollupInfoFromState (f : ReadState) (namespace : bytes)
    : res (option RollupInfo) :=
  let k := RollupInfoKey namespace in
  '(rollup, _) ← innerGetRollupInfo (read_one f k);
  Ok rollup.

Definition GetRollupRegistryFromState (f : ReadState) : res (list bytes) :=
  let k := RollupRegistryKey in
  '(namespaces, _) ← innerGetRegistry (read_one f k);
  Ok (nil_slice namespaces).

Definition GetEpochExitsFromState (f : ReadState) (epoch : Z) : res (option EpochExitInfo) :=
  let k := EpochExitsKey epoch in
  '(epochExit, _) ← innerGetEpochExits (read_one f k);
  Ok epochExit.

Section immutable.
Context {S : Type} `{IM : Immutable S}.

Definition GetRollupInfo (im : S) (namespace : bytes) : res (option RollupInfo) :=
  let k := RollupInfoKey namespace in
  '(rollup, _) ← innerGetRollupInfo (GetValue im k);
  Ok rollup.

Definition GetRollupRegistry (im : S) : res (list bytes) :=
  let k := RollupRegistryKey in
  '(namespaces, _) ← innerGetRegistry (GetValue im k);
  Ok (nil_slice namespaces).

Definition getEpochExits (im : S) (epoch : Z)
    : res (bytes * option EpochExitInfo * bool) :=
  let k := EpochExitsKey epoch in
  '(epochExit, exists_) ← innerGetEpochExits (GetValue im k);
  Ok (k, epochExit, exists_).

Definition GetEpochExits (im : S) (epoch : Z) : res (option EpochExitInfo * bool) :=
  '(_, ep, exists_) ← getEpochExits im epoch;
  Ok (ep, exists_).
End immutable.

Section mutable.
Context {S : Type} `{MU : Mutable S}.

Definition SetRollupInfo (namespace : bytes) (info : RollupInfo) : M S unit :=
  let k := RollupInfoKey namespace in
  let p := NewWriter (RollupInfo_Size info) NetworkSizeLimit in
  infoBytes ← lift (bytes_Err (fst (RollupInfo_Marshal info p)));
  Insert k infoBytes.

Definition DelRollupInfo (namespace : bytes) : M S unit :=
  let k := RollupInfoKey namespace in
  Remove k.

Definition SetRollupRegistry (namespaces : list bytes) : M S unit :=
  let k := RollupRegistryKey in
  packed ← lift (PackNamespaces namespaces);
  Insert k packed.

Definition setEpochExits (key : bytes) (info : EpochExitInfo) : M S unit :=
  let size := foldl (fun size e => size + EpochInfo_Size e) 0 (Exits info) in
  let p := NewWriter size NetworkSizeLimit in
  infoBytes ← lift (bytes_Err (fst (EpochExitInfo_Marshal info p)));
  Insert key infoBytes.

Definition SetEpochExits (epoch : Z) (info : EpochExitInfo) : M S unit :=
  let k := EpochExitsKey epoch in
  setEpochExits k info.
End mutable.
End rollups.

(** ** Transactions in the meta database (transaction.go) *)

Section transaction.
Context `{HC : HyperConsts} `{FE : Fees} `{DE : DatabaseErrors} {D : Type} {DW : KeyValueWriter D} {DR : KeyValueReader D}.

Definition StoreTransaction (id : ID) (t : Z) (success : bool) (units : Dimensions)
    (fee : Z) : M D unit :=
  k ← lift (TxKey id);
  let v := zeros (Uint64Len + 1 + DimensionsLen + Uint64Len) in
  v ← lift (PutUint64 (u64 t) v);
  v ← lift (set_index v Uint64Len (if success then successByte else failureByte));
  v ← lift (update_from v (Uint64Len + 1) (fun d => Ok (copy d (Dimensions_Bytes units))));
  v ← lift (update_from v (Uint64Len + 1 + DimensionsLen) (PutUint64 fee));
  Put k v.

(** What [GetTransaction] returns besides [found]. *)
Record TxResult := {
  tx_timestamp : Z;
  tx_success : bool;
  tx_units : Dimensions;
  tx_fee : Z
}.

(** [None] is [found = false] with the zero values. *)
Definition GetTransaction (db : D) (id : ID) : res (option TxResult) :=
  k ← TxKey id;
  match Get db k with
  | Err e => if errors_Is e ErrNotFound then Ok None else Err e
  | Panic p => Panic p
  | Ok v =>
      t ← Uint64 v;
      b ← index v Uint64Len;
      let success := negb (bool_decide (b = failureByte)) in
      du ← slice v (Uint64Len + 1) (Uint64Len + 1 + DimensionsLen);
      d ← UnpackDimensions du;
      tl ← slice_from v (Uint64Len + 1 + DimensionsLen);
      fee ← Uint64 tl;
      Ok (Some {| tx_timestamp := i64 t; tx_success := success;
                  tx_units := d; tx_fee := fee |})
  end.
End transaction.

(** ** Keys: facts *)

Section key_facts.
Context `{HC : HyperConsts} {HCS : HyperConstsSpec}.

Lemma set_index_0 (b0 : byte) k b : set_index (b0 :: k) 0 b = Ok (b :: k).
Proof. done. Qed.

Lemma update_from_app (p l : bytes) i f r :
  i = length p -> f l = Ok r -> update_from (p ++ l) i f = Ok (p ++ r).
Proof.
  intros -> Hf. unfold update_from. rewrite length_app.
  rewrite (proj2 (Nat.leb_le _ _)) by lia.
  by rewrite drop_app_length, take_app_length, Hf.
Qed.

Lemma update_from_cons (b : byte) (l : bytes) f r :
  f l = Ok r -> update_from (b :: l) 1 f = Ok (b :: r).
Proof. by apply (update_from_app [b]). Qed.

(** [f(dst[len(dst):])]: [f] gets an empty slice. *)
Lemma update_from_end (l : bytes) i f p :
  length l = i -> f [] = Panic p -> update_from l i f = Panic p.
Proof.
  intros <- Hf. unfold update_from.
  by rewrite Nat.leb_refl, drop_all, Hf.
Qed.

Lemma put_be_exact n v b : length b = n -> put_be n v b = Ok (be_enc n v).
Proof.
  intros Hb. unfold put_be. rewrite (proj2 (Nat.leb_le _ _)) by lia.
  by rewrite drop_ge, app_nil_r by lia.
Qed.

(** Splitting a buffer by lengths. *)
Lemma split_buffer (k : bytes) n m :
  length k = (n + m)%nat -> exists a b, k = a ++ b /\ length a = n /\ length b = m.
Proof.
  intros Hk. exists (take n k), (drop n k). rewrite take_drop.
  rewrite length_take, length_drop. repeat split; lia.
Qed.

Lemma BalanceKey_in_eq (k : bytes) (pk : Address) :
  length k = balanceKeyPool_len ->
  BalanceKey_in k pk = Ok (balancePrefix :: arr_list pk ++ be_enc 2 BalanceChunks).
Proof.
  unfold balanceKeyPool_len. rewrite Uint16Len_2. intros Hk.
  destruct k as [|b0 k]; [done|]. simpl in Hk. injection Hk as Hk.
  destruct (split_buffer k AddressLen 2 Hk) as (a & c & -> & Ha & Hc).
  unfold BalanceKey_in. rewrite set_index_0, bind_Ok.
  rewrite (update_from_cons _ _ _ (arr_list pk ++ c)).
  - rewrite bind_Ok. change (?x :: ?l ++ c) with ((x :: l) ++ c).
    rewrite (update_from_app _ c _ _ (be_enc 2 BalanceChunks)); [done| |].
    + simpl. by rewrite length_arr.
    + by apply put_be_exact.
  - f_equal. rewrite copy_short; rewrite length_arr.
    + by rewrite drop_app_length'.
    + rewrite length_app. lia.
Qed.

Lemma length_zeros n : length (zeros n) = n.
Proof. apply length_replicate. Qed.

Lemma BalanceKey_eq (pk : Address) :
  BalanceKey pk = balancePrefix :: arr_list pk ++ be_enc 2 BalanceChunks.
Proof. unfold BalanceKey. by rewrite BalanceKey_in_eq by apply length_zeros. Qed.

Lemma BalanceKey_inj (a b : Address) : BalanceKey a = BalanceKey b -> a = b.
Proof.
  rewrite !BalanceKey_eq. intros Hab%(f_equal tail).
  apply app_inv_tail in Hab. by apply arr_eq.
Qed.

Lemma TxKey_eq (id : ID) : TxKey id = Ok (txPrefix :: arr_list id).
Proof.
  unfold TxKey. replace (zeros (1 + IDLen)) with (x00 :: zeros IDLen) by done.
  rewrite set_index_0, bind_Ok.
  rewrite (update_from_cons _ _ _ (arr_list id)); [done|].
  f_equal. apply copy_same_length. by rewrite length_zeros, length_arr.
Qed.
End key_facts.

(** [BalanceKey] takes its buffer from a pool that returns buffers with their
    former contents, of this address's size but any bytes: the key does not
    depend on them, since every byte is overwritten, the chunk suffix too. *)
Theorem BalanceKey_pool_independent `{HC : HyperConsts} `{!HyperConstsSpec}
    (k : bytes) (pk : Address) :
  length k = balanceKeyPool_len -> BalanceKey_in k pk = Ok (BalanceKey pk).
Proof. intros. by rewrite BalanceKey_in_eq, BalanceKey_eq. Qed.

(** [PrefixBlockKey] writes its chunk suffix past the end of the buffer it
    allocated, and so panics on every input. *)
Theorem PrefixBlockKey_always_panics `{HC : HyperConsts} (block parent : ID) :
  PrefixBlockKey block parent = Panic PIndex.
Proof.
  unfold PrefixBlockKey.
  replace (zeros (1 + IDLen * 2)) with (x00 :: zeros (IDLen * 2)) by done.
  rewrite set_index_0, bind_Ok.
  rewrite (update_from_cons _ _ _ (copy (zeros (IDLen * 2)) block)) by done.
  rewrite bind_Ok, (update_from_end _ _ _ PIndex); [done| |done].
  cbn [length]. by rewrite length_copy, length_zeros.
Qed.

(** ** Epoch lists *)

Section epochs.
Context `{HC : HyperConsts} {CO : Codec} {CS : CodecSpec}.

Definition enc_epochs (l : list Z) : bytes := concat (map enc_u64 l).

Lemma pack_each_writes l : writes (pack_each l) (enc_epochs l).
Proof. induction l as [|e l IH]; [apply writes_nil|by apply writes_seq; auto with wire]. Qed.

Lemma unpack_each_reads l :
  Forall (fun e => is_u64 e /\ e <> 0) l -> reads (unpack_each (length l)) l (enc_epochs l).
Proof.
  induction 1 as [|e l [He Hz] Hl IH]; [apply reads_ret|].
  eapply reads_bind; [by apply UnpackUint64_reads|].
  eapply reads_bind_last; [exact IH|apply reads_ret].
Qed.

Lemma unpack_each_sticky n : sticky (unpack_each n).
Proof.
  induction n as [|n IH]; intros p Hp; [done|]. cbn [unpack_each].
  pose proof (UnpackUint64_sticky true p Hp) as H1.
  unfold UnpackUint64, unpacks in *. destruct (UnpackUint64_op true p) as [p1 e] eqn:E.
  rewrite (bind_run _ _ p p1 e) by (by rewrite E).
  specialize (IH p1 H1). unfold mbind, M_bind. by destruct (unpack_each n p1) as [p2 [| |]].
Qed.

(** A zero epoch sets the error. *)
Lemma unpack_each_zero l p rest :
  Forall is_u64 l -> 0 ∈ l ->
  Packer_Err p = None -> remaining p = enc_epochs l ++ rest ->
  exists p' es, unpack_each (length l) p = (p', Ok es) /\ Packer_Err p' <> None.
Proof.
  revert p. induction l as [|e l IH]; intros p Hl Hin He Hi; [by apply not_elem_of_nil in Hin|].
  cbn [length unpack_each]. apply Forall_cons in Hl as [Hu Hl].
  assert (forall q, exists q' es, unpack_each (length l) q = (q', Ok es)) as Hok.
  { clear. induction (length l) as [|n IH]; intros q; [by exists q, []|].
    cbn [unpack_each]. unfold UnpackUint64, unpacks.
    destruct (UnpackUint64_op true q) as [q1 e] eqn:E.
    rewrite (bind_run _ _ q q1 e) by (by rewrite E).
    destruct (IH q1) as (q2 & es & Hr). rewrite (bind_run _ _ _ _ _ Hr). eauto. }
  unfold enc_epochs in Hi. cbn [map concat] in Hi. rewrite <- app_assoc in Hi.
  destruct (decide (e = 0)) as [->|Hne].
  - pose proof (UnpackUint64_zero p _ He Hi) as Hz.
    unfold UnpackUint64, unpacks. destruct (UnpackUint64_op true p) as [p1 v] eqn:E.
    rewrite (bind_run _ _ p p1 v) by (by rewrite E).
    destruct (Hok p1) as (p2 & es & Hr). rewrite (bind_run _ _ _ _ _ Hr).
    exists p2, (v :: es). split; [done|].
    pose proof (unpack_each_sticky (length l) p1 Hz) as Hs. by rewrite Hr in Hs.
  - destruct (UnpackUint64_reads true e Hu (fun _ => Hne) p _ He Hi) as (p1 & Hr1 & He1 & Hi1).
    rewrite (bind_run _ _ _ _ _ Hr1).
    apply elem_of_cons in Hin as [<-|Hin]; [done|].
    destruct (IH p1 Hl Hin He1 Hi1) as (p2 & es & Hr2 & Hz).
    rewrite (bind_run _ _ _ _ _ Hr2). by exists p2, (e :: es).
Qed.

Lemma PackEpochs_bytes l b :
  PackEpochs l = Ok b -> b = enc_int (Z.of_nat (length l)) ++ enc_epochs l.
Proof.
  unfold PackEpochs, bytes_Err.
  destruct (writes_seq _ _ _ _ (PackInt_writes (Z.of_nat (length l))) (pack_each_writes l)
              (NewWriter (Z.of_nat (length l) * 8) NetworkSizeLimit)) as (w & Hr & Hw).
  rewrite Hr. simpl. destruct (Packer_Err w) eqn:E; [done|]. intros [= <-].
  destruct (Hw E) as [_ ->]. by rewrite NewWriter_Bytes.
Qed.
End epochs.

(** A packed list of epochs unpacks to itself exactly when it does not hold
    epoch 0, which the packer accepts and the unpacker requires to be non-zero. *)
Theorem UnpackEpochs_PackEpochs `{HC : HyperConsts} {CO : Codec} {CS : CodecSpec}
    (l : list Z) (b : bytes) :
  Z.of_nat (length l) < 2147483648 -> Forall is_u64 l -> PackEpochs l = Ok b ->
  (UnpackEpochs b = Ok l <-> 0 ∉ l).
Proof.
  intros Hlen Hl Hb. apply PackEpochs_bytes in Hb. subst b. unfold UnpackEpochs.
  destruct (UnpackInt_reads false (Z.of_nat (length l)) ltac:(lia) ltac:(done)
              (NewReader (enc_int (Z.of_nat (length l)) ++ enc_epochs l) NetworkSizeLimit)
              (enc_epochs l) (NewReader_Err _ _) (NewReader_remaining _ _))
    as (p1 & Hr1 & He1 & Hi1).
  rewrite (bind_run _ _ _ _ _ Hr1), (proj2 (Z.ltb_ge _ _)), Nat2Z.id by lia.
  rewrite <- (app_nil_r (enc_epochs l)) in Hi1. split.
  - intros Hok Hz. destruct (unpack_each_zero l p1 [] Hl Hz He1 Hi1) as (p2 & es & Hr2 & He2).
    rewrite (bind_run _ _ _ _ _ Hr2) in Hok. unfold ret_Err in Hok.
    by destruct (Packer_Err p2).
  - intros Hz. destruct (unpack_each_reads l) with (p := p1) (rest := @nil byte)
      as (p2 & Hr2 & He2 & _); [|done|done|].
    + apply Forall_forall. intros e Hin. split; [by eapply Forall_forall|]. by intros ->.
    + rewrite (bind_run _ _ _ _ _ Hr2). unfold ret_Err. by rewrite He2.
Qed.

(** ** Decoded views

    The value of each kind of data in the contents of the state: what the
    accessors return when the read is permitted. *)

Section views.
Context `{HC : HyperConsts} `{DE : DatabaseErrors} {CO : Codec} {HA : HActions}.

Definition rollup_at (v : gmap bytes bytes) (ns : bytes) : res (option RollupInfo) :=
  '(i, _) ← innerGetRollupInfo (view_get v (RollupInfoKey ns)); Ok i.
Definition registry_at (v : gmap bytes bytes) : res (list bytes) :=
  '(l, _) ← innerGetRegistry (view_get v RollupRegistryKey); Ok (nil_slice l).
Definition exits_at (v : gmap bytes bytes) (e : Z) : res (option EpochExitInfo * bool) :=
  innerGetEpochExits (view_get v (EpochExitsKey e)).

Context {DES : DatabaseErrorsSpec}.

Lemma ErrNotFound_Is : errors_Is ErrNotFound ErrNotFound = true.
Proof.
  destruct ErrNotFound_sentinel as [t ->]. simpl. by apply bool_decide_eq_true_2.
Qed.

Lemma inner_get_none {A} (d : bytes -> res A) : inner_get d (Err ErrNotFound) = Ok (None, false).
Proof. unfold inner_get. by rewrite ErrNotFound_Is. Qed.

Lemma rollup_at_eq v v' ns :
  v !! RollupInfoKey ns = v' !! RollupInfoKey ns -> rollup_at v ns = rollup_at v' ns.
Proof. unfold rollup_at, view_get. by intros ->. Qed.
Lemma registry_at_eq v v' :
  v !! RollupRegistryKey = v' !! RollupRegistryKey -> registry_at v = registry_at v'.
Proof. unfold registry_at, view_get. by intros ->. Qed.
Lemma exits_at_eq v v' e :
  v !! EpochExitsKey e = v' !! EpochExitsKey e -> exits_at v e = exits_at v' e.
Proof. unfold exits_at, view_get. by intros ->. Qed.

(** A value that decodes to [l] is not missing. *)
Lemma registry_at_empty v : v !! RollupRegistryKey = None -> registry_at v = Ok [].
Proof. unfold registry_at, view_get. intros ->. unfold innerGetRegistry. by rewrite inner_get_none. Qed.

Lemma rollup_at_none v ns : v !! RollupInfoKey ns = None -> rollup_at v ns = Ok None.
Proof. unfold rollup_at, view_get. intros ->. unfold innerGetRollupInfo. by rewrite inner_get_none. Qed.

Context `{SP : StatePermissions} {S : Type} `{MU : Mutable S} {MS : MutableSpec S}.
Implicit Types (s : S).

Lemma GetRollupInfo_view s ns :
  can s (RollupInfoKey ns) Read -> GetRollupInfo s ns = rollup_at (view s) ns.
Proof. intros. unfold GetRollupInfo. by rewrite GetValue_view. Qed.
Lemma GetRollupRegistry_view s :
  can s RollupRegistryKey Read -> GetRollupRegistry s = registry_at (view s).
Proof. intros. unfold GetRollupRegistry. by rewrite GetValue_view. Qed.
Lemma GetEpochExits_view s e :
  can s (EpochExitsKey e) Read -> GetEpochExits s e = exits_at (view s) e.
Proof.
  intros. unfold GetEpochExits, getEpochExits. rewrite GetValue_view by done.
  unfold exits_at. by destruct (innerGetEpochExits _) as [[] | |].
Qed.
End views.

Section rollup_writes.
Context `{HC : HyperConsts} `{DE : DatabaseErrors} {CO : Codec} {HA : HActions}.
Context {DES : DatabaseErrorsSpec} {CS : CodecSpec} {HS : HActionsSpec}.
Context `{SP : StatePermissions} {S : Type} `{MU : Mutable S} {MS : MutableSpec S}.
Implicit Types (s : S).

(** A stored info reads back, and nothing but its key changed. *)
Lemma SetRollupInfo_Ok s s' ns i u :
  SetRollupInfo ns i s = (s', Ok u) -> RollupInfo_encodable i ->
  exists b, updated s s' (<[RollupInfoKey ns := b]> (view s)) /\
            rollup_at (view s') ns = Ok (Some i).
Proof.
  intros Hr Hi. unfold SetRollupInfo in Hr.
  apply bind_Ok_inv in Hr as (s1 & b & Hb & Hr).
  unfold lift in Hb. injection Hb as -> Hb.
  apply Insert_Ok_inv in Hr. exists b. split; [done|].
  unfold rollup_at, view_get. rewrite (updated_lookup _ _ _ _ Hr).
  unfold innerGetRollupInfo, inner_get.
  unfold bytes_Err in Hb. destruct (Packer_Err _) eqn:E in Hb; [done|]. injection Hb as <-.
  erewrite wire_roundtrip; [done|apply RollupInfo_writes|by apply RollupInfo_reads|done|done].
Qed.

Lemma SetRollupRegistry_Ok s s' l u :
  SetRollupRegistry l s = (s', Ok u) -> Forall Namespace_encodable l ->
  exists b, updated s s' (<[RollupRegistryKey := b]> (view s)) /\
            registry_at (view s') = Ok l.
Proof.
  intros Hr Hl. unfold SetRollupRegistry in Hr.
  apply bind_Ok_inv in Hr as (s1 & b & Hb & Hr).
  unfold lift in Hb. injection Hb as -> Hb.
  apply Insert_Ok_inv in Hr. exists b. split; [done|].
  unfold registry_at, view_get. rewrite (updated_lookup _ _ _ _ Hr).
  unfold innerGetRegistry, inner_get, UnpackNamespaces.
  by rewrite (UnpackNamespaces_Pack _ _ Hl Hb).
Qed.

Lemma SetEpochExits_Ok s s' e i u :
  SetEpochExits e i s = (s', Ok u) -> Forall EpochInfo_encodable (Exits i) ->
  exists b, updated s s' (<[EpochExitsKey e := b]> (view s)) /\
            exits_at (view s') e = Ok (Some i, true).
Proof.
  intros Hr Hi. unfold SetEpochExits, setEpochExits in Hr.
  apply bind_Ok_inv in Hr as (s1 & b & Hb & Hr).
  unfold lift in Hb. injection Hb as -> Hb.
  apply Insert_Ok_inv in Hr. exists b. split; [done|].
  unfold exits_at, view_get. rewrite (updated_lookup _ _ _ _ Hr).
  unfold innerGetEpochExits, inner_get.
  unfold bytes_Err in Hb. destruct (Packer_Err _) eqn:E in Hb; [done|]. injection Hb as <-.
  simpl. by rewrite (UnmarshalEpochExitsInfo_Marshal i _ Hi E).
Qed.

(** The writes neither panic nor leave a partial change. *)
Lemma store_bytes_cases s k (r : res bytes) :
  is_panic r = false ->
  wp (b ← lift r; Insert k b) s (fun s' o =>
    (o = Ok tt /\ exists b, r = Ok b /\ updated s s' (<[k := b]> (view s))) \/
    ((exists e, o = Err e) /\ s' = s)).
Proof.
  intros Hp. apply wp_bind, wp_lift. destruct r as [b|e|p]; [|by right; eauto|done].
  eapply wp_conseq; [apply Insert_cases|]. intros s' o [[-> Hu]|[He ->]]; [left|right]; eauto.
Qed.

Lemma bytes_Err_no_panic p : is_panic (bytes_Err p) = false.
Proof. unfold bytes_Err. by destruct (Packer_Err p). Qed.

Lemma SetRollupInfo_cases s ns i :
  wp (SetRollupInfo ns i) s (fun s' o => o = Ok tt \/ ((exists e, o = Err e) /\ s' = s)).
Proof.
  eapply wp_conseq; [apply store_bytes_cases, bytes_Err_no_panic|].
  intros s' o [[-> _]|H']; auto.
Qed.
Lemma SetRollupRegistry_cases s l :
  wp (SetRollupRegistry l) s (fun s' o => o = Ok tt \/ ((exists e, o = Err e) /\ s' = s)).
Proof.
  eapply wp_conseq; [apply store_bytes_cases, PackNamespaces_no_panic|].
  intros s' o [[-> _]|H']; auto.
Qed.
Lemma SetEpochExits_cases s e i :
  wp (SetEpochExits e i) s (fun s' o => o = Ok tt \/ ((exists e, o = Err e) /\ s' = s)).
Proof.
  eapply wp_conseq; [apply store_bytes_cases, bytes_Err_no_panic|].
  intros s' o [[-> _]|H']; auto.
Qed.
End rollup_writes.

(** ** Filling a buffer piece by piece *)

Section fill.
Lemma drop_zeros n m : drop n (zeros m) = zeros (m - n).
Proof. apply drop_replicate. Qed.

Lemma put_be_zeros n v m :
  (n <= m)%nat -> put_be n v (zeros m) = Ok (be_enc n v ++ zeros (m - n)).
Proof.
  intros. unfold put_be. rewrite length_zeros, drop_zeros.
  by rewrite (proj2 (Nat.leb_le _ _)).
Qed.

Lemma update_copy_zeros (p src : bytes) i m :
  i = length p -> (length src <= m)%nat ->
  update_from (p ++ zeros m) i (fun d => Ok (copy d src)) =
  Ok ((p ++ src) ++ zeros (m - length src)).
Proof.
  intros Hi Hs. rewrite (update_from_app _ _ _ _ (src ++ zeros (m - length src))); [|done|].
  - by rewrite app_assoc.
  - by rewrite copy_short, drop_zeros by (by rewrite length_zeros).
Qed.

Lemma set_index_zeros (p : bytes) i m b :
  i = length p -> (0 < m)%nat ->
  set_index (p ++ zeros m) i b = Ok ((p ++ [b]) ++ zeros (m - 1)).
Proof.
  intros -> Hm. destruct m as [|m]; [lia|]. unfold set_index.
  rewrite length_app, length_zeros, (proj2 (Nat.ltb_lt _ _)) by lia.
  unfold zeros. cbn [replicate].
  rewrite insert_app_r_alt, Nat.sub_diag, Nat.sub_succ, Nat.sub_0_r by lia.
  by rewrite <- app_assoc.
Qed.

Lemma update_put_zeros (p : bytes) i n v m :
  i = length p -> (n <= m)%nat ->
  update_from (p ++ zeros m) i (put_be n v) = Ok ((p ++ be_enc n v) ++ zeros (m - n)).
Proof.
  intros. rewrite (update_from_app _ _ _ _ (be_enc n v ++ zeros (m - n))); [|done|].
  - by rewrite app_assoc.
  - by apply put_be_zeros.
Qed.

Lemma slice_middle (a b c : bytes) i j :
  i = length a -> j = (length a + length b)%nat -> slice (a ++ b ++ c) i j = Ok b.
Proof.
  intros -> ->. unfold slice. rewrite !length_app.
  rewrite !(proj2 (Nat.leb_le _ _)) by lia. simpl.
  rewrite drop_app_length, take_app_length'; [done|lia].
Qed.

Lemma slice_prefix (a b : bytes) j : j = length a -> slice (a ++ b) 0 j = Ok a.
Proof. by apply (slice_middle [] a b 0 j). Qed.

Lemma slice_from_app (a b : bytes) i : i = length a -> slice_from (a ++ b) i = Ok b.
Proof.
  intros ->. unfold slice_from. rewrite length_app.
  rewrite (proj2 (Nat.leb_le _ _)) by lia. by rewrite drop_app_length.
Qed.

Lemma index_app (a b : bytes) i x : i = length a -> index (a ++ x :: b) i = Ok x.
Proof.
  intros ->. unfold index. by rewrite lookup_app_r, Nat.sub_diag by lia.
Qed.
End fill.

Section bid_facts.
Context `{HC : HyperConsts} {CO : Codec} {HA : HActions} `{DE : DatabaseErrors}.
Context `{SP : StatePermissions} {S : Type} `{MU : Mutable S} {MS : MutableSpec S}.

(** The value [StoreArcadiaBidInfo] inserts: price, public key, signature. *)
Lemma StoreArcadiaBidInfo_eq e price pk sig (s : S) :
  length pk = 48%nat -> length sig = 96%nat ->
  StoreArcadiaBidInfo e price pk sig s =
  Insert (ArcadiaBidKey e) (be_enc 8 price ++ pk ++ sig) s.
Proof.
  intros Hpk Hsig. unfold StoreArcadiaBidInfo, PutUint64.
  rewrite (bind_lift _ _ _ _ (put_be_zeros 8 price (8 + 48 + 96) ltac:(lia))).
  erewrite bind_lift;
    [|apply update_copy_zeros; [by rewrite length_be_enc|rewrite Hpk; lia]].
  erewrite bind_lift;
    [|apply update_copy_zeros; [by rewrite length_app, length_be_enc, Hpk|rewrite Hpk, Hsig; lia]].
  rewrite Hpk, Hsig. cbn [Nat.add Nat.sub zeros replicate].
  by rewrite app_nil_r, <- app_assoc.
Qed.
End bid_facts.

(** What [vm.ReadState] documents: the values of the keys, in order, each with
    its own error. *)
Definition reads_state `{DatabaseErrors} (f : ReadState) (v : gmap bytes bytes) : Prop :=
  forall k, f [k] = match v !! k with
                    | Some b => ([b], [None])
                    | None => ([[]], [Some ErrNotFound])
                    end.

Lemma read_one_view `{DatabaseErrors} f v k : reads_state f v -> read_one f k = view_get v k.
Proof.
  intros Hf. unfold read_one, view_get. rewrite Hf. by destruct (v !! k).
Qed.

(** A stored bid reads back, through each of the three readers, as the price,
    key and signature it was stored with: by the action that compares bids, by
    the query for the pair, and by the resolver that serves the builder from
    committed state. Storing it changes no other key of the state. *)
Theorem StoreArcadiaBidInfo_roundtrip
    `{HC : HyperConsts} {CO : Codec} {HA : HActions} {DE : DatabaseErrors}
    {DES : DatabaseErrorsSpec} {SP : StatePermissions} {S : Type} {IM : Immutable S}
    {MU : Mutable S} {MS : MutableSpec S}
    (s s' : S) (f : ReadState) (e price : Z) (pk sig : bytes) :
  length pk = 48%nat -> length sig = 96%nat -> is_u64 price ->
  can s (ArcadiaBidKey e) Read -> reads_state f (view s') ->
  StoreArcadiaBidInfo e price pk sig s = (s', Ok tt) ->
  GetArcadiaBidValue s' e = Ok price /\
  GetArcadiaBuilderInfoAndSignature s' e = Ok (pk, sig) /\
  GetArcadiaBuilderFromState f e = Ok (Some pk) /\
  (forall k, k <> ArcadiaBidKey e -> view s' !! k = view s !! k).
Proof.
  intros Hpk Hsig Hp Hr Hf Hs. rewrite StoreArcadiaBidInfo_eq in Hs by done.
  apply Insert_Ok_inv in Hs.
  assert (view_get (view s') (ArcadiaBidKey e) = Ok (be_enc 8 price ++ pk ++ sig)) as Hv.
  { unfold view_get. by rewrite (updated_lookup _ _ _ _ Hs). }
  assert (can s' (ArcadiaBidKey e) Read) as Hr' by eauto with seqvm.
  unfold GetArcadiaBidValue, GetArcadiaBuilderInfoAndSignature, GetArcadiaBuilderFromState.
  rewrite !GetValue_view, !(read_one_view _ _ _ Hf), !Hv, !bind_Ok by done.
  rewrite slice_prefix by (by rewrite length_be_enc).
  rewrite (slice_middle (be_enc 8 price) pk) by (rewrite ?length_be_enc; lia).
  rewrite (app_assoc (be_enc 8 price) pk sig).
  rewrite slice_from_app by (by rewrite length_app, length_be_enc, Hpk).
  rewrite !bind_Ok. split; [|split; [|split]]; try done.
  - rewrite <- (app_nil_r (be_enc 8 price)). by apply Uint64_enc.
  - intros k Hk. by eapply updated_lookup_ne.
Qed.

Section transaction_facts.
Context `{HC : HyperConsts} {HCS : HyperConstsSpec} `{FE : Fees} {FES : FeesSpec}.
Context `{DE : DatabaseErrors} {D : Type} {DW : KeyValueWriter D} {DR : KeyValueReader D}.

Definition success_byte (success : bool) : byte := if success then successByte else failureByte.

(** The value [StoreTransaction] puts. *)
Definition tx_value (t : Z) (success : bool) (units : Dimensions) (fee : Z) : bytes :=
  be_enc 8 (u64 t) ++ success_byte success :: Dimensions_Bytes units ++ be_enc 8 fee.

Lemma StoreTransaction_eq id t success units fee (d : D) :
  Dimensions_wf units ->
  StoreTransaction id t success units fee d =
  Put (txPrefix :: arr_list id) (tx_value t success units fee) d.
Proof.
  intros Hu. unfold StoreTransaction, PutUint64. rewrite Uint64Len_8.
  pose proof (length_Dimensions_Bytes units Hu) as Hl.
  rewrite (bind_lift _ _ _ _ (TxKey_eq id)).
  erewrite bind_lift; [|apply put_be_zeros; lia].
  erewrite bind_lift; [|apply set_index_zeros; [by rewrite length_be_enc|lia]].
  erewrite bind_lift;
    [|apply update_copy_zeros; [by rewrite length_app, length_be_enc|lia]].
  erewrite bind_lift;
    [|apply update_put_zeros; [rewrite !length_app, length_be_enc, Hl; simpl; lia|lia]].
  replace (8 + 1 + DimensionsLen + 8 - 8 - 1 - length (Dimensions_Bytes units) - 8)%nat
    with 0%nat by lia.
  cbn [zeros replicate]. by rewrite app_nil_r, <- !app_assoc.
Qed.

(** Reading the value back, field by field. *)
Definition decode_tx (v : bytes) : res (option TxResult) :=
  t ← Uint64 v;
  b ← index v Uint64Len;
  let success := negb (bool_decide (b = failureByte)) in
  du ← slice v (Uint64Len + 1) (Uint64Len + 1 + DimensionsLen);
  d ← UnpackDimensions du;
  tl ← slice_from v (Uint64Len + 1 + DimensionsLen);
  fee ← Uint64 tl;
  Ok (Some {| tx_timestamp := i64 t; tx_success := success; tx_units := d; tx_fee := fee |}).

Lemma decode_tx_value t success units fee :
  is_i64 t -> is_u64 fee -> Dimensions_wf units ->
  decode_tx (tx_value t success units fee) =
    Ok (Some {| tx_timestamp := t; tx_success := success; tx_units := units; tx_fee := fee |}).
Proof.
  intros Ht Hf Hu. unfold decode_tx, tx_value. rewrite Uint64Len_8.
  pose proof (length_Dimensions_Bytes units Hu) as Hl.
  rewrite Uint64_enc, bind_Ok by apply u64_is_u64.
  rewrite index_app, bind_Ok by (by rewrite length_be_enc).
  change (?x :: ?l ++ ?m) with ([x] ++ l ++ m). rewrite (app_assoc (be_enc 8 (u64 t))).
  rewrite slice_middle by (rewrite length_app, length_be_enc; simpl; lia).
  rewrite bind_Ok, UnpackDimensions_Bytes, bind_Ok by done.
  rewrite app_assoc, slice_from_app, bind_Ok
    by (rewrite !length_app, length_be_enc; simpl; lia).
  rewrite <- (app_nil_r (be_enc 8 fee)), Uint64_enc, bind_Ok, i64_u64 by done.
  by destruct success.
Qed.
End transaction_facts.

(** A stored transaction result reads back. After [StoreTransaction] of an
    identifier, [GetTransaction] of it returns the stored timestamp (negative
    ones included), success flag, units and fee, and [GetTransaction] of any
    other identifier returns what it returned before. *)
Theorem GetTransaction_StoreTransaction
    `{HC : HyperConsts} {HCS : HyperConstsSpec} {FE : Fees} {FES : FeesSpec}
    {DE : DatabaseErrors} {D : Type} {DW : KeyValueWriter D} {DR : KeyValueReader D}
    {DBS : KeyValueDBSpec D}
    (d d' : D) (id id' : ID) (t : Z) (success : bool) (units : Dimensions) (fee : Z) :
  is_i64 t -> is_u64 fee -> Dimensions_wf units ->
  StoreTransaction id t success units fee d = (d', Ok tt) ->
  GetTransaction d' id' =
  if decide (id = id')
  then Ok (Some {| tx_timestamp := t; tx_success := success; tx_units := units; tx_fee := fee |})
  else GetTransaction d id'.
Proof.
  intros Ht Hf Hu Hs. rewrite StoreTransaction_eq in Hs by done.
  unfold GetTransaction. rewrite !TxKey_eq, !bind_Ok.
  destruct (decide (id = id')) as [<-|Hne].
  - rewrite (Put_Get _ _ _ _ Hs). by apply decode_tx_value.
  - rewrite (Put_Get_ne d _ (txPrefix :: arr_list id') _ d' Hs); [done|].
    intros Heq%(f_equal tail). by apply Hne, arr_eq.
Qed.

(** ** Frames of the setters *)

Section storage_frame.
Context `{HC : HyperConsts} {CO : Codec} {HA : HActions} `{DE : DatabaseErrors}.
Context `{SP : StatePermissions} {S : Type} `{MU : Mutable S} {MS : MutableSpec S}.
Implicit Types (P : bytes -> Prop).

Lemma frame_SetRollupInfo P ns i : P (RollupInfoKey ns) -> frame P (SetRollupInfo ns i).
Proof. intros. unfold SetRollupInfo. frame_steps. Qed.
Lemma frame_SetRollupRegistry P l : P RollupRegistryKey -> frame P (SetRollupRegistry l).
Proof. intros. unfold SetRollupRegistry. frame_steps. Qed.
Lemma frame_SetEpochExits P e i : P (EpochExitsKey e) -> frame P (SetEpochExits e i).
Proof. intros. unfold SetEpochExits, setEpochExits. frame_steps. Qed.
Lemma frame_StoreArcadiaBidInfo P e p pk sig :
  P (ArcadiaBidKey e) -> frame P (StoreArcadiaBidInfo e p pk sig).
Proof. intros. unfold StoreArcadiaBidInfo. frame_steps. Qed.
End storage_frame.

#[export] Hint Resolve frame_SetRollupInfo frame_SetRollupRegistry frame_SetEpochExits
  frame_StoreArcadiaBidInfo : frame.

(** ** Reads: what the state holds, or an error *)

Section read_cases.
Context `{HC : HyperConsts} {CO : Codec} {HA : HActions} `{DE : DatabaseErrors}.
Context {DES : DatabaseErrorsSpec} `{SP : StatePermissions}.
Context {S : Type} `{MU : Mutable S} {MS : MutableSpec S}.
Implicit Types (s : S).

Lemma inner_get_cases {A} (d : bytes -> res A) s k :
  (exists e, inner_get d (GetValue s k) = Err e) \/
  inner_get d (GetValue s k) = inner_get d (view_get (view s) k).
Proof.
  destruct (perm_Has (scope s k) Read) eqn:Hr.
  - right. by rewrite GetValue_view.
  - left. eexists. unfold inner_get. by rewrite GetValue_spec, Hr, ErrInvalidKeyOrPermission_Is.
Qed.

Lemma GetRollupInfo_cases s ns :
  (exists e, GetRollupInfo s ns = Err e) \/ GetRollupInfo s ns = rollup_at (view s) ns.
Proof.
  unfold GetRollupInfo, rollup_at, innerGetRollupInfo.
  destruct (inner_get_cases (fun v => snd (UnmarshalRollupInfo (NewReader v NetworkSizeLimit)))
              s (RollupInfoKey ns)) as [[e ->]| ->]; [left; by exists e|by right].
Qed.

Lemma GetRollupRegistry_cases s :
  (exists e, GetRollupRegistry s = Err e) \/ GetRollupRegistry s = registry_at (view s).
Proof.
  unfold GetRollupRegistry, registry_at, innerGetRegistry.
  destruct (inner_get_cases UnpackNamespaces s RollupRegistryKey) as [[e ->]| ->];
    [left; by exists e|by right].
Qed.

Lemma GetEpochExits_cases s e :
  (exists x, GetEpochExits s e = Err x) \/ GetEpochExits s e = exits_at (view s) e.
Proof.
  unfold GetEpochExits, getEpochExits, exits_at, innerGetEpochExits.
  destruct (inner_get_cases (fun v => snd (UnmarshalEpochExitsInfo (NewReader v NetworkSizeLimit)))
              s (EpochExitsKey e)) as [[x ->]| ->]; [left; by exists x|right].
  by destruct (inner_get _ _) as [[] | |].
Qed.
End read_cases.

(** ** The properties at work *)

Module StorageExamples.
Import Sample.Instances.

Lemma BalanceKey_pool_independent_witness :
  BalanceKey_in (replicate 36 xff) (w_addr 7) = Ok (BalanceKey (w_addr 7)).
Proof. apply (BalanceKey_pool_independent (replicate 36 xff) (w_addr 7)). reflexivity. Defined.

Lemma UnpackEpochs_PackEpochs_witness :
  match PackEpochs [3; 0; 5] with Ok b => UnpackEpochs b <> Ok [3; 0; 5] | _ => False end.
Proof.
  destruct (PackEpochs [3; 0; 5]) as [b|e|p] eqn:E; [|vm_compute in E; discriminate..].
  intros H. apply (proj1 (UnpackEpochs_PackEpochs [3; 0; 5] b eq_refl
    ltac:(all_in_range) E) H). right; left.
Defined.

Definition w_bid_state : store :=
  fst (StoreArcadiaBidInfo 4 1000 (zeros 48) (replicate 96 xff) (w_store ∅)).
Definition w_read (v : gmap bytes bytes) : ReadState := fun l =>
  match l with
  | k :: _ => match v !! k with Some b => ([b], [None]) | None => ([[]], [Some ErrNotFound]) end
  | [] => ([], [])
  end.

Lemma StoreArcadiaBidInfo_roundtrip_witness :
  GetArcadiaBidValue w_bid_state 4 = Ok 1000 /\
  GetArcadiaBuilderInfoAndSignature w_bid_state 4 = Ok (zeros 48, replicate 96 xff).
Proof.
  destruct (StoreArcadiaBidInfo_roundtrip (w_store ∅) w_bid_state (w_read (st_view w_bid_state))
    4 1000 (zeros 48) (replicate 96 xff)) as (H1 & H2 & _); done.
Defined.

Lemma GetTransaction_StoreTransaction_witness :
  GetTransaction (fst (StoreTransaction (w_id 1) (-5) true [1; 2; 3; 4; 5] 9 (∅ : gmap bytes bytes))) (w_id 1) =
  Ok (Some {| tx_timestamp := -5; tx_success := true; tx_units := [1; 2; 3; 4; 5]; tx_fee := 9 |}).
Proof.
  rewrite (GetTransaction_StoreTransaction (∅ : gmap bytes bytes) _ (w_id 1) (w_id 1) (-5) true [1; 2; 3; 4; 5] 9).
  - rewrite decide_True by done. reflexivity.
  - in_range.
  - in_range.
  - split; [done|]. all_in_range.
  - apply run_eq. vm_compute. reflexivity.
Defined.
End StorageExamples.
