(* ===== verification/Ledger.v ===== *)
(** * Ledger: balances as an abstract ledger

    The abstract specification of [storage/balance.go]: the balance of an
    address in the contents of the state, updates of it, and the total supply.
    The accessors of [Storage] are shown to implement it. *)

From stdpp Require Import base numbers countable gmap list strings.
From Stdlib Require Import ZArith Lia Strings.Byte.
From S2P Require Import Prelude HyperSDK State Wire Sample Storage.

Local Open Scope Z_scope.

Section ledger.
Context `{HC : HyperConsts}.
Implicit Types (v : gmap bytes bytes) (a : Address).

(** The balance an address has; 0 when it has no record. *)
Definition bal_at v a : Z :=
  match v !! BalanceKey a with
  | Some b => be_dec (take 8 b)
  | None => 0
  end.

Definition set_bal v a (n : Z) : gmap bytes bytes := <[BalanceKey a := be_enc 8 n]> v.

(** Debit: the record of an emptied account is removed. *)
Definition debit v a (n : Z) : gmap bytes bytes :=
  if bal_at v a - n =? 0 then delete (BalanceKey a) v
  else set_bal v a (bal_at v a - n).

Definition credit v a (n : Z) : gmap bytes bytes := set_bal v a (bal_at v a + n).

(** Keys of balances: the only keys of the state that start with
    [balancePrefix]. *)
Definition is_balance_key (k : bytes) : bool :=
  match k with
  | b :: _ => bool_decide (b = balancePrefix)
  | [] => false
  end.

(** Every balance record has the eight bytes of a [uint64]. *)
Definition ledger_wf v : Prop :=
  forall k b, v !! k = Some b -> is_balance_key k = true -> length b = 8%nat.

Definition weight (k b : bytes) : Z :=
  if is_balance_key k then be_dec (take 8 b) else 0.

Definition total v : Z := map_fold (fun k b acc => weight k b + acc) 0 v.

Context {HCS : HyperConstsSpec}.

Lemma is_balance_key_BalanceKey a : is_balance_key (BalanceKey a) = true.
Proof. rewrite BalanceKey_eq. by apply bool_decide_eq_true_2. Qed.

Lemma be_dec_take8_bound (b : bytes) : is_u64 (be_dec (take 8 b)).
Proof.
  pose proof (be_dec_bound (take 8 b)) as Hb. rewrite length_take in Hb.
  assert (256 ^ Z.of_nat (8 `min` length b) <= 256 ^ 8).
  { apply Z.pow_le_mono_r; lia. }
  change (256 ^ 8) with u64_mod in *. unfold is_u64. lia.
Qed.

Lemma bal_at_u64 v a : is_u64 (bal_at v a).
Proof.
  unfold bal_at. destruct (v !! _); [apply be_dec_take8_bound|].
  unfold is_u64, u64_mod. lia.
Qed.

Lemma take8_be_enc n : take 8 (be_enc 8 n) = be_enc 8 n.
Proof. apply take_ge. by rewrite length_be_enc. Qed.

Lemma bal_at_set_bal v a n : is_u64 n -> bal_at (set_bal v a n) a = n.
Proof.
  intros. unfold bal_at, set_bal. rewrite lookup_insert_eq, take8_be_enc.
  by apply is_u64_be.
Qed.

Lemma bal_at_set_bal_ne v a b n : a <> b -> bal_at (set_bal v a n) b = bal_at v b.
Proof.
  intros Hne. unfold bal_at, set_bal.
  by rewrite lookup_insert_ne by (by intros ?%BalanceKey_inj).
Qed.

Lemma bal_at_credit v a n :
  0 <= n -> bal_at v a + n < u64_mod -> bal_at (credit v a n) a = bal_at v a + n.
Proof.
  intros. unfold credit. apply bal_at_set_bal.
  pose proof (bal_at_u64 v a). unfold is_u64 in *. lia.
Qed.

Lemma bal_at_credit_ne v a b n : a <> b -> bal_at (credit v a n) b = bal_at v b.
Proof. apply bal_at_set_bal_ne. Qed.

Lemma bal_at_debit v a n :
  0 <= n <= bal_at v a -> bal_at (debit v a n) a = bal_at v a - n.
Proof.
  intros. unfold debit. destruct (Z.eqb_spec (bal_at v a - n) 0) as [E|E].
  - unfold bal_at at 1. by rewrite lookup_delete_eq.
  - apply bal_at_set_bal. pose proof (bal_at_u64 v a). unfold is_u64 in *. lia.
Qed.

Lemma bal_at_debit_ne v a b n : a <> b -> bal_at (debit v a n) b = bal_at v b.
Proof.
  intros Hne. unfold debit. destruct (_ =? _).
  - unfold bal_at. by rewrite lookup_delete_ne by (by intros ?%BalanceKey_inj).
  - by apply bal_at_set_bal_ne.
Qed.

(** Only the record of the address changes. *)
Lemma credit_lookup_ne v a n k : k <> BalanceKey a -> credit v a n !! k = v !! k.
Proof. intros. unfold credit, set_bal. by rewrite lookup_insert_ne. Qed.

Lemma debit_lookup_ne v a n k : k <> BalanceKey a -> debit v a n !! k = v !! k.
Proof.
  intros. unfold debit. destruct (_ =? _).
  - by rewrite lookup_delete_ne.
  - unfold set_bal. by rewrite lookup_insert_ne.
Qed.

Lemma set_bal_wf v a n : ledger_wf v -> ledger_wf (set_bal v a n).
Proof.
  intros Hv k b. unfold set_bal. rewrite lookup_insert. case_decide.
  - intros [= <-] _. apply length_be_enc.
  - apply Hv.
Qed.

Lemma delete_wf v k : ledger_wf v -> ledger_wf (delete k v).
Proof. intros Hv k' b [_ ?]%lookup_delete_Some. by apply Hv. Qed.

Lemma credit_wf v a n : ledger_wf v -> ledger_wf (credit v a n).
Proof. apply set_bal_wf. Qed.

Lemma debit_wf v a n : ledger_wf v -> ledger_wf (debit v a n).
Proof. intros. unfold debit. destruct (_ =? _); auto using delete_wf, set_bal_wf. Qed.

(** *** Total supply *)

Lemma weight_nonneg k b : 0 <= weight k b.
Proof.
  unfold weight. destruct (is_balance_key k); [|lia].
  pose proof (be_dec_take8_bound b). unfold is_u64 in *. lia.
Qed.

Lemma total_empty : total ∅ = 0.
Proof. apply map_fold_empty. Qed.

Lemma total_insert_new v k b : v !! k = None -> total (<[k := b]> v) = weight k b + total v.
Proof.
  intros. unfold total. rewrite map_fold_insert_L; [done| |done].
  intros. lia.
Qed.

Lemma total_delete v k b : v !! k = Some b -> total v = weight k b + total (delete k v).
Proof.
  intros Hk. rewrite <- total_insert_new by apply lookup_delete_eq.
  by rewrite insert_delete_id.
Qed.

Definition weight_at v k : Z := match v !! k with Some b => weight k b | None => 0 end.

Lemma total_delete_at v k : total (delete k v) = total v - weight_at v k.
Proof.
  unfold weight_at. destruct (v !! k) as [b|] eqn:E.
  - rewrite (total_delete v k b E). lia.
  - rewrite delete_id by done. lia.
Qed.

Lemma total_insert v k b : total (<[k := b]> v) = total v - weight_at v k + weight k b.
Proof.
  rewrite <- insert_delete_eq, total_insert_new by apply lookup_delete_eq.
  rewrite total_delete_at. lia.
Qed.

Lemma total_nonneg v : 0 <= total v.
Proof.
  unfold total. apply (map_fold_weak_ind (fun r _ => 0 <= r)); [lia|].
  intros k b m r _ Hr. pose proof (weight_nonneg k b). lia.
Qed.

Lemma weight_at_bal v a : weight_at v (BalanceKey a) = bal_at v a.
Proof.
  unfold weight_at, bal_at, weight. by rewrite is_balance_key_BalanceKey.
Qed.

Lemma total_ge_bal v a : bal_at v a <= total v.
Proof.
  rewrite <- weight_at_bal. pose proof (total_delete_at v (BalanceKey a)).
  pose proof (total_nonneg (delete (BalanceKey a) v)). lia.
Qed.

(** Two different accounts together hold at most the supply. *)
Lemma total_ge_bal2 v a b : a <> b -> bal_at v a + bal_at v b <= total v.
Proof.
  intros Hne. pose proof (total_ge_bal (delete (BalanceKey a) v) b) as Hb.
  rewrite total_delete_at, weight_at_bal in Hb.
  unfold bal_at at 1 in Hb. rewrite lookup_delete_ne in Hb by (by intros ?%BalanceKey_inj).
  fold (bal_at v b) in Hb. lia.
Qed.

Lemma total_set_bal v a n : is_u64 n -> total (set_bal v a n) = total v - bal_at v a + n.
Proof.
  intros. unfold set_bal. rewrite total_insert, weight_at_bal.
  unfold weight. by rewrite is_balance_key_BalanceKey, take8_be_enc, is_u64_be.
Qed.

Lemma total_credit v a n :
  0 <= n -> bal_at v a + n < u64_mod -> total (credit v a n) = total v + n.
Proof.
  intros. unfold credit. rewrite total_set_bal; [lia|].
  pose proof (bal_at_u64 v a). unfold is_u64 in *. lia.
Qed.

Lemma total_debit v a n : 0 <= n <= bal_at v a -> total (debit v a n) = total v - n.
Proof.
  intros. unfold debit. destruct (Z.eqb_spec (bal_at v a - n) 0).
  - rewrite total_delete_at, weight_at_bal. lia.
  - rewrite total_set_bal; [lia|].
    pose proof (bal_at_u64 v a). unfold is_u64 in *. lia.
Qed.

(** Data that is not a balance does not count. *)
Lemma total_insert_other v k b : is_balance_key k = false -> total (<[k := b]> v) = total v.
Proof.
  intros Hk. rewrite total_insert. unfold weight_at, weight. rewrite Hk.
  destruct (v !! k); lia.
Qed.

Lemma insert_other_wf v k b : is_balance_key k = false -> ledger_wf v -> ledger_wf (<[k := b]> v).
Proof.
  intros Hk Hv k' b'. rewrite lookup_insert. case_decide; [by subst; rewrite Hk|apply Hv].
Qed.

Lemma is_balance_key_ne k a : is_balance_key k = false -> k <> BalanceKey a.
Proof. intros Hk ->. by rewrite is_balance_key_BalanceKey in Hk. Qed.
End ledger.

(** ** The accessors implement the ledger *)

Section refinement.
Context `{HC : HyperConsts} {HCS : HyperConstsSpec} {SM : SafeMath} {SMS : SafeMathSpec}.
Context `{DE : DatabaseErrors} {DES : DatabaseErrorsSpec}.

Definition has_account (v : gmap bytes bytes) (a : Address) : bool :=
  match v !! BalanceKey a with Some _ => true | None => false end.

Lemma innerGetBalance_view v a :
  ledger_wf v ->
  innerGetBalance (view_get v (BalanceKey a)) = Ok (bal_at v a, has_account v a).
Proof.
  intros Hv. unfold view_get, bal_at, has_account.
  destruct (v !! BalanceKey a) as [b|] eqn:E; unfold innerGetBalance.
  - specialize (Hv _ _ E (is_balance_key_BalanceKey a)).
    unfold Uint64. rewrite Hv. simpl. done.
  - by rewrite ErrNotFound_Is.
Qed.

Lemma has_account_bal v a : bal_at v a <> 0 -> has_account v a = true.
Proof. unfold bal_at, has_account. by destruct (v !! BalanceKey a). Qed.

Lemma GetBalanceFromState_view f v a :
  reads_state f v -> ledger_wf v -> GetBalanceFromState f a = Ok (bal_at v a).
Proof.
  intros Hf Hv. unfold GetBalanceFromState.
  by rewrite (read_one_view _ _ _ Hf), innerGetBalance_view.
Qed.

Context `{SP : StatePermissions} {S : Type} `{MU : Mutable S} {MS : MutableSpec S}.
Implicit Types (s : S) (a : Address).

Lemma getBalance_view s a :
  ledger_wf (view s) -> can s (BalanceKey a) Read ->
  getBalance s a = Ok (BalanceKey a, bal_at (view s) a, has_account (view s) a).
Proof.
  intros Hv Hr. unfold getBalance. by rewrite GetValue_view, innerGetBalance_view.
Qed.

Lemma GetBalance_view s a :
  ledger_wf (view s) -> can s (BalanceKey a) Read ->
  GetBalance s a = Ok (bal_at (view s) a).
Proof. intros. unfold GetBalance. by rewrite getBalance_view. Qed.

Lemma balance_fits a n : ValueFits (BalanceKey a) (AppendUint64 [] n) = true.
Proof.
  rewrite BalanceKey_eq. rewrite app_comm_cons.
  apply ValueFits_chunks; [done|]. unfold AppendUint64. by rewrite app_nil_l, length_be_enc.
Qed.

(** The rights to debit an account, and to credit or create one. *)
Definition can_debit s a : Prop := can s (BalanceKey a) Read /\ can s (BalanceKey a) Write.
Definition can_credit s a : Prop := can_debit s a /\ can s (BalanceKey a) Allocate.

Lemma SubBalance_enough s a n :
  ledger_wf (view s) -> can_debit s a -> is_u64 n -> n <= bal_at (view s) a ->
  wp (SubBalance a n) s (fun s' r => r = Ok tt /\ updated s s' (debit (view s) a n)).
Proof.
  intros Hv [Hr Hw] Hn Hle. unfold SubBalance.
  apply wp_bind, wp_get, wp_bind, wp_lift.
  rewrite getBalance_view by done. apply wp_bind, wp_lift.
  rewrite Sub64_spec, (proj2 (Z.leb_le _ _)) by (done || apply bal_at_u64).
  simpl. unfold debit. destruct (Z.eqb_spec (bal_at (view s) a - n) 0) as [E|E].
  - by apply Remove_allowed.
  - apply Insert_allowed; [apply balance_fits|done|].
    intros Hnone. exfalso. unfold bal_at in *. rewrite Hnone in *. unfold is_u64 in Hn. lia.
Qed.

Lemma SubBalance_short s a n :
  ledger_wf (view s) -> can s (BalanceKey a) Read -> is_u64 n -> bal_at (view s) a < n ->
  wp (SubBalance a n) s (fun s' r =>
    (exists e, r = Err e /\ errors_Is e ErrInvalidBalance = true) /\ s' = s).
Proof.
  intros Hv Hr Hn Hlt. unfold SubBalance.
  apply wp_bind, wp_get, wp_bind, wp_lift.
  rewrite getBalance_view by done. apply wp_bind, wp_lift.
  rewrite Sub64_spec, (proj2 (Z.leb_gt _ _)) by (done || apply bal_at_u64).
  simpl. eauto.
Qed.

Lemma AddBalance_fits s a n create :
  ledger_wf (view s) -> can_credit s a -> is_u64 n ->
  create = true \/ has_account (view s) a = true ->
  bal_at (view s) a + n < u64_mod ->
  wp (AddBalance a n create) s (fun s' r => r = Ok tt /\ updated s s' (credit (view s) a n)).
Proof.
  intros Hv [[Hr Hw] Ha] Hn Hc Hle. unfold AddBalance.
  apply wp_bind, wp_get, wp_bind, wp_lift.
  rewrite getBalance_view by done.
  replace (negb (has_account (view s) a) && negb create) with false
    by (destruct Hc as [-> | ->]; by rewrite ?andb_false_r).
  apply wp_bind, wp_lift.
  rewrite Add64_spec, (proj2 (Z.ltb_lt _ _)) by (done || apply bal_at_u64).
  simpl. by apply Insert_allowed; [apply balance_fits|..].
Qed.

Lemma AddBalance_overflow s a n create :
  ledger_wf (view s) -> can s (BalanceKey a) Read -> is_u64 n ->
  create = true \/ has_account (view s) a = true ->
  u64_mod <= bal_at (view s) a + n ->
  wp (AddBalance a n create) s (fun s' r =>
    (exists e, r = Err e /\ errors_Is e ErrInvalidBalance = true) /\ s' = s).
Proof.
  intros Hv Hr Hn Hc Hle. unfold AddBalance.
  apply wp_bind, wp_get, wp_bind, wp_lift.
  rewrite getBalance_view by done.
  replace (negb (has_account (view s) a) && negb create) with false
    by (destruct Hc as [-> | ->]; by rewrite ?andb_false_r).
  apply wp_bind, wp_lift.
  rewrite Add64_spec, (proj2 (Z.ltb_ge _ _)) by (done || apply bal_at_u64).
  simpl. eauto.
Qed.

Lemma AddBalance_absent s a n :
  ledger_wf (view s) -> can s (BalanceKey a) Read -> has_account (view s) a = false ->
  wp (AddBalance a n false) s (fun s' r => r = Ok tt /\ s' = s).
Proof.
  intros Hv Hr Hno. unfold AddBalance.
  apply wp_bind, wp_get, wp_bind, wp_lift.
  rewrite getBalance_view by done. rewrite Hno. by apply wp_ret.
Qed.

(** Without the right to read, nothing happens. *)
Lemma getBalance_denied s a :
  perm_Has (scope s (BalanceKey a)) Read = false ->
  getBalance s a = Err ErrInvalidKeyOrPermission.
Proof.
  intros Hr. unfold getBalance, innerGetBalance.
  by rewrite GetValue_spec, Hr, ErrInvalidKeyOrPermission_Is.
Qed.

(** A debit that succeeded was covered, whatever the permissions. *)
Lemma SubBalance_Ok_inv s s' a n u :
  ledger_wf (view s) -> is_u64 n -> SubBalance a n s = (s', Ok u) ->
  n <= bal_at (view s) a /\ updated s s' (debit (view s) a n).
Proof.
  intros Hv Hn Hs. unfold SubBalance in Hs.
  apply bind_Ok_inv in Hs as (s1 & mu & [= -> ->] & Hs).
  apply bind_Ok_inv in Hs as (s1 & [[k bal] ex] & [= -> Hg] & Hs).
  destruct (perm_Has (scope s1 (BalanceKey a)) Read) eqn:Hr;
    [|by rewrite getBalance_denied in Hg].
  rewrite getBalance_view in Hg by done. injection Hg as <- <- <-.
  apply bind_Ok_inv in Hs as (s2 & nb & [= -> Hm] & Hs).
  rewrite Sub64_spec in Hm by (done || apply bal_at_u64).
  destruct (Z.leb_spec n (bal_at (view s2) a)) as [Hle|]; [|done].
  injection Hm as <-. split; [done|]. unfold debit.
  destruct (_ =? 0); [by eapply Remove_Ok_inv|by eapply Insert_Ok_inv].
Qed.

Lemma AddBalance_Ok_inv s s' a n u :
  ledger_wf (view s) -> is_u64 n -> AddBalance a n true s = (s', Ok u) ->
  bal_at (view s) a + n < u64_mod /\ updated s s' (credit (view s) a n).
Proof.
  intros Hv Hn Hs. unfold AddBalance in Hs.
  apply bind_Ok_inv in Hs as (s1 & mu & [= -> ->] & Hs).
  apply bind_Ok_inv in Hs as (s1 & [[k bal] ex] & [= -> Hg] & Hs).
  destruct (perm_Has (scope s1 (BalanceKey a)) Read) eqn:Hr;
    [|by rewrite getBalance_denied in Hg].
  rewrite getBalance_view in Hg by done. injection Hg as <- <- <-.
  rewrite andb_false_r in Hs.
  apply bind_Ok_inv in Hs as (s2 & nb & [= -> Hm] & Hs).
  rewrite Add64_spec in Hm by (done || apply bal_at_u64).
  destruct (Z.ltb_spec (bal_at (view s2) a + n) u64_mod) as [Hle|]; [|done].
  injection Hm as <-. split; [done|]. by eapply Insert_Ok_inv.
Qed.
End refinement.

#[export] Hint Resolve credit_wf debit_wf set_bal_wf delete_wf bal_at_u64 : seqvm.

(** Only the record of the address is written, whatever the outcome. *)
Section ledger_frame.
Context `{HC : HyperConsts} {HCS : HyperConstsSpec} {SM : SafeMath}.
Context `{DE : DatabaseErrors} `{SP : StatePermissions}.
Context {S : Type} `{MU : Mutable S} {MS : MutableSpec S}.

Lemma getBalance_key (im : S) a k bal ex :
  getBalance im a = Ok (k, bal, ex) -> k = BalanceKey a.
Proof.
  unfold getBalance. intros Hg. apply res_bind_Ok_inv in Hg as ([b x] & _ & Hg).
  by injection Hg.
Qed.

Lemma frame_SubBalance (P : bytes -> Prop) a n : P (BalanceKey a) -> frame P (SubBalance a n).
Proof.
  intros HP. unfold SubBalance. apply frame_read. intros s [[k bal] ex] Hg.
  apply getBalance_key in Hg as ->. unfold setBalance. frame_steps.
Qed.

Lemma frame_AddBalance (P : bytes -> Prop) a n c : P (BalanceKey a) -> frame P (AddBalance a n c).
Proof.
  intros HP. unfold AddBalance. apply frame_read. intros s [[k bal] ex] Hg.
  apply getBalance_key in Hg as ->. unfold setBalance. frame_steps.
Qed.
End ledger_frame.

#[export] Hint Resolve frame_SubBalance frame_AddBalance : frame.

Section ledger_safe.
Context `{HC : HyperConsts} {HCS : HyperConstsSpec} {SM : SafeMath} {SMS : SafeMathSpec}.
Context `{DE : DatabaseErrors} {DES : DatabaseErrorsSpec} `{SP : StatePermissions}.
Context {S : Type} `{MU : Mutable S} {MS : MutableSpec S}.

Lemma getBalance_cases (s : S) a :
  ledger_wf (view s) ->
  (exists e, getBalance s a = Err e) \/
  getBalance s a = Ok (BalanceKey a, bal_at (view s) a, has_account (view s) a).
Proof.
  intros Hv. destruct (perm_Has (scope s (BalanceKey a)) Read) eqn:Hr.
  - right. by apply getBalance_view.
  - left. eexists. by apply getBalance_denied.
Qed.

Lemma SubBalance_no_panic (s : S) a n :
  ledger_wf (view s) -> is_u64 n -> is_panic (snd (SubBalance a n s)) = false.
Proof.
  intros Hv Hn. unfold SubBalance, mbind, M_bind, get, lift.
  destruct (getBalance_cases s a Hv) as [[e ->]| ->]; [done|].
  rewrite Sub64_spec by (done || apply bal_at_u64). destruct (_ <=? _); [|done].
  simpl. destruct (_ =? 0); [apply Remove_no_panic|apply Insert_no_panic].
Qed.

Lemma AddBalance_no_panic (s : S) a n c :
  ledger_wf (view s) -> is_u64 n -> is_panic (snd (AddBalance a n c s)) = false.
Proof.
  intros Hv Hn. unfold AddBalance, mbind, M_bind, get, lift.
  destruct (getBalance_cases s a Hv) as [[e ->]| ->]; [done|].
  destruct (_ && _); [done|].
  rewrite Add64_spec by (done || apply bal_at_u64). destruct (_ <? _); [|done].
  simpl. apply Insert_no_panic.
Qed.
End ledger_safe.
