(* ===== verification/Genesis.v ===== *)
(** * Genesis: chain parameters, initial allocations, rules

    [src/genesis/genesis.go] and [src/genesis/rules.go]. *)

From stdpp Require Import base numbers countable gmap list strings.
From Stdlib Require Import ZArith Lia Strings.Byte.
From S2P Require Import Prelude HyperSDK State Wire Sample Storage Ledger.

Local Open Scope Z_scope.

(** consts/consts.go *)
Definition HRP : string := "seq".
Definition Name : string := "seqvm".
Definition Symbol : string := "SEQ".
Definition Decimals : Z := 9.

(** The identifier of the machine: its name, padded; [ids_ToID] reads an
    identifier from its bytes. A failure at start-up panics. *)
Definition consts_init `{HC : HyperConsts} (ids_ToID : bytes -> res ID) : res ID :=
  let b := zeros IDLen in
  let b := copy b (String.list_byte_of_string Name) in
  match ids_ToID b with
  | Ok vmID => Ok vmID
  | Err err => Panic (PMessage "consts.init")
  | Panic p => Panic p
  end.

Record CustomAllocation := {
  alloc_Address : string;  (** bech32 address *)
  alloc_Balance : Z
}.

Record Genesis := {
  (* State Parameters *)
  StateBranchFactor : Z;
  (* Chain Parameters *)
  MinBlockGap : Z;
  MinEmptyBlockGap : Z;
  EpochLength : Z;
  (* Chain Fee Parameters *)
  MinUnitPrice : Dimensions;
  UnitPriceChangeDenominator : Dimensions;
  WindowTargetUnits : Dimensions;
  MaxBlockUnits : Dimensions;
  (* Fee Market Parameters *)
  FeeMarketMinUnits : Z;
  FeeMarketWindowTargetUnits : Z;
  FeeMarketPriceChangeDenominator : Z;
  (* Tx Parameters *)
  ValidityWindow : Z;
  MaxActionsPerTx : Z;
  MaxOutputsPerAction : Z;
  (* Tx Fee Parameters *)
  BaseComputeUnits : Z;
  StorageKeyReadUnits : Z;
  StorageValueReadUnits : Z;
  StorageKeyAllocateUnits : Z;
  StorageValueAllocateUnits : Z;
  StorageKeyWriteUnits : Z;
  StorageValueWriteUnits : Z;
  (* Allocations, [[]*CustomAllocation]: an element can be [nil] *)
  CustomAllocations : list (option CustomAllocation)
}.

Section genesis.
Context `{HC : HyperConsts}.

(** [branchFactor16] stands for [merkledb.BranchFactor16]. *)
Definition Default (branchFactor16 : Z) : Genesis := {|
  StateBranchFactor := branchFactor16;
  MinBlockGap := 1000;
  MinEmptyBlockGap := 1000;
  EpochLength := 6;
  MinUnitPrice := [100; 100; 100; 100; 100];
  UnitPriceChangeDenominator := [48; 48; 48; 48; 48];
  WindowTargetUnits := [20000000; 1000; 1000; 1000; 1000];
  MaxBlockUnits := [1800000; 2000; 2000; 2000; 2000];
  FeeMarketMinUnits := 100;
  FeeMarketWindowTargetUnits := 600 * 1024;
  FeeMarketPriceChangeDenominator := 48;
  ValidityWindow := 60 * MillisecondsPerSecond;
  MaxActionsPerTx := 16;
  MaxOutputsPerAction := 1;
  BaseComputeUnits := 1;
  StorageKeyReadUnits := 5;
  StorageValueReadUnits := 2;
  StorageKeyAllocateUnits := 20;
  StorageValueAllocateUnits := 5;
  StorageKeyWriteUnits := 10;
  StorageValueWriteUnits := 3;
  CustomAllocations := []
|}.

(** [json_Unmarshal b g]: the JSON decoder overwrites the fields [b] names. *)
Definition New (json_Unmarshal : bytes -> Genesis -> res Genesis)
    (branchFactor16 : Z) (b : bytes) : res Genesis :=
  let g := Default branchFactor16 in
  if (0 <? length b)%nat then
    map_err (ErrWrap "failed to unmarshal config %s: %w" [ABytes b]) (json_Unmarshal b g)
  else Ok g.

Definition GetStateBranchFactor (g : Genesis) : Z := StateBranchFactor g.

Context `{SM : SafeMath} {CO : Codec} {S : Type} `{MU : Mutable S}.

(** The loop of [Load]: [supply] is the running sum of the balances. *)
Fixpoint load_allocs (supply : Z) (l : list (option CustomAllocation)) : M S unit :=
  match l with
  | [] => mret tt
  | alloc :: l =>
      alloc ← lift (match alloc with Some alloc => Ok alloc | None => Panic PNil end);
      pk ← lift (ParseAddressBech32 HRP (alloc_Address alloc));
      supply ← lift (Add64 supply (alloc_Balance alloc));
      wrap_err (ErrWrap "%w: addr=%s, bal=%d" [AStr (alloc_Address alloc); AInt (alloc_Balance alloc)])
        (SetBalance pk (alloc_Balance alloc));;
      load_allocs supply l
  end.

(** [BranchFactor_Valid] stands for [merkledb.BranchFactor.Valid]. *)
Definition Load (BranchFactor_Valid : Z -> option error) (g : Genesis) : M S unit :=
  match BranchFactor_Valid (StateBranchFactor g) with
  | Some err => throw err
  | None => load_allocs 0 (CustomAllocations g)
  end.
End genesis.

(** ** Rules (rules.go) *)

Record Rules `{HyperConsts} := {
  rules_g : Genesis;
  networkID : Z;
  chainID : ID;
  parsedWhiteListedAddress : list Address
}.

(** The dynamic type of a value of the interface type [any]. *)
Inductive any `{HyperConsts} :=
  | any_nil
  | any_Addresses (l : list Address).

Section rules.
Context `{HC : HyperConsts}.
Implicit Types (r : Rules).

Definition Genesis_Rules (g : Genesis) (t : Z) (networkID : Z) (chainID : ID)
    (parsedWhiteListedAddresses : list Address) : Rules :=
  {| rules_g := g; networkID := networkID; chainID := chainID;
     parsedWhiteListedAddress := parsedWhiteListedAddresses |}.

Definition GetMinBlockGap r : Z := MinBlockGap (rules_g r).
Definition GetMinEmptyBlockGap r : Z := MinEmptyBlockGap (rules_g r).
Definition GetValidityWindow r : Z := ValidityWindow (rules_g r).
Definition GetEpochLength r : Z := EpochLength (rules_g r).
Definition GetMaxActionsPerTx r : Z := MaxActionsPerTx (rules_g r).
Definition GetMaxOutputsPerAction r : Z := MaxOutputsPerAction (rules_g r).
Definition GetMaxBlockUnits r : Dimensions := MaxBlockUnits (rules_g r).
Definition GetBaseComputeUnits r : Z := BaseComputeUnits (rules_g r).
Definition GetSponsorStateKeysMaxChunks r : list Z := [BalanceChunks].
Definition GetStorageKeyReadUnits r : Z := StorageKeyReadUnits (rules_g r).
Definition GetStorageValueReadUnits r : Z := StorageValueReadUnits (rules_g r).
Definition GetStorageKeyAllocateUnits r : Z := StorageKeyAllocateUnits (rules_g r).
Definition GetStorageValueAllocateUnits r : Z := StorageValueAllocateUnits (rules_g r).
Definition GetStorageKeyWriteUnits r : Z := StorageKeyWriteUnits (rules_g r).
Definition GetStorageValueWriteUnits r : Z := StorageValueWriteUnits (rules_g r).
Definition GetMinUnitPrice r : Dimensions := MinUnitPrice (rules_g r).
Definition GetUnitPriceChangeDenominator r : Dimensions := UnitPriceChangeDenominator (rules_g r).
Definition GetWindowTargetUnits r : Dimensions := WindowTargetUnits (rules_g r).
Definition GetFeeMarketPriceChangeDenominator r : Z := FeeMarketPriceChangeDenominator (rules_g r).
Definition GetFeeMarketWindowTargetUnits r : Z := FeeMarketWindowTargetUnits (rules_g r).
Definition GetFeeMarketMinUnitPrice r : Z := FeeMarketMinUnits (rules_g r).

Definition FetchCustom r (s : string) : any * bool :=
  if bool_decide (s = "whitelisted.Addresses"%string)
  then (any_Addresses (parsedWhiteListedAddress r), false)
  else (any_nil, false).
End rules.

(** ** Initial allocations *)

(** Start-up does not panic, and the identifier is the name followed by zeros,
    when identifiers of [IDLen] bytes are read as they are. *)
Theorem consts_init_ok `{HC : HyperConsts} (ids_ToID : bytes -> res ID) :
  (5 <= IDLen)%nat -> (forall b, length b = IDLen -> ids_ToID b = Ok (arr_of IDLen b)) ->
  exists vmID, consts_init ids_ToID = Ok vmID /\
    arr_list vmID = String.list_byte_of_string Name ++ zeros (IDLen - 5).
Proof.
  intros Hl Hid. set (name := String.list_byte_of_string Name).
  assert (length (zeros IDLen) = IDLen) as Hz by apply length_replicate.
  assert (length (copy (zeros IDLen) name) = IDLen) as Hc by (by rewrite length_copy).
  exists (arr_of IDLen (copy (zeros IDLen) name)). split.
  - unfold consts_init. fold name. cbv zeta. by rewrite (Hid _ Hc).
  - rewrite (arr_of_list _ Hc), copy_short by (rewrite Hz; exact Hl).
    f_equal. unfold zeros. by rewrite drop_replicate.
Qed.

Section load_facts.
Context `{HC : HyperConsts} {HCS : HyperConstsSpec} {SM : SafeMath} {SMS : SafeMathSpec}.
Context {CO : Codec} `{DE : DatabaseErrors} {DES : DatabaseErrorsSpec}.
Context `{SP : StatePermissions} {S : Type} `{MU : Mutable S} {MS : MutableSpec S}.

(** The balance of an allocation, none of a [nil] one; it is a [uint64]. *)
Definition alloc_amount (a : option CustomAllocation) : Z :=
  match a with Some a => alloc_Balance a | None => 0 end.

Definition alloc_u64 (a : option CustomAllocation) : Prop := is_u64 (alloc_amount a).

Definition sum_allocs (l : list (option CustomAllocation)) : Z :=
  foldr (fun a acc => alloc_amount a + acc) 0 l.

(** The contents after the allocations, in order: a later one overwrites an
    earlier one to the same address. *)
Definition apply_allocs (l : list (Address * Z)) (v : gmap bytes bytes) : gmap bytes bytes :=
  foldl (fun v pn => set_bal v pn.1 pn.2) v l.

(** No allocation is [nil], and these are the addresses they name and what
    they get. *)
Definition parsed (l : list (option CustomAllocation)) (pl : list (Address * Z)) : Prop :=
  Forall2 (fun a pn => exists c, a = Some c /\ ParseAddressBech32 HRP (alloc_Address c) = Ok pn.1 /\
                                 alloc_Balance c = pn.2) l pl.

(** [Load] sums up what it allocates without overflow. *)
Lemma load_allocs_Ok supply l (s s' : S) u :
  is_u64 supply -> Forall alloc_u64 l ->
  load_allocs supply l s = (s', Ok u) ->
  is_u64 (supply + sum_allocs l) /\
  exists pl, parsed l pl /\ updated s s' (apply_allocs pl (view s)).
Proof.
  intros Hs Hl. revert supply s Hs. induction Hl as [|a l Ha Hl IH]; intros supply s Hs Hr.
  - injection Hr as <-. simpl. rewrite Z.add_0_r.
    split; [done|]. exists []. by split; [constructor|].
  - cbn [load_allocs] in Hr.
    apply bind_Ok_inv in Hr as (s1 & c & [= <- Hc] & Hr). destruct a as [a|]; [|done]. injection Hc as <-.
    unfold alloc_u64 in Ha. cbn [alloc_amount] in *.
    apply bind_Ok_inv in Hr as (s1 & pk & [= <- Hpk] & Hr).
    apply bind_Ok_inv in Hr as (s1 & sup & [= <- Hsup] & Hr).
    rewrite Add64_spec in Hsup by done.
    destruct (Z.ltb_spec (supply + alloc_Balance a) u64_mod) as [Hlt|]; [|done].
    injection Hsup as <-.
    apply bind_Ok_inv in Hr as (s1 & [] & Hset & Hr).
    unfold wrap_err in Hset. destruct (SetBalance pk (alloc_Balance a) s) as [s2 [[]|e|p]] eqn:E;
      [|done|done]. injection Hset as ->. apply Insert_Ok_inv in E.
    apply IH in Hr as [Hsum (pl & Hpl & Hu)]; [|unfold is_u64 in *; lia].
    split; [unfold is_u64 in *; simpl; lia|].
    exists ((pk, alloc_Balance a) :: pl). split; [constructor; by eauto|].
    destruct E as [Ev Es], Hu as [Hv Hsc]. split; [|congruence].
    rewrite Hv, Ev. done.
Qed.

Lemma apply_allocs_wf pl v : ledger_wf v -> ledger_wf (apply_allocs pl v).
Proof.
  revert v. induction pl as [|[a n] pl IH]; intros v Hv; [done|]. by apply IH, set_bal_wf.
Qed.

Definition sum_parsed (pl : list (Address * Z)) : Z := foldr (fun pn acc => pn.2 + acc) 0 pl.

Lemma apply_allocs_total pl v :
  Forall (fun pn => is_u64 pn.2) pl -> total (apply_allocs pl v) <= total v + sum_parsed pl.
Proof.
  intros Hpl. revert v. induction Hpl as [|[a n] pl Hn Hpl IH]; intros v; simpl; [lia|].
  specialize (IH (set_bal v a n)). cbn [fst snd] in *. rewrite total_set_bal in IH by done.
  pose proof (bal_at_u64 v a). unfold is_u64 in *. lia.
Qed.

Lemma parsed_sum l pl : parsed l pl -> sum_parsed pl = sum_allocs l.
Proof. induction 1 as [|a pn l pl (c & -> & _ & Hb) _ IH]; [done|]. simpl. by rewrite Hb, IH. Qed.

Lemma parsed_u64 l pl :
  parsed l pl -> Forall alloc_u64 l -> Forall (fun pn => is_u64 pn.2) pl.
Proof.
  induction 1 as [|a pn l pl (c & -> & _ & Hb) _ IH]; intros Hl; constructor;
    apply Forall_cons in Hl as [Ha Hl]; [by rewrite <- Hb|by apply IH].
Qed.

Lemma apply_allocs_other pl v k :
  is_balance_key k = false -> apply_allocs pl v !! k = v !! k.
Proof.
  intros Hk. revert v. induction pl as [|[a n] pl IH]; intros v; [done|].
  change (apply_allocs ((a, n) :: pl) v) with (apply_allocs pl (set_bal v a n)).
  rewrite IH. unfold set_bal.
  rewrite lookup_insert_ne; [done|]. intros <-. by rewrite is_balance_key_BalanceKey in Hk.
Qed.

(** The balance of an address is its last allocation. *)
Lemma apply_allocs_bal pl v a :
  Forall (fun pn => is_u64 pn.2) pl ->
  bal_at (apply_allocs pl v) a =
  match last (filter (fun pn => pn.1 = a) pl) with
  | Some pn => pn.2
  | None => bal_at v a
  end.
Proof.
  induction pl as [|[b n] pl IH] using rev_ind; intros Hpl; [done|].
  apply Forall_app in Hpl as [Hpl Hn]. apply Forall_cons in Hn as [Hn _].
  unfold apply_allocs. rewrite foldl_app, filter_app, filter_cons, filter_nil. simpl.
  destruct (decide (b = a)) as [->|Hne]; simpl.
  - rewrite last_snoc. by apply bal_at_set_bal.
  - rewrite app_nil_r, bal_at_set_bal_ne by done. by apply IH.
Qed.

Lemma ledger_wf_empty : ledger_wf ∅.
Proof. intros k b. by rewrite lookup_empty. Qed.

(** What a load leaves. *)
Lemma Load_facts (bf : Z -> option error) (g : Genesis) (s s' : S) :
  view s = ∅ -> Forall alloc_u64 (CustomAllocations g) ->
  Load bf g s = (s', Ok tt) ->
  ledger_wf (view s') /\
  total (view s') <= sum_allocs (CustomAllocations g) < u64_mod /\
  (exists pl, parsed (CustomAllocations g) pl /\
     forall a, bal_at (view s') a =
       match last (filter (fun pn => pn.1 = a) pl) with Some pn => pn.2 | None => 0 end) /\
  (forall k, is_balance_key k = false -> view s' !! k = None).
Proof.
  intros He Hl Hr. unfold Load in Hr. destruct (bf _); [done|].
  apply load_allocs_Ok in Hr as [Hsum (pl & Hpl & [Hv _])]; [|unfold is_u64, u64_mod; lia|done].
  pose proof (parsed_u64 _ _ Hpl Hl) as Hu. rewrite Hv, He.
  split; [apply apply_allocs_wf, ledger_wf_empty|].
  split; [|split].
  - pose proof (apply_allocs_total pl ∅ Hu) as Ht.
    rewrite total_empty, (parsed_sum _ _ Hpl) in Ht. unfold is_u64 in Hsum. lia.
  - exists pl. split; [done|]. intros a. rewrite apply_allocs_bal by done.
    unfold bal_at. by rewrite lookup_empty.
  - intros k Hk. by rewrite apply_allocs_other, lookup_empty.
Qed.
End load_facts.

(** C17: A genesis state is a well-formed ledger. When [Load] accepts a genesis
    on an empty state, every balance record is eight bytes, the supply is at
    most the sum of the allocations, which fits in a [uint64], every address
    holds its last allocation, and nothing but balances is written. *)
Theorem Load_spec
    `{HC : HyperConsts} {HCS : HyperConstsSpec} {SM : SafeMath} {SMS : SafeMathSpec}
    {CO : Codec} {DE : DatabaseErrors} {DES : DatabaseErrorsSpec}
    {SP : StatePermissions} {S : Type} {IM : Immutable S} {MU : Mutable S} {MS : MutableSpec S}
    (bf : Z -> option error) (g : Genesis) (s s' : S) :
  view s = ∅ -> Forall alloc_u64 (CustomAllocations g) ->
  Load bf g s = (s', Ok tt) ->
  ledger_wf (view s') /\
  total (view s') <= sum_allocs (CustomAllocations g) < u64_mod /\
  (exists pl, parsed (CustomAllocations g) pl /\
     forall a, bal_at (view s') a =
       match last (filter (fun pn => pn.1 = a) pl) with Some pn => pn.2 | None => 0 end) /\
  (forall k, is_balance_key k = false -> view s' !! k = None).
Proof. apply Load_facts. Qed.

(** ** The properties at work *)

Module GenesisExamples.
Import Sample.Instances.

(** Two allocations to one address: the second one counts. *)
Definition w_genesis : Genesis :=
  let g := Default 16 in
  {| StateBranchFactor := StateBranchFactor g; MinBlockGap := MinBlockGap g;
     MinEmptyBlockGap := MinEmptyBlockGap g; EpochLength := EpochLength g;
     MinUnitPrice := MinUnitPrice g; UnitPriceChangeDenominator := UnitPriceChangeDenominator g;
     WindowTargetUnits := WindowTargetUnits g; MaxBlockUnits := MaxBlockUnits g;
     FeeMarketMinUnits := FeeMarketMinUnits g; FeeMarketWindowTargetUnits := FeeMarketWindowTargetUnits g;
     FeeMarketPriceChangeDenominator := FeeMarketPriceChangeDenominator g;
     ValidityWindow := ValidityWindow g; MaxActionsPerTx := MaxActionsPerTx g;
     MaxOutputsPerAction := MaxOutputsPerAction g; BaseComputeUnits := BaseComputeUnits g;
     StorageKeyReadUnits := StorageKeyReadUnits g; StorageValueReadUnits := StorageValueReadUnits g;
     StorageKeyAllocateUnits := StorageKeyAllocateUnits g;
     StorageValueAllocateUnits := StorageValueAllocateUnits g;
     StorageKeyWriteUnits := StorageKeyWriteUnits g; StorageValueWriteUnits := StorageValueWriteUnits g;
     CustomAllocations := [ Some {| alloc_Address := "alice"; alloc_Balance := 70 |};
                            Some {| alloc_Address := "bob"; alloc_Balance := 20 |};
                            Some {| alloc_Address := "alice"; alloc_Balance := 100 |} ] |}.

Definition w_alice : Address := arr_of 33 (string_bytes "alice").
Definition w_bob : Address := arr_of 33 (string_bytes "bob").
Definition w_loaded : store := fst (Load (fun _ => None) w_genesis (w_store ∅)).

(** [customAllocation: [null]] in the JSON: [alloc.Address] panics. *)
Example load_nil_allocation : snd (load_allocs 0 [None] (w_store ∅)) = Panic PNil.
Proof. reflexivity. Qed.

Lemma Load_spec_witness :
  ledger_wf (st_view w_loaded) /\ total (st_view w_loaded) <= 190 /\ bal_at (st_view w_loaded) w_alice = 100.
Proof.
  destruct (Load_spec (fun _ => None) w_genesis (w_store ∅) w_loaded) as (H1 & H2 & _).
  - reflexivity.
  - all_in_range.
  - vm_compute. reflexivity.
  - split; [exact H1|]. split; [exact (proj1 H2)|]. vm_compute. reflexivity.
Defined.
End GenesisExamples.
