(* ===== verification/Actions.v ===== *)
(** * Actions: what the actions share

    [src/actions/consts.go], [errors.go] and [utils.go], and the interface
    [chain.Action] every action implements ([ChainAction]). The contract the
    chain relies on is [ChainActionSpec], in [ChainInv]. *)

From stdpp Require Import base numbers countable gmap list strings.
From Stdlib Require Import ZArith Lia Strings.Byte.
From S2P Require Import Prelude HyperSDK State Wire Sample Storage Ledger Genesis.

Local Open Scope Z_scope.

(** ** consts.go *)

Definition TransferID : Z := 0.
Definition MsgID : Z := 1.
Definition AuctionID : Z := 2.

Definition TransferComputeUnits : Z := 1.
Definition EpochExitComputeUnits : Z := 10.
Definition AuctionComputeUnits : Z := 4.
Definition MsgComputeUnits : Z := 15.
Definition MaxMemoSize : Z := 256.

Definition DefaultNMTNamespace : bytes := zeros 8.

(** ** errors.go *)

Definition ErrOutputValueZero : error := ErrNew "value is zero".
Definition ErrNotWhiteListed : error := ErrNew "not whitelisted".
Definition ErrInvalidBidderSignature : error := ErrNew "invalid bidder signature".
Definition ErrParsedBuilderSEQAddressMismatch : error :=
  ErrNew "parsed builder SEQ address mismatch".
Definition ErrOutputMemoTooLarge : error := ErrNew "memo is too large".
Definition ErrNameSpaceNotRegistered : error := ErrNew "namespace not registered".
Definition ErrNotAuthorized : error := ErrNew "not authorized".
Definition ErrNameSpaceAlreadyRegistered : error := ErrNew "namespace already registered".
Definition ErrExitEpochSmallerThanStartEpoch : error :=
  ErrNew "exit epoch is smaller than start epoch".

(** ** utils.go *)

Section utils.
Context `{HC : HyperConsts}.

Fixpoint containsAddress (addrs : list Address) (addr : Address) : bool :=
  match addrs with
  | [] => false
  | a :: addrs => if bool_decide (a = addr) then true else containsAddress addrs addr
  end.

(** The type assertion panics on any other dynamic type. *)
Definition isWhiteListed (rules : Rules) (actor : Address) : res bool :=
  let '(whitelistedAddressesB, _) := FetchCustom rules "whitelisted.Addresses" in
  match whitelistedAddressesB with
  | any_Addresses whitelistedAddresses => Ok (containsAddress whitelistedAddresses actor)
  | any_nil => Panic PTypeAssert
  end.

Fixpoint contains (arr : list bytes) (ns : bytes) : bool :=
  match arr with
  | [] => false
  | v :: arr => if bytes_Equal v ns then true else contains arr ns
  end.

Definition ArcadiaFundAddress `{CO : Codec} : res Address :=
  b ← set_index (zeros 33) 32 x01;
  let '(addr, _) := ToAddress b in
  Ok addr.

Definition authorizationChecks `{DE : DatabaseErrors} {CO : Codec} `{HA : HActions}
    {S : Type} `{IM : Immutable S}
    (actor : Address) (namespaces : list bytes) (ns : bytes) (im : S) : res unit :=
  if negb (contains namespaces ns) then Err ErrNameSpaceNotRegistered else
  info ← GetRollupInfo im ns;
  match info with
  | None => Panic PNil
  | Some info =>
      if negb (bool_decide (AuthoritySEQAddress info = actor)) then Err ErrNotAuthorized
      else Ok tt
  end.
End utils.

(** [blockHeight / uint64(epochLength)] *)
Definition Epoch (blockHeight epochLength : Z) : res Z :=
  if u64 epochLength =? 0 then Panic PDivide else Ok (blockHeight / u64 epochLength).

(** ** chain.Action *)

(** [mu] and the action are both reachable by the caller: [Execute] may change
    either. *)
Definition on_state {S A X} (m : M S X) : M (S * A) X := fun '(s, a) =>
  let '(s', r) := m s in ((s', a), r).

Class ChainAction `{HC : HyperConsts} `{SP : StatePermissions} {CO : Codec} (S A : Type) := {
  GetTypeID : A -> Z;
  StateKeys : A -> Address -> ID -> Keys;
  StateKeysMaxChunks : A -> list Z;
  Execute : Rules -> Z -> Z -> Address -> ID -> M (S * A) (list bytes);
  ComputeUnits : A -> Address -> Rules -> Z;
  Size : A -> Z;
  Marshal : A -> M Packer unit;
  Unmarshal : M Packer A;
  ValidRange : A -> Rules -> Z * Z;
  NMTNamespace : A -> bytes;
  UseFeeMarket : A -> bool
}.

(** ** Facts *)

Lemma containsAddress_spec `{HC : HyperConsts} l (a : Address) :
  containsAddress l a = true <-> a ∈ l.
Proof.
  induction l as [|b l IH]; simpl.
  - split; [done|]. by intros ?%not_elem_of_nil.
  - rewrite elem_of_cons. case_bool_decide as Hb; [by subst; intuition|].
    rewrite IH. split; [by right|]. by intros [<-|].
Qed.

Lemma contains_spec l ns : contains l ns = true <-> ns ∈ l.
Proof.
  induction l as [|b l IH]; simpl.
  - split; [done|]. by intros ?%not_elem_of_nil.
  - rewrite elem_of_cons. destruct (bytes_Equal b ns) eqn:E.
    + apply bytes_Equal_spec in E as ->. intuition.
    + rewrite IH. split; [by right|]. intros [<-|]; [|done].
      by rewrite (proj2 (bytes_Equal_spec _ _)) in E.
Qed.

Lemma contains_false l ns : contains l ns = false <-> ns ∉ l.
Proof. rewrite <- contains_spec. by destruct (contains l ns). Qed.

(** The rules a node builds always pass the type assertion. *)
Lemma isWhiteListed_eq `{HC : HyperConsts} (r : Rules) (a : Address) :
  isWhiteListed r a = Ok (containsAddress (parsedWhiteListedAddress r) a).
Proof. done. Qed.

Definition epoch_length_ok `{HC : HyperConsts} (r : Rules) : Prop :=
  u64 (GetEpochLength r) <> 0.

Lemma Epoch_ok h l : u64 l <> 0 -> Epoch h l = Ok (h / u64 l).
Proof. intros Hl. unfold Epoch. by rewrite (proj2 (Z.eqb_neq _ _)). Qed.

Lemma Epoch_u64 h l e : is_u64 h -> Epoch h l = Ok e -> is_u64 e.
Proof.
  unfold Epoch, is_u64. intros Hh. pose proof (u64_is_u64 l) as Hl. unfold is_u64 in Hl.
  destruct (Z.eqb_spec (u64 l) 0) as [|Hne]; [done|]. intros [= <-].
  split; [apply Z.div_pos; lia|]. apply Z.div_lt_upper_bound; nia.
Qed.

Section fund.
Context `{HC : HyperConsts} {HCS : HyperConstsSpec} {CO : Codec} {CS : CodecSpec}.

(** The address of the fund: thirty-two zero bytes and a one. *)
Definition fund : Address := arr_of AddressLen (zeros 32 ++ [x01]).

Lemma ArcadiaFundAddress_eq : ArcadiaFundAddress = Ok fund.
Proof.
  unfold ArcadiaFundAddress. change (set_index (zeros 33) 32 x01) with (Ok (zeros 32 ++ [x01])).
  rewrite bind_Ok.
  assert (zeros 32 ++ [x01] = arr_list fund) as Hf.
  { unfold fund. symmetry. apply arr_of_list. by rewrite AddressLen_33. }
  by rewrite Hf, ToAddress_ok.
Qed.
End fund.

Lemma on_state_run {S A X} (m : M S X) (s : S) (a : A) :
  on_state m (s, a) = ((fst (m s), a), snd (m s)).
Proof. unfold on_state. by destruct (m s). Qed.

(** ** Declared keys *)

Section declares.
Context `{SP : StatePermissions} {SPS : StatePermissionsSpec} `{DE : DatabaseErrors}.
Context {S : Type} `{MU : Mutable S} {MS : MutableSpec S}.
Implicit Types (s : S).

(** The host gives a transaction at least the rights its state keys ask for. *)
Definition declares s (ks : Keys) : Prop :=
  forall k p q, ks !! k = Some p -> perm_Has p q = true -> can s k q.

(** The last of the rights a literal gives to a key holds, and so do earlier
    ones that a later entry does not lower. *)
Lemma declares_insert s ks k p q :
  declares s (<[k := p]> ks) -> perm_Has p q = true -> can s k q.
Proof. intros Hd Hq. apply (Hd k p q); [|done]. by rewrite lookup_insert_eq. Qed.

Lemma declares_below s ks k k' p p' q :
  declares s (<[k := p]> ks) -> ks !! k' = Some p' -> perm_Has p' q = true ->
  k' <> k \/ perm_Has p q = true -> can s k' q.
Proof.
  intros Hd Hl Hq Hor. destruct (decide (k' = k)) as [->|Hne].
  - destruct Hor as [|Hp]; [done|]. by eapply declares_insert.
  - apply (Hd k' p' q); [|done]. by rewrite lookup_insert_ne.
Qed.
End declares.

(** A literal as a chain of updates. *)
Ltac keys_simpl := cbv [keys_literal]; cbn [foldl fst snd].
Ltac keys_simpl_in H := cbv [keys_literal] in H; cbn [foldl fst snd] in H.
