(* ===== verification/ChainInv.v ===== *)
(** * ChainInv: what holds of every state of the chain, and what an action owes it

    The invariant relates three kinds of data: balances (a well-formed ledger
    whose supply fits in a [uint64]), the rollup registry and its infos, and
    the epoch exits. [ChainActionSpec] is the contract every action type
    fulfils; [Chain] proves the machine correct against it. *)

From stdpp Require Import base numbers countable gmap list strings.
From Stdlib Require Import ZArith Lia Strings.Byte.
From S2P Require Import Prelude HyperSDK State Wire Sample Storage Ledger Genesis Actions.

Local Open Scope Z_scope.

Section inv.
Context `{HC : HyperConsts} {CO : Codec} {HA : HActions} `{DE : DatabaseErrors}.
Context {CS : CodecSpec} {HS : HActionsSpec}.
Implicit Types (v : gmap bytes bytes) (nss : list bytes).

(** Keys of the arcadia data. *)
Definition is_arcadia_key (k : bytes) : Prop :=
  (exists ns, k = RollupInfoKey ns) \/ k = RollupRegistryKey \/
  (exists e, k = EpochExitsKey e) \/ (exists e, k = ArcadiaBidKey e).

Definition rollup_wf (ns : bytes) (i : RollupInfo) : Prop :=
  RI_Namespace i = ns /\ RollupInfo_encodable i /\
  (ExitEpoch i = 0 \/ StartEpoch i <= ExitEpoch i).

Definition exit_wf nss (e : Z) (x : EpochInfo) : Prop :=
  EI_Epoch x = e /\ EI_Namespace x ∈ nss /\ EpochInfo_encodable x.

Definition exits_wf nss (e : Z) (i : EpochExitInfo) : Prop :=
  NoDup (EI_Namespace <$> Exits i) /\ Forall (exit_wf nss e) (Exits i).

(** The registry lists, without repetition, exactly the namespaces that have
    an info; the exits of an epoch are exits of registered namespaces for
    that epoch, at most one each. *)
Record registry_inv v nss : Prop := {
  ri_registry : registry_at v = Ok nss;
  ri_nodup : NoDup nss;
  ri_encodable : Forall Namespace_encodable nss;
  ri_registered ns : ns ∈ nss -> exists i, rollup_at v ns = Ok (Some i) /\ rollup_wf ns i;
  ri_unregistered ns : ns ∉ nss -> v !! RollupInfoKey ns = None;
  ri_exits e : is_u64 e ->
    exits_at v e = Ok (None, false) \/
    exists i, exits_at v e = Ok (Some i, true) /\ exits_wf nss e i
}.

Record chain_inv v : Prop := {
  ci_ledger : ledger_wf v;
  ci_supply : total v < u64_mod;
  ci_registry : exists nss, registry_inv v nss
}.

Lemma is_arcadia_key_other k : is_arcadia_key k -> is_balance_key k = false.
Proof.
  intros (b & rest & -> & Hb)%hactions_prefix. simpl.
  apply bool_decide_eq_false_2. intros ->. apply Hb. by left.
Qed.

Lemma BalanceKey_not_arcadia {HCS : HyperConstsSpec} a : ~ is_arcadia_key (BalanceKey a).
Proof. intros Hk%is_arcadia_key_other. by rewrite is_balance_key_BalanceKey in Hk. Qed.

Definition arcadia_agree v v' : Prop := forall k, is_arcadia_key k -> v' !! k = v !! k.

Lemma registry_inv_agree v v' nss :
  arcadia_agree v v' -> registry_inv v nss -> registry_inv v' nss.
Proof.
  intros Ha [H1 H2 H3 H4 H5 H6]. split; [|done|done| | |].
  - rewrite (registry_at_eq v' v); [done|]. apply Ha. by right; left.
  - intros ns Hns. rewrite (rollup_at_eq v' v); [by apply H4|]. apply Ha. left. eauto.
  - intros ns Hns. rewrite Ha; [by apply H5|]. left. eauto.
  - intros e He. rewrite (exits_at_eq v' v); [by apply H6|]. apply Ha. right; right; left. eauto.
Qed.

(** Writes to the balances leave the arcadia data alone, and vice versa. *)
Lemma credit_agree {HCS : HyperConstsSpec} v a n : arcadia_agree v (credit v a n).
Proof.
  intros k Hk. apply credit_lookup_ne. intros ->. by apply BalanceKey_not_arcadia in Hk.
Qed.

Lemma debit_agree {HCS : HyperConstsSpec} v a n : arcadia_agree v (debit v a n).
Proof.
  intros k Hk. apply debit_lookup_ne. intros ->. by apply BalanceKey_not_arcadia in Hk.
Qed.

Lemma arcadia_agree_trans v1 v2 v3 :
  arcadia_agree v1 v2 -> arcadia_agree v2 v3 -> arcadia_agree v1 v3.
Proof. intros H12 H23 k Hk. by rewrite H23, H12. Qed.

(** Moving funds between accounts. *)
Lemma transfer_inv {HCS : HyperConstsSpec} v a b n :
  chain_inv v -> 0 <= n <= bal_at v a ->
  bal_at (debit v a n) b + n < u64_mod ->
  chain_inv (credit (debit v a n) b n) /\ total (credit (debit v a n) b n) = total v.
Proof.
  intros [Hw Hs [nss Hr]] Hn Hb.
  assert (total (credit (debit v a n) b n) = total v) as Ht.
  { rewrite total_credit, total_debit by (done || lia). lia. }
  split; [|done]. split; [auto with seqvm|lia|].
  exists nss. eapply registry_inv_agree; [|exact Hr].
  eapply arcadia_agree_trans; [apply debit_agree|apply credit_agree].
Qed.

Lemma arcadia_insert_ledger v k b :
  is_arcadia_key k -> ledger_wf v -> ledger_wf (<[k := b]> v) /\ total (<[k := b]> v) = total v.
Proof.
  intros Hk%is_arcadia_key_other Hw.
  split; [by apply insert_other_wf|by apply total_insert_other].
Qed.

(** A change of one arcadia key. *)
Lemma arcadia_change_ledger v v' k :
  is_arcadia_key k -> (forall k', k' <> k -> v' !! k' = v !! k') -> ledger_wf v ->
  ledger_wf v' /\ total v' = total v.
Proof.
  intros Hk%is_arcadia_key_other Hv Hw.
  assert (forall u, weight_at u k = 0) as Hz.
  { intros u. unfold weight_at, weight. rewrite Hk. by destruct (u !! k). }
  assert (delete k v' = delete k v) as Hd.
  { apply map_eq. intros k'. destruct (decide (k = k')) as [<-|Hne]; [by rewrite !lookup_delete_eq|].
    rewrite !lookup_delete_ne by done. by apply Hv. }
  split.
  - intros k' b Hb Hbal. rewrite Hv in Hb by congruence. by eapply Hw.
  - pose proof (total_delete_at v k) as H1. pose proof (total_delete_at v' k) as H2.
    rewrite Hd in H2. rewrite Hz in H1, H2. lia.
Qed.

(** A bid is arcadia data no other part reads. *)
Lemma bid_agree_registry v e b nss :
  is_u64 e -> registry_inv v nss -> registry_inv (<[ArcadiaBidKey e := b]> v) nss.
Proof.
  intros He [H1 H2 H3 H4 H5 H6].
  split; [|done|done| | |].
  - rewrite (registry_at_eq _ v); [done|]. apply lookup_insert_ne.
    apply not_eq_sym, RollupRegistryKey_ne_bid.
  - intros ns Hns. rewrite (rollup_at_eq _ v); [by apply H4|]. apply lookup_insert_ne.
    apply not_eq_sym, RollupInfoKey_ne_bid.
  - intros ns Hns. rewrite lookup_insert_ne; [by apply H5|].
    apply not_eq_sym, RollupInfoKey_ne_bid.
  - intros e' He'. rewrite (exits_at_eq _ v); [by apply H6|]. apply lookup_insert_ne.
    apply not_eq_sym, EpochExitsKey_ne_bid.
Qed.

(** The invariant of an empty state (before any registration). *)
Lemma registry_inv_empty {DES : DatabaseErrorsSpec} v :
  (forall k, is_arcadia_key k -> v !! k = None) -> registry_inv v [].
Proof.
  intros Hv. split; [|constructor|constructor| | |].
  - apply registry_at_empty, Hv. by right; left.
  - intros ns Hns. by apply not_elem_of_nil in Hns.
  - intros ns _. apply Hv. left. eauto.
  - intros e _. left. unfold exits_at, view_get. rewrite Hv by (right; right; left; eauto).
    apply inner_get_none.
Qed.
End inv.

(** ** The contract of an action *)

Class ChainActionSpec {HC : HyperConsts} {CO : Codec} {HA : HActions} {DE : DatabaseErrors}
    {CS : CodecSpec} {HS : HActionsSpec} {SP : StatePermissions}
    (S : Type) {IM : Immutable S} {MU : Mutable S} {MS : MutableSpec S}
    (A : Type) {CA : ChainAction S A} := {
  (** the ranges of the Go types of the fields *)
  action_wf : A -> Prop;
  (** whatever the outcome, only declared keys change *)
  Execute_frame rules t h actor id a (s : S) :
    wp (Execute rules t h actor id) (s, a) (fun sa' _ =>
      touches (fun k => is_Some (StateKeys a actor id !! k)) s sa'.1);
  (** a success keeps the invariant of the chain and the supply *)
  Execute_inv rules t h actor id a a' (s s' : S) out :
    chain_inv (view s) -> action_wf a -> is_u64 h -> epoch_length_ok rules ->
    Execute rules t h actor id (s, a) = ((s', a'), Ok out) ->
    chain_inv (view s') /\ total (view s') = total (view s);
  (** no execution panics *)
  Execute_safe rules t h actor id a (s : S) :
    chain_inv (view s) -> action_wf a -> is_u64 h -> epoch_length_ok rules ->
    is_panic (snd (Execute rules t h actor id (s, a))) = false
}.
