(* ===== verification/Transfer.v ===== *)
(** * Transfer: moving funds between accounts

    [src/actions/transfer.go]. *)

From stdpp Require Import base numbers countable gmap list strings.
From Stdlib Require Import ZArith Lia Strings.Byte.
From S2P Require Import Prelude HyperSDK State Wire Sample Storage Ledger Genesis Actions ChainInv.

Local Open Scope Z_scope.

Record Transfer `{HyperConsts} := {
  To : Address;     (** the recipient of the [Value] *)
  Value : Z;        (** [uint64], transferred to [To] *)
  Memo : bytes      (** optional message *)
}.

Section transfer.
Context `{HC : HyperConsts} {CO : Codec} {SM : SafeMath} `{DE : DatabaseErrors}.
Context `{SP : StatePermissions} {S : Type} `{MU : Mutable S}.

Definition Transfer_GetTypeID (_ : Transfer) : Z := TransferID.

Definition Transfer_StateKeys (t : Transfer) (actor : Address) (_ : ID) : Keys :=
  keys_literal
    [(BalanceKey actor, perm_or Read Write);
     (BalanceKey (To t), All)].

Definition Transfer_StateKeysMaxChunks (_ : Transfer) : list Z := [BalanceChunks; BalanceChunks].

Definition Transfer_Execute (t : Transfer) (_ : Rules) (_ _ : Z) (actor : Address) (_ : ID)
    : M S (list bytes) :=
  if Value t =? 0 then throw ErrOutputValueZero else
  if Z.of_nat (length (Memo t)) >? MaxMemoSize then throw ErrOutputMemoTooLarge else
  SubBalance actor (Value t);;
  (* TODO: allow sender to configure whether they will pay to create *)
  AddBalance (To t) (Value t) true;;
  mret [].

Definition Transfer_ComputeUnits (_ : Transfer) (_ : Address) (_ : Rules) : Z := TransferComputeUnits.

Definition Transfer_Size (t : Transfer) : Z :=
  Z.of_nat AddressLen + Z.of_nat Uint64Len + BytesLen (Memo t).

Definition Transfer_Marshal (t : Transfer) : M Packer unit :=
  PackAddress (To t);; PackUint64 (Value t);; PackBytes (Memo t).

Definition UnmarshalTransfer : M Packer Transfer :=
  to ← UnpackAddress;
  value ← UnpackUint64 true;
  memo ← UnpackBytes MaxMemoSize false;
  ret_Err {| To := to; Value := value; Memo := memo |}.

Definition Transfer_ValidRange (_ : Transfer) (_ : Rules) : Z * Z := (-1, -1).
Definition Transfer_NMTNamespace (_ : Transfer) : bytes := DefaultNMTNamespace.
Definition Transfer_UseFeeMarket (_ : Transfer) : bool := false.

#[export] Instance Transfer_action : ChainAction S Transfer := {|
  GetTypeID := Transfer_GetTypeID;
  StateKeys := Transfer_StateKeys;
  StateKeysMaxChunks := Transfer_StateKeysMaxChunks;
  Execute rules t hght actor txID sa :=
    on_state (Transfer_Execute (snd sa) rules t hght actor txID) sa;
  ComputeUnits := Transfer_ComputeUnits;
  Size := Transfer_Size;
  Marshal := Transfer_Marshal;
  Unmarshal := UnmarshalTransfer;
  ValidRange := Transfer_ValidRange;
  NMTNamespace := Transfer_NMTNamespace;
  UseFeeMarket := Transfer_UseFeeMarket
|}.
End transfer.

Definition Transfer_wf `{HC : HyperConsts} (t : Transfer) : Prop :=
  is_u64 (Value t) /\ Z.of_nat (length (Memo t)) < 4294967296.

(** ** The contract *)

Section transfer_contract.
Context `{HC : HyperConsts} {HCS : HyperConstsSpec} {CO : Codec} {HA : HActions}.
Context {SM : SafeMath} {SMS : SafeMathSpec} {DE : DatabaseErrors} {DES : DatabaseErrorsSpec}.
Context {CS : CodecSpec} {HS : HActionsSpec}.
Context {SP : StatePermissions} {SPS : StatePermissionsSpec}.
Context {S : Type} {IM : Immutable S} {MU : Mutable S} {MS : MutableSpec S}.
Implicit Types (s : S) (t : Transfer).

(** A success moves the value. *)
Lemma Transfer_Execute_Ok_inv t r ts h actor id s s' out :
  ledger_wf (view s) -> Transfer_wf t ->
  Transfer_Execute t r ts h actor id s = (s', Ok out) ->
  0 < Value t <= bal_at (view s) actor /\
  bal_at (debit (view s) actor (Value t)) (To t) + Value t < u64_mod /\
  updated s s' (credit (debit (view s) actor (Value t)) (To t) (Value t)).
Proof.
  intros Hw [Hv _] Hr. unfold Transfer_Execute in Hr.
  destruct (Z.eqb_spec (Value t) 0); [done|]. destruct (_ >? _); [done|].
  apply bind_Ok_inv in Hr as (s1 & [] & Hsub & Hr).
  apply bind_Ok_inv in Hr as (s2 & [] & Hadd & [= -> _]).
  apply SubBalance_Ok_inv in Hsub as [Hle [Hv1 Hs1]]; [|done|done].
  apply AddBalance_Ok_inv in Hadd as [Hlt [Hv2 Hs2]]; [|rewrite Hv1; by apply debit_wf|done].
  rewrite Hv1 in *. unfold is_u64 in Hv. split; [lia|]. split; [done|].
  split; [done|congruence].
Qed.

Lemma Transfer_keys_actor t actor id : is_Some (Transfer_StateKeys t actor id !! BalanceKey actor).
Proof.
  unfold Transfer_StateKeys. keys_simpl. rewrite lookup_insert.
  case_decide; [done|]. by rewrite lookup_insert_eq.
Qed.

Lemma Transfer_keys_to t actor id : Transfer_StateKeys t actor id !! BalanceKey (To t) = Some All.
Proof. unfold Transfer_StateKeys. keys_simpl. apply lookup_insert_eq. Qed.

Lemma Transfer_frame t r ts h actor id :
  frame (fun k => is_Some (Transfer_StateKeys t actor id !! k))
    (Transfer_Execute t r ts h actor id : M S _).
Proof.
  unfold Transfer_Execute. frame_steps.
  - apply frame_SubBalance, Transfer_keys_actor.
  - apply frame_AddBalance. by rewrite Transfer_keys_to.
Qed.

Lemma Transfer_no_panic t r ts h actor id s :
  ledger_wf (view s) -> Transfer_wf t ->
  is_panic (snd (Transfer_Execute t r ts h actor id s)) = false.
Proof.
  intros Hw [Hv _]. unfold Transfer_Execute.
  destruct (_ =? 0); [done|]. destruct (_ >? _); [done|].
  pose proof (SubBalance_no_panic s actor (Value t) Hw Hv) as Hp.
  destruct (SubBalance actor (Value t) s) as [s1 [[]|e|p]] eqn:E; [| |done].
  - rewrite (bind_run _ _ _ _ _ E).
    apply SubBalance_Ok_inv in E as [_ [Hv1 _]]; [|done|done].
    pose proof (AddBalance_no_panic s1 (To t) (Value t) true) as Hp1.
    rewrite Hv1 in Hp1. specialize (Hp1 (debit_wf _ _ _ Hw) Hv).
    unfold mbind, M_bind. by destruct (AddBalance _ _ _ s1) as [s2 [[]|e|p]].
  - by rewrite (bind_run_err _ _ _ _ _ E).
Qed.

#[export] Instance Transfer_contract : ChainActionSpec S Transfer.
Proof.
  refine {| action_wf := Transfer_wf |}.
  - intros r ts h actor id t s. unfold wp. cbn [Execute Transfer_action snd]. rewrite on_state_run.
    apply Transfer_frame.
  - intros r ts h actor id t t' s s' out Hc Hwf _ _ Hr.
    cbn [Execute Transfer_action snd] in Hr. rewrite on_state_run in Hr.
    destruct (Transfer_Execute t r ts h actor id s) as [s1 o] eqn:E. injection Hr as <- _ ->.
    apply Transfer_Execute_Ok_inv in E as (Hle & Hlt & [-> _]); [|apply Hc|done].
    apply transfer_inv; [done|lia|done].
  - intros r ts h actor id t s Hc Hwf _ _.
    cbn [Execute Transfer_action snd]. rewrite on_state_run.
    apply Transfer_no_panic; [apply Hc|done].
Defined.
End transfer_contract.

(** ** Properties *)

(** C8: [Transfer.Execute], on every branch. With the rights its state keys
    declare, on a ledger whose supply fits in a [uint64], a transfer fails with
    the documented error and changes nothing, or moves the value: the credit
    can never overflow. *)
Theorem Transfer_Execute_spec
    `{HC : HyperConsts} {HCS : HyperConstsSpec} {CO : Codec} {SM : SafeMath} {SMS : SafeMathSpec}
    {DE : DatabaseErrors} {DES : DatabaseErrorsSpec}
    {SP : StatePermissions} {SPS : StatePermissionsSpec}
    {S : Type} {IM : Immutable S} {MU : Mutable S} {MS : MutableSpec S}
    (t : Transfer) (r : Rules) (ts h : Z) (actor : Address) (id : ID) (s : S) :
  ledger_wf (view s) -> total (view s) < u64_mod -> is_u64 (Value t) ->
  declares s (Transfer_StateKeys t actor id) ->
  wp (Transfer_Execute t r ts h actor id) s (fun s' o =>
    if Value t =? 0 then s' = s /\ o = Err ErrOutputValueZero
    else if MaxMemoSize <? Z.of_nat (length (Memo t)) then s' = s /\ o = Err ErrOutputMemoTooLarge
    else if bal_at (view s) actor <? Value t
      then s' = s /\ exists e, o = Err e /\ errors_Is e ErrInvalidBalance = true
    else o = Ok [] /\
      updated s s' (credit (debit (view s) actor (Value t)) (To t) (Value t)) /\
      total (view s') = total (view s)).
Proof.
  intros Hw Ht Hv Hd. unfold Transfer_StateKeys in Hd. keys_simpl_in Hd.
  assert (forall q, perm_Has All q = true /\ can s (BalanceKey (To t)) q) as Hto.
  { intros q. split; [apply Has_All|]. eapply declares_insert; [exact Hd|apply Has_All]. }
  assert (can_debit s actor) as Hactor.
  { split; (eapply declares_below; [exact Hd|apply lookup_insert_eq| |right; apply Has_All]).
    - apply Has_or_l, Has_refl.
    - apply Has_or_r, Has_refl. }
  unfold Transfer_Execute. destruct (Z.eqb_spec (Value t) 0) as [|Hnz]; [by split|].
  rewrite Z.gtb_ltb. destruct (_ <? Z.of_nat _); [by split|].
  destruct (Z.ltb_spec (bal_at (view s) actor) (Value t)) as [Hlt|Hle].
  - apply wp_bind. eapply wp_conseq; [apply SubBalance_short; try done; apply Hactor|].
    intros s' o [[e [-> He]] ->]. split; [done|]. by exists e.
  - apply wp_bind. eapply wp_conseq; [by apply SubBalance_enough|].
    intros s1 o [-> [Hv1 Hs1]].
    pose proof (total_debit (view s) actor (Value t)) as Htd.
    pose proof (total_ge_bal (debit (view s) actor (Value t)) (To t)) as Hge.
    unfold is_u64 in Hv.
    apply wp_bind. eapply wp_conseq.
    { apply AddBalance_fits; rewrite ?Hv1; try done; [by apply debit_wf| |by left|lia].
      unfold can_credit, can_debit, can. rewrite Hs1. repeat split; apply Hto. }
    intros s2 o [-> [Hv2 Hs2]]. rewrite Hv1 in Hv2. apply wp_ret.
    split; [done|]. split; [split; congruence|].
    rewrite Hv2, total_credit, Htd by lia. lia.
Qed.

(** Marshalling a transfer and unmarshalling the bytes gives the transfer
    back, whenever the packer had room and the transfer is one that can be
    executed (non-zero value, memo within its limit, non-empty recipient). *)
Lemma Transfer_roundtrip
    `{HC : HyperConsts} {CO : Codec} {CS : CodecSpec} (t : Transfer) (n l l' : Z) :
  To t <> EmptyAddress -> is_u64 (Value t) -> Value t <> 0 ->
  Z.of_nat (length (Memo t)) <= MaxMemoSize ->
  let w := fst (Transfer_Marshal t (NewWriter n l)) in
  Packer_Err w = None ->
  snd (UnmarshalTransfer (NewReader (Packer_Bytes w) l')) = Ok t.
Proof.
  intros Ha Hv Hnz Hm w He.
  apply (wire_roundtrip (Transfer_Marshal t) UnmarshalTransfer t
    (arr_list (To t) ++ enc_u64 (Value t) ++ enc_bytes (Memo t)) n l l' w); try done.
  - unfold Transfer_Marshal. auto with wire.
  - unfold UnmarshalTransfer, MaxMemoSize in *.
    eapply reads_bind; [by apply UnpackAddress_reads|].
    eapply reads_bind; [by apply UnpackUint64_reads|].
    eapply reads_bind_last; [apply UnpackBytes_reads; [lia|lia|done]|].
    destruct t. apply reads_ret_Err.
Qed.

(** ** The properties at work *)

Module TransferExamples.
Import Sample.Instances.

Definition w_rules : Rules :=
  {| rules_g := Default 16; networkID := 1; chainID := w_id 1; parsedWhiteListedAddress := [w_addr 9] |}.
Definition w_funded : gmap bytes bytes := set_bal ∅ (w_addr 1) 100.
Definition w_transfer : Transfer := {| To := w_addr 2; Value := 30; Memo := [] |}.

Lemma Transfer_Execute_spec_witness :
  snd (Transfer_Execute w_transfer w_rules 0 0 (w_addr 1) (w_id 0) (w_store w_funded)) = Ok [] /\
  total (st_view (fst (Transfer_Execute w_transfer w_rules 0 0 (w_addr 1) (w_id 0) (w_store w_funded)))) = 100.
Proof.
  pose proof (Transfer_Execute_spec w_transfer w_rules 0 0 (w_addr 1) (w_id 0) (w_store w_funded)) as H.
  unfold wp in H.
  assert (total w_funded = 100) as Ht by (vm_compute; reflexivity).
  change (view (w_store w_funded)) with w_funded in H.
  replace (bal_at w_funded (w_addr 1) <? Value w_transfer) with false in H by (vm_compute; reflexivity).
  destruct H as (Ho & _ & Hto).
  - apply set_bal_wf, ledger_wf_empty.
  - rewrite Ht. reflexivity.
  - in_range.
  - intros k p q _ _. by destruct q as [[[] []] []].
  - split; [exact Ho|]. rewrite <- Ht. exact Hto.
Defined.
End TransferExamples.
