(* ===== verification/SequencerMsg.v ===== *)
(** * SequencerMsg: rollup data on the sequencer

    [src/actions/msg.go]. The message carries data for a rollup; executing it
    changes nothing, the block itself is the record. *)

From stdpp Require Import base numbers countable gmap list strings.
From Stdlib Require Import ZArith Lia Strings.Byte.
From S2P Require Import Prelude HyperSDK State Wire Sample Storage Ledger Genesis Actions ChainInv.

Local Open Scope Z_scope.

Record SequencerMsg `{HyperConsts} := {
  ChainID : bytes;        (** little endian encoded uint64 *)
  Data : bytes;
  FromAddress : Address;
  RelayerID : Z           (** [int] *)
}.

Section msg.
Context `{HC : HyperConsts} {CO : Codec} `{SP : StatePermissions} {S : Type}.
Implicit Types (msg : SequencerMsg).

Definition SequencerMsg_GetTypeID (_ : SequencerMsg) : Z := MsgID.
Definition SequencerMsg_StateKeys (_ : SequencerMsg) (_ : Address) (_ : ID) : Keys := keys_literal [].
Definition SequencerMsg_StateKeysMaxChunks (_ : SequencerMsg) : list Z := [].

Definition SequencerMsg_Execute (_ : SequencerMsg) (_ : Rules) (_ _ : Z) (_ : Address) (_ : ID)
    : M S (list bytes) := mret [].

Definition SequencerMsg_ComputeUnits (_ : SequencerMsg) (_ : Address) (_ : Rules) : Z := MsgComputeUnits.

Definition SequencerMsg_Size msg : Z :=
  BytesLen (ChainID msg) + BytesLen (Data msg) + Z.of_nat AddressLen + Z.of_nat IntLen.

Definition SequencerMsg_Marshal msg : M Packer unit :=
  PackAddress (FromAddress msg);;
  PackBytes (Data msg);;
  PackBytes (ChainID msg);;
  PackInt (RelayerID msg).

Definition UnmarshalSequencerMsg : M Packer SequencerMsg :=
  from ← UnpackAddress;
  (* TODO need to correct this and check byte count *)
  data ← UnpackBytes (-1) true;
  chainID ← UnpackBytes (-1) true;
  (* Note, required has to be false or RelayerID of 0 will report ID not populated *)
  relayer ← UnpackInt false;
  ret_Err {| ChainID := chainID; Data := data; FromAddress := from; RelayerID := relayer |}.

Definition SequencerMsg_ValidRange (_ : SequencerMsg) (_ : Rules) : Z * Z := (-1, -1).
Definition SequencerMsg_NMTNamespace msg : bytes := ChainID msg.
Definition SequencerMsg_UseFeeMarket (_ : SequencerMsg) : bool := true.

#[export] Instance SequencerMsg_action : ChainAction S SequencerMsg := {|
  GetTypeID := SequencerMsg_GetTypeID;
  StateKeys := SequencerMsg_StateKeys;
  StateKeysMaxChunks := SequencerMsg_StateKeysMaxChunks;
  Execute rules t hght actor txID sa :=
    on_state (SequencerMsg_Execute (snd sa) rules t hght actor txID) sa;
  ComputeUnits := SequencerMsg_ComputeUnits;
  Size := SequencerMsg_Size;
  Marshal := SequencerMsg_Marshal;
  Unmarshal := UnmarshalSequencerMsg;
  ValidRange := SequencerMsg_ValidRange;
  NMTNamespace := SequencerMsg_NMTNamespace;
  UseFeeMarket := SequencerMsg_UseFeeMarket
|}.
End msg.

Section msg_contract.
Context `{HC : HyperConsts} {CO : Codec} {HA : HActions} {DE : DatabaseErrors}.
Context {CS : CodecSpec} {HS : HActionsSpec} {SP : StatePermissions}.
Context {S : Type} {IM : Immutable S} {MU : Mutable S} {MS : MutableSpec S}.

#[export] Instance SequencerMsg_contract : ChainActionSpec S SequencerMsg.
Proof.
  refine {| action_wf := fun _ => True |}; try done.
  intros r ts h actor id a a' s s' out Hc _ _ _ [= <- _ _]. by split.
Defined.
End msg_contract.

(** ** Properties *)

(** Marshalling a sequencer message and unmarshalling the bytes gives the
    message back, namespace, data, sender and relayer, for every message with
    non-empty data and chain id and a relayer id that fits a signed 32-bit
    integer. *)
Lemma SequencerMsg_roundtrip
    `{HC : HyperConsts} {CO : Codec} {CS : CodecSpec} (msg : SequencerMsg) (n l l' : Z) :
  FromAddress msg <> EmptyAddress -> Data msg <> [] -> ChainID msg <> [] ->
  Z.of_nat (length (Data msg)) < 4294967296 -> Z.of_nat (length (ChainID msg)) < 4294967296 ->
  0 <= RelayerID msg < 2147483648 ->
  let w := fst (SequencerMsg_Marshal msg (NewWriter n l)) in
  Packer_Err w = None ->
  snd (UnmarshalSequencerMsg (NewReader (Packer_Bytes w) l')) = Ok msg.
Proof.
  intros Ha Hd Hc Hld Hlc Hr w He.
  apply (wire_roundtrip (SequencerMsg_Marshal msg) UnmarshalSequencerMsg msg
    (arr_list (FromAddress msg) ++ enc_bytes (Data msg) ++ enc_bytes (ChainID msg) ++
     enc_int (RelayerID msg)) n l l' w); try done.
  - unfold SequencerMsg_Marshal. auto 10 with wire.
  - unfold UnmarshalSequencerMsg.
    eapply reads_bind; [by apply UnpackAddress_reads|].
    eapply reads_bind; [apply UnpackBytes_reads; (lia || done)|].
    eapply reads_bind; [apply UnpackBytes_reads; (lia || done)|].
    eapply reads_bind_last; [apply UnpackInt_reads; (lia || done)|].
    destruct msg. apply reads_ret_Err.
Qed.
