(* ===== verification/Auth.v ===== *)
(** * Auth: transaction signatures

    [src/auth/bls.go], [ed25519.go] and [consts.go]: the two signature schemes,
    the address of a signer, the wire format, and the batch verifier of
    ed25519. *)

From stdpp Require Import base numbers countable gmap list strings.
From Stdlib Require Import ZArith Lia Strings.Byte.
From S2P Require Import Prelude HyperSDK Wire Sample.

Local Open Scope Z_scope.

(** ** consts.go *)

Definition Ed25519ID : Z := 0.
Definition BLSID : Z := 1.

Definition BLSComputeUnits : Z := 10.
Definition ED25519ComputeUnits : Z := 5.

(** The cached address of a signer: computed on the first use. *)
Definition cached_address `{HC : HyperConsts} {CO : Codec} {A}
    (get_addr : A -> Address) (set_addr : Address -> A -> A) (new : A -> Address) : M A Address :=
  b ← get;
  (if bool_decide (get_addr b = EmptyAddress) then modify (set_addr (new b)) else mret tt);;
  b ← get;
  mret (get_addr b).

(** ** BLS (bls.go) *)

Section bls.
Context `{HC : HyperConsts} {CO : Codec} {BC : BLSCrypto} {CE : CryptoErrors}.

Definition BLSSize : Z := Z.of_nat (bls_PublicKeyLen + bls_SignatureLen).

Record BLS := {
  BLS_Signer : bls_PublicKey;
  BLS_Signature : bls_Signature;
  BLS_addr : Address
}.

Definition NewBLSAddress (pk : bls_PublicKey) : Address :=
  CreateAddress BLSID (ToID (bls_PublicKeyToBytes pk)).

Definition BLS_address : M BLS Address :=
  cached_address BLS_addr
    (fun a b => {| BLS_Signer := BLS_Signer b; BLS_Signature := BLS_Signature b; BLS_addr := a |})
    (fun b => NewBLSAddress (BLS_Signer b)).

Definition BLS_GetTypeID (_ : BLS) : Z := BLSID.
Definition BLS_ComputeUnits (_ : BLS) : Z := BLSComputeUnits.
Definition BLS_ValidRange (_ : BLS) : Z * Z := (-1, -1).

Definition BLS_Verify (b : BLS) (msg : bytes) : res unit :=
  if negb (bls_Verify msg (BLS_Signer b) (BLS_Signature b)) then Err ErrInvalidSignature
  else Ok tt.

Definition BLS_Actor : M BLS Address := BLS_address.
Definition BLS_Sponsor : M BLS Address := BLS_address.
Definition BLS_Size (_ : BLS) : Z := BLSSize.

Definition BLS_Marshal (b : BLS) : M Packer unit :=
  PackFixedBytes (bls_PublicKeyToBytes (BLS_Signer b));;
  PackFixedBytes (bls_SignatureToBytes (BLS_Signature b)).

(** The codec copies what it reads into the buffers made here. *)
Definition UnmarshalBLS : M Packer BLS :=
  signer ← UnpackFixedBytes bls_PublicKeyLen;
  let signer := copy (zeros bls_PublicKeyLen) signer in
  signature ← UnpackFixedBytes bls_SignatureLen;
  let signature := copy (zeros bls_SignatureLen) signature in
  pk ← lift (bls_PublicKeyFromBytes signer);
  sig ← lift (bls_SignatureFromBytes signature);
  ret_Err {| BLS_Signer := pk; BLS_Signature := sig; BLS_addr := EmptyAddress |}.

Definition BLSFactory_Sign (priv : bls_PrivateKey) (msg : bytes) : res BLS :=
  Ok {| BLS_Signer := bls_PublicFromPrivateKey priv; BLS_Signature := bls_Sign msg priv;
        BLS_addr := EmptyAddress |}.

Definition BLSFactory_MaxUnits : Z * Z := (BLSSize, BLSComputeUnits).
Definition BLSFactory_Address (priv : bls_PrivateKey) : Address :=
  NewBLSAddress (bls_PublicFromPrivateKey priv).
End bls.

(** ** ED25519 (ed25519.go) *)

Section ed25519.
Context `{HC : HyperConsts} {CO : Codec} {EC : ED25519Crypto} {CE : CryptoErrors}.

Definition ED25519Size : Z := Z.of_nat (ed25519_PublicKeyLen + ed25519_SignatureLen).

Record ED25519 := {
  ED_Signer : arr ed25519_PublicKeyLen;
  ED_Signature : arr ed25519_SignatureLen;
  ED_addr : Address
}.

Definition NewED25519Address (pk : arr ed25519_PublicKeyLen) : Address :=
  CreateAddress Ed25519ID (ToID pk).

Definition ED25519_address : M ED25519 Address :=
  cached_address ED_addr
    (fun a d => {| ED_Signer := ED_Signer d; ED_Signature := ED_Signature d; ED_addr := a |})
    (fun d => NewED25519Address (ED_Signer d)).

Definition ED25519_GetTypeID (_ : ED25519) : Z := Ed25519ID.
Definition ED25519_ComputeUnits (_ : ED25519) : Z := ED25519ComputeUnits.
Definition ED25519_ValidRange (_ : ED25519) : Z * Z := (-1, -1).

Definition ED25519_Verify (d : ED25519) (msg : bytes) : res unit :=
  if negb (ed25519_Verify msg (ED_Signer d) (ED_Signature d)) then Err ErrInvalidSignature
  else Ok tt.

Definition ED25519_Actor : M ED25519 Address := ED25519_address.
Definition ED25519_Sponsor : M ED25519 Address := ED25519_address.
Definition ED25519_Size (_ : ED25519) : Z := ED25519Size.

Definition ED25519_Marshal (d : ED25519) : M Packer unit :=
  PackFixedBytes (ED_Signer d);;
  PackFixedBytes (ED_Signature d).

(** The codec copies what it reads into the arrays of [d]. *)
Definition UnmarshalED25519 : M Packer ED25519 :=
  signer ← UnpackFixedBytes ed25519_PublicKeyLen;
  signature ← UnpackFixedBytes ed25519_SignatureLen;
  ret_Err {| ED_Signer := arr_of _ signer; ED_Signature := arr_of _ signature;
             ED_addr := EmptyAddress |}.

Definition ED25519Factory_Sign (priv : ed25519_PrivateKey) (msg : bytes) : res ED25519 :=
  let sig := ed25519_Sign msg priv in
  Ok {| ED_Signer := ed25519_PublicKeyOf priv; ED_Signature := sig; ED_addr := EmptyAddress |}.

Definition ED25519Factory_MaxUnits : Z * Z := (ED25519Size, ED25519ComputeUnits).
Definition ED25519Factory_Address (priv : ed25519_PrivateKey) : Address :=
  NewED25519Address (ed25519_PublicKeyOf priv).
End ed25519.

(** The interface value [chain.Auth]. *)
Inductive Auth `{HC : HyperConsts} {BC : BLSCrypto} {EC : ED25519Crypto} :=
  | Auth_BLS (b : BLS)
  | Auth_ED25519 (d : ED25519).

(** [auth.Engines]: the schemes that have a batch verifier. *)
Inductive AuthEngine := ED25519AuthEngine.
Definition Engines : gmap Z AuthEngine := {[ Ed25519ID := ED25519AuthEngine ]}.

(** ** The batch verifier

    A batch is an object shared between the verifier and the functions that
    were handed out, so it is a place in a heap of batches; a handed out
    function is the place of the batch it will verify. *)

Section batch.
Context `{HC : HyperConsts} {BC : BLSCrypto} `{EB : ED25519BatchOps}.

Record ED25519Batch := {
  batchSize : Z;
  b_total : Z;
  counter : Z;
  totalCounter : Z;
  b_batch : option nat
}.

Abbreviation heap := (list EDBatch).

Definition GetBatchVerifier (cores count : Z) : res ED25519Batch :=
  if cores =? 0 then Panic PDivide else
  let batchSize := Z.max (count ÷ cores) ed25519_MinBatchSize in
  Ok {| batchSize := batchSize; b_total := count; counter := 0; totalCounter := 0;
        b_batch := None |}.

Definition alloc (b : EDBatch) : M (ED25519Batch * list EDBatch) nat :=
  fun '(v, h) => ((v, h ++ [b]), Ok (length h)).

Definition set_batch (i : option nat) : M (ED25519Batch * list EDBatch) unit :=
  modify (fun '(v, h) => ({| batchSize := batchSize v; b_total := b_total v; counter := counter v;
                             totalCounter := totalCounter v; b_batch := i |}, h)).
Definition set_counters (c t : Z) : M (ED25519Batch * list EDBatch) unit :=
  modify (fun '(v, h) => ({| batchSize := batchSize v; b_total := b_total v; counter := c;
                             totalCounter := t; b_batch := b_batch v |}, h)).

(** [None] is a nil function. *)
Definition ED25519Batch_Add (msg : bytes) (rauth : Auth)
    : M (ED25519Batch * list EDBatch) (option nat) :=
  match rauth with
  | Auth_BLS _ => gopanic PTypeAssert
  | Auth_ED25519 auth =>
      '(b, _) ← get;
      (match b_batch b with
       | None => i ← alloc (NewBatch (batchSize b)); set_batch (Some i)
       | Some _ => mret tt
       end);;
      '(b, _) ← get;
      match b_batch b with
      | None => gopanic PNil
      | Some last =>
          modify (fun '(v, h) => (v, alter (EDBatch_Add msg (ED_Signer auth) (ED_Signature auth)) last h));;
          set_counters (counter b + 1) (totalCounter b + 1);;
          '(b, _) ← get;
          if counter b =? batchSize b then
            set_counters 0 (totalCounter b);;
            (if totalCounter b <? b_total b then
               (* don't create a new batch if we are done *)
               i ← alloc (NewBatch (batchSize b)); set_batch (Some i)
             else mret tt);;
            mret (Some last)
          else mret None
      end
  end.

Definition ED25519Batch_Done (b : ED25519Batch) : list nat :=
  match b_batch b with
  | None => []
  | Some i => [i]
  end.

(** Running a handed out function. *)
Definition run_job (h : list EDBatch) (i : nat) : bool :=
  match h !! i with
  | Some b => EDBatch_Verify b
  | None => false
  end.

(** The host adds every signature of a block, then asks for the rest. *)
Fixpoint add_all (l : list (bytes * ED25519)) : M (ED25519Batch * list EDBatch) (list nat) :=
  match l with
  | [] => mret []
  | (m, d) :: l =>
      j ← ED25519Batch_Add m (Auth_ED25519 d);
      js ← add_all l;
      mret (match j with Some i => i :: js | None => js end)
  end.
End batch.

(** ** Addresses *)

(** The cache never changes the answer: what is returned is the address of the
    signer, and only the cache is written. *)
Lemma cached_address_run `{HC : HyperConsts} {CO : Codec} {A}
    (get_addr : A -> Address) set_addr new (b : A) :
  (forall a b, get_addr (set_addr a b) = a) ->
  get_addr b = EmptyAddress \/ get_addr b = new b ->
  cached_address get_addr set_addr new b =
    (if bool_decide (get_addr b = EmptyAddress) then set_addr (new b) b else b, Ok (new b)).
Proof.
  intros Hset Hb. unfold cached_address, mbind, M_bind, get, modify, mret, M_ret.
  case_bool_decide as He; [by rewrite Hset|]. by destruct Hb as [|<-].
Qed.

(** Who signs. A signature the BLS factory makes verifies, its actor and
    its sponsor are the factory's address, and asking again gives the same
    address: the cached field is only ever the address of the signer. *)
Theorem BLS_signer_address
    `{HC : HyperConsts} {CO : Codec} {BC : BLSCrypto} {BS : BLSCryptoSpec} {CE : CryptoErrors}
    (priv : bls_PrivateKey) (msg : bytes) :
  exists b, BLSFactory_Sign priv msg = Ok b /\ BLS_Verify b msg = Ok tt /\
  exists b', BLS_Actor b = (b', Ok (BLSFactory_Address priv)) /\
  BLS_Verify b' msg = Ok tt /\
  exists b'', BLS_Sponsor b' = (b'', Ok (BLSFactory_Address priv)).
Proof.
  eexists. split; [done|]. unfold BLS_Verify, BLS_Actor, BLS_Sponsor, BLS_address. simpl.
  rewrite bls_Verify_Sign. split; [done|].
  rewrite cached_address_run by (try done; by left). simpl.
  rewrite bool_decide_eq_true_2 by done.
  eexists. split; [done|]. simpl. rewrite bls_Verify_Sign. split; [done|].
  rewrite cached_address_run by (try done; by right). eauto.
Qed.

(** ** Wire format *)

(** A BLS authorization unmarshals to the key and signature that were
    marshalled, with an empty address cache. *)
Theorem BLS_roundtrip
    `{HC : HyperConsts} {CO : Codec} {CS : CodecSpec} {BC : BLSCrypto} {BS : BLSCryptoSpec}
    (b : BLS) (n l l' : Z) :
  let w := fst (BLS_Marshal b (NewWriter n l)) in
  Packer_Err w = None ->
  snd (UnmarshalBLS (NewReader (Packer_Bytes w) l')) =
    Ok {| BLS_Signer := BLS_Signer b; BLS_Signature := BLS_Signature b; BLS_addr := EmptyAddress |}.
Proof.
  intros w He.
  apply (wire_roundtrip (BLS_Marshal b) UnmarshalBLS _
    (bls_PublicKeyToBytes (BLS_Signer b) ++ bls_SignatureToBytes (BLS_Signature b)) n l l' w);
    try done.
  - unfold BLS_Marshal. auto with wire.
  - unfold UnmarshalBLS.
    eapply reads_bind; [apply UnpackFixedBytes_reads, length_PublicKeyToBytes|].
    eapply reads_bind_last; [apply UnpackFixedBytes_reads, length_SignatureToBytes|].
    unfold zeros. rewrite !copy_same_length
      by (by rewrite length_replicate, ?length_PublicKeyToBytes, ?length_SignatureToBytes).
    rewrite PublicKeyFromBytes_To, SignatureFromBytes_To. apply reads_ret_Err.
Qed.

(** An ed25519 authorization unmarshals to the key and signature that were
    marshalled, with an empty address cache. *)
Theorem ED25519_roundtrip
    `{HC : HyperConsts} {CO : Codec} {CS : CodecSpec} {EC : ED25519Crypto}
    (d : ED25519) (n l l' : Z) :
  let w := fst (ED25519_Marshal d (NewWriter n l)) in
  Packer_Err w = None ->
  snd (UnmarshalED25519 (NewReader (Packer_Bytes w) l')) =
    Ok {| ED_Signer := ED_Signer d; ED_Signature := ED_Signature d; ED_addr := EmptyAddress |}.
Proof.
  intros w He.
  apply (wire_roundtrip (ED25519_Marshal d) UnmarshalED25519 _
    (arr_list (ED_Signer d) ++ arr_list (ED_Signature d)) n l l' w); try done.
  - unfold ED25519_Marshal. auto with wire.
  - unfold UnmarshalED25519.
    eapply reads_bind; [apply UnpackFixedBytes_reads, length_arr|].
    eapply reads_bind_last; [apply UnpackFixedBytes_reads, length_arr|].
    rewrite !arr_of_arr. apply reads_ret_Err.
Qed.

(** ** The batch verifier *)

Section batch_facts.
Context `{HC : HyperConsts} {BC : BLSCrypto} {EC : ED25519Crypto} {ES : ED25519CryptoSpec}.
Context {EB : ED25519BatchOps} {EBS : ED25519BatchSpec} {CE : CryptoErrors}.
Implicit Types (v : ED25519Batch) (h : list EDBatch) (js : list nat) (l : list (bytes * ED25519)).

Definition item (x : bytes * ED25519) := (x.1, ED_Signer x.2, ED_Signature x.2).

(** After adding [l] and handing out [js]: the batches hold [l] in order, the
    current one is the last, and all the others were handed out; the current
    one was handed out only if nothing more is to come. *)
Record binv v h l js : Prop := {
  bi_counter : totalCounter v = Z.of_nat (length l);
  bi_items : concat (map batch_items h) = map item l;
  bi_current : match b_batch v with
               | None => h = [] /\ js = []
               | Some i => exists h0 b, h = h0 ++ [b] /\ i = length h0 /\
                   (forall j, (j < i)%nat <-> j ∈ js /\ j <> i) /\
                   (i ∈ js -> b_total v <= totalCounter v)
               end
}.

Definition with_open v (c t : Z) (i : nat) : ED25519Batch :=
  {| batchSize := batchSize v; b_total := b_total v; counter := c; totalCounter := t;
     b_batch := Some i |}.

(** The first signature opens a batch. *)
Lemma Add_first v m d :
  b_batch v = None ->
  ED25519Batch_Add m (Auth_ED25519 d) (v, []) =
  ED25519Batch_Add m (Auth_ED25519 d)
    (with_open v (counter v) (totalCounter v) 0, [NewBatch (batchSize v)]).
Proof. intros Hb. unfold ED25519Batch_Add, mbind, M_bind, get. by rewrite Hb. Qed.

Lemma alter_last (f : EDBatch -> EDBatch) h b : alter f (length h) (h ++ [b]) = h ++ [f b].
Proof. replace (length h) with (length h + 0)%nat by lia. by rewrite alter_app_r. Qed.

Lemma Add_open v h0 b m d :
  b_batch v = Some (length h0) ->
  let h1 := h0 ++ [EDBatch_Add m (ED_Signer d) (ED_Signature d) b] in
  let t := totalCounter v + 1 in
  ED25519Batch_Add m (Auth_ED25519 d) (v, h0 ++ [b]) =
    if counter v + 1 =? batchSize v then
      if t <? b_total v
      then ((with_open v 0 t (length h1), h1 ++ [NewBatch (batchSize v)]), Ok (Some (length h0)))
      else ((with_open v 0 t (length h0), h1), Ok (Some (length h0)))
    else ((with_open v (counter v + 1) t (length h0), h1), Ok None).
Proof.
  intros Hb h1 t. unfold ED25519Batch_Add, mbind, M_bind, get.
  rewrite Hb. cbn [mret M_ret]. rewrite Hb. unfold modify, set_counters.
  cbn [modify batchSize b_total counter totalCounter b_batch]. rewrite alter_last.
  unfold modify. cbn. rewrite Hb. destruct (_ =? batchSize v); [|done].
  cbn. destruct (_ <? b_total v); done.
Qed.

Lemma elem_of_handed (i j : nat) : i ∈ option_list (Some j) <-> i = j.
Proof. apply list_elem_of_singleton. Qed.

(** Adding to an open batch. *)
Lemma Add_open_inv v h l js m d i :
  binv v h l js -> b_batch v = Some i -> Z.of_nat (length l) < b_total v ->
  exists v' h' j, ED25519Batch_Add m (Auth_ED25519 d) (v, h) = ((v', h'), Ok j) /\
    binv v' h' (l ++ [(m, d)]) (js ++ option_list j) /\
    b_total v' = b_total v /\ forall k, k ∈ js -> h' !! k = h !! k.
Proof.
  intros [Hc Hi Hcur] Hb Hlt. rewrite Hb in Hcur.
  destruct Hcur as (h0 & b & -> & -> & Hjs & Hopen).
  assert (length h0 ∉ js) as Hnot by (intros ?%Hopen; lia).
  pose proof (Add_open v h0 b m d Hb) as Hadd. cbn zeta in Hadd.
  set (h1 := h0 ++ [EDBatch_Add m (ED_Signer d) (ED_Signature d) b]) in *.
  assert (totalCounter v + 1 = Z.of_nat (length (l ++ [(m, d)]))) as Hc'
    by (rewrite length_app; simpl; lia).
  assert (concat (map batch_items h1) = map item (l ++ [(m, d)])) as Hi'.
  { unfold h1. rewrite !map_app, <- Hi, map_app, !concat_app. simpl.
    by rewrite batch_items_Add, !app_nil_r, app_assoc. }
  assert (length h1 = S (length h0)) as Hl1 by (unfold h1; rewrite length_app; simpl; lia).
  assert (forall k, k ∈ js -> h1 !! k = (h0 ++ [b]) !! k) as Hsame.
  { intros k Hk. assert (k < length h0)%nat as Hlk.
    { apply Hjs. split; [done|]. by intros ->. }
    unfold h1. by rewrite !lookup_app_l. }
  destruct (_ =? batchSize v) eqn:Ebs; [destruct (_ <? b_total v) eqn:Et|];
    do 3 eexists; (split; [exact Hadd|]).
  - split; [split; [done| |]|split; [done|]].
    + rewrite map_app, concat_app, Hi'. simpl. by rewrite batch_items_New, !app_nil_r.
    + exists h1, (NewBatch (batchSize v)). split; [done|]. split; [done|]. split.
      * intros j. rewrite elem_of_app, elem_of_handed.
        specialize (Hjs j). split.
        -- intros Hj. split; [|lia]. destruct (decide (j = length h0)); [by right|].
           left. apply Hjs. lia.
        -- intros [[Hj| ->] _]; [|lia]. rewrite Hl1.
           assert (j < length h0)%nat; [|lia]. apply Hjs. split; [done|]. by intros ->.
      * rewrite elem_of_app, elem_of_handed. intros [Hj|?]; [|lia].
        assert (length h1 < length h0)%nat; [|lia]. apply Hjs. split; [done|lia].
    + intros k Hk. rewrite lookup_app_l; [by apply Hsame|].
      rewrite Hl1. assert (k < length h0)%nat; [|lia]. apply Hjs. split; [done|]. by intros ->.
  - split; [split; [done|done|]|split; [done|exact Hsame]].
    exists h0, (EDBatch_Add m (ED_Signer d) (ED_Signature d) b). split; [done|]. split; [done|]. split.
    + intros j. rewrite elem_of_app, elem_of_handed, Hjs. intuition.
    + intros _. cbn [with_open b_total totalCounter]. lia.
  - split; [split; [done|done|]|split; [done|exact Hsame]].
    exists h0, (EDBatch_Add m (ED_Signer d) (ED_Signature d) b). split; [done|]. split; [done|].
    change (option_list (@None nat)) with (@nil nat).
    rewrite app_nil_r. split; [done|]. by intros ?%Hnot.
Qed.

Lemma Add_inv v h l js m d :
  binv v h l js -> Z.of_nat (length l) < b_total v ->
  exists v' h' j, ED25519Batch_Add m (Auth_ED25519 d) (v, h) = ((v', h'), Ok j) /\
    binv v' h' (l ++ [(m, d)]) (js ++ option_list j) /\
    b_total v' = b_total v /\ forall k, k ∈ js -> h' !! k = h !! k.
Proof.
  intros Hinv Hlt. destruct (b_batch v) as [i|] eqn:Hb; [by eapply Add_open_inv|].
  destruct Hinv as [Hc Hi Hcur]. rewrite Hb in Hcur. destruct Hcur as [-> ->].
  rewrite (Add_first v m d Hb).
  destruct (Add_open_inv (with_open v (counter v) (totalCounter v) 0)
              [NewBatch (batchSize v)] l [] m d 0) as (v' & h' & j & Hr & Hinv & Ht & _).
  - split; [done| |].
    + simpl. rewrite batch_items_New. by rewrite <- Hi.
    + exists [], (NewBatch (batchSize v)). split; [done|]. split; [done|].
      split; [|by intros ?%not_elem_of_nil].
      intros j. split; [lia|]. by intros [?%not_elem_of_nil _].
  - done.
  - done.
  - exists v', h', j. split; [done|]. split; [done|]. split; [done|].
    by intros k ?%not_elem_of_nil.
Qed.

Lemma add_all_inv l v h l0 js :
  binv v h l0 js -> Z.of_nat (length (l0 ++ l)) <= b_total v ->
  exists v' h' js', add_all l (v, h) = ((v', h'), Ok js') /\
    binv v' h' (l0 ++ l) (js ++ js') /\ b_total v' = b_total v /\
    forall k, k ∈ js -> h' !! k = h !! k.
Proof.
  revert v h l0 js. induction l as [|[m d] l IH]; intros v h l0 js Hinv Hlt.
  - exists v, h, []. by rewrite !app_nil_r.
  - cbn [add_all]. rewrite length_app in Hlt. cbn [length] in Hlt.
    destruct (Add_inv v h l0 js m d Hinv ltac:(lia)) as (v1 & h1 & j & Hr1 & Hinv1 & Ht1 & Hk1).
    destruct (IH v1 h1 _ _ Hinv1) as (v2 & h2 & js2 & Hr2 & Hinv2 & Ht2 & Hk2).
    { rewrite !length_app. simpl. lia. }
    rewrite (bind_run _ _ _ _ _ Hr1), (bind_run _ _ _ _ _ Hr2).
    exists v2, h2, (option_list j ++ js2). rewrite <- !app_assoc in Hinv2.
    split; [by destruct j|]. split; [done|]. split; [congruence|].
    intros k Hk. rewrite Hk2 by (apply elem_of_app; by left). by apply Hk1.
Qed.

(** What the functions verify at the end. *)
Lemma jobs_verify v h l js :
  binv v h l js ->
  forallb (run_job h) (js ++ ED25519Batch_Done v) = true <->
  Forall (fun x => ED25519_Verify x.2 x.1 = Ok tt) l.
Proof.
  intros [Hc Hi Hcur].
  assert (Forall (fun x => ED25519_Verify x.2 x.1 = Ok tt) l <->
          Forall (fun b => EDBatch_Verify b = true) h) as ->.
  { transitivity (Forall (fun '(m, k, g) => ed25519_Verify m k g = true) (map item l)).
    - rewrite Forall_map. apply Forall_iff. intros [m d]. unfold ED25519_Verify. simpl.
      by destruct (ed25519_Verify _ _ _).
    - rewrite <- Hi. clear. induction h as [|b h IH]; simpl; [by split; constructor|].
      by rewrite Forall_app, Forall_cons, IH, EDBatch_Verify_spec. }
  rewrite forallb_forall. unfold ED25519Batch_Done.
  destruct (b_batch v) as [i|].
  - destruct Hcur as (h0 & b & -> & -> & Hjs & _). rewrite Forall_lookup. split.
    + intros Hall j bj Hj. specialize (Hall j). unfold run_job in Hall. rewrite Hj in Hall.
      apply Hall, list_elem_of_In. rewrite elem_of_app, list_elem_of_singleton.
      apply lookup_lt_Some in Hj. rewrite length_app in Hj. simpl in Hj.
      destruct (decide (j = length h0)); [by right|]. left. apply Hjs. lia.
    + intros Hall j Hj%list_elem_of_In. rewrite elem_of_app, list_elem_of_singleton in Hj.
      unfold run_job. destruct ((h0 ++ [b]) !! j) as [bj|] eqn:E; [by eapply Hall|].
      apply lookup_ge_None in E. rewrite length_app in E. simpl in E.
      destruct Hj as [Hj| ->]; [|lia]. destruct (decide (j = length h0)) as [->|]; [lia|].
      assert (j < length h0)%nat; [by apply Hjs|lia].
  - destruct Hcur as [-> ->]. split; [constructor|]. by intros _ j ?.
Qed.
End batch_facts.

(** C40: The batch verifier verifies every signature. A block's signatures are
    added one by one and the rest is asked for at the end; no step panics, the
    functions handed out (by [Add] and by [Done]) all succeed exactly when
    every signature is valid, and a function handed out early verifies the same
    batch whenever it is run: later signatures never join it. *)
Theorem ED25519Batch_correct
    `{HC : HyperConsts} {BC : BLSCrypto} {EC : ED25519Crypto} {ES : ED25519CryptoSpec}
    {EB : ED25519BatchOps} {EBS : ED25519BatchSpec} {CE : CryptoErrors}
    (cores : Z) (v0 : ED25519Batch) (l1 l2 : list (bytes * ED25519)) :
  GetBatchVerifier cores (Z.of_nat (length (l1 ++ l2))) = Ok v0 ->
  exists v1 h1 js1 v2 h2 js2,
    add_all l1 (v0, []) = ((v1, h1), Ok js1) /\
    add_all l2 (v1, h1) = ((v2, h2), Ok js2) /\
    (forall j, j ∈ js1 -> run_job h2 j = run_job h1 j) /\
    (forallb (run_job h2) ((js1 ++ js2) ++ ED25519Batch_Done v2) = true <->
     Forall (fun x => ED25519_Verify x.2 x.1 = Ok tt) (l1 ++ l2)).
Proof.
  unfold GetBatchVerifier. destruct (_ =? 0); [done|]. intros [= Hv0].
  assert (binv v0 [] [] []) as Hinv0 by (by rewrite <- Hv0).
  assert (b_total v0 = Z.of_nat (length (l1 ++ l2))) as Ht0 by (by rewrite <- Hv0).
  rewrite length_app in Ht0.
  destruct (add_all_inv l1 v0 [] [] [] Hinv0) as (v1 & h1 & js1 & Hr1 & Hinv1 & Ht1 & _);
    [simpl; lia|].
  destruct (add_all_inv l2 v1 h1 l1 js1 Hinv1) as (v2 & h2 & js2 & Hr2 & Hinv2 & _ & Hk);
    [rewrite length_app; lia|].
  exists v1, h1, js1, v2, h2, js2. split; [done|]. split; [done|]. split.
  - intros j Hj. unfold run_job. by rewrite Hk.
  - by apply jobs_verify.
Qed.

(** ** The properties at work *)

Module AuthExamples.
Import Sample.Instances.

Definition w_priv : bls_PrivateKey := arr_of 48 [x07].
Definition w_pub : bls_PublicKey := arr_of 48 [x07].
Definition w_bls_sig : bls_Signature := arr_of 96 [x09].
Definition w_sig (k : arr 32) (m : bytes) : ED25519 :=
  {| ED_Signer := k : arr ed25519_PublicKeyLen; ED_Signature := ed25519_Sign m (k : ed25519_PrivateKey); ED_addr := EmptyAddress |}.

Lemma BLS_signer_address_witness :
  exists b, BLSFactory_Sign w_priv [x01; x02] = Ok b /\
    snd (BLS_Actor b) = Ok (BLSFactory_Address w_priv).
Proof.
  destruct (BLS_signer_address w_priv [x01; x02]) as (b & Hb & _ & b' & Ha & _).
  exists b. split; [exact Hb|]. by rewrite Ha.
Defined.

Lemma BLS_roundtrip_witness :
  let b := {| BLS_Signer := w_pub; BLS_Signature := w_bls_sig; BLS_addr := w_addr 5 |} in
  snd (UnmarshalBLS (NewReader (Packer_Bytes (fst (BLS_Marshal b (NewWriter 0 1000)))) 1000)) =
    Ok {| BLS_Signer := w_pub; BLS_Signature := w_bls_sig; BLS_addr := EmptyAddress |}.
Proof. intros b. apply (BLS_roundtrip b 0 1000 1000). vm_compute. reflexivity. Defined.

Lemma ED25519_roundtrip_witness :
  let d := w_sig (arr_of 32 [x08]) [x01] in
  snd (UnmarshalED25519 (NewReader (Packer_Bytes (fst (ED25519_Marshal d (NewWriter 0 1000)))) 1000)) = Ok d.
Proof. intros d. apply (ED25519_roundtrip d 0 1000 1000). vm_compute. reflexivity. Defined.

(** Sixteen signatures fill the first batch, which is handed out early; the
    forged seventeenth is in the second one. *)
Definition w_good : list (bytes * ED25519) :=
  map (fun i => ([byte_of_Z i], w_sig (arr_of 32 [byte_of_Z i]) [byte_of_Z i]))
    [0; 1; 2; 3; 4; 5; 6; 7; 8; 9; 10; 11; 12; 13; 14; 15].
Definition w_forged : list (bytes * ED25519) := [([x63], w_sig (arr_of 32 [x01]) [x62])].

Lemma ED25519Batch_correct_witness :
  exists v0, GetBatchVerifier 4 17 = Ok v0 /\
  exists v h js, add_all (w_good ++ w_forged) (v0, []) = ((v, h), Ok js) /\ js = [0%nat] /\
    forallb (run_job h) (js ++ ED25519Batch_Done v) <> true.
Proof.
  destruct (GetBatchVerifier 4 17) as [v0|e|p] eqn:E; [|discriminate..].
  exists v0. split; [reflexivity|].
  destruct (ED25519Batch_correct 4 v0 [] (w_good ++ w_forged)) as (v1 & h1 & js1 & v2 & h2 & js2 & H1 & H2 & _ & H3).
  { exact E. }
  injection H1 as <- <- <-. exists v2, h2, js2. split; [exact H2|]. split.
  - injection E as <-. vm_compute in H2. by injection H2 as _ _ <-.
  - intros Hall. apply (proj1 H3) in Hall. rewrite app_nil_l in Hall.
    apply Forall_app in Hall as [_ Hall]. apply Forall_cons in Hall as [Hall _]. vm_compute in Hall. discriminate.
Defined.
End AuthExamples.
