(* ===== verification/Sha256.v ===== *)
(** * Sha256: the standard library's [crypto/sha256]

    [sha256.Sum256] is the digest an auction bid is signed over. It is part of
    the language's standard library, so it is defined here, following FIPS
    180-4, and tested on the standard's examples. *)

From stdpp Require Import base numbers list.
From Stdlib Require Import ZArith Lia Strings.Byte.
From S2P Require Import Prelude.

Local Open Scope Z_scope.

(** ** Words of 32 bits *)

Definition w32 (z : Z) : Z := Z.land z 4294967295.
Definition add32 (a b : Z) : Z := w32 (a + b).
Definition rotr (n : Z) (x : Z) : Z := Z.lor (Z.shiftr x n) (w32 (Z.shiftl x (32 - n))).
Definition xor3 (a b c : Z) : Z := Z.lxor a (Z.lxor b c).

Definition Ch (x y z : Z) : Z := Z.lxor (Z.land x y) (Z.land (Z.lxor x 4294967295) z).
Definition Maj (x y z : Z) : Z := xor3 (Z.land x y) (Z.land x z) (Z.land y z).
Definition Sigma0 (x : Z) : Z := xor3 (rotr 2 x) (rotr 13 x) (rotr 22 x).
Definition Sigma1 (x : Z) : Z := xor3 (rotr 6 x) (rotr 11 x) (rotr 25 x).
Definition sigma0 (x : Z) : Z := xor3 (rotr 7 x) (rotr 18 x) (Z.shiftr x 3).
Definition sigma1 (x : Z) : Z := xor3 (rotr 17 x) (rotr 19 x) (Z.shiftr x 10).

(** The constants are the first 32 bits of the fractional parts of roots of the
    first primes: computed here from that definition. *)
Definition is_prime (n : Z) : bool :=
  forallb (fun d => negb (n mod Z.of_nat d =? 0)) (seq 2 (Z.to_nat n - 2)).

Definition primes (bound : nat) : list Z :=
  filter (fun n => is_prime n = true) (Z.of_nat <$> seq 2 (bound - 2)).

(** The largest [r] below [2 ^ fuel] (added to [acc]) with [r ^ 3 <= n], bit by bit. *)
Fixpoint cube_root (fuel : nat) (acc n : Z) : Z :=
  match fuel with
  | O => acc
  | S fuel =>
      let r := acc + 2 ^ Z.of_nat fuel in
      cube_root fuel (if r * r * r <=? n then r else acc) n
  end.

Definition K256 : list Z :=
  Eval vm_compute in (fun p => w32 (cube_root 40 0 (Z.shiftl p 96))) <$> primes 312.

(** The chaining value. *)
Record digest := Digest { dA : Z; dB : Z; dC : Z; dD : Z; dE : Z; dF : Z; dG : Z; dH : Z }.

Definition H0 : digest :=
  Eval vm_compute in
  match (fun p => w32 (Z.sqrt (Z.shiftl p 64))) <$> primes 20 with
  | [a; b; c; d; e; f; g; h] => Digest a b c d e f g h
  | _ => Digest 0 0 0 0 0 0 0 0
  end.

(** One round with round constant [k]; [win] holds the next sixteen words of
    the message schedule. *)
Definition round (st : digest * list Z) (k : Z) : digest * list Z :=
  let '(d, win) := st in
  let w i := nth i win 0 in
  let t1 := add32 (add32 (add32 (dH d) (Sigma1 (dE d))) (add32 (Ch (dE d) (dF d) (dG d)) k)) (w 0%nat) in
  let t2 := add32 (Sigma0 (dA d)) (Maj (dA d) (dB d) (dC d)) in
  let next := add32 (add32 (sigma1 (w 14%nat)) (w 9%nat)) (add32 (sigma0 (w 1%nat)) (w 0%nat)) in
  (Digest (add32 t1 t2) (dA d) (dB d) (dC d) (add32 (dD d) t1) (dE d) (dF d) (dG d),
   tail win ++ [next]).

Definition block (d : digest) (win : list Z) : digest :=
  let r := fst (foldl round (d, win) K256) in
  Digest (add32 (dA d) (dA r)) (add32 (dB d) (dB r)) (add32 (dC d) (dC r)) (add32 (dD d) (dD r))
         (add32 (dE d) (dE r)) (add32 (dF d) (dF r)) (add32 (dG d) (dG r)) (add32 (dH d) (dH r)).

(** The big-endian words of the first [n] groups of four bytes. *)
Fixpoint words (n : nat) (l : bytes) : list Z :=
  match n with
  | O => []
  | S n => be_dec (take 4 l) :: words n (drop 4 l)
  end.

Fixpoint blocks (n : nat) (d : digest) (l : bytes) : digest :=
  match n with
  | O => d
  | S n => blocks n (block d (words 16 l)) (drop 64 l)
  end.

(** A one bit, zeros, and the length in bits, up to a multiple of 64 bytes. *)
Definition pad (m : bytes) : bytes :=
  let n := length m in
  m ++ x80 :: zeros ((119 - n mod 64) mod 64)%nat ++ be_enc 8 (8 * Z.of_nat n).

Definition digest_bytes (d : digest) : bytes :=
  concat (map (be_enc 4) [dA d; dB d; dC d; dD d; dE d; dF d; dG d; dH d]).

(** [sha256.Sum256] returns a [[32]byte]. *)
Definition Sum256 (m : bytes) : arr 32 :=
  let p := pad m in
  arr_of 32 (digest_bytes (blocks (length p / 64)%nat H0 p)).

(** The padded message is a whole number of blocks. *)
Lemma length_pad (m : bytes) : (length (pad m) mod 64 = 0)%nat.
Proof.
  unfold pad. rewrite !length_app. cbn [length]. rewrite length_app, length_be_enc.
  unfold zeros. rewrite length_replicate.
  pose proof (Nat.mod_upper_bound (length m) 64 ltac:(lia)) as Hm.
  pose proof (Nat.div_mod (length m) 64 ltac:(lia)) as Hd.
  destruct (decide (length m mod 64 <= 55)%nat).
  - replace ((119 - length m mod 64) mod 64)%nat with (55 - length m mod 64)%nat.
    + replace (length m + S (55 - length m mod 64 + 8))%nat
        with (0 + (length m / 64 + 1) * 64)%nat by lia.
      by rewrite Nat.Div0.mod_add.
    + replace (119 - length m mod 64)%nat with (55 - length m mod 64 + 1 * 64)%nat by lia.
      rewrite Nat.Div0.mod_add. symmetry. apply Nat.mod_small. lia.
  - rewrite (Nat.mod_small (119 - length m mod 64)) by lia.
    replace (length m + S (119 - length m mod 64 + 8))%nat
      with (0 + (length m / 64 + 2) * 64)%nat by lia.
    by rewrite Nat.Div0.mod_add.
Qed.

(** The digest fills the array: nothing is cut or padded. *)
Lemma Sum256_bytes (m : bytes) :
  arr_list (Sum256 m) = digest_bytes (blocks (length (pad m) / 64)%nat H0 (pad m)).
Proof.
  apply arr_of_list. unfold digest_bytes. cbn [map concat].
  by rewrite !length_app, !length_be_enc.
Qed.

(** FIPS 180-4 examples: the empty message, one block and two blocks. *)
Example Sum256_empty : be_dec (Sum256 []) =
  0xe3b0c44298fc1c149afbf4c8996fb92427ae41e4649b934ca495991b7852b855.
Proof. vm_compute. reflexivity. Qed.

Example Sum256_abc : be_dec (Sum256 [x61; x62; x63]) =
  0xba7816bf8f01cfea414140de5dae2223b00361a396177a9cb410ff61f20015ad.
Proof. vm_compute. reflexivity. Qed.

Example Sum256_two_blocks :
  be_dec (Sum256 (concat (map (fun i => [byte_of_Z i; byte_of_Z (i+1); byte_of_Z (i+2); byte_of_Z (i+3)])
    [97;98;99;100;101;102;103;104;105;106;107;108;109;110]))) =
  0x248d6a61d20638b8e5c026930c3e6039a33ce45964ff2167f6ecedd419db06c1.
Proof. vm_compute. reflexivity. Qed.
