(* ===== verification/Auction.v ===== *)
(** * Auction: bids for the right to build an epoch

    [src/actions/auction.go]. A whitelisted address submits the winning bid for
    the next epoch; the price moves from the builder to the arcadia fund and the
    bid is stored. *)

From stdpp Require Import base numbers countable gmap list strings.
From Stdlib Require Import ZArith Lia Strings.Byte.
From S2P Require Import Prelude HyperSDK State Wire Sample Storage Ledger Genesis Auth Sha256.
From S2P Require Import Actions ChainInv.

Local Open Scope Z_scope.

Record AuctionInfo `{HyperConsts} := {
  EpochNumber : Z;
  BidPrice : Z;
  BuilderSEQAddress : Address
}.

Record Auction `{HyperConsts} := {
  auction_Info : AuctionInfo;
  BuilderPublicKey : bytes;   (** BLS public key of the bidder *)
  BuilderSignature : bytes
}.

Section auction.
Context `{HC : HyperConsts} {CO : Codec} {HA : HActions} {SM : SafeMath} {BC : BLSCrypto}.
Context `{DE : DatabaseErrors} `{SP : StatePermissions} {S : Type} `{MU : Mutable S}.
Implicit Types (a : Auction) (info : AuctionInfo).

Definition HashAuctionInfo info : res (arr 32) :=
  let msg := AppendUint64 [] (EpochNumber info) in
  let msg := AppendUint64 msg (BidPrice info) in
  let msg := msg ++ BuilderSEQAddress info in
  let hash := Sum256 msg in
  Ok hash.

Definition AuctionInfo_Marshal info : M Packer unit :=
  PackUint64 (EpochNumber info);;
  PackUint64 (BidPrice info);;
  PackAddress (BuilderSEQAddress info).

Definition UnmarshalAuctionInfo : M Packer AuctionInfo :=
  epochNumber ← UnpackUint64 true;
  bidPrice ← UnpackUint64 true;
  addr ← UnpackAddress;
  ret_Err {| EpochNumber := epochNumber; BidPrice := bidPrice; BuilderSEQAddress := addr |}.

Definition Auction_GetTypeID (_ : Auction) : Z := AuctionID.

(** The address of the fund is computed without an error check. *)
Definition fund_address : Address :=
  match ArcadiaFundAddress with Ok a => a | _ => EmptyAddress end.

Definition Auction_StateKeys a (_ : Address) (_ : ID) : Keys :=
  keys_literal
    [(BalanceKey (BuilderSEQAddress (auction_Info a)), perm_or Read Write);
     (BalanceKey fund_address, All);
     (ArcadiaBidKey (EpochNumber (auction_Info a)), perm_or Write Allocate)].

Definition Auction_StateKeysMaxChunks (_ : Auction) : list Z :=
  [BalanceChunks; BalanceChunks; EpochExitsChunks].

(** This is a permissioned action, only authorized address can pass the
    execution. *)
Definition Auction_Execute a (rules : Rules) (_ hght : Z) (actor : Address) (_ : ID)
    : M S (list bytes) :=
  wl ← lift (isWhiteListed rules actor);
  if negb wl then throw ErrNotWhiteListed else
  (* Allow auction bid for next epoch processed only during the current epoch. *)
  epoch ← lift (Epoch hght (GetEpochLength rules));
  if negb (EpochNumber (auction_Info a) =? u64 (epoch + 1)) then
    throw (Errorf "epoch number is not valid, expected: %d, actual: %d"
             [AInt (u64 (epoch + 1)); AInt (EpochNumber (auction_Info a))])
  else
  pubkey ← lift (map_err (ErrWrap "failed to parse public key: %w" [])
                   (bls_PublicKeyFromBytes (BuilderPublicKey a)));
  digest ← lift (map_err (fun _ => Errorf "unable to hash auction info" [])
                   (HashAuctionInfo (auction_Info a)));
  sig ← lift (map_err (ErrWrap "failed to parse signature: %w" [])
                (bls_SignatureFromBytes (BuilderSignature a)));
  (* Verify the signature. *)
  if negb (bls_Verify (arr_list digest) pubkey sig) then throw ErrInvalidBidderSignature else
  let builderSEQAddress := CreateAddress BLSID (ToID (BuilderPublicKey a)) in
  if negb (bool_decide (builderSEQAddress = BuilderSEQAddress (auction_Info a))) then
    throw ErrParsedBuilderSEQAddressMismatch
  else
  (* deduct the bid amount from bidder. *)
  SubBalance builderSEQAddress (BidPrice (auction_Info a));;
  (* Bid amount is sent to the Arcadia fund address. *)
  AddBalance fund_address (BidPrice (auction_Info a)) true;;
  (* Store bid information. *)
  StoreArcadiaBidInfo (EpochNumber (auction_Info a)) (BidPrice (auction_Info a))
    (BuilderPublicKey a) (BuilderSignature a);;
  mret [].

Definition Auction_ComputeUnits (_ : Auction) (_ : Address) (_ : Rules) : Z := AuctionComputeUnits.

Definition Auction_Size (_ : Auction) : Z :=
  2 * Z.of_nat Uint64Len + Z.of_nat bls_PublicKeyLen + Z.of_nat bls_SignatureLen + Z.of_nat AddressLen.

Definition Auction_Marshal a : M Packer unit :=
  AuctionInfo_Marshal (auction_Info a);;
  PackBytes (BuilderPublicKey a);;
  PackBytes (BuilderSignature a).

Definition UnmarshalAuction : M Packer Auction :=
  auctionInfo ← UnmarshalAuctionInfo;
  pk ← UnpackBytes 48 true;
  sig ← UnpackBytes 96 true;
  ret_Err {| auction_Info := auctionInfo; BuilderPublicKey := pk; BuilderSignature := sig |}.

Definition Auction_ValidRange (_ : Auction) (_ : Rules) : Z * Z := (-1, -1).
Definition Auction_NMTNamespace (_ : Auction) : bytes := DefaultNMTNamespace.
Definition Auction_UseFeeMarket (_ : Auction) : bool := false.

#[export] Instance Auction_action : ChainAction S Auction := {|
  GetTypeID := Auction_GetTypeID;
  StateKeys := Auction_StateKeys;
  StateKeysMaxChunks := Auction_StateKeysMaxChunks;
  Execute rules t hght actor txID sa :=
    on_state (Auction_Execute (snd sa) rules t hght actor txID) sa;
  ComputeUnits := Auction_ComputeUnits;
  Size := Auction_Size;
  Marshal := Auction_Marshal;
  Unmarshal := UnmarshalAuction;
  ValidRange := Auction_ValidRange;
  NMTNamespace := Auction_NMTNamespace;
  UseFeeMarket := Auction_UseFeeMarket
|}.
End auction.

Definition Auction_wf `{HC : HyperConsts} (a : Auction) : Prop :=
  is_u64 (EpochNumber (auction_Info a)) /\ is_u64 (BidPrice (auction_Info a)).

(** ** When a bid is accepted *)

Section accept.
Context `{HC : HyperConsts} {CO : Codec} {BC : BLSCrypto}.
Implicit Types (a : Auction).

(** The digest the builder signs. *)
Definition bid_digest (info : AuctionInfo) : bytes :=
  Sum256 (be_enc 8 (EpochNumber info) ++ be_enc 8 (BidPrice info) ++ BuilderSEQAddress info).

Definition builder a : Address := BuilderSEQAddress (auction_Info a).

(** The submitter is whitelisted, the bid is for the next epoch, the builder's
    key signed it, and the builder's address is the one of that key. *)
Record bid_valid a (rules : Rules) (hght : Z) (actor : Address) : Prop := {
  bv_whitelisted : actor ∈ parsedWhiteListedAddress rules;
  bv_epoch : EpochNumber (auction_Info a) = u64 (hght / u64 (GetEpochLength rules) + 1);
  bv_signed : exists pk sig,
    bls_PublicKeyFromBytes (BuilderPublicKey a) = Ok pk /\
    bls_SignatureFromBytes (BuilderSignature a) = Ok sig /\
    bls_Verify (bid_digest (auction_Info a)) pk sig = true;
  bv_address : builder a = CreateAddress BLSID (ToID (BuilderPublicKey a))
}.

(** The contents of the state after the bid. *)
Definition bid_effect {HA : HActions} a (v : gmap bytes bytes) : gmap bytes bytes :=
  let info := auction_Info a in
  <[ArcadiaBidKey (EpochNumber info) :=
      be_enc 8 (BidPrice info) ++ BuilderPublicKey a ++ BuilderSignature a]>
    (credit (debit v (builder a) (BidPrice info)) fund_address (BidPrice info)).
End accept.

Section auction_facts.
Context `{HC : HyperConsts} {HCS : HyperConstsSpec} {CO : Codec} {HA : HActions}.
Context {SM : SafeMath} {SMS : SafeMathSpec} {BC : BLSCrypto} {BS : BLSCryptoSpec}.
Context {DE : DatabaseErrors} {DES : DatabaseErrorsSpec}.
Context {SP : StatePermissions}.
Context {S : Type} {IM : Immutable S} {MU : Mutable S} {MS : MutableSpec S}.
Implicit Types (s : S) (a : Auction).

Lemma HashAuctionInfo_eq (i : AuctionInfo) :
  HashAuctionInfo i = Ok (Sum256 (be_enc 8 (EpochNumber i) ++ be_enc 8 (BidPrice i) ++ BuilderSEQAddress i)).
Proof. unfold HashAuctionInfo, AppendUint64. by rewrite app_nil_l, <- app_assoc. Qed.

(** The part of [Execute] that changes the state. *)
Definition bid_payment a : M S (list bytes) :=
  SubBalance (builder a) (BidPrice (auction_Info a));;
  AddBalance fund_address (BidPrice (auction_Info a)) true;;
  StoreArcadiaBidInfo (EpochNumber (auction_Info a)) (BidPrice (auction_Info a))
    (BuilderPublicKey a) (BuilderSignature a);;
  mret [].

(** The guards come first: they reject without a change, panic only when the
    epoch length is zero, or leave the payment. *)
Lemma Auction_Execute_cases a rules t h actor id s :
  (bid_valid a rules h actor /\ epoch_length_ok rules /\
   Auction_Execute a rules t h actor id s = bid_payment a s) \/
  ((~ bid_valid a rules h actor) /\
   exists e, Auction_Execute a rules t h actor id s = (s, Err e)) \/
  (u64 (GetEpochLength rules) = 0 /\ Auction_Execute a rules t h actor id s = (s, Panic PDivide)).
Proof.
  unfold Auction_Execute. rewrite isWhiteListed_eq, bind_lift_Ok.
  destruct (containsAddress _ actor) eqn:Hw; cbn [negb];
    [|right; left; split; [|by eexists]; intros [Hc%containsAddress_spec _ _ _]; congruence].
  apply containsAddress_spec in Hw.
  destruct (decide (u64 (GetEpochLength rules) = 0)) as [Hz|Hz].
  { right; right. split; [done|]. unfold Epoch. by rewrite Hz. }
  rewrite Epoch_ok by done.
  rewrite bind_lift_Ok.
  destruct (Z.eqb_spec (EpochNumber (auction_Info a)) (u64 (h / u64 (GetEpochLength rules) + 1)))
    as [He|He]; cbn [negb];
    [|right; left; split; [by intros [_ ? _ _]|by eexists]].
  pose proof (PublicKeyFromBytes_no_panic (BuilderPublicKey a)) as Hnp1.
  destruct (bls_PublicKeyFromBytes (BuilderPublicKey a)) as [pk|e|p] eqn:Hpk; [| |done];
    [|right; left; split; [|by eexists]; intros [_ _ (pk & sig & Hk & _) _]; congruence].
  rewrite HashAuctionInfo_eq. cbn [map_err]. rewrite !bind_lift_Ok.
  pose proof (SignatureFromBytes_no_panic (BuilderSignature a)) as Hnp2.
  destruct (bls_SignatureFromBytes (BuilderSignature a)) as [sig|e|p] eqn:Hsig; [| |done];
    [|right; left; split; [|by eexists]; intros [_ _ (pk' & sig & _ & Hk & _) _]; congruence].
  cbn [map_err]. rewrite bind_lift_Ok. fold (bid_digest (auction_Info a)).
  destruct (bls_Verify (bid_digest (auction_Info a)) pk sig) eqn:Hver; cbn [negb];
    [|right; left; split; [|by eexists]; intros [_ _ (pk' & sig' & Hk & Hg & Hv) _]; congruence].
  case_bool_decide as Haddr; cbn [negb];
    [|right; left; split; [|by eexists]; intros [_ _ _ Hb]; by apply Haddr].
  left. split; [split; [done|done|by eauto|done]|]. split; [done|]. by rewrite Haddr.
Qed.

Lemma bid_valid_lengths a rules h actor :
  bid_valid a rules h actor ->
  length (BuilderPublicKey a) = 48%nat /\ length (BuilderSignature a) = 96%nat.
Proof.
  intros [_ _ (pk & sig & Hpk & Hsig & _) _].
  apply PublicKeyFromBytes_len in Hpk. apply SignatureFromBytes_len in Hsig.
  by rewrite Hpk, Hsig, bls_PublicKeyLen_48, bls_SignatureLen_96.
Qed.

Lemma bid_payment_Ok_inv a s s' out :
  ledger_wf (view s) -> Auction_wf a ->
  length (BuilderPublicKey a) = 48%nat -> length (BuilderSignature a) = 96%nat ->
  bid_payment a s = (s', Ok out) ->
  let price := BidPrice (auction_Info a) in
  price <= bal_at (view s) (builder a) /\
  bal_at (debit (view s) (builder a) price) fund_address + price < u64_mod /\
  updated s s' (bid_effect a (view s)).
Proof.
  intros Hw [_ Hv] Hpk Hsig Hr. unfold bid_payment in Hr. cbn zeta.
  apply bind_Ok_inv in Hr as (s1 & [] & Hsub & Hr).
  apply bind_Ok_inv in Hr as (s2 & [] & Hadd & Hr).
  apply bind_Ok_inv in Hr as (s3 & [] & Hst & [= -> _]).
  apply SubBalance_Ok_inv in Hsub as [Hle [Hv1 Hs1]]; [|done|done].
  apply AddBalance_Ok_inv in Hadd as [Hlt [Hv2 Hs2]]; [|rewrite Hv1; by apply debit_wf|done].
  rewrite StoreArcadiaBidInfo_eq in Hst by done. apply Insert_Ok_inv in Hst as [Hv3 Hs3].
  rewrite Hv1 in *. split; [done|]. split; [done|].
  split; [|congruence]. by rewrite Hv3, Hv2.
Qed.

Lemma bid_payment_no_panic a s :
  ledger_wf (view s) -> Auction_wf a ->
  length (BuilderPublicKey a) = 48%nat -> length (BuilderSignature a) = 96%nat ->
  is_panic (snd (bid_payment a s)) = false.
Proof.
  intros Hw [_ Hv] Hpk Hsig. unfold bid_payment.
  pose proof (SubBalance_no_panic s (builder a) (BidPrice (auction_Info a)) Hw Hv) as Hp.
  destruct (SubBalance _ _ s) as [s1 [[]|e|p]] eqn:E1; [| |done];
    [|by rewrite (bind_run_err _ _ _ _ _ E1)].
  rewrite (bind_run _ _ _ _ _ E1).
  apply SubBalance_Ok_inv in E1 as [_ [Hv1 _]]; [|done|done].
  pose proof (AddBalance_no_panic s1 fund_address (BidPrice (auction_Info a)) true) as Hp1.
  rewrite Hv1 in Hp1. specialize (Hp1 (debit_wf _ _ _ Hw) Hv).
  destruct (AddBalance _ _ _ s1) as [s2 [[]|e|p]] eqn:E2; [| |done];
    [|by rewrite (bind_run_err _ _ _ _ _ E2)].
  rewrite (bind_run _ _ _ _ _ E2). unfold mbind, M_bind.
  rewrite StoreArcadiaBidInfo_eq by done.
  pose proof (Insert_no_panic s2 (ArcadiaBidKey (EpochNumber (auction_Info a)))
    (be_enc 8 (BidPrice (auction_Info a)) ++ BuilderPublicKey a ++ BuilderSignature a)) as Hp2.
  by destruct (Insert _ _ s2) as [s3 [[]|e|p]].
Qed.

Lemma Auction_keys a actor id k :
  k = BalanceKey (builder a) \/ k = BalanceKey fund_address \/
  k = ArcadiaBidKey (EpochNumber (auction_Info a)) ->
  is_Some (Auction_StateKeys a actor id !! k).
Proof.
  intros Hk. unfold Auction_StateKeys. keys_simpl. fold (builder a).
  rewrite !lookup_insert. repeat (case_decide; [done|]).
  by destruct Hk as [->|[->| ->]].
Qed.

Lemma bid_payment_frame a actor id :
  frame (fun k => is_Some (Auction_StateKeys a actor id !! k)) (bid_payment a).
Proof.
  unfold bid_payment. frame_steps.
  - apply frame_SubBalance, Auction_keys. by left.
  - apply frame_AddBalance, Auction_keys. by right; left.
  - apply frame_StoreArcadiaBidInfo, Auction_keys. by right; right.
Qed.

Context {CS : CodecSpec} {HS : HActionsSpec}.

Lemma ArcadiaBidKey_arcadia e : is_arcadia_key (ArcadiaBidKey e).
Proof. right; right; right. by exists e. Qed.

Lemma bid_effect_inv a v :
  Auction_wf a -> chain_inv v ->
  BidPrice (auction_Info a) <= bal_at v (builder a) ->
  bal_at (debit v (builder a) (BidPrice (auction_Info a))) fund_address +
    BidPrice (auction_Info a) < u64_mod ->
  chain_inv (bid_effect a v) /\ total (bid_effect a v) = total v.
Proof.
  intros [He Hp] Hc Hle Hlt. unfold is_u64 in Hp.
  destruct (transfer_inv v (builder a) fund_address (BidPrice (auction_Info a)) Hc)
    as [[Hw Hs [nss Hr]] Ht]; [lia|done|].
  unfold bid_effect. cbn zeta. set (v' := credit _ _ _) in *.
  destruct (arcadia_insert_ledger v' _
    (be_enc 8 (BidPrice (auction_Info a)) ++ BuilderPublicKey a ++ BuilderSignature a)
    (ArcadiaBidKey_arcadia (EpochNumber (auction_Info a))) Hw) as [Hw' Ht'].
  split; [|congruence]. split; [done|lia|]. exists nss. by apply bid_agree_registry.
Qed.

#[export] Instance Auction_contract : ChainActionSpec S Auction.
Proof.
  refine {| action_wf := Auction_wf |}.
  - intros r ts h actor id a s. unfold wp. cbn [Execute Auction_action snd]. rewrite on_state_run.
    destruct (Auction_Execute_cases a r ts h actor id s)
      as [(_ & _ & ->)|[[_ [e ->]]|[_ ->]]]; [|by apply touches_refl..].
    apply bid_payment_frame.
  - intros r ts h actor id a a' s s' out Hc Hwf _ _ Hr.
    cbn [Execute Auction_action snd] in Hr. rewrite on_state_run in Hr.
    destruct (Auction_Execute_cases a r ts h actor id s)
      as [(Hb & _ & E)|[[_ [e E]]|[_ E]]]; rewrite E in Hr; [|done..].
    destruct (bid_valid_lengths _ _ _ _ Hb) as [Hpk Hsig].
    destruct (bid_payment a s) as [s1 o] eqn:Ep. injection Hr as <- _ ->.
    apply bid_payment_Ok_inv in Ep as (Hle & Hlt & [-> _]); [|apply Hc|done..].
    by apply bid_effect_inv.
  - intros r ts h actor id a s Hc Hwf _ Hep.
    cbn [Execute Auction_action snd]. rewrite on_state_run.
    destruct (Auction_Execute_cases a r ts h actor id s)
      as [(Hb & _ & E)|[[_ [e E]]|[Hz E]]]; rewrite E; [|done|by destruct Hep].
    destruct (bid_valid_lengths _ _ _ _ Hb) as [Hpk Hsig].
    apply bid_payment_no_panic; [apply Hc|done..].
Defined.

(** Progress of the payment with the declared rights. *)
Lemma bid_payment_progress {SPS : StatePermissionsSpec} a actor id s :
  ledger_wf (view s) -> total (view s) < u64_mod -> Auction_wf a ->
  length (BuilderPublicKey a) = 48%nat -> length (BuilderSignature a) = 96%nat ->
  declares s (Auction_StateKeys a actor id) ->
  (forall b, length b = 152%nat -> ValueFits (ArcadiaBidKey (EpochNumber (auction_Info a))) b = true) ->
  BidPrice (auction_Info a) <= bal_at (view s) (builder a) ->
  wp (bid_payment a) s (fun s' o => o = Ok [] /\ updated s s' (bid_effect a (view s))).
Proof.
  intros Hw Ht [He Hp] Hpk Hsig Hd Hfit Hle.
  unfold Auction_StateKeys in Hd. keys_simpl_in Hd.
  assert (forall q, perm_Has (perm_or Write Allocate) q = true ->
    can s (ArcadiaBidKey (EpochNumber (auction_Info a))) q) as Hbid.
  { intros q Hq. by eapply declares_insert. }
  assert (forall x, BalanceKey x <> ArcadiaBidKey (EpochNumber (auction_Info a))) as Hne.
  { intros x Hx. apply (BalanceKey_not_arcadia x). rewrite Hx. apply ArcadiaBidKey_arcadia. }
  assert (forall q, can s (BalanceKey fund_address) q) as Hfund.
  { intros q. eapply declares_below; [exact Hd|apply lookup_insert_eq|apply Has_All|left; apply Hne]. }
  assert (forall q, perm_Has (perm_or Read Write) q = true -> can s (BalanceKey (builder a)) q) as Hbuilder.
  { intros q Hq. destruct (decide (BalanceKey (builder a) = BalanceKey fund_address)) as [->|Hnf];
      [done|].
    eapply declares_below; [exact Hd| |exact Hq|left; apply Hne].
    rewrite lookup_insert_ne by done. apply lookup_insert_eq. }
  pose proof (total_debit (view s) (builder a) (BidPrice (auction_Info a))) as Htd.
  pose proof (total_ge_bal (debit (view s) (builder a) (BidPrice (auction_Info a))) fund_address) as Hge.
  unfold is_u64 in Hp. unfold bid_payment.
  apply wp_bind. eapply wp_conseq.
  { apply SubBalance_enough; [done| |done|done].
    split; apply Hbuilder; [apply Has_or_l, Has_refl|apply Has_or_r, Has_refl]. }
  intros s1 o [-> [Hv1 Hs1]]. apply wp_bind. eapply wp_conseq.
  { apply AddBalance_fits; rewrite ?Hv1; try done; [by apply debit_wf| |by left|lia].
    unfold can_credit, can_debit, can. rewrite Hs1. repeat split; apply Hfund. }
  intros s2 o [-> [Hv2 Hs2]]. rewrite Hv1 in Hv2. apply wp_bind.
  eapply wp_eq; [by apply StoreArcadiaBidInfo_eq|].
  eapply wp_conseq.
  { apply Insert_allowed.
    - apply Hfit. by rewrite !length_app, length_be_enc, Hpk, Hsig.
    - intros _. unfold can. rewrite Hs2, Hs1. apply Hbid, Has_or_l, Has_refl.
    - intros _. unfold can. rewrite Hs2, Hs1. apply Hbid, Has_or_r, Has_refl. }
  intros s3 o [-> [Hv3 Hs3]]. apply wp_ret. split; [done|]. split; [|congruence].
  by rewrite Hv3, Hv2.
Qed.
End auction_facts.

(** ** Properties *)

(** C9: A bid is accepted exactly when it should be. With the rights its state
    keys declare (and a bid key that reserves room for the 152 bytes of a bid),
    on a ledger whose supply fits in a [uint64], [Auction.Execute] succeeds
    exactly when the submitter is whitelisted, the bid is for the next epoch,
    the signature of the builder's key over the bid's SHA-256 digest verifies,
    the builder's address is the one of that key, and the builder can pay. *)
Theorem Auction_Execute_accepts
    `{HC : HyperConsts} {HCS : HyperConstsSpec} {CO : Codec} {HA : HActions}
    {SM : SafeMath} {SMS : SafeMathSpec} {BC : BLSCrypto} {BS : BLSCryptoSpec}
    {DE : DatabaseErrors} {DES : DatabaseErrorsSpec} {CS : CodecSpec} {HS : HActionsSpec}
    {SP : StatePermissions} {SPS : StatePermissionsSpec}
    {S : Type} {IM : Immutable S} {MU : Mutable S} {MS : MutableSpec S}
    (a : Auction) (rules : Rules) (t h : Z) (actor : Address) (id : ID) (s : S) :
  ledger_wf (view s) -> total (view s) < u64_mod -> Auction_wf a -> epoch_length_ok rules ->
  declares s (Auction_StateKeys a actor id) ->
  (forall b, length b = 152%nat -> ValueFits (ArcadiaBidKey (EpochNumber (auction_Info a))) b = true) ->
  (is_ok (snd (Auction_Execute a rules t h actor id s)) = true <->
   bid_valid a rules h actor /\ BidPrice (auction_Info a) <= bal_at (view s) (builder a)).
Proof.
  intros Hw Ht Hwf Hep Hd Hfit.
  destruct (Auction_Execute_cases a rules t h actor id s)
    as [(Hb & _ & E)|[[Hnb [e E]]|[Hz _]]]; [rewrite E|rewrite E|by destruct Hep].
  - destruct (bid_valid_lengths _ _ _ _ Hb) as [Hpk Hsig]. split.
    + intros Hok. split; [done|]. destruct (bid_payment a s) as [s' [out|e|p]] eqn:Ep; [|done|done].
      by apply bid_payment_Ok_inv in Ep as [Hle _].
    + intros [_ Hle].
      pose proof (bid_payment_progress a actor id s Hw Ht Hwf Hpk Hsig Hd Hfit Hle) as Hpr.
      unfold wp in Hpr. by destruct Hpr as [-> _].
  - split; [done|]. by intros [? _].
Qed.

(** What an accepted bid does, whatever the rights of the transaction. The
    price moves from the builder to the fund, the supply stays, the stored bid
    reads back as price, key and signature, and no other key of the state
    changes. *)
Theorem Auction_Execute_effect
    `{HC : HyperConsts} {HCS : HyperConstsSpec} {CO : Codec} {HA : HActions}
    {SM : SafeMath} {SMS : SafeMathSpec} {BC : BLSCrypto} {BS : BLSCryptoSpec}
    {DE : DatabaseErrors} {DES : DatabaseErrorsSpec} {CS : CodecSpec} {HS : HActionsSpec}
    {SP : StatePermissions} {S : Type} {IM : Immutable S} {MU : Mutable S} {MS : MutableSpec S}
    (a : Auction) (rules : Rules) (t h : Z) (actor : Address) (id : ID) (s s' : S) out :
  let price := BidPrice (auction_Info a) in
  ledger_wf (view s) -> Auction_wf a -> builder a <> fund_address ->
  Auction_Execute a rules t h actor id s = (s', Ok out) ->
  bal_at (view s') (builder a) = bal_at (view s) (builder a) - price /\
  bal_at (view s') fund_address = bal_at (view s) fund_address + price /\
  total (view s') = total (view s) /\
  view s' !! ArcadiaBidKey (EpochNumber (auction_Info a)) =
    Some (be_enc 8 price ++ BuilderPublicKey a ++ BuilderSignature a) /\
  (forall k, k <> BalanceKey (builder a) -> k <> BalanceKey fund_address ->
     k <> ArcadiaBidKey (EpochNumber (auction_Info a)) -> view s' !! k = view s !! k).
Proof.
  intros price Hw Hwf Hne Hr.
  destruct (Auction_Execute_cases a rules t h actor id s)
    as [(Hb & _ & E)|[[_ [e E]]|[_ E]]]; rewrite E in Hr; [|done..].
  destruct (bid_valid_lengths _ _ _ _ Hb) as [Hpk Hsig].
  apply bid_payment_Ok_inv in Hr as (Hle & Hlt & [-> _]); [|done..].
  pose proof (proj2 Hwf) as Hp. unfold is_u64 in Hp. unfold bid_effect. fold price in Hle, Hlt, Hp |- *.
  assert (forall x v b, bal_at (<[ArcadiaBidKey (EpochNumber (auction_Info a)) := b]> v) x = bal_at v x) as Hbal.
  { intros x v b. unfold bal_at. rewrite lookup_insert_ne; [done|].
    intros Hx. apply (BalanceKey_not_arcadia x). rewrite <- Hx. apply ArcadiaBidKey_arcadia. }
  rewrite !Hbal. split; [|split; [|split; [|split]]].
  - rewrite bal_at_credit_ne by done. apply bal_at_debit. lia.
  - rewrite bal_at_credit; [by rewrite bal_at_debit_ne|lia|done].
  - rewrite total_insert_other by apply is_arcadia_key_other, ArcadiaBidKey_arcadia.
    rewrite total_credit by (lia || done). rewrite total_debit by lia. lia.
  - by rewrite lookup_insert_eq.
  - intros k H1 H2 H3. by rewrite lookup_insert_ne, credit_lookup_ne, debit_lookup_ne.
Qed.

(** Marshalling an auction and unmarshalling the bytes gives the auction
    back, for every bid with a non-zero epoch and price, a key of at most 48
    and a signature of at most 96 bytes. *)
Lemma Auction_roundtrip
    `{HC : HyperConsts} {CO : Codec} {CS : CodecSpec} (a : Auction) (n l l' : Z) :
  Auction_wf a -> EpochNumber (auction_Info a) <> 0 -> BidPrice (auction_Info a) <> 0 ->
  BuilderSEQAddress (auction_Info a) <> EmptyAddress ->
  (0 < length (BuilderPublicKey a) <= 48)%nat -> (0 < length (BuilderSignature a) <= 96)%nat ->
  let w := fst (Auction_Marshal a (NewWriter n l)) in
  Packer_Err w = None ->
  snd (UnmarshalAuction (NewReader (Packer_Bytes w) l')) = Ok a.
Proof.
  intros [He Hp] Hez Hpz Hadr Hpk Hsig w Hw.
  apply (wire_roundtrip (Auction_Marshal a) UnmarshalAuction a
    ((enc_u64 (EpochNumber (auction_Info a)) ++ enc_u64 (BidPrice (auction_Info a)) ++
      arr_list (BuilderSEQAddress (auction_Info a))) ++
     enc_bytes (BuilderPublicKey a) ++ enc_bytes (BuilderSignature a)) n l l' w); try done.
  - unfold Auction_Marshal, AuctionInfo_Marshal. auto 10 with wire.
  - unfold UnmarshalAuction. eapply reads_bind.
    { unfold UnmarshalAuctionInfo.
      eapply reads_bind; [by apply UnpackUint64_reads|].
      eapply reads_bind; [by apply UnpackUint64_reads|].
      eapply reads_bind_last; [by apply UnpackAddress_reads|].
      apply reads_ret_Err. }
    assert (forall b : bytes, (0 < length b)%nat -> b <> []) as Hnil by (intros [|]; simpl; [lia|done]).
    eapply reads_bind; [apply UnpackBytes_reads; [lia|lia|]|].
    { intros _. apply Hnil. lia. }
    eapply reads_bind_last; [apply UnpackBytes_reads; [lia|lia|]|].
    { intros _. apply Hnil. lia. }
    destruct a as [[]]. apply reads_ret_Err.
Qed.

(** ** The properties at work *)

Module AuctionExamples.
Import Sample.Instances.

Definition w_pk : bytes := replicate 48 x0b.
Definition w_builder : Address := CreateAddress BLSID (ToID w_pk).
Definition w_info : AuctionInfo :=
  {| EpochNumber := 3; BidPrice := 40; BuilderSEQAddress := w_builder |}.
Definition w_auction : Auction :=
  {| auction_Info := w_info; BuilderPublicKey := w_pk;
     BuilderSignature := arr_list (bls_Sign (bid_digest w_info) (arr_of 48 w_pk)) |}.
Definition w_rules : Rules :=
  {| rules_g := Default 16; networkID := 1; chainID := w_id 1; parsedWhiteListedAddress := [w_addr 9] |}.
Definition w_state : store := w_store (set_bal ∅ w_builder 100).

Lemma w_state_wf : ledger_wf (st_view w_state).
Proof. apply (set_bal_wf (∅ : gmap bytes bytes)), ledger_wf_empty. Qed.

Lemma w_valid : bid_valid w_auction w_rules 14 (w_addr 9).
Proof.
  split; [by left|vm_compute; reflexivity| |reflexivity].
  exists (arr_of 48 w_pk), (arr_of 96 (BuilderSignature w_auction)). split; [reflexivity|].
  split; [reflexivity|]. apply bool_decide_eq_true_2. apply (@arr_of_arr 96).
Qed.

(** Height 14 is in epoch 2, so the bid for epoch 3 is accepted. *)
Lemma Auction_Execute_accepts_witness :
  is_ok (snd (Auction_Execute w_auction w_rules 0 14 (w_addr 9) (w_id 0) w_state)) = true.
Proof.
  apply (Auction_Execute_accepts w_auction w_rules 0 14 (w_addr 9) (w_id 0) w_state).
  - apply w_state_wf.
  - vm_compute. reflexivity.
  - split; in_range.
  - vm_compute. discriminate.
  - intros k p q _ _. by destruct q as [[[] []] []].
  - intros b Hb. change (fits (ArcadiaBidKey 3) b = true). unfold fits. rewrite Hb. vm_compute. reflexivity.
  - split; [apply w_valid|]. vm_compute. discriminate.
Defined.

Definition w_after : store := fst (Auction_Execute w_auction w_rules 0 14 (w_addr 9) (w_id 0) w_state).

Lemma Auction_Execute_effect_witness :
  bal_at (st_view w_after) w_builder = 60 /\ bal_at (st_view w_after) fund_address = 40.
Proof.
  destruct (Auction_Execute_effect w_auction w_rules 0 14 (w_addr 9) (w_id 0) w_state w_after [])
    as (H1 & H2 & _).
  - apply w_state_wf.
  - split; in_range.
  - intros H%(f_equal arr_list). vm_compute in H. discriminate.
  - vm_compute. reflexivity.
  - split; [etransitivity; [exact H1|vm_compute; reflexivity]|etransitivity; [exact H2|vm_compute; reflexivity]].
Defined.
End AuctionExamples.
