(* ===== verification/EpochExit.v ===== *)
(** * EpochExit: a rollup leaves an epoch

    [src/actions/epoch_exit.go]. The authority of a registered rollup adds the
    rollup to, or removes it from, the exits of an epoch. *)

From stdpp Require Import base numbers countable gmap list strings.
From Stdlib Require Import ZArith Lia Strings.Byte.
From S2P Require Import Prelude HyperSDK State Wire Sample Storage Ledger Genesis Actions ChainInv.

Local Open Scope Z_scope.

Definition CreateExit : Z := 0.
Definition DeleteExit : Z := 1.

Record EpochExit := {
  ee_Info : EpochInfo;
  ee_Epoch : Z;
  ee_OpCode : Z
}.

Definition exit_namespace (e : EpochExit) : bytes := EI_Namespace (ee_Info e).

(** The search of the exits: an exit of the namespace exists; its index, or
    [-1]. *)
Fixpoint exit_exists (ns : bytes) (l : list EpochInfo) : bool :=
  match l with
  | [] => false
  | es :: l => if bytes_Equal ns (EI_Namespace es) then true else exit_exists ns l
  end.

Fixpoint exit_index (ns : bytes) (i : Z) (l : list EpochInfo) : Z :=
  match l with
  | [] => -1
  | es :: l => if bytes_Equal ns (EI_Namespace es) then i else exit_index ns (i + 1) l
  end.

(** [slices.Delete(l, i, i+1)] *)
Definition slices_Delete {A} (l : list A) (i : Z) : res (list A) :=
  if (0 <=? i) && (i <? Z.of_nat (length l))
  then Ok (take (Z.to_nat i) l ++ drop (Z.to_nat (i + 1)) l)
  else Panic PIndex.

Section epoch_exit.
Context `{HC : HyperConsts} {CO : Codec} {HA : HActions} `{DE : DatabaseErrors}.
Context `{SP : StatePermissions} {S : Type} `{MU : Mutable S}.
Implicit Types (e : EpochExit).

Definition EpochExit_GetTypeID (_ : EpochExit) : Z := EpochExitID.

Definition EpochExit_StateKeys e (_ : Address) (_ : ID) : Keys :=
  keys_literal
    [(EpochExitsKey_h (ee_Epoch e), All);
     (RollupInfoKey (exit_namespace e), Read);
     (RollupRegistryKey, Read)].

Definition EpochExit_StateKeysMaxChunks (_ : EpochExit) : list Z :=
  [EpochExitsChunks; RollupInfoChunks; RollupRegistryChunks].

(** [epochExits.Exits] of the exits found, which is nil when there are none. *)
Definition found_exits (ep : option EpochExitInfo) : res (list EpochInfo) :=
  match ep with Some i => Ok (Exits i) | None => Panic PNil end.

(** TODO: Add check for curr epoch > start epoch of arcadia. *)
Definition EpochExit_Execute e (_ : Rules) (_ _ : Z) (actor : Address) (_ : ID)
    : M S (list bytes) :=
  if negb (ee_Epoch e =? EI_Epoch (ee_Info e)) then
    throw (Errorf "epoch is not equal to what's in the meta, expected: %d, actual: %d"
             [AInt (ee_Epoch e); AInt (EI_Epoch (ee_Info e))])
  else
  (* check if rollup is registered. *)
  mu ← get;
  nss ← lift (GetRollupRegistry mu);
  if negb (contains nss (exit_namespace e)) then
    throw (Errorf "namespace is not registered, namespace: %s" [ABytes (exit_namespace e)])
  else
  rollupInfo ← lift (GetRollupInfo mu (exit_namespace e));
  (* rollup info will not be nil, as rollup is registered. *)
  match rollupInfo with
  | None => gopanic PNil
  | Some rollupInfo =>
      if negb (bool_decide (AuthoritySEQAddress rollupInfo = actor)) then throw ErrNotAuthorized
      else
      '(epochExits, exists_) ← lift (GetEpochExits mu (ee_Epoch e));
      if ee_OpCode e =? CreateExit then
        (* Check if rollup exited already for the Epoch. *)
        exits ← lift (if exists_ then found_exits epochExits else Ok []);
        if exists_ && exit_exists (exit_namespace e) exits then
          throw (Errorf "exit already exists, namespace: %s, epoch: %d"
                   [ABytes (exit_namespace e); AInt (ee_Epoch e)])
        else
        SetEpochExits (ee_Epoch e) {| Exits := exits ++ [ee_Info e] |};;
        mret []
      else if ee_OpCode e =? DeleteExit then
        (* Check if rollup exit exists and get its index in epoch exits. *)
        exits ← lift (if exists_ then found_exits epochExits else Ok []);
        let idx := if exists_ then exit_index (exit_namespace e) 0 exits else -1 in
        (* Rollup did not exit prior. *)
        if idx =? -1 then
          throw (Errorf "exit not found, namespace: %s, epoch: %d"
                   [ABytes (exit_namespace e); AInt (ee_Epoch e)])
        else
        exits ← lift (slices_Delete exits idx);
        SetEpochExits (ee_Epoch e) {| Exits := exits |};;
        mret []
      else throw (Errorf "op code(%d) not supported" [AInt (ee_OpCode e)])
  end.

Definition EpochExit_ComputeUnits (_ : EpochExit) (_ : Address) (_ : Rules) : Z :=
  EpochExitComputeUnits.

Definition EpochExit_Size e : Z :=
  EpochInfo_Size (ee_Info e) + Z.of_nat Uint64Len + Z.of_nat IntLen.

Definition EpochExit_Marshal e : M Packer unit :=
  EpochInfo_Marshal (ee_Info e);;
  PackUint64 (ee_Epoch e);;
  PackInt (ee_OpCode e).

(** The packer's error is not returned here. *)
Definition UnmarshalEpochExit : M Packer EpochExit :=
  info ← UnmarshalEpochInfo;
  epoch ← UnpackUint64 true;
  opcode ← UnpackInt false;
  mret {| ee_Info := info; ee_Epoch := epoch; ee_OpCode := opcode |}.

Definition EpochExit_ValidRange (_ : EpochExit) (_ : Rules) : Z * Z := (-1, -1).
(** TODO: mark this the same to registering namespace? *)
Definition EpochExit_NMTNamespace (_ : EpochExit) : bytes := DefaultNMTNamespace.
Definition EpochExit_UseFeeMarket (_ : EpochExit) : bool := false.

#[export] Instance EpochExit_action : ChainAction S EpochExit := {|
  GetTypeID := EpochExit_GetTypeID;
  StateKeys := EpochExit_StateKeys;
  StateKeysMaxChunks := EpochExit_StateKeysMaxChunks;
  Execute rules t hght actor txID sa :=
    on_state (EpochExit_Execute (snd sa) rules t hght actor txID) sa;
  ComputeUnits := EpochExit_ComputeUnits;
  Size := EpochExit_Size;
  Marshal := EpochExit_Marshal;
  Unmarshal := UnmarshalEpochExit;
  ValidRange := EpochExit_ValidRange;
  NMTNamespace := EpochExit_NMTNamespace;
  UseFeeMarket := EpochExit_UseFeeMarket
|}.
End epoch_exit.

(** ** The search *)

Section search.
Implicit Types (l : list EpochInfo) (ns : bytes).

Lemma exit_exists_spec ns l : exit_exists ns l = true <-> ns ∈ EI_Namespace <$> l.
Proof.
  induction l as [|x l IH]; simpl.
  - split; [done|]. by intros ?%not_elem_of_nil.
  - rewrite elem_of_cons. destruct (bytes_Equal ns (EI_Namespace x)) eqn:E.
    + apply bytes_Equal_spec in E as ->. split; [by left|done].
    + rewrite IH. split; [by right|]. intros [->|]; [|done].
      by rewrite (proj2 (bytes_Equal_spec _ _)) in E.
Qed.

Lemma exit_index_absent ns i l : ns ∉ EI_Namespace <$> l -> exit_index ns i l = -1.
Proof.
  revert i. induction l as [|x l IH]; intros i Hns; [done|].
  rewrite fmap_cons, not_elem_of_cons in Hns. destruct Hns as [Hne Hns]. simpl.
  destruct (bytes_Equal ns (EI_Namespace x)) eqn:E; [by apply bytes_Equal_spec in E|].
  by apply IH.
Qed.

(** The index found, and what deleting it leaves. *)
Lemma exit_index_present ns l :
  NoDup (EI_Namespace <$> l) -> ns ∈ EI_Namespace <$> l -> forall i,
  exists k, exit_index ns i l = i + Z.of_nat k /\ (k < length l)%nat /\
    take k l ++ drop (S k) l = filter (fun x => EI_Namespace x <> ns) l.
Proof.
  induction l as [|x l IH]; intros Hnd Hin i; [by apply not_elem_of_nil in Hin|].
  rewrite fmap_cons, NoDup_cons in Hnd. destruct Hnd as [Hx Hnd].
  rewrite fmap_cons, elem_of_cons in Hin. simpl.
  destruct (bytes_Equal ns (EI_Namespace x)) eqn:E.
  - apply bytes_Equal_spec in E as ->. exists 0%nat. split; [lia|]. split; [lia|].
    rewrite filter_cons, decide_False by (intros Hc; by apply Hc). simpl. rewrite drop_0.
    clear -Hx. induction l as [|y l IH]; [done|].
    rewrite fmap_cons, not_elem_of_cons in Hx. destruct Hx as [Hne Hx].
    rewrite filter_cons, decide_True by done. by rewrite <- IH.
  - destruct Hin as [->|Hin]; [by rewrite (proj2 (bytes_Equal_spec _ _)) in E|].
    destruct (IH Hnd Hin (i + 1)) as (k & Hk & Hlt & Heq).
    exists (S k). split; [lia|]. split; [lia|].
    rewrite filter_cons, decide_True.
    + cbn [take drop app]. by rewrite <- Heq.
    + intros <-. by rewrite (proj2 (bytes_Equal_spec _ _)) in E.
Qed.

Lemma slices_Delete_at {A} (l : list A) k :
  (k < length l)%nat -> slices_Delete l (Z.of_nat k) = Ok (take k l ++ drop (S k) l).
Proof.
  intros Hk. unfold slices_Delete.
  rewrite (proj2 (Z.leb_le _ _)), (proj2 (Z.ltb_lt _ _)) by lia. simpl.
  rewrite Nat2Z.id. by replace (Z.to_nat (Z.of_nat k + 1)) with (S k) by lia.
Qed.
End search.

(** ** What an exit does to the exits of its epoch *)

Section effect.
Context `{HC : HyperConsts} {CO : Codec} {HA : HActions} `{DE : DatabaseErrors}.
Implicit Types (v : gmap bytes bytes) (e : EpochExit).

Definition exits_list v (ep : Z) : list EpochInfo :=
  match exits_at v ep with
  | Ok (Some i, true) => Exits i
  | _ => []
  end.

(** The new exits of the epoch; [None] when the exit is refused. *)
Definition exit_step e (old : list EpochInfo) : option (list EpochInfo) :=
  let ns := exit_namespace e in
  if decide (ee_OpCode e = CreateExit) then
    if decide (ns ∈ EI_Namespace <$> old) then None else Some (old ++ [ee_Info e])
  else if decide (ee_OpCode e = DeleteExit) then
    if decide (ns ∈ EI_Namespace <$> old)
    then Some (filter (fun x => EI_Namespace x <> ns) old) else None
  else None.

(** The epochs agree and the actor is the authority of the registered rollup. *)
Definition exit_allowed e (actor : Address) v : Prop :=
  ee_Epoch e = EI_Epoch (ee_Info e) /\
  (exists nss, registry_at v = Ok nss /\ exit_namespace e ∈ nss) /\
  exists i, rollup_at v (exit_namespace e) = Ok (Some i) /\ AuthoritySEQAddress i = actor.

Definition EpochExit_wf {CS : CodecSpec} {HS : HActionsSpec} e : Prop :=
  is_u64 (ee_Epoch e) /\ EpochInfo_encodable (ee_Info e).
End effect.

Section epoch_exit_facts.
Context `{HC : HyperConsts} {HCS : HyperConstsSpec} {CO : Codec} {HA : HActions}.
Context {DE : DatabaseErrors} {DES : DatabaseErrorsSpec} {CS : CodecSpec} {HS : HActionsSpec}.
Context {SP : StatePermissions}.
Context {S : Type} {IM : Immutable S} {MU : Mutable S} {MS : MutableSpec S}.
Implicit Types (s : S) (e : EpochExit).

Lemma exits_list_wf v nss ep :
  registry_inv v nss -> is_u64 ep ->
  exits_wf nss ep {| Exits := exits_list v ep |} /\
  ((exits_at v ep = Ok (None, false) /\ exits_list v ep = []) \/
   (exists i, exits_at v ep = Ok (Some i, true) /\ exits_list v ep = Exits i)).
Proof.
  intros Hr Hep. unfold exits_list. destruct (ri_exits _ _ Hr ep Hep) as [->|(i & -> & Hi)].
  - split; [|by left]. split; simpl; constructor.
  - split; [by destruct i|]. right. by exists i.
Qed.

(** The part of [Execute] after the authorization. *)
Definition exit_update e (epochExits : option EpochExitInfo) (exists_ : bool) : M S (list bytes) :=
  if ee_OpCode e =? CreateExit then
    exits ← lift (if exists_ then found_exits epochExits else Ok []);
    if exists_ && exit_exists (exit_namespace e) exits then
      throw (Errorf "exit already exists, namespace: %s, epoch: %d"
               [ABytes (exit_namespace e); AInt (ee_Epoch e)])
    else
    SetEpochExits (ee_Epoch e) {| Exits := exits ++ [ee_Info e] |};;
    mret []
  else if ee_OpCode e =? DeleteExit then
    exits ← lift (if exists_ then found_exits epochExits else Ok []);
    let idx := if exists_ then exit_index (exit_namespace e) 0 exits else -1 in
    if idx =? -1 then
      throw (Errorf "exit not found, namespace: %s, epoch: %d"
               [ABytes (exit_namespace e); AInt (ee_Epoch e)])
    else
    exits ← lift (slices_Delete exits idx);
    SetEpochExits (ee_Epoch e) {| Exits := exits |};;
    mret []
  else throw (Errorf "op code(%d) not supported" [AInt (ee_OpCode e)]).

Lemma exit_update_eq e s ep ex :
  (ex = false /\ ep = None) \/ (exists i, ex = true /\ ep = Some i) ->
  let old := match ep with Some i => Exits i | None => [] end in
  NoDup (EI_Namespace <$> old) ->
  match exit_step e old with
  | Some new => exit_update e ep ex s = (SetEpochExits (ee_Epoch e) {| Exits := new |};; mret []) s
  | None => exists err, exit_update e ep ex s = (s, Err err)
  end.
Proof.
  intros Hex old Hnd.
  assert ((if ex then found_exits ep else Ok []) = Ok old) as Hf.
  { unfold old. by destruct Hex as [[-> ->]|(i & -> & ->)]. }
  assert (ex = false -> old = []) as Hold.
  { unfold old. intros ->. by destruct Hex as [[_ ->]|(i & ? & _)]. }
  unfold exit_update, exit_step. rewrite Hf.
  destruct (Z.eqb_spec (ee_OpCode e) CreateExit) as [Hc|Hc].
  - rewrite decide_True, bind_lift_Ok by done. case_decide as Hin.
    + rewrite (proj2 (exit_exists_spec _ _) Hin). destruct ex; [by eexists|].
      rewrite Hold in Hin by done. by apply not_elem_of_nil in Hin.
    + destruct (exit_exists (exit_namespace e) old) eqn:Ee; [by apply exit_exists_spec in Ee|].
      by rewrite andb_false_r.
  - rewrite (decide_False (P := _ = CreateExit)) by done.
    destruct (Z.eqb_spec (ee_OpCode e) DeleteExit) as [Hd|Hd].
    + rewrite decide_True by done. rewrite bind_lift_Ok. case_decide as Hin.
      * destruct ex; [|rewrite Hold in Hin by done; by apply not_elem_of_nil in Hin].
        destruct (exit_index_present _ _ Hnd Hin 0) as (k & -> & Hk & Heq).
        rewrite (proj2 (Z.eqb_neq _ _)) by lia. rewrite Z.add_0_l.
        by rewrite (slices_Delete_at _ _ Hk), bind_lift_Ok, Heq.
      * replace (if ex then exit_index (exit_namespace e) 0 old else -1) with (-1); [by eexists|].
        destruct ex; [|done]. by rewrite exit_index_absent.
    + rewrite decide_False by done. by eexists.
Qed.

(** Refused without a change, or the write of the new exits; refused only
    when the exit is not allowed or a read is denied. *)
Lemma EpochExit_Execute_cases e rules t h actor id s nss :
  registry_inv (view s) nss -> is_u64 (ee_Epoch e) ->
  let old := exits_list (view s) (ee_Epoch e) in
  (exists new, exit_allowed e actor (view s) /\ exit_step e old = Some new /\
     EpochExit_Execute e rules t h actor id s =
       (SetEpochExits (ee_Epoch e) {| Exits := new |};; mret []) s) \/
  (exists err, EpochExit_Execute e rules t h actor id s = (s, Err err) /\
     (can s RollupRegistryKey Read -> can s (RollupInfoKey (exit_namespace e)) Read ->
      can s (EpochExitsKey (ee_Epoch e)) Read ->
      exit_allowed e actor (view s) -> exit_step e old = None)).
Proof.
  intros Hr Hu old. unfold EpochExit_Execute.
  destruct (Z.eqb_spec (ee_Epoch e) (EI_Epoch (ee_Info e))) as [He|He]; cbn [negb];
    [|right; eexists; split; [done|]; by intros _ _ _ [? _]].
  rewrite bind_get.
  destruct (GetRollupRegistry_cases s) as [[er Her]|Hreg].
  { right. eexists. rewrite Her. split; [done|]. intros Hcan.
    rewrite (GetRollupRegistry_view s Hcan), (ri_registry _ _ Hr) in Her. done. }
  rewrite Hreg, (ri_registry _ _ Hr), bind_lift_Ok.
  destruct (contains nss (exit_namespace e)) eqn:Hin; cbn [negb];
    [|right; eexists; split; [done|]; intros _ _ _ (_ & (nss' & Hn & Hc) & _);
      rewrite (ri_registry _ _ Hr) in Hn; injection Hn as <-;
      by apply contains_false in Hin].
  apply contains_spec in Hin.
  destruct (ri_registered _ _ Hr _ Hin) as (i & Hi & _).
  destruct (GetRollupInfo_cases s (exit_namespace e)) as [[er Her]|Hinfo].
  { right. eexists. rewrite Her. split; [done|]. intros _ Hcan.
    rewrite (GetRollupInfo_view s _ Hcan), Hi in Her. done. }
  rewrite Hinfo, Hi, bind_lift_Ok.
  case_bool_decide as Hauth; cbn [negb];
    [|right; eexists; split; [done|]; intros _ _ _ (_ & _ & i' & Hi' & Ha); congruence].
  destruct (GetEpochExits_cases s (ee_Epoch e)) as [[er Her]|Hex].
  { right. eexists. rewrite Her. split; [done|]. intros _ _ Hcan.
    rewrite (GetEpochExits_view s _ Hcan) in Her.
    destruct (ri_exits _ _ Hr _ Hu) as [Hx|(x & Hx & _)]; by rewrite Hx in Her. }
  assert (exit_allowed e actor (view s)) as Hall.
  { split; [done|]. split; [exists nss; split; [apply Hr|done]|]. by exists i. }
  destruct (exits_list_wf _ _ _ Hr Hu) as [[Hnd _] Hold]. simpl in Hnd. fold old in Hnd, Hold.
  assert (exists ep ex, exits_at (view s) (ee_Epoch e) = Ok (ep, ex) /\
    ((ex = false /\ ep = None) \/ (exists i, ex = true /\ ep = Some i)) /\
    old = match ep with Some i => Exits i | None => [] end) as (ep & ex & Hat & Hex' & Hol).
  { destruct Hold as [[-> ->]|(x & -> & ->)]; [exists None, false|exists (Some x), true]; eauto 6. }
  rewrite Hex, Hat, bind_lift_Ok. fold (exit_update e ep ex).
  pose proof (exit_update_eq e s ep ex Hex') as Hup. cbn zeta in Hup. rewrite <- Hol in Hup.
  specialize (Hup Hnd). destruct (exit_step e old) as [new|] eqn:Est.
  - left. exists new. done.
  - right. destruct Hup as [err Herr]. exists err. done.
Qed.

(** The new exits are well-formed. *)
Lemma exit_step_wf e nss old new :
  exits_wf nss (ee_Epoch e) {| Exits := old |} -> exit_step e old = Some new ->
  ee_Epoch e = EI_Epoch (ee_Info e) -> exit_namespace e ∈ nss -> EpochInfo_encodable (ee_Info e) ->
  exits_wf nss (ee_Epoch e) {| Exits := new |}.
Proof.
  intros [Hnd Hall] Hst He Hin Henc. unfold exits_wf in *. simpl in *.
  unfold exit_step in Hst. case_decide; [|case_decide; [|done]]; case_decide as Hns; try done;
    injection Hst as <-.
  - rewrite fmap_app, NoDup_app, Forall_app. simpl. split; [|split; [done|by repeat constructor]].
    split; [done|]. split; [|apply NoDup_singleton].
    intros x Hx Hy%list_elem_of_singleton. by subst.
  - split; [|rewrite Forall_forall in *; intros x [_ Hx]%list_elem_of_filter; auto].
    eapply sublist_NoDup; [exact Hnd|apply fmap_sublist, sublist_filter].
Qed.

Lemma exits_updated_inv v nss ep b new :
  registry_inv v nss -> is_u64 ep -> exits_wf nss ep {| Exits := new |} ->
  exits_at (<[EpochExitsKey ep := b]> v) ep = Ok (Some {| Exits := new |}, true) ->
  registry_inv (<[EpochExitsKey ep := b]> v) nss.
Proof.
  intros [H1 H2 H3 H4 H5 H6] Hep Hwf Hat. split; [|done|done| | |].
  - rewrite (registry_at_eq _ v); [done|]. apply lookup_insert_ne, not_eq_sym, RollupRegistryKey_ne_exits.
  - intros ns Hns. rewrite (rollup_at_eq _ v); [by apply H4|].
    apply lookup_insert_ne, not_eq_sym, RollupInfoKey_ne_exits.
  - intros ns Hns. rewrite lookup_insert_ne; [by apply H5|].
    apply not_eq_sym, RollupInfoKey_ne_exits.
  - intros e' He'. destruct (decide (e' = ep)) as [->|Hne]; [by right; eauto|].
    rewrite (exits_at_eq _ v); [by apply H6|]. apply lookup_insert_ne.
    intros Hk. apply Hne. symmetry. by apply EpochExitsKey_inj.
Qed.

Lemma EpochExitsKey_arcadia ep : is_arcadia_key (EpochExitsKey ep).
Proof. right; right; left. by exists ep. Qed.

(** The exits of the epoch are all it writes. *)
Lemma EpochExit_writes (P : bytes -> Prop) e rules t h actor id :
  P (EpochExitsKey (ee_Epoch e)) -> frame P (EpochExit_Execute e rules t h actor id : M S _).
Proof. intros Hk. unfold EpochExit_Execute. frame_steps. Qed.

Lemma EpochExit_frame e rules t h actor id :
  frame (fun k => is_Some (EpochExit_StateKeys e actor id !! k))
    (EpochExit_Execute e rules t h actor id : M S _).
Proof.
  apply EpochExit_writes. unfold EpochExit_StateKeys. keys_simpl. rewrite !lookup_insert.
  repeat (case_decide; [done|]). unfold EpochExitsKey in *. done.
Qed.

(** A success is an allowed step on the exits of the epoch, and no other change. *)
Lemma EpochExit_Execute_Ok_inv e rules t h actor id s s' nss out :
  registry_inv (view s) nss -> EpochExit_wf e ->
  EpochExit_Execute e rules t h actor id s = (s', Ok out) ->
  exit_allowed e actor (view s) /\
  exit_step e (exits_list (view s) (ee_Epoch e)) = Some (exits_list (view s') (ee_Epoch e)) /\
  (forall k, k <> EpochExitsKey (ee_Epoch e) -> view s' !! k = view s !! k) /\
  registry_inv (view s') nss.
Proof.
  intros Hr [Hu Henc] Hrun.
  destruct (EpochExit_Execute_cases e rules t h actor id s nss Hr Hu)
    as [(new & Hall & Hst & E)|(err & E & _)]; rewrite E in Hrun; [|done].
  apply bind_Ok_inv in Hrun as (s1 & [] & Hset & [= -> _]).
  pose proof Hall as (He & (nss' & Hn & Hin) & _).
  rewrite (ri_registry _ _ Hr) in Hn. injection Hn as <-.
  destruct (exits_list_wf _ _ _ Hr Hu) as [Hwf0 _].
  pose proof (exit_step_wf e nss _ new Hwf0 Hst He Hin Henc) as Hwf.
  apply SetEpochExits_Ok in Hset as (b & [Hv _] & Hat);
    [|simpl; eapply Forall_impl; [apply Hwf|by intros x (_ & _ & ?)]].
  split; [done|]. split; [|split].
  - rewrite Hst. f_equal. unfold exits_list. by rewrite Hat.
  - intros k Hk. by rewrite Hv, lookup_insert_ne.
  - rewrite Hv in *. by eapply exits_updated_inv.
Qed.

(** Anything but a success is an error that changes nothing. *)
Lemma EpochExit_Execute_fails e rules t h actor id s s' nss o :
  registry_inv (view s) nss -> EpochExit_wf e ->
  EpochExit_Execute e rules t h actor id s = (s', o) -> is_ok o = false -> s' = s /\ is_panic o = false.
Proof.
  intros Hr [Hu Henc] Hrun Ho.
  destruct (EpochExit_Execute_cases e rules t h actor id s nss Hr Hu)
    as [(new & _ & _ & E)|(err & E & _)]; rewrite E in Hrun; [|by injection Hrun as <- <-].
  pose proof (SetEpochExits_cases s (ee_Epoch e) {| Exits := new |}) as Hc. unfold wp in Hc.
  destruct (SetEpochExits (ee_Epoch e) {| Exits := new |} s) as [s1 [[]|er|p]] eqn:Eset.
  - rewrite (bind_run _ _ _ _ _ Eset) in Hrun. by injection Hrun as <- <-.
  - rewrite (bind_run_err _ _ _ _ _ Eset) in Hrun. injection Hrun as <- <-.
    cbn [fst snd] in Hc. by destruct Hc as [|[_ ->]].
  - cbn [fst snd] in *. by destruct Hc as [|[[? ?] _]].
Qed.

#[export] Instance EpochExit_contract : ChainActionSpec S EpochExit.
Proof.
  refine {| action_wf := EpochExit_wf |}.
  - intros r ts h actor id e s. unfold wp. cbn [Execute EpochExit_action snd]. rewrite on_state_run.
    apply EpochExit_frame.
  - intros r ts h actor id e e' s s' out [Hw Hs [nss Hr]] Hwf _ _ Hrun.
    cbn [Execute EpochExit_action snd] in Hrun. rewrite on_state_run in Hrun.
    destruct (EpochExit_Execute e r ts h actor id s) as [s1 o] eqn:E. injection Hrun as <- _ ->.
    destruct (EpochExit_Execute_Ok_inv _ _ _ _ _ _ _ _ _ _ Hr Hwf E) as (_ & _ & Hk & Hr').
    destruct (arcadia_change_ledger (view s) (view s1) _ (EpochExitsKey_arcadia (ee_Epoch e)) Hk Hw) as [Hw' Ht].
    split; [|done]. split; [done|lia|]. by exists nss.
  - intros r ts h actor id e s [_ _ [nss Hr]] Hwf _ _.
    cbn [Execute EpochExit_action snd]. rewrite on_state_run.
    destruct (EpochExit_Execute e r ts h actor id s) as [s1 o] eqn:E. cbn [snd].
    destruct (is_ok o) eqn:Eo; [by destruct o|]. by eapply EpochExit_Execute_fails in E as [_ ?].
Defined.
End epoch_exit_facts.

(** ** Properties *)

(** C12: [EpochExit.Execute] implements the abstract exit list. On a state whose
    registry is well-formed it never panics; an error leaves the state as it
    was; a success means that the actor is the authority of a registered
    rollup, appends the exit to (or removes it from) the exits of the epoch,
    and changes no other key. *)
Theorem EpochExit_Execute_refines
    `{HC : HyperConsts} {CO : Codec} {HA : HActions} {DE : DatabaseErrors} {DES : DatabaseErrorsSpec}
    {CS : CodecSpec} {HS : HActionsSpec}
    {SP : StatePermissions} {S : Type} {IM : Immutable S} {MU : Mutable S} {MS : MutableSpec S}
    (e : EpochExit) (rules : Rules) (t h : Z) (actor : Address) (id : ID) (s : S) nss :
  registry_inv (view s) nss -> EpochExit_wf e ->
  wp (EpochExit_Execute e rules t h actor id) s (fun s' o =>
    match o with
    | Ok out =>
        exit_allowed e actor (view s) /\
        exit_step e (exits_list (view s) (ee_Epoch e)) = Some (exits_list (view s') (ee_Epoch e)) /\
        (forall k, k <> EpochExitsKey (ee_Epoch e) -> view s' !! k = view s !! k) /\
        registry_inv (view s') nss
    | Err _ => s' = s
    | Panic _ => False
    end).
Proof.
  intros Hr Hwf. unfold wp.
  destruct (EpochExit_Execute e rules t h actor id s) as [s' [out|err|p]] eqn:E; cbn [fst snd].
  - by eapply EpochExit_Execute_Ok_inv.
  - by eapply EpochExit_Execute_fails in E as [-> _].
  - by eapply EpochExit_Execute_fails in E as [_ ?].
Qed.

(** [EpochExit.Execute] accepts what it should. With the rights its state
    keys declare, it succeeds exactly when the exit is allowed, the abstract
    step accepts it, and the new exits can be stored. *)
Theorem EpochExit_Execute_accepts
    `{HC : HyperConsts} {HCS : HyperConstsSpec} {CO : Codec} {HA : HActions}
    {DE : DatabaseErrors} {DES : DatabaseErrorsSpec} {CS : CodecSpec} {HS : HActionsSpec}
    {SP : StatePermissions} {SPS : StatePermissionsSpec}
    {S : Type} {IM : Immutable S} {MU : Mutable S} {MS : MutableSpec S}
    (e : EpochExit) (rules : Rules) (t h : Z) (actor : Address) (id : ID) (s : S) nss :
  registry_inv (view s) nss -> EpochExit_wf e ->
  declares s (EpochExit_StateKeys e actor id) ->
  (is_ok (snd (EpochExit_Execute e rules t h actor id s)) = true <->
   exit_allowed e actor (view s) /\
   exists new, exit_step e (exits_list (view s) (ee_Epoch e)) = Some new /\
     is_ok (snd (SetEpochExits (ee_Epoch e) {| Exits := new |} s)) = true).
Proof.
  intros Hr [Hu _] Hd. unfold EpochExit_StateKeys in Hd. keys_simpl_in Hd.
  assert (can s RollupRegistryKey Read) as Hc1.
  { eapply declares_insert; [exact Hd|apply Has_refl]. }
  assert (can s (RollupInfoKey (exit_namespace e)) Read) as Hc2.
  { eapply declares_below; [exact Hd|apply lookup_insert_eq|apply Has_refl|right; apply Has_refl]. }
  assert (can s (EpochExitsKey (ee_Epoch e)) Read) as Hc3.
  { eapply declares_below; [exact Hd| |apply Has_All|right; apply Has_refl].
    rewrite lookup_insert_ne by apply RollupInfoKey_ne_exits. apply lookup_insert_eq. }
  destruct (EpochExit_Execute_cases e rules t h actor id s nss Hr Hu)
    as [(new & Hall & Hst & E)|(err & E & Hno)]; rewrite E.
  - rewrite Hst. unfold mbind, M_bind.
    destruct (SetEpochExits (ee_Epoch e) {| Exits := new |} s) as [s1 [[]|er|p]] eqn:Eset; simpl.
    + split; [|done]. intros _. split; [done|]. exists new. by rewrite Eset.
    + split; [done|]. intros (_ & n & [= <-] & Hn). by rewrite Eset in Hn.
    + split; [done|]. intros (_ & n & [= <-] & Hn). by rewrite Eset in Hn.
  - split; [done|]. intros (Hall & n & Hn & _). rewrite (Hno Hc1 Hc2 Hc3 Hall) in Hn. done.
Qed.

(** Marshalling an exit and unmarshalling the bytes gives the exit back, for
    every exit with a non-zero epoch. *)
Lemma EpochExit_roundtrip
    `{HC : HyperConsts} {CO : Codec} {HA : HActions} {CS : CodecSpec} {HS : HActionsSpec}
    (e : EpochExit) (n l l' : Z) :
  EpochExit_wf e -> ee_Epoch e <> 0 -> 0 <= ee_OpCode e < 2147483648 ->
  let w := fst (EpochExit_Marshal e (NewWriter n l)) in
  Packer_Err w = None ->
  snd (UnmarshalEpochExit (NewReader (Packer_Bytes w) l')) = Ok e.
Proof.
  intros [Hu Henc] Hnz Hop w He.
  apply (wire_roundtrip (EpochExit_Marshal e) UnmarshalEpochExit e
    (enc_EpochInfo (ee_Info e) ++ enc_u64 (ee_Epoch e) ++ enc_int (ee_OpCode e)) n l l' w); try done.
  - unfold EpochExit_Marshal. auto 10 with wire.
  - unfold UnmarshalEpochExit.
    eapply reads_bind; [by apply EpochInfo_reads|].
    eapply reads_bind; [by apply UnpackUint64_reads|].
    eapply reads_bind_last; [by apply UnpackInt_reads|].
    destruct e. apply reads_ret.
Qed.

(** [UnmarshalEpochExit] does not report what its packer found: an exit whose
    required epoch is zero unmarshals without an error although the packer has
    one, where [UnmarshalTransfer] refuses a zero value. *)
Theorem UnmarshalEpochExit_drops_error
    `{HC : HyperConsts} {CO : Codec} {HA : HActions} {CS : CodecSpec} {HS : HActionsSpec}
    (i : EpochInfo) (rest : bytes) (l : Z) :
  EpochInfo_encodable i ->
  exists p' e, UnmarshalEpochExit (NewReader (enc_EpochInfo i ++ enc_u64 0 ++ rest) l) = (p', Ok e) /\
    Packer_Err p' <> None.
Proof.
  intros Hi. unfold UnmarshalEpochExit.
  destruct (EpochInfo_reads i Hi (NewReader (enc_EpochInfo i ++ enc_u64 0 ++ rest) l) (enc_u64 0 ++ rest)
    (NewReader_Err _ l) (NewReader_remaining _ l))
    as (p1 & Hr1 & He1 & Hp1).
  rewrite (bind_run _ _ _ _ _ Hr1). pose proof (UnpackUint64_zero p1 rest He1 Hp1) as Hz.
  unfold UnpackUint64, unpacks. destruct (UnpackUint64_op true p1) as [p2 z] eqn:E2.
  rewrite (bind_run _ _ p1 p2 z) by (by rewrite E2).
  pose proof (UnpackInt_sticky false p2 Hz) as Hs.
  unfold UnpackInt, unpacks in *. destruct (UnpackInt_op false p2) as [p3 k] eqn:E3.
  rewrite (bind_run _ _ p2 p3 k) by (by rewrite E3). eauto.
Qed.
