(* ===== verification/RollupRegister.v ===== *)
(** * RollupRegister: registering, updating and exiting rollups

    [src/actions/rollup_register.go]. [Execute] rewrites the epochs of the
    [Info] of its receiver, which the controller later reads, so the receiver
    is part of the state here. *)

From stdpp Require Import base numbers countable gmap list strings.
From Stdlib Require Import ZArith Lia Strings.Byte.
From S2P Require Import Prelude HyperSDK State Wire Sample Storage Ledger Genesis Actions ChainInv.

Local Open Scope Z_scope.

Definition CreateRollup : Z := 0.
Definition ExitRollup : Z := 1.
Definition UpdateRollup : Z := 2.

Record RollupRegistration `{HyperConsts} := {
  rr_Info : RollupInfo;
  rr_Namespace : bytes;
  rr_OpCode : Z
}.

(** [r.Info = i] *)
Definition with_info `{HyperConsts} (r : RollupRegistration) (i : RollupInfo) : RollupRegistration :=
  {| rr_Info := i; rr_Namespace := rr_Namespace r; rr_OpCode := rr_OpCode r |}.

Section rollup_register.
Context `{HC : HyperConsts} {CO : Codec} {HA : HActions} `{DE : DatabaseErrors}.
Context `{SP : StatePermissions} {S : Type} `{MU : Mutable S}.
Implicit Types (r : RollupRegistration).

Definition RollupRegistration_GetTypeID (_ : RollupRegistration) : Z := RollupRegisterID.

Definition RollupRegistration_StateKeys r (_ : Address) (_ : ID) : Keys :=
  keys_literal
    [(RollupInfoKey (rr_Namespace r), All);
     (RollupRegistryKey, All)].

Definition RollupRegistration_StateKeysMaxChunks (_ : RollupRegistration) : list Z :=
  [RollupInfoChunks; RollupRegistryChunks].

Definition set_info (i : RollupInfo) : M (S * RollupRegistration) unit :=
  modify (fun '(mu, r) => (mu, with_info r i)).

(** [rollupInfoExists], dereferenced. *)
Definition deref (i : option RollupInfo) : res RollupInfo :=
  match i with Some i => Ok i | None => Panic PNil end.

(** [case CreateRollup:], with the namespaces of the registry; returns the
    namespaces to store. *)
Definition register_create (rules : Rules) (hght : Z) (actor : Address) (namespaces : list bytes)
    : M (S * RollupRegistration) (list bytes) :=
  '(mu, r) ← get;
  let ns := rr_Namespace r in
  namespaces ←
    (if negb (contains namespaces ns) then mret (namespaces ++ [ns])
     else
       (* only allow modifing informations that are not related to ExitEpoch or StartEpoch *)
       lift (map_err (ErrWrap "authorization failed: %w" [])
               (authorizationChecks actor namespaces ns mu));;
       mret namespaces);
  epoch ← lift (Epoch hght (GetEpochLength rules));
  if (StartEpoch (rr_Info r) <? u64 (epoch + 2)) || negb (ExitEpoch (rr_Info r) =? 0) then
    throw (Errorf "epoch number is not valid, minimum: %d, actual: %d, exit: %d"
             [AInt (u64 (epoch + 2)); AInt (StartEpoch (rr_Info r)); AInt (ExitEpoch (rr_Info r))])
  else if negb (ExitEpoch (rr_Info r) =? 0) then throw (Errorf "exit epoch not 0" [])
  else
  on_state (wrap_err (ErrWrap "unable to set rollup info(CREATE): %w" [])
              (SetRollupInfo ns (rr_Info r)));;
  mret namespaces.

(** [case UpdateRollup:] *)
Definition register_update (actor : Address) (namespaces : list bytes)
    : M (S * RollupRegistration) (list bytes) :=
  '(mu, r) ← get;
  let ns := rr_Namespace r in
  (* only allow modifing informations that are not related to ExitEpoch or StartEpoch *)
  lift (map_err (ErrWrap "authorization failed(UPDATE): %w" [])
          (authorizationChecks actor namespaces ns mu));;
  rollupInfoExists ← lift (map_err (ErrWrap "unable to get existing rollup info(UPDATE): %w" [])
                             (GetRollupInfo mu ns));
  rollupInfoExists ← lift (deref rollupInfoExists);
  (* rewrite epoch info *)
  let info := with_epochs (rr_Info r) (StartEpoch rollupInfoExists) (ExitEpoch rollupInfoExists) in
  set_info info;;
  on_state (wrap_err (ErrWrap "unable to set rollup info(UPDATE): %w" []) (SetRollupInfo ns info));;
  mret namespaces.

(** [case ExitRollup:] *)
Definition register_exit (rules : Rules) (hght : Z) (actor : Address) (namespaces : list bytes)
    : M (S * RollupRegistration) (list bytes) :=
  '(mu, r) ← get;
  let ns := rr_Namespace r in
  lift (map_err (ErrWrap "unable to set rollup info(EXIT): %w" [])
          (authorizationChecks actor namespaces ns mu));;
  rollupInfoExists ← lift (map_err (ErrWrap "unable to get existing rollup info(UPDATE): %w" [])
                             (GetRollupInfo mu ns));
  rollupInfoExists ← lift (deref rollupInfoExists);
  epoch ← lift (Epoch hght (GetEpochLength rules));
  if (ExitEpoch (rr_Info r) <? StartEpoch rollupInfoExists) ||
     (ExitEpoch (rr_Info r) <? u64 (epoch + 2)) then
    throw (Errorf "(EXIT)epoch number is not valid, minimum: %d, actual: %d, start: %d"
             [AInt (u64 (epoch + 2)); AInt (ExitEpoch (rr_Info r)); AInt (StartEpoch rollupInfoExists)])
  else
  (* overwrite StartEpoch *)
  let info := with_epochs (rr_Info r) (StartEpoch rollupInfoExists) (ExitEpoch (rr_Info r)) in
  set_info info;;
  on_state (wrap_err (ErrWrap "unable to set rollup info(EXIT): %w" []) (SetRollupInfo ns info));;
  mret namespaces.

(** TODO: this action needs to be managed by DAO to manage deletions since we
    are not deleting any namespace from storage but only by marking them as
    registered or exited *)
Definition RollupRegistration_Execute (rules : Rules) (_ hght : Z) (actor : Address) (_ : ID)
    : M (S * RollupRegistration) (list bytes) :=
  '(mu, r) ← get;
  let ns := rr_Namespace r in
  if negb (bytes_Equal ns (RI_Namespace (rr_Info r))) then
    throw (Errorf "namespace is not equal to what's in the meta, expected: %s, actual: %s"
             [ABytes ns; ABytes (RI_Namespace (rr_Info r))])
  else if Z.of_nat (length ns) >? MaxNamespaceLen then
    throw (Errorf "namespace length is too long, maximum: %d, actual: %d"
             [AInt MaxNamespaceLen; AInt (Z.of_nat (length ns))])
  else
  namespaces ← lift (map_err (ErrWrap "unable to get namespaces: %w" []) (GetRollupRegistry mu));
  namespaces ←
    (if rr_OpCode r =? CreateRollup then register_create rules hght actor namespaces
     else if rr_OpCode r =? UpdateRollup then register_update actor namespaces
     else if rr_OpCode r =? ExitRollup then register_exit rules hght actor namespaces
     else throw (Errorf "op code(%d) not supported" [AInt (rr_OpCode r)]));
  on_state (SetRollupRegistry namespaces);;
  mret [].

Definition RollupRegistration_ComputeUnits (_ : RollupRegistration) (_ : Address) (_ : Rules) : Z :=
  RollupRegisterComputeUnits.

Definition RollupRegistration_Size r : Z :=
  RollupInfo_Size (rr_Info r) + Z.of_nat (length (rr_Namespace r)) +
  Z.of_nat Uint64Len + Z.of_nat IntLen.

Definition RollupRegistration_Marshal r : M Packer unit :=
  RollupInfo_Marshal (rr_Info r);;
  PackBytes (rr_Namespace r);;
  PackInt (rr_OpCode r).

(** The packer's error is not returned here. *)
Definition UnmarshalRollupRegister : M Packer RollupRegistration :=
  info ← UnmarshalRollupInfo;
  ns ← UnpackBytes (-1) false;
  opcode ← UnpackInt false;
  mret {| rr_Info := info; rr_Namespace := ns; rr_OpCode := opcode |}.

Definition RollupRegistration_ValidRange (_ : RollupRegistration) (_ : Rules) : Z * Z := (-1, -1).
Definition RollupRegistration_NMTNamespace (_ : RollupRegistration) : bytes := DefaultNMTNamespace.
Definition RollupRegistration_UseFeeMarket (_ : RollupRegistration) : bool := false.

#[export] Instance RollupRegistration_action : ChainAction S RollupRegistration := {|
  GetTypeID := RollupRegistration_GetTypeID;
  StateKeys := RollupRegistration_StateKeys;
  StateKeysMaxChunks := RollupRegistration_StateKeysMaxChunks;
  Execute := RollupRegistration_Execute;
  ComputeUnits := RollupRegistration_ComputeUnits;
  Size := RollupRegistration_Size;
  Marshal := RollupRegistration_Marshal;
  Unmarshal := UnmarshalRollupRegister;
  ValidRange := RollupRegistration_ValidRange;
  NMTNamespace := RollupRegistration_NMTNamespace;
  UseFeeMarket := RollupRegistration_UseFeeMarket
|}.
End rollup_register.

(** ** The abstract registry *)

Section abstract.
Context `{HC : HyperConsts}.
Implicit Types (r : RollupRegistration).

Definition authorized (actor : Address) (old : option RollupInfo) : bool :=
  match old with
  | Some i => bool_decide (AuthoritySEQAddress i = actor)
  | None => false
  end.

(** The info to store and the new list of namespaces, given the info the
    namespace has, if it is registered; [None] when the request is refused.
    [epoch] is the current epoch. *)
Definition reg_step r (actor : Address) (epoch : Z) (old : option RollupInfo)
    (nss : list bytes) : option (RollupInfo * list bytes) :=
  let ns := rr_Namespace r in
  let i := rr_Info r in
  if negb (bool_decide (ns = RI_Namespace i)) || (MaxNamespaceLen <? Z.of_nat (length ns)) then None
  else if rr_OpCode r =? CreateRollup then
    if (bool_decide (ns ∉ nss) || authorized actor old) &&
       ((u64 (epoch + 2) <=? StartEpoch i) && (ExitEpoch i =? 0))
    then Some (i, if bool_decide (ns ∈ nss) then nss else nss ++ [ns]) else None
  else match old with
  | None => None
  | Some o =>
      if negb (bool_decide (ns ∈ nss)) || negb (authorized actor old) then None
      else if rr_OpCode r =? UpdateRollup then Some (with_epochs i (StartEpoch o) (ExitEpoch o), nss)
      else if rr_OpCode r =? ExitRollup then
        if (StartEpoch o <=? ExitEpoch i) && (u64 (epoch + 2) <=? ExitEpoch i)
        then Some (with_epochs i (StartEpoch o) (ExitEpoch i), nss) else None
      else None
  end.

Definition RollupRegistration_wf {CO : Codec} {HA : HActions} {CS : CodecSpec} {HS : HActionsSpec} r : Prop :=
  RollupInfo_encodable (rr_Info r).

(** The info a namespace has in the contents of the state. *)
Definition info_of `{DE : DatabaseErrors} {CO : Codec} {HA : HActions}
    (v : gmap bytes bytes) (ns : bytes) : option RollupInfo :=
  match rollup_at v ns with Ok o => o | _ => None end.
End abstract.

Section register_facts.
Context `{HC : HyperConsts} {HCS : HyperConstsSpec} {CO : Codec} {HA : HActions}.
Context {DE : DatabaseErrors} {DES : DatabaseErrorsSpec} {CS : CodecSpec} {HS : HActionsSpec}.
Context {SP : StatePermissions}.
Context {S : Type} {IM : Immutable S} {MU : Mutable S} {MS : MutableSpec S}.
Implicit Types (s : S) (r : RollupRegistration).

(** The writes of an accepted request. *)
Definition reg_write r (f : error -> error) (info : RollupInfo) (nss : list bytes) (s : S)
    : (S * RollupRegistration) * res (list bytes) :=
  (on_state (wrap_err f (SetRollupInfo (rr_Namespace r) info));;
   on_state (SetRollupRegistry nss);;
   mret []) (s, with_info r info).

Lemma with_info_same r : with_info r (rr_Info r) = r.
Proof. by destruct r. Qed.

(** What the authorization finds: it passes, having read the info, or it
    refuses, rightly when the read is permitted. *)
Lemma authorizationChecks_cases actor nss ns s :
  registry_inv (view s) nss ->
  (exists o, authorizationChecks actor nss ns s = Ok tt /\ ns ∈ nss /\
     GetRollupInfo s ns = Ok (Some o) /\ info_of (view s) ns = Some o /\
     rollup_wf ns o /\ authorized actor (Some o) = true) \/
  (exists e, authorizationChecks actor nss ns s = Err e /\
     (can s (RollupInfoKey ns) Read ->
      ns ∉ nss \/ authorized actor (info_of (view s) ns) = false)).
Proof.
  intros Hr. unfold authorizationChecks.
  destruct (contains nss ns) eqn:Hin; cbn [negb];
    [|right; eexists; split; [done|]; intros _; left; by apply contains_false].
  apply contains_spec in Hin. destruct (ri_registered _ _ Hr _ Hin) as (i & Hi & Hwf).
  destruct (GetRollupInfo_cases s ns) as [[e He]|Hg].
  { right. exists e. rewrite He. split; [done|]. intros Hc.
    by rewrite (GetRollupInfo_view s ns Hc), Hi in He. }
  unfold info_of. rewrite Hg, Hi, bind_Ok. unfold authorized.
  case_bool_decide as Ha; cbn [negb].
  - left. exists i. repeat (split; [done|]). by apply bool_decide_eq_true_2.
  - right. eexists. split; [done|]. by right.
Qed.

Definition accepts r rules h actor nss s (m : M (S * RollupRegistration) (list bytes)) : Prop :=
  exists f info nss',
    reg_step r actor (h / u64 (GetEpochLength rules)) (info_of (view s) (rr_Namespace r)) nss =
      Some (info, nss') /\
    m (s, r) = (on_state (wrap_err f (SetRollupInfo (rr_Namespace r) info));; mret nss')
                 (s, with_info r info).

Definition refuses r rules h actor nss s {A} (m : M (S * RollupRegistration) A) : Prop :=
  exists e, m (s, r) = ((s, r), Err e) /\
    (can s (RollupInfoKey (rr_Namespace r)) Read ->
     reg_step r actor (h / u64 (GetEpochLength rules)) (info_of (view s) (rr_Namespace r)) nss = None).

Definition ns_ok r : Prop :=
  rr_Namespace r = RI_Namespace (rr_Info r) /\ Z.of_nat (length (rr_Namespace r)) <= MaxNamespaceLen.

Lemma reg_step_unfold r actor ep old nss :
  ns_ok r ->
  reg_step r actor ep old nss =
  if rr_OpCode r =? CreateRollup then
    if (bool_decide (rr_Namespace r ∉ nss) || authorized actor old) &&
       ((u64 (ep + 2) <=? StartEpoch (rr_Info r)) && (ExitEpoch (rr_Info r) =? 0))
    then Some (rr_Info r, if bool_decide (rr_Namespace r ∈ nss) then nss else nss ++ [rr_Namespace r])
    else None
  else match old with
  | None => None
  | Some o =>
      if negb (bool_decide (rr_Namespace r ∈ nss)) || negb (authorized actor old) then None
      else if rr_OpCode r =? UpdateRollup
        then Some (with_epochs (rr_Info r) (StartEpoch o) (ExitEpoch o), nss)
      else if rr_OpCode r =? ExitRollup then
        if (StartEpoch o <=? ExitEpoch (rr_Info r)) && (u64 (ep + 2) <=? ExitEpoch (rr_Info r))
        then Some (with_epochs (rr_Info r) (StartEpoch o) (ExitEpoch (rr_Info r)), nss) else None
      else None
  end.
Proof.
  intros [Hn Hl]. unfold reg_step.
  rewrite bool_decide_eq_true_2 by done. by rewrite (proj2 (Z.ltb_ge _ _)).
Qed.

(** The second half of [register_create]. *)
Definition create_rest r rules h (nss' : list bytes) : M (S * RollupRegistration) (list bytes) :=
  epoch ← lift (Epoch h (GetEpochLength rules));
  if (StartEpoch (rr_Info r) <? u64 (epoch + 2)) || negb (ExitEpoch (rr_Info r) =? 0) then
    throw (Errorf "epoch number is not valid, minimum: %d, actual: %d, exit: %d"
             [AInt (u64 (epoch + 2)); AInt (StartEpoch (rr_Info r)); AInt (ExitEpoch (rr_Info r))])
  else if negb (ExitEpoch (rr_Info r) =? 0) then throw (Errorf "exit epoch not 0" [])
  else
  on_state (wrap_err (ErrWrap "unable to set rollup info(CREATE): %w" [])
              (SetRollupInfo (rr_Namespace r) (rr_Info r)));;
  mret nss'.

Definition create_guards r rules h : bool :=
  (u64 (h / u64 (GetEpochLength rules) + 2) <=? StartEpoch (rr_Info r)) && (ExitEpoch (rr_Info r) =? 0).

(** Show the second half. *)
Ltac to_rest r rules h :=
  match goal with
  | |- context [(mret ?x ≫= ?K) ?t] => change ((mret x ≫= K) t) with (create_rest r rules h x t)
  end.

Lemma create_rest_eq r rules h nss' s :
  epoch_length_ok rules ->
  (create_guards r rules h = true /\
   create_rest r rules h nss' (s, r) =
     (on_state (wrap_err (ErrWrap "unable to set rollup info(CREATE): %w" [])
        (SetRollupInfo (rr_Namespace r) (rr_Info r)));; mret nss') (s, with_info r (rr_Info r))) \/
  (create_guards r rules h = false /\ exists e, create_rest r rules h nss' (s, r) = ((s, r), Err e)).
Proof.
  intros Hep. unfold create_rest, create_guards.
  rewrite Epoch_ok, bind_lift_Ok, with_info_same, Z.leb_antisym by done.
  destruct (_ <? _); [right; by eauto|].
  destruct (ExitEpoch (rr_Info r) =? 0); [by left|right; by eauto].
Qed.

Lemma create_cases r rules h actor nss s :
  registry_inv (view s) nss -> epoch_length_ok rules -> ns_ok r -> rr_OpCode r = CreateRollup ->
  accepts r rules h actor nss s (register_create rules h actor nss) \/
  refuses r rules h actor nss s (register_create rules h actor nss).
Proof.
  intros Hr Hep Hn Hop. unfold accepts, refuses, register_create.
  rewrite reg_step_unfold, Hop, Z.eqb_refl, bind_get by done. fold (create_guards r rules h).
  destruct (contains nss (rr_Namespace r)) eqn:Hin; cbn [negb].
  - apply contains_spec in Hin.
    rewrite (bool_decide_eq_false_2 (_ ∉ _)) by (by intros ?). rewrite (bool_decide_eq_true_2 (_ ∈ _)) by done.
    rewrite bind_assoc.
    destruct (authorizationChecks_cases actor nss (rr_Namespace r) s Hr)
      as [(o & -> & _ & _ & Ho & _ & Ha)|(e & -> & Hno)]; cbn [map_err].
    + rewrite bind_lift_Ok, Ho, Ha. to_rest r rules h.
      destruct (create_rest_eq r rules h nss s Hep) as [[-> ->]|[-> [e ->]]]; [left; by eauto 6|right; eauto].
    + right. eexists. split; [done|]. intros Hc. by destruct (Hno Hc) as [?| ->].
  - apply contains_false in Hin. rewrite bool_decide_eq_true_2 by done.
    rewrite (bool_decide_eq_false_2 (_ ∈ _)) by done.
    to_rest r rules h.
    destruct (create_rest_eq r rules h (nss ++ [rr_Namespace r]) s Hep) as [[-> ->]|[-> [e ->]]];
      [left; by eauto 6|right; eauto].
Qed.

Lemma update_cases r rules h actor nss s :
  registry_inv (view s) nss -> ns_ok r -> rr_OpCode r = UpdateRollup ->
  accepts r rules h actor nss s (register_update actor nss) \/
  refuses r rules h actor nss s (register_update actor nss).
Proof.
  intros Hr Hn Hop. unfold accepts, refuses, register_update.
  rewrite reg_step_unfold, Hop, bind_get by done. cbn [Z.eqb Pos.eqb UpdateRollup CreateRollup].
  destruct (authorizationChecks_cases actor nss (rr_Namespace r) s Hr)
    as [(o & -> & Hin & Hg & Ho & _ & Ha)|(e & -> & Hno)]; cbn [map_err].
  - left. rewrite Hg, Ho, Ha, (bool_decide_eq_true_2 (_ ∈ _)) by done. by eauto 6.
  - right. eexists. split; [done|]. intros Hc. destruct (info_of _ _) as [o|]; [|done].
    destruct (Hno Hc) as [Hns| ->].
    + by rewrite (bool_decide_eq_false_2 (_ ∈ _)).
    + by rewrite orb_true_r.
Qed.

Lemma exit_cases r rules h actor nss s :
  registry_inv (view s) nss -> epoch_length_ok rules -> ns_ok r -> rr_OpCode r = ExitRollup ->
  accepts r rules h actor nss s (register_exit rules h actor nss) \/
  refuses r rules h actor nss s (register_exit rules h actor nss).
Proof.
  intros Hr Hep Hn Hop. unfold accepts, refuses, register_exit.
  rewrite reg_step_unfold, Hop, bind_get by done. cbn [Z.eqb Pos.eqb ExitRollup UpdateRollup CreateRollup].
  destruct (authorizationChecks_cases actor nss (rr_Namespace r) s Hr)
    as [(o & -> & Hin & Hg & Ho & _ & Ha)|(e & -> & Hno)]; cbn [map_err].
  - rewrite Hg, Ho, Ha, (bool_decide_eq_true_2 (_ ∈ _)) by done. cbn [map_err deref negb orb].
    rewrite !bind_lift_Ok. cbn [deref]. rewrite bind_lift_Ok, Epoch_ok, bind_lift_Ok by done.
    rewrite !Z.leb_antisym.
    destruct (ExitEpoch (rr_Info r) <? StartEpoch o); cbn [negb andb orb];
      [right; by eauto|].
    destruct (ExitEpoch (rr_Info r) <? _); cbn [negb]; [right; by eauto|left; by eauto 6].
  - right. eexists. split; [done|]. intros Hc. destruct (info_of _ _) as [o|]; [|done].
    destruct (Hno Hc) as [Hns| ->].
    + by rewrite (bool_decide_eq_false_2 (_ ∈ _)).
    + by rewrite orb_true_r.
Qed.

(** [Execute] either writes what the abstract registry says, or refuses and
    changes nothing; it refuses only what the abstract registry refuses, or a
    read that is not permitted. *)
Lemma RollupRegistration_Execute_cases r rules t h actor id s nss :
  registry_inv (view s) nss -> epoch_length_ok rules ->
  let ep := h / u64 (GetEpochLength rules) in
  let step := reg_step r actor ep (info_of (view s) (rr_Namespace r)) nss in
  (exists f info nss', step = Some (info, nss') /\
     RollupRegistration_Execute rules t h actor id (s, r) = reg_write r f info nss' s) \/
  (exists e, RollupRegistration_Execute rules t h actor id (s, r) = ((s, r), Err e) /\
     (can s RollupRegistryKey Read -> can s (RollupInfoKey (rr_Namespace r)) Read -> step = None)).
Proof.
  intros Hr Hep ep step. unfold step, ep, RollupRegistration_Execute. rewrite bind_get.
  destruct (bytes_Equal (rr_Namespace r) (RI_Namespace (rr_Info r))) eqn:Hn; cbn [negb];
    [apply bytes_Equal_spec in Hn|
     right; eexists; split; [done|]; intros _ _; unfold reg_step;
     rewrite bool_decide_eq_false_2; [done|]; intros Hc%bytes_Equal_spec; congruence].
  rewrite Z.gtb_ltb. destruct (Z.ltb_spec MaxNamespaceLen (Z.of_nat (length (rr_Namespace r)))) as [Hl|Hl].
  { right. eexists. split; [done|]. intros _ _. unfold reg_step.
    rewrite (proj2 (Z.ltb_lt _ _) Hl). by rewrite orb_true_r. }
  assert (ns_ok r) as Hok by done.
  destruct (GetRollupRegistry_cases s) as [[e He]|Hreg].
  { right. rewrite He. eexists. split; [done|]. intros Hc.
    by rewrite (GetRollupRegistry_view s Hc), (ri_registry _ _ Hr) in He. }
  rewrite Hreg, (ri_registry _ _ Hr). cbn [map_err]. rewrite bind_lift_Ok.
  set (body := if rr_OpCode r =? CreateRollup then _ else _).
  assert (accepts r rules h actor nss s body \/ refuses r rules h actor nss s body) as Hbody.
  { unfold body.
    destruct (Z.eqb_spec (rr_OpCode r) CreateRollup); [by apply create_cases|].
    destruct (Z.eqb_spec (rr_OpCode r) UpdateRollup); [by apply update_cases|].
    destruct (Z.eqb_spec (rr_OpCode r) ExitRollup); [by apply exit_cases|].
    right. eexists. split; [done|]. intros _. rewrite reg_step_unfold by done.
    rewrite !(proj2 (Z.eqb_neq _ _)) by done. destruct (info_of _ _); [|done].
    by destruct (negb _ || _). }
  destruct Hbody as [(f & info & nss' & Hst & Hrun)|(e & Hrun & Hno)].
  - left. exists f, info, nss'. split; [done|]. unfold reg_write.
    rewrite (bind_eq _ _ _ _ _ Hrun), bind_assoc. reflexivity.
  - right. exists e. split; [|by auto]. by rewrite (bind_run_err _ _ _ _ _ Hrun).
Qed.

(** An accepted step stores a well-formed info and a well-formed list. *)
Lemma reg_step_wf v r actor ep nss info nss' :
  registry_inv v nss -> RollupRegistration_wf r ->
  reg_step r actor ep (info_of v (rr_Namespace r)) nss = Some (info, nss') ->
  rollup_wf (rr_Namespace r) info /\ rr_Namespace r ∈ nss' /\
  NoDup nss' /\ Forall Namespace_encodable nss' /\
  (forall ns, ns ∈ nss' <-> ns ∈ nss \/ ns = rr_Namespace r).
Proof.
  intros Hr Hwf Hst.
  assert (ns_ok r) as Hok.
  { unfold reg_step in Hst. case_bool_decide; [|done].
    destruct (Z.ltb_spec MaxNamespaceLen (Z.of_nat (length (rr_Namespace r)))); [done|]. done. }
  rewrite reg_step_unfold in Hst by done. destruct Hok as [Hn _].
  destruct (rr_OpCode r =? CreateRollup).
  - destruct (_ && (_ && _)) eqn:Eg; [|done]. injection Hst as <- <-.
    apply andb_true_iff in Eg as [_ [_ Hz]%andb_true_iff]. apply Z.eqb_eq in Hz.
    split; [split; [done|split; [done|by left]]|].
    case_bool_decide as Hin.
    + split; [done|]. split; [apply Hr|]. split; [apply Hr|].
      intros ns. split; [by left|]. by intros [?| ->].
    + split; [apply elem_of_app; right; by apply list_elem_of_singleton|].
      split; [|split].
      * apply NoDup_app. split; [apply Hr|]. split; [|apply NoDup_singleton].
        by intros x Hx ->%list_elem_of_singleton.
      * apply Forall_app. split; [apply Hr|]. constructor; [|constructor].
        rewrite Hn. by apply RollupInfo_encodable_ns.
      * intros ns. by rewrite elem_of_app, list_elem_of_singleton.
  - destruct (info_of v (rr_Namespace r)) as [o|] eqn:Ho; [|done].
    destruct (negb _ || _) eqn:Eg; [done|].
    apply orb_false_iff in Eg as [Hin _]. apply negb_false_iff, bool_decide_eq_true in Hin.
    destruct (ri_registered _ _ Hr _ Hin) as (o' & Ho' & Hwo).
    unfold info_of in Ho. rewrite Ho' in Ho. injection Ho as ->. destruct Hwo as (_ & Heo & Hord).
    destruct (RollupInfo_encodable_epochs (rr_Info r) o Hwf Heo) as [He1 He2].
    assert (nss' = nss /\ rollup_wf (rr_Namespace r) info) as [-> Hwi].
    { destruct (_ =? UpdateRollup); [by injection Hst as <- <-|].
      destruct (_ =? ExitRollup); [|done]. destruct (_ && _) eqn:Eg; [|done].
      injection Hst as <- <-. apply andb_true_iff in Eg as [Hle%Z.leb_le _].
      split; [done|]. split; [done|]. split; [done|by right]. }
    split; [done|]. split; [done|]. split; [apply Hr|]. split; [apply Hr|].
    intros ns. split; [by left|]. by intros [?| ->].
Qed.

(** The contents after the two writes are well-formed again. *)
Lemma registered_inv v r info nss nss' b1 b2 :
  registry_inv v nss ->
  rollup_wf (rr_Namespace r) info -> rr_Namespace r ∈ nss' ->
  NoDup nss' -> Forall Namespace_encodable nss' ->
  (forall ns, ns ∈ nss' <-> ns ∈ nss \/ ns = rr_Namespace r) ->
  let v' := <[RollupRegistryKey := b2]> (<[RollupInfoKey (rr_Namespace r) := b1]> v) in
  registry_at v' = Ok nss' -> rollup_at v' (rr_Namespace r) = Ok (Some info) ->
  registry_inv v' nss'.
Proof.
  intros [H1 H2 H3 H4 H5 H6] Hwi Hin Hnd Henc Helem v' Hreg Hinfo.
  assert (forall ns, ns <> rr_Namespace r -> v' !! RollupInfoKey ns = v !! RollupInfoKey ns) as Hother.
  { intros ns Hne. unfold v'.
    rewrite lookup_insert_ne by apply not_eq_sym, RollupInfoKey_ne_registry.
    apply lookup_insert_ne. intros Hk. apply Hne. symmetry. by apply RollupInfoKey_inj. }
  split; [done|done|done| | |].
  - intros ns Hns. destruct (decide (ns = rr_Namespace r)) as [->|Hne]; [by eauto|].
    apply Helem in Hns as [Hns|]; [|done].
    rewrite (rollup_at_eq v' v) by (by apply Hother). by apply H4.
  - intros ns Hns. rewrite Hother by (intros ->; by apply Hns).
    apply H5. intros Hc. apply Hns, Helem. by left.
  - intros e He. rewrite (exits_at_eq v' v).
    + destruct (H6 e He) as [|(i & Hi & Hnd' & Hall)]; [by left|right]. exists i. split; [done|].
      split; [done|]. eapply Forall_impl; [exact Hall|].
      intros x (Hx1 & Hx2 & Hx3). split; [done|]. split; [|done]. apply Helem. by left.
    + unfold v'. rewrite lookup_insert_ne by apply RollupRegistryKey_ne_exits.
      apply lookup_insert_ne, RollupInfoKey_ne_exits.
Qed.

Lemma RollupInfoKey_arcadia ns : is_arcadia_key (RollupInfoKey ns).
Proof. left. by exists ns. Qed.
Lemma RollupRegistryKey_arcadia : is_arcadia_key RollupRegistryKey.
Proof. by right; left. Qed.

Lemma reg_write_Ok_inv r f info nss nss' actor ep s s' r' out :
  registry_inv (view s) nss -> RollupRegistration_wf r ->
  reg_step r actor ep (info_of (view s) (rr_Namespace r)) nss = Some (info, nss') ->
  reg_write r f info nss' s = ((s', r'), Ok out) ->
  r' = with_info r info /\ rollup_at (view s') (rr_Namespace r) = Ok (Some info) /\
  registry_inv (view s') nss' /\
  exists b1 b2, view s' =
    <[RollupRegistryKey := b2]> (<[RollupInfoKey (rr_Namespace r) := b1]> (view s)).
Proof.
  intros Hr Hwf Hst Hw. unfold reg_write in Hw.
  destruct (reg_step_wf _ _ _ _ _ _ _ Hr Hwf Hst) as (Hwi & Hin & Hnd & Henc & Helem).
  apply bind_Ok_inv in Hw as ([s1 r1] & [] & H1 & Hw).
  apply bind_Ok_inv in Hw as ([s2 r2] & [] & H2 & [= <- <- _]).
  rewrite on_state_run in H1, H2. unfold wrap_err in H1.
  destruct (SetRollupInfo (rr_Namespace r) info s) as [s1' [[]|e|p]] eqn:E1; [|done|done].
  injection H1 as <- <-.
  destruct (SetRollupRegistry nss' s1') as [s2' o2] eqn:E2. injection H2 as <- <- ->.
  apply SetRollupInfo_Ok in E1 as (b1 & [Hv1 _] & Hi); [|apply Hwi].
  apply SetRollupRegistry_Ok in E2 as (b2 & [Hv2 _] & Hl); [|done].
  rewrite Hv1 in Hv2. rewrite Hv1 in Hi. rewrite Hv2 in Hl |- *.
  assert (rollup_at (<[RollupRegistryKey:=b2]> (<[RollupInfoKey (rr_Namespace r):=b1]> (view s)))
            (rr_Namespace r) = Ok (Some info)) as Hi'.
  { rewrite (rollup_at_eq _ (<[RollupInfoKey (rr_Namespace r):=b1]> (view s))); [done|].
    apply lookup_insert_ne, not_eq_sym, RollupInfoKey_ne_registry. }
  split; [done|]. split; [done|]. split; [by eapply registered_inv|]. eauto.
Qed.

(** The wrapper of errors and the old info do not matter to a success. *)
Lemma reg_write_again r f f2 info nss s st out :
  reg_write r f info nss s = (st, Ok out) -> reg_write (with_info r info) f2 info nss s = (st, Ok out).
Proof.
  unfold reg_write. cbn [with_info rr_Namespace rr_OpCode]. unfold mbind, M_bind.
  rewrite !on_state_run. unfold wrap_err.
  by destruct (SetRollupInfo (rr_Namespace r) info s) as [s1 [[]|e|p]].
Qed.

Lemma reg_write_no_panic r f info nss s : is_panic (snd (reg_write r f info nss s)) = false.
Proof.
  unfold reg_write, mbind, M_bind. rewrite on_state_run. unfold wrap_err.
  pose proof (SetRollupInfo_cases s (rr_Namespace r) info) as H1. unfold wp in H1.
  destruct (SetRollupInfo _ _ s) as [s1 [[]|e|p]]; cbn [fst snd map_err] in *;
    [|done|by destruct H1 as [|[[? ?] _]]].
  rewrite on_state_run. pose proof (SetRollupRegistry_cases s1 nss) as H2. unfold wp in H2.
  destruct (SetRollupRegistry nss s1) as [s2 [[]|e|p]]; cbn [fst snd] in *; try done.
  by destruct H2 as [|[[? ?] _]].
Qed.

(** Frames of code that also changes its receiver. *)
Definition frame2 {X} (P : bytes -> Prop) (m : M (S * RollupRegistration) X) : Prop :=
  forall s r, touches P s (fst (m (s, r))).1.

Lemma frame2_bind {X Y} P (m : M (S * RollupRegistration) X) (k : X -> M _ Y) :
  frame2 P m -> (forall x, frame2 P (k x)) -> frame2 P (m ≫= k).
Proof.
  intros Hm Hk s r. specialize (Hm s r). unfold mbind, M_bind.
  destruct (m (s, r)) as [[s1 r1] [x|e|p]]; [|done|done].
  eapply touches_trans; [exact Hm|apply Hk].
Qed.

Lemma frame2_lift {X} P (x : res X) : frame2 P (lift x).
Proof. by intros s r. Qed.
Lemma frame2_ret {X} P (x : X) : frame2 P (mret x).
Proof. by intros s r. Qed.
Lemma frame2_throw {X} P e : frame2 P (throw (A := X) e).
Proof. by intros s r. Qed.
Lemma frame2_set_info P i : frame2 P (set_info i).
Proof. by intros s r. Qed.
Lemma frame2_on_state {X} P (m : M S X) : frame P m -> frame2 P (on_state m).
Proof. intros Hm s r. rewrite on_state_run. apply Hm. Qed.

(** The receiver stays the one the state keys were computed from. *)
Lemma frame2_get {X} P (Q : RollupRegistration -> Prop) (k : S * RollupRegistration -> M _ X) :
  (forall s r, Q r -> touches P s (fst (k (s, r) (s, r))).1) ->
  forall s r, Q r -> touches P s (fst ((get ≫= k) (s, r))).1.
Proof. intros Hk s r Hr. by apply Hk. Qed.

Definition reg_keys r (k : bytes) : Prop := k = RollupInfoKey (rr_Namespace r) \/ k = RollupRegistryKey.

Ltac frame2_steps :=
  repeat first
    [ apply frame2_lift | apply frame2_ret | apply frame2_throw | apply frame2_set_info
    | apply frame2_on_state; try apply frame_wrap; solve [auto with frame]
    | apply frame2_bind; [|intros ?]
    | match goal with |- frame2 _ (if ?b then _ else _) => destruct b end ].

Lemma register_create_frame rules h actor nss r s :
  touches (reg_keys r) s (fst (register_create rules h actor nss (s, r))).1.
Proof.
  unfold register_create. rewrite bind_get.
  assert (reg_keys r (RollupInfoKey (rr_Namespace r))) by (by left).
  match goal with |- touches _ _ (fst (?m _)).1 => assert (frame2 (reg_keys r) m) as Hm end;
    [frame2_steps|apply Hm].
Qed.

Lemma register_update_frame actor nss r s :
  touches (reg_keys r) s (fst (register_update actor nss (s, r))).1.
Proof.
  unfold register_update. rewrite bind_get.
  assert (reg_keys r (RollupInfoKey (rr_Namespace r))) by (by left).
  match goal with |- touches _ _ (fst (?m _)).1 => assert (frame2 (reg_keys r) m) as Hm end;
    [frame2_steps|apply Hm].
Qed.

Lemma register_exit_frame rules h actor nss r s :
  touches (reg_keys r) s (fst (register_exit rules h actor nss (s, r))).1.
Proof.
  unfold register_exit. rewrite bind_get.
  assert (reg_keys r (RollupInfoKey (rr_Namespace r))) by (by left).
  match goal with |- touches _ _ (fst (?m _)).1 => assert (frame2 (reg_keys r) m) as Hm end;
    [frame2_steps|apply Hm].
Qed.

Lemma RollupRegistration_frame rules t h actor id r s :
  touches (reg_keys r) s (fst (RollupRegistration_Execute rules t h actor id (s, r))).1.
Proof.
  unfold RollupRegistration_Execute. rewrite bind_get.
  destruct (negb _); [done|]. destruct (_ >? _); [done|].
  destruct (map_err _ (GetRollupRegistry s)) as [nss|e|p]; [|done|done]. rewrite bind_lift_Ok.
  set (body := if rr_OpCode r =? CreateRollup then _ else _).
  assert (touches (reg_keys r) s (fst (body (s, r))).1) as Hbody.
  { unfold body. destruct (_ =? _); [apply register_create_frame|].
    destruct (_ =? _); [apply register_update_frame|].
    destruct (_ =? _); [apply register_exit_frame|done]. }
  unfold mbind at 1, M_bind at 1. destruct (body (s, r)) as [[s1 r1] [x|e|p]]; [|done|done].
  eapply touches_trans; [exact Hbody|].
  assert (frame2 (reg_keys r) (on_state (SetRollupRegistry x);; mret (M := M (S * RollupRegistration)) (@nil bytes))) as Hm.
  { assert (reg_keys r RollupRegistryKey) by (by right). frame2_steps. }
  apply Hm.
Qed.

#[export] Instance RollupRegistration_contract : ChainActionSpec S RollupRegistration.
Proof.
  refine {| action_wf := RollupRegistration_wf |}.
  - intros rules ts h actor id r s. unfold wp. cbn [Execute RollupRegistration_action].
    destruct (RollupRegistration_frame rules ts h actor id r s) as [Hs Hv]. split; [done|].
    intros k Hk. apply Hv. intros Hin. apply Hk. cbn [StateKeys RollupRegistration_action].
    unfold RollupRegistration_StateKeys. keys_simpl. rewrite !lookup_insert.
    repeat (case_decide; [done|]). by destruct Hin as [->| ->].
  - intros rules ts h actor id r r' s s' out [Hw Hs [nss Hr]] Hwf _ Hep Hrun.
    cbn [Execute RollupRegistration_action] in Hrun.
    destruct (RollupRegistration_Execute_cases r rules ts h actor id s nss Hr Hep)
      as [(f & info & nss' & Hst & E)|(e & E & _)]; rewrite E in Hrun; [|done].
    destruct (reg_write_Ok_inv _ _ _ _ _ _ _ _ _ _ _ Hr Hwf Hst Hrun)
      as (_ & _ & Hinv & b1 & b2 & Hv).
    destruct (arcadia_insert_ledger _ _ b1 (RollupInfoKey_arcadia (rr_Namespace r)) Hw) as [Hw1 Ht1].
    destruct (arcadia_insert_ledger _ _ b2 RollupRegistryKey_arcadia Hw1) as [Hw2 Ht2].
    rewrite Hv in *. split; [|congruence]. split; [done|lia|by eauto].
  - intros rules ts h actor id r s [_ _ [nss Hr]] _ _ Hep. cbn [Execute RollupRegistration_action].
    destruct (RollupRegistration_Execute_cases r rules ts h actor id s nss Hr Hep)
      as [(f & info & nss' & _ & E)|(e & E & _)]; rewrite E; [|done].
    apply reg_write_no_panic.
Defined.
End register_facts.

(** ** Properties *)

(** C10: [RollupRegistration.Execute] implements the abstract registry. On a
    state whose registry is well-formed it never panics. A success is a step
    the abstract registry accepts: the stored info and the receiver's [Info]
    are both the one the step gives, the registry lists the new namespaces, is
    well-formed again, and no other key changes. What the abstract registry
    refuses is an error that changes neither the state nor the receiver. *)
Theorem RollupRegistration_Execute_refines
    `{HC : HyperConsts} {CO : Codec} {HA : HActions} {DE : DatabaseErrors} {DES : DatabaseErrorsSpec}
    {CS : CodecSpec} {HS : HActionsSpec} {SP : StatePermissions}
    {S : Type} {IM : Immutable S} {MU : Mutable S} {MS : MutableSpec S}
    (r : RollupRegistration) (rules : Rules) (t h : Z) (actor : Address) (id : ID) (s : S) nss :
  registry_inv (view s) nss -> RollupRegistration_wf r -> epoch_length_ok rules ->
  let epoch := h / u64 (GetEpochLength rules) in
  let step := reg_step r actor epoch (info_of (view s) (rr_Namespace r)) nss in
  wp (RollupRegistration_Execute rules t h actor id) (s, r) (fun '(s', r') o =>
    match o with
    | Ok out => exists nss',
        step = Some (rr_Info r', nss') /\
        info_of (view s') (rr_Namespace r) = Some (rr_Info r') /\
        registry_inv (view s') nss' /\
        (forall k, k <> RollupInfoKey (rr_Namespace r) -> k <> RollupRegistryKey ->
           view s' !! k = view s !! k)
    | Err _ => step = None -> s' = s /\ r' = r
    | Panic _ => False
    end).
Proof.
  intros Hr Hwf Hep epoch step. unfold wp.
  destruct (RollupRegistration_Execute_cases r rules t h actor id s nss Hr Hep)
    as [(f & info & nss' & Hst & E)|(e & E & _)]; rewrite E; [|done].
  pose proof (reg_write_no_panic r f info nss' s) as Hnp.
  destruct (reg_write r f info nss' s) as [[s' r'] [out|e|p]] eqn:Ew; cbn [fst snd] in *; [| |done].
  - destruct (reg_write_Ok_inv _ _ _ _ _ _ _ _ _ _ _ Hr Hwf Hst Ew)
      as (-> & Hi & Hinv & b1 & b2 & Hv).
    exists nss'. split; [done|]. split; [by unfold info_of; rewrite Hi|]. split; [done|].
    intros k H1 H2. by rewrite Hv, !lookup_insert_ne.
  - intros Hnone. unfold step, epoch in Hnone. congruence.
Qed.

(** What the abstract registry accepts. *)
Lemma reg_step_epochs
    `{HC : HyperConsts} (r : RollupRegistration) (actor : Address) (epoch : Z)
    (old : option RollupInfo) (nss : list bytes) (info : RollupInfo) (nss' : list bytes) :
  0 <= epoch < u64_mod - 2 ->
  (old <> None <-> rr_Namespace r ∈ nss) ->
  reg_step r actor epoch old nss = Some (info, nss') ->
  RI_Namespace info = rr_Namespace r /\
  (forall o, old = Some o -> AuthoritySEQAddress o = actor) /\
  ((rr_OpCode r = CreateRollup /\ info = rr_Info r /\ ExitEpoch info = 0 /\ epoch + 2 <= StartEpoch info) \/
   (exists o, old = Some o /\ nss' = nss /\ rr_OpCode r = UpdateRollup /\
      StartEpoch info = StartEpoch o /\ ExitEpoch info = ExitEpoch o) \/
   (exists o, old = Some o /\ nss' = nss /\ rr_OpCode r = ExitRollup /\
      StartEpoch info = StartEpoch o /\ StartEpoch o <= ExitEpoch info /\ epoch + 2 <= ExitEpoch info)).
Proof.
  intros Hep Hold Hst. unfold reg_step in Hst.
  destruct (bool_decide (rr_Namespace r = _)) eqn:Hn; [|done]. apply bool_decide_eq_true in Hn.
  destruct (MaxNamespaceLen <? _); [done|]. cbn [negb orb] in Hst.
  assert (u64 (epoch + 2) = epoch + 2) as Hu by (apply u64_small; unfold is_u64; lia).
  rewrite Hu in Hst.
  destruct (Z.eqb_spec (rr_OpCode r) CreateRollup) as [Hop|_].
  - destruct (_ && (_ && _)) eqn:Eg; [|done]. injection Hst as <- _.
    apply andb_true_iff in Eg as [Ha [Hs%Z.leb_le Hx%Z.eqb_eq]%andb_true_iff].
    split; [done|]. split; [|by left]. intros o ->.
    apply orb_true_iff in Ha as [Ha|Ha]; [|by apply bool_decide_eq_true in Ha].
    apply bool_decide_eq_true in Ha. exfalso. apply Ha, Hold. done.
  - destruct old as [o|]; [|done]. destruct (negb _ || _) eqn:Eg; [done|].
    apply orb_false_iff in Eg as [_ Ha]. apply negb_false_iff, bool_decide_eq_true in Ha.
    destruct (Z.eqb_spec (rr_OpCode r) UpdateRollup) as [Hop|_].
    + injection Hst as <- <-. split; [done|]. split; [by intros ? [= <-]|]. right; left. by exists o.
    + destruct (Z.eqb_spec (rr_OpCode r) ExitRollup) as [Hop|_]; [|done].
      destruct (_ && _) eqn:Eg; [|done]. injection Hst as <- <-.
      apply andb_true_iff in Eg as [H1%Z.leb_le H2%Z.leb_le].
      split; [done|]. split; [by intros ? [= <-]|]. right; right. by exists o.
Qed.

(** The step accepts its own result. *)
Lemma reg_step_idempotent
    `{HC : HyperConsts} (r : RollupRegistration) (actor : Address) (epoch : Z)
    (old : option RollupInfo) (nss : list bytes) (info : RollupInfo) (nss' : list bytes) :
  reg_step r actor epoch old nss = Some (info, nss') ->
  reg_step (with_info r info) actor epoch old nss = Some (info, nss').
Proof.
  intros Hst. pose proof Hst as Hst'. unfold reg_step in Hst |- *.
  cbn [with_info rr_Info rr_Namespace rr_OpCode].
  destruct (bool_decide (rr_Namespace r = _)) eqn:Hn; [|done].
  destruct (MaxNamespaceLen <? _); [done|]. cbn [negb orb] in Hst.
  destruct (rr_OpCode r =? CreateRollup).
  - destruct (_ && (_ && _)) eqn:Eg; [|done]. injection Hst as <- <-. by rewrite Hn, Eg.
  - destruct old as [o|]; [|done]. destruct (negb _ || negb _); [done|].
    destruct (rr_OpCode r =? UpdateRollup).
    + injection Hst as <- <-. cbn [with_epochs RI_Namespace]. by rewrite Hn.
    + destruct (rr_OpCode r =? ExitRollup); [|done]. destruct (_ && _) eqn:Eg; [|done].
      injection Hst as <- <-. cbn [with_epochs RI_Namespace ExitEpoch]. by rewrite Hn, Eg.
Qed.

(** C11: The life of a registration. A successful execution leaves the namespace
    with the receiver's info; the authority of a rollup that existed is the
    actor; a new registration has no exit epoch and starts no earlier than two
    epochs from now; an update keeps both epochs; an exit keeps the start and
    ends no earlier than it starts and than two epochs from now. *)
Theorem RollupRegistration_epochs
    `{HC : HyperConsts} {CO : Codec} {HA : HActions} {DE : DatabaseErrors} {DES : DatabaseErrorsSpec}
    {CS : CodecSpec} {HS : HActionsSpec} {SP : StatePermissions}
    {S : Type} {IM : Immutable S} {MU : Mutable S} {MS : MutableSpec S}
    (r r' : RollupRegistration) (rules : Rules) (t h : Z) (actor : Address) (id : ID) (s s' : S) out nss :
  registry_inv (view s) nss -> RollupRegistration_wf r -> epoch_length_ok rules ->
  let ns := rr_Namespace r in
  let epoch := h / u64 (GetEpochLength rules) in
  0 <= epoch < u64_mod - 2 ->
  RollupRegistration_Execute rules t h actor id (s, r) = ((s', r'), Ok out) ->
  exists info, info_of (view s') ns = Some info /\ info = rr_Info r' /\ RI_Namespace info = ns /\
  (forall o, info_of (view s) ns = Some o -> AuthoritySEQAddress o = actor) /\
  ((rr_OpCode r = CreateRollup /\ info = rr_Info r /\ ExitEpoch info = 0 /\ epoch + 2 <= StartEpoch info) \/
   (exists o, info_of (view s) ns = Some o /\ rr_OpCode r = UpdateRollup /\
      StartEpoch info = StartEpoch o /\ ExitEpoch info = ExitEpoch o) \/
   (exists o, info_of (view s) ns = Some o /\ rr_OpCode r = ExitRollup /\
      StartEpoch info = StartEpoch o /\ StartEpoch o <= ExitEpoch info /\ epoch + 2 <= ExitEpoch info)).
Proof.
  intros Hr Hwf Hep ns epoch He Hrun.
  destruct (RollupRegistration_Execute_cases r rules t h actor id s nss Hr Hep)
    as [(f & info & nss' & Hst & E)|(e & E & _)]; rewrite E in Hrun; [|done].
  destruct (reg_write_Ok_inv _ _ _ _ _ _ _ _ _ _ _ Hr Hwf Hst Hrun) as (-> & Hi & _).
  exists info. split; [unfold info_of, ns; by rewrite Hi|]. split; [done|].
  apply reg_step_epochs in Hst as (Hn & Ha & Hcase); [|done|].
  - split; [done|]. split; [done|].
    destruct Hcase as [?|[(o & Ho & _ & ?)|(o & Ho & _ & ?)]]; eauto 8.
  - split.
    + intros Hsome. destruct (decide (rr_Namespace r ∈ nss)) as [|Hn]; [done|].
      apply (ri_unregistered _ _ Hr) in Hn. destruct Hsome.
      unfold info_of, rollup_at, view_get. rewrite Hn. unfold innerGetRollupInfo.
      by rewrite inner_get_none.
    + intros (o & Ho & _)%(ri_registered _ _ Hr). unfold info_of. by rewrite Ho.
Qed.

(** C13: Executing a registration again gives the same result. The node executes
    a transaction more than once (to build, then to verify a block) with the
    same object, whose [Info] the first execution rewrote: from the same state
    the rewritten receiver is accepted, with the same state and receiver. *)
Theorem RollupRegistration_Execute_again
    `{HC : HyperConsts} {CO : Codec} {HA : HActions} {DE : DatabaseErrors} {DES : DatabaseErrorsSpec}
    {CS : CodecSpec} {HS : HActionsSpec} {SP : StatePermissions} {SPS : StatePermissionsSpec}
    {S : Type} {IM : Immutable S} {MU : Mutable S} {MS : MutableSpec S}
    (r r' : RollupRegistration) (rules : Rules) (t t' h : Z) (actor : Address) (id : ID) (s s' : S) out nss :
  registry_inv (view s) nss -> RollupRegistration_wf r -> epoch_length_ok rules ->
  declares s (RollupRegistration_StateKeys r actor id) ->
  RollupRegistration_Execute rules t h actor id (s, r) = ((s', r'), Ok out) ->
  RollupRegistration_Execute rules t' h actor id (s, r') = ((s', r'), Ok out).
Proof.
  intros Hr Hwf Hep Hd Hrun. unfold RollupRegistration_StateKeys in Hd. keys_simpl_in Hd.
  assert (can s RollupRegistryKey Read) as Hc1 by (eapply declares_insert; [exact Hd|apply Has_All]).
  assert (can s (RollupInfoKey (rr_Namespace r)) Read) as Hc2.
  { eapply declares_below; [exact Hd|apply lookup_insert_eq|apply Has_All|right; apply Has_All]. }
  destruct (RollupRegistration_Execute_cases r rules t h actor id s nss Hr Hep)
    as [(f & info & nss' & Hst & E)|(e & E & _)]; rewrite E in Hrun; [|done].
  destruct (reg_write_Ok_inv _ _ _ _ _ _ _ _ _ _ _ Hr Hwf Hst Hrun) as (-> & _ & _).
  pose proof (reg_step_idempotent _ _ _ _ _ _ _ Hst) as Hst2.
  destruct (RollupRegistration_Execute_cases (with_info r info) rules t' h actor id s nss Hr Hep)
    as [(f2 & info2 & nss2 & Hst' & E2)|(e & _ & Hno)].
  - change (rr_Namespace (with_info r info)) with (rr_Namespace r) in Hst'.
    rewrite Hst2 in Hst'. injection Hst' as <- <-. rewrite E2. by eapply reg_write_again.
  - change (rr_Namespace (with_info r info)) with (rr_Namespace r) in Hno.
    rewrite (Hno Hc1 Hc2) in Hst2. done.
Qed.

(** Marshalling a registration and unmarshalling the bytes gives the
    registration back. *)
Lemma RollupRegistration_roundtrip
    `{HC : HyperConsts} {CO : Codec} {HA : HActions} {CS : CodecSpec} {HS : HActionsSpec}
    (r : RollupRegistration) (n l l' : Z) :
  RollupRegistration_wf r -> Z.of_nat (length (rr_Namespace r)) < 4294967296 ->
  0 <= rr_OpCode r < 2147483648 ->
  let w := fst (RollupRegistration_Marshal r (NewWriter n l)) in
  Packer_Err w = None ->
  snd (UnmarshalRollupRegister (NewReader (Packer_Bytes w) l')) = Ok r.
Proof.
  intros Hwf Hns Hop w He.
  apply (wire_roundtrip (RollupRegistration_Marshal r) UnmarshalRollupRegister r
    (enc_RollupInfo (rr_Info r) ++ enc_bytes (rr_Namespace r) ++ enc_int (rr_OpCode r)) n l l' w); try done.
  - unfold RollupRegistration_Marshal. auto 10 with wire.
  - unfold UnmarshalRollupRegister.
    eapply reads_bind; [by apply RollupInfo_reads|].
    eapply reads_bind; [apply UnpackBytes_reads; (lia || done)|].
    eapply reads_bind_last; [by apply UnpackInt_reads|].
    destruct r. apply reads_ret.
Qed.
