(* ===== verification/Registry.v ===== *)
(** * Registry: the actions and signatures of the chain

    [src/registry/registry.go]: the actions of the chain as one type, and the
    tables that map a type identifier to its unmarshaller. *)

From stdpp Require Import base numbers countable gmap list strings.
From Stdlib Require Import ZArith Lia Strings.Byte.
From S2P Require Import Prelude HyperSDK State Wire Sample Storage Ledger Genesis Auth Actions.
From S2P Require Import ChainInv Transfer SequencerMsg Auction EpochExit RollupRegister.

Local Open Scope Z_scope.

(** A value of the interface type [chain.Action]. *)
Inductive Action `{HyperConsts} :=
  | Act_Transfer (t : Transfer)
  | Act_SequencerMsg (m : SequencerMsg)
  | Act_RollupRegistration (r : RollupRegistration)
  | Act_EpochExit (e : EpochExit)
  | Act_Auction (a : Auction).

(** A method called through the interface. *)
Definition via {S A B X} (inj : A -> B) (m : M (S * A) X) (s : S) (a : A) : (S * B) * res X :=
  let '((s', a'), r) := m (s, a) in ((s', inj a'), r).

Section dispatch.
Context `{HC : HyperConsts} {CO : Codec} {HA : HActions} {SM : SafeMath} {BC : BLSCrypto}.
Context {EC : ED25519Crypto} {DE : DatabaseErrors} {SP : StatePermissions}.
Context {S : Type} {IM : Immutable S} {MU : Mutable S}.

Definition Action_Execute (rules : Rules) (t h : Z) (actor : Address) (id : ID)
    : M (S * Action) (list bytes) := fun '(s, a) =>
  match a with
  | Act_Transfer x => via Act_Transfer (Execute rules t h actor id) s x
  | Act_SequencerMsg x => via Act_SequencerMsg (Execute rules t h actor id) s x
  | Act_RollupRegistration x => via Act_RollupRegistration (Execute rules t h actor id) s x
  | Act_EpochExit x => via Act_EpochExit (Execute rules t h actor id) s x
  | Act_Auction x => via Act_Auction (Execute rules t h actor id) s x
  end.

(** The methods that take the action only. *)
Definition on_action {X} (f : forall A, ChainAction S A -> A -> X) (a : Action) : X :=
  match a with
  | Act_Transfer x => f _ _ x
  | Act_SequencerMsg x => f _ _ x
  | Act_RollupRegistration x => f _ _ x
  | Act_EpochExit x => f _ _ x
  | Act_Auction x => f _ _ x
  end.

(** An unmarshaller whose result is used as an interface value. *)
Definition as_iface {A B} (inj : A -> B) (u : M Packer A) : M Packer B :=
  a ← u; mret (inj a).

(** The registered unmarshallers, in the order of registration. *)
Definition action_registrations : list (Z * M Packer Action) :=
  [(TransferID, as_iface Act_Transfer UnmarshalTransfer);
   (MsgID, as_iface Act_SequencerMsg UnmarshalSequencerMsg);
   (RollupRegisterID, as_iface Act_RollupRegistration UnmarshalRollupRegister);
   (EpochExitID, as_iface Act_EpochExit UnmarshalEpochExit);
   (AuctionID, as_iface Act_Auction UnmarshalAuction)].

Definition auth_registrations : list (Z * M Packer Auth) :=
  [(Ed25519ID, as_iface Auth_ED25519 UnmarshalED25519);
   (BLSID, as_iface Auth_BLS UnmarshalBLS)].

Context {TP : TypeParsers}.

(** [errs.Add(Register(...), ...)]: every call is made, the errors are kept. *)
Fixpoint register_all {A} (l : list (Z * A)) (p : TypeParser A) : TypeParser A * list error :=
  match l with
  | [] => (p, [])
  | (i, a) :: l =>
      let '(p, r) := Register i a p in
      let '(p, errs) := register_all l p in
      (p, match r with Err e => e :: errs | _ => errs end)
  end.

(** [func init()] *)
Definition init : res (TypeParser (M Packer Action) * TypeParser (M Packer Auth)) :=
  let '(ar, errs1) := register_all action_registrations NewTypeParser in
  let '(au, errs2) := register_all auth_registrations NewTypeParser in
  match errs1 ++ errs2 with
  | [] => Ok (ar, au)
  | _ :: _ => Panic (PMessage "errs.Err")
  end.

(** What a transaction carries for an action: its type and its fields. *)
Definition ActionRegistry_Unmarshal (ar : TypeParser (M Packer Action)) (typeID : Z)
    : M Packer Action :=
  match LookupIndex ar typeID with
  | Some u => u
  | None => throw (ErrNew "unknown action type")
  end.

#[export] Instance Action_action : ChainAction S Action := {|
  GetTypeID := on_action (fun A CA => GetTypeID);
  StateKeys := on_action (fun A CA => StateKeys);
  StateKeysMaxChunks := on_action (fun A CA => StateKeysMaxChunks);
  Execute := Action_Execute;
  ComputeUnits := on_action (fun A CA => ComputeUnits);
  Size := on_action (fun A CA => Size);
  Marshal := on_action (fun A CA => Marshal);
  Unmarshal := throw (ErrNew "an interface has no unmarshaller");
  ValidRange := on_action (fun A CA => ValidRange);
  NMTNamespace := on_action (fun A CA => NMTNamespace);
  UseFeeMarket := on_action (fun A CA => UseFeeMarket)
|}.
End dispatch.

(** ** The contract of the interface value *)

Section dispatch_contract.
Context `{HC : HyperConsts} {HCS : HyperConstsSpec} {CO : Codec} {HA : HActions}.
Context {SM : SafeMath} {SMS : SafeMathSpec} {BC : BLSCrypto} {BS : BLSCryptoSpec}.
Context {DE : DatabaseErrors} {DES : DatabaseErrorsSpec} {CS : CodecSpec} {HS : HActionsSpec}.
Context {SP : StatePermissions} {SPS : StatePermissionsSpec}.
Context {S : Type} {IM : Immutable S} {MU : Mutable S} {MS : MutableSpec S}.

Definition Action_wf (a : Action) : Prop :=
  match a with
  | Act_Transfer x => action_wf x
  | Act_SequencerMsg x => action_wf x
  | Act_RollupRegistration x => action_wf x
  | Act_EpochExit x => action_wf x
  | Act_Auction x => action_wf x
  end.

Lemma via_eq {A B X} (inj : A -> B) (m : M (S * A) X) s a :
  via inj m s a = ((fst (fst (m (s, a))), inj (snd (fst (m (s, a))))), snd (m (s, a))).
Proof. unfold via. by destruct (m (s, a)) as [[? ?] ?]. Qed.

#[export] Instance Action_contract : ChainActionSpec S Action.
Proof.
  refine {| action_wf := Action_wf |}.
  - intros rules t h actor id a s. unfold wp. cbn [Execute Action_action].
    destruct a as [x|x|x|x|x]; unfold Action_Execute; rewrite via_eq;
      apply (Execute_frame rules t h actor id x s).
  - intros rules t h actor id a a' s s' out Hc Hwf Hh Hep Hr. cbn [Execute Action_action] in Hr.
    destruct a as [x|x|x|x|x]; unfold Action_Execute in Hr; rewrite via_eq in Hr;
      destruct (Execute rules t h actor id (s, x)) as [[s1 x1] o] eqn:E;
      injection Hr as <- _ ->;
      exact (Execute_inv rules t h actor id x x1 s s1 out Hc Hwf Hh Hep E).
  - intros rules t h actor id a s Hc Hwf Hh Hep. cbn [Execute Action_action].
    destruct a as [x|x|x|x|x]; unfold Action_Execute; rewrite via_eq;
      by apply (Execute_safe rules t h actor id x s).
Defined.
End dispatch_contract.

(** ** Registration *)

Section register_facts.
Context `{HC : HyperConsts} {TP : TypeParsers} {TPS : TypeParsersSpec}.

Lemma register_all_spec {A} (l : list (Z * A)) p :
  let '(p', errs) := register_all l p in
  (errs = [] <-> NoDup l.*1 /\ forall i, i ∈ l.*1 -> LookupIndex p i = None) /\
  (errs = [] -> forall i a, (i, a) ∈ l -> LookupIndex p' i = Some a) /\
  (forall i, i ∉ l.*1 \/ LookupIndex p i <> None -> LookupIndex p' i = LookupIndex p i).
Proof.
  revert p. induction l as [|[i a] l IH]; intros p; simpl.
  - split; [split; [|done]|split; [|done]].
    + intros _. split; [constructor|]. by intros ? ?%not_elem_of_nil.
    + by intros _ ? ? ?%not_elem_of_nil.
  - destruct (LookupIndex p i) as [b|] eqn:Ei.
    + destruct (Register_dup i a p) as [e ->]; [congruence|].
      specialize (IH p). destruct (register_all l p) as [p' errs].
      destruct IH as (_ & _ & IH). split; [split; [done|]|split; [done|]].
      * intros [_ Hn]. rewrite (Hn i) in Ei; [done|by left].
      * intros j [Hj|Hj]; apply IH; [left|by right].
        by apply not_elem_of_cons in Hj as [_ ?].
    + destruct (Register_new i a p Ei) as (p1 & -> & Hp1).
      specialize (IH p1). destruct (register_all l p1) as [p' errs].
      destruct IH as (IH1 & IH2 & IH3). split; [|split].
      * rewrite IH1, NoDup_cons. split.
        -- intros [Hnd Hn]. assert (i ∉ l.*1) as Hi.
           { intros Hi. specialize (Hn i Hi). by rewrite Hp1, decide_True in Hn. }
           split; [done|]. intros j [->|Hj]%elem_of_cons; [done|].
           specialize (Hn j Hj). rewrite Hp1 in Hn. by case_decide.
        -- intros [[Hi Hnd] Hn]. split; [done|]. intros j Hj. rewrite Hp1.
           case_decide; [by subst|]. apply Hn. by right.
      * intros He j b [[= -> ->]|Hin]%elem_of_cons; [|by apply IH2].
        rewrite IH3; [by rewrite Hp1, decide_True|]. right. by rewrite Hp1, decide_True.
      * intros j Hj. rewrite IH3.
        -- rewrite Hp1. case_decide as Hd; [|done]. subst j. destruct Hj as [Hj|Hj]; [|done].
           by apply not_elem_of_cons in Hj as [? _].
        -- destruct Hj as [Hj|Hj]; [left; by apply not_elem_of_cons in Hj as [_ ?]|right].
           rewrite Hp1. by case_decide.
Qed.
End register_facts.

(** The type tables. [init] succeeds, instead of panicking at start-up,
    exactly when the five action identifiers differ (three are the module's
    own, two come from the host chain), and then every registered identifier
    selects the unmarshaller registered for it. *)
Theorem init_spec
    `{HC : HyperConsts} {CO : Codec} {HA : HActions} {BC : BLSCrypto} {EC : ED25519Crypto}
    {TP : TypeParsers} {TPS : TypeParsersSpec} :
  ((exists t, init = Ok t) <-> NoDup [TransferID; MsgID; RollupRegisterID; EpochExitID; AuctionID]) /\
  (forall ar au, init = Ok (ar, au) ->
     (forall i u, (i, u) ∈ action_registrations -> LookupIndex ar i = Some u) /\
     (forall i u, (i, u) ∈ auth_registrations -> LookupIndex au i = Some u)).
Proof.
  unfold init.
  pose proof (register_all_spec action_registrations NewTypeParser) as Ha.
  pose proof (register_all_spec auth_registrations NewTypeParser) as Hb.
  destruct (register_all action_registrations NewTypeParser) as [ar errs1].
  destruct (register_all auth_registrations NewTypeParser) as [au errs2].
  destruct Ha as (Ha1 & Ha2 & _), Hb as (Hb1 & Hb2 & _).
  assert (errs2 = []) as ->.
  { apply Hb1. split; [|intros; apply NewTypeParser_lookup].
    change (NoDup [0; 1]). by apply (bool_decide_unpack _). }
  rewrite app_nil_r. split.
  - transitivity (errs1 = []).
    + split; [by destruct errs1; intros [? ?]|intros ->; by eexists].
    + rewrite Ha1. split; [by intros [? _]|]. intros Hnd. split; [done|].
      intros; apply NewTypeParser_lookup.
  - intros ar' au' Heq. destruct errs1; [|done]. injection Heq as <- <-.
    split; [by apply Ha2|by apply Hb2].
Qed.

(** ** Wire format of an action *)

Section wire_contract.
Context `{HC : HyperConsts} {CO : Codec} {HA : HActions} {CS : CodecSpec} {HS : HActionsSpec}.

(** The actions a packer carries without loss. *)
Definition Action_packable (a : Action) : Prop :=
  match a with
  | Act_Transfer t =>
      To t <> EmptyAddress /\ is_u64 (Value t) /\ Value t <> 0 /\
      Z.of_nat (length (Memo t)) <= MaxMemoSize
  | Act_SequencerMsg m =>
      FromAddress m <> EmptyAddress /\ Data m <> [] /\ ChainID m <> [] /\
      Z.of_nat (length (Data m)) < 4294967296 /\ Z.of_nat (length (ChainID m)) < 4294967296 /\
      0 <= RelayerID m < 2147483648
  | Act_RollupRegistration r =>
      RollupRegistration_wf r /\ Z.of_nat (length (rr_Namespace r)) < 4294967296 /\
      0 <= rr_OpCode r < 2147483648
  | Act_EpochExit e => EpochExit_wf e /\ ee_Epoch e <> 0 /\ 0 <= ee_OpCode e < 2147483648
  | Act_Auction a =>
      Auction_wf a /\ EpochNumber (auction_Info a) <> 0 /\ BidPrice (auction_Info a) <> 0 /\
      BuilderSEQAddress (auction_Info a) <> EmptyAddress /\
      (0 < length (BuilderPublicKey a) <= 48)%nat /\ (0 < length (BuilderSignature a) <= 96)%nat
  end.

Lemma as_iface_ok {A B} (inj : A -> B) (u : M Packer A) p a :
  snd (u p) = Ok a -> snd (as_iface inj u p) = Ok (inj a).
Proof. intros Hu. unfold as_iface, mbind, M_bind. destruct (u p) as [p' [x|e|q]]; simpl in *; congruence. Qed.
End wire_contract.

(** C39: Every action survives the wire. A packable action of any type,
    marshalled into a packer with room, is the action that the unmarshaller
    registered under its type identifier reads back from the bytes. *)
Theorem Action_roundtrip
    `{HC : HyperConsts} {CO : Codec} {HA : HActions} {SM : SafeMath} {BC : BLSCrypto} {EC : ED25519Crypto}
    {DE : DatabaseErrors} {SP : StatePermissions} {S : Type} {IM : Immutable S} {MU : Mutable S}
    {CS : CodecSpec} {HS : HActionsSpec} {TP : TypeParsers} {TPS : TypeParsersSpec}
    (a : Action) ar au (n l l' : Z) :
  Action_packable a -> init = Ok (ar, au) ->
  let w := fst (Marshal (S := S) a (NewWriter n l)) in
  Packer_Err w = None ->
  snd (ActionRegistry_Unmarshal ar (GetTypeID (S := S) a) (NewReader (Packer_Bytes w) l')) = Ok a.
Proof.
  intros Hp Hi w Hw.
  assert (forall i u, (i, u) ∈ action_registrations -> LookupIndex ar i = Some u) as Hreg.
  { unfold init in Hi.
    pose proof (register_all_spec action_registrations NewTypeParser) as Ha.
    destruct (register_all action_registrations NewTypeParser) as [ar' errs1].
    destruct (register_all auth_registrations NewTypeParser) as [au' errs2].
    destruct (errs1 ++ errs2) as [|] eqn:E; [|done]. injection Hi as <- _.
    apply app_eq_nil in E as [-> _]. by apply Ha. }
  unfold ActionRegistry_Unmarshal. destruct a as [x|x|x|x|x]; cbn [GetTypeID Action_action on_action].
  - erewrite Hreg by (left). apply as_iface_ok. destruct Hp as (? & ? & ? & ?). by eapply Transfer_roundtrip.
  - erewrite Hreg by (right; left). apply as_iface_ok. destruct Hp as (? & ? & ? & ? & ? & ?).
    by eapply SequencerMsg_roundtrip.
  - erewrite Hreg by (right; right; left). apply as_iface_ok. destruct Hp as (? & ? & ?).
    by eapply RollupRegistration_roundtrip.
  - erewrite Hreg by (right; right; right; left). apply as_iface_ok. destruct Hp as (? & ? & ?).
    by eapply EpochExit_roundtrip.
  - erewrite Hreg by (right; right; right; right; left). apply as_iface_ok.
    destruct Hp as (? & ? & ? & ? & ? & ?). by eapply Auction_roundtrip.
Qed.

(** C14: Actions stay within their declaration. Whatever its outcome, an action
    of any type changes only keys listed by its [StateKeys], which is what lets
    the host run transactions with disjoint keys in parallel, and it never
    changes the rights of the transaction. *)
Theorem actions_stay_within_StateKeys
    `{HC : HyperConsts} {HCS : HyperConstsSpec} {CO : Codec} {HA : HActions}
    {SM : SafeMath} {SMS : SafeMathSpec} {BC : BLSCrypto} {BS : BLSCryptoSpec}
    {DE : DatabaseErrors} {DES : DatabaseErrorsSpec} {CS : CodecSpec} {HS : HActionsSpec}
    {SP : StatePermissions} {SPS : StatePermissionsSpec}
    {S : Type} {IM : Immutable S} {MU : Mutable S} {MS : MutableSpec S}
    (rules : Rules) (t h : Z) (actor : Address) (id : ID) (a : Action) (s : S) :
  wp (Action_Execute rules t h actor id) (s, a) (fun '(s', _) _ =>
    scope s' = scope s /\
    forall k, StateKeys (S := S) a actor id !! k = None -> view s' !! k = view s !! k).
Proof.
  pose proof (Execute_frame (A := Action) rules t h actor id a s) as Hf.
  cbn [Execute Action_action] in Hf. unfold wp in *.
  destruct (Action_Execute rules t h actor id (s, a)) as [[s' a'] o]. destruct Hf as [Hs Hv].
  split; [done|]. intros k Hk. apply Hv. rewrite Hk. by intros [? ?].
Qed.
