(* ===== verification/StateManager.v ===== *)
(** * StateManager: what the host chain asks of the virtual machine's state

    [src/controller/state_manager.go]: the keys of the host's own data, and the
    payment of fees by a sponsor. *)

From stdpp Require Import base numbers countable gmap list strings.
From Stdlib Require Import ZArith Lia Strings.Byte.
From S2P Require Import Prelude HyperSDK State Wire Sample Storage Ledger Genesis Actions ChainInv.

Local Open Scope Z_scope.

Definition sm_HeightKey : bytes := HeightKey.
Definition sm_TimestampKey : bytes := TimestampKey.
Definition sm_FeeKey : bytes := FeeKey.
Definition sm_FeeMarketKey : bytes := FeeMarketKey.

Section state_manager.
Context `{HC : HyperConsts} {SM : SafeMath} {DE : DatabaseErrors} {SP : StatePermissions}.
Context {S : Type} {IM : Immutable S} {MU : Mutable S}.

Definition SponsorStateKeys (addr : Address) : Keys :=
  keys_literal [(BalanceKey addr, perm_or Read Write)].

Definition CanDeduct (addr : Address) (im : S) (amount : Z) : res unit :=
  bal ← GetBalance im addr;
  if bal <? amount then Err ErrInvalidBalance else Ok tt.

Definition Deduct (addr : Address) (amount : Z) : M S unit := SubBalance addr amount.
End state_manager.

(** ** Fees *)

(** C16: [CanDeduct] promises what [Deduct] does. With the sponsor's declared
    rights, [CanDeduct] says yes exactly when the balance covers the amount;
    then [Deduct] succeeds, takes exactly the amount from the sponsor and from
    the supply, and changes no other key; otherwise [Deduct] fails with the
    invalid balance error and changes nothing. *)
Theorem CanDeduct_Deduct
    `{HC : HyperConsts} {HCS : HyperConstsSpec} {SM : SafeMath} {SMS : SafeMathSpec}
    {DE : DatabaseErrors} {DES : DatabaseErrorsSpec} {SP : StatePermissions} {SPS : StatePermissionsSpec}
    {S : Type} {IM : Immutable S} {MU : Mutable S} {MS : MutableSpec S}
    (s : S) (addr : Address) (amount : Z) :
  ledger_wf (view s) -> is_u64 amount -> declares s (SponsorStateKeys addr) ->
  (CanDeduct addr s amount = Ok tt <-> amount <= bal_at (view s) addr) /\
  wp (Deduct addr amount) s (fun s' o =>
    if amount <=? bal_at (view s) addr then
      o = Ok tt /\ bal_at (view s') addr = bal_at (view s) addr - amount /\
      total (view s') = total (view s) - amount /\ ledger_wf (view s') /\
      (forall k, k <> BalanceKey addr -> view s' !! k = view s !! k)
    else s' = s /\ exists e, o = Err e /\ errors_Is e ErrInvalidBalance = true).
Proof.
  intros Hw Ha Hd. unfold SponsorStateKeys in Hd. keys_simpl_in Hd.
  assert (can_debit s addr) as Hcan.
  { split; (eapply declares_insert; [exact Hd|]); [apply Has_or_l, Has_refl|apply Has_or_r, Has_refl]. }
  split.
  - unfold CanDeduct. rewrite GetBalance_view by (done || apply Hcan). rewrite bind_Ok.
    destruct (Z.ltb_spec (bal_at (view s) addr) amount); split; try done; lia.
  - destruct (Z.leb_spec amount (bal_at (view s) addr)) as [Hle|Hlt].
    + eapply wp_conseq; [by apply SubBalance_enough|]. intros s' o [-> [Hv _]].
      unfold is_u64 in Ha. rewrite Hv. split; [done|].
      rewrite bal_at_debit, total_debit by lia. split; [done|]. split; [done|].
      split; [by apply debit_wf|]. intros k Hk. by apply debit_lookup_ne.
    + eapply wp_conseq; [apply SubBalance_short; try done; apply Hcan|].
      intros s' o [[e [-> He]] ->]. split; [done|]. by exists e.
Qed.

(** The keys of the host are different from each other and from every key of
    the virtual machine, so its own writes never reach balances or the arcadia
    data. *)
Definition is_host_key (k : bytes) : Prop :=
  k = sm_HeightKey \/ k = sm_TimestampKey \/ k = sm_FeeKey \/ k = sm_FeeMarketKey.

Section host_keys.
Context `{HC : HyperConsts} {CO : Codec} {HA : HActions} {DE : DatabaseErrors}.
Context {CS : CodecSpec} {HS : HActionsSpec}.

Lemma is_host_key_other k : is_host_key k -> is_balance_key k = false.
Proof. by intros [->|[->|[->| ->]]]. Qed.

Lemma is_host_key_arcadia k k' : is_host_key k -> is_arcadia_key k' -> k <> k'.
Proof.
  intros Hh (b & rest & -> & Hb)%hactions_prefix ->.
  destruct Hh as [[= -> _]|[[= -> _]|[[= -> _]|[= -> _]]]]; apply Hb; by repeat constructor.
Qed.

Lemma host_write_inv v k b :
  is_host_key k -> chain_inv v -> chain_inv (<[k := b]> v) /\ total (<[k := b]> v) = total v.
Proof.
  intros Hk [Hw Hs [nss Hr]]. pose proof (is_host_key_other k Hk) as Ho.
  rewrite total_insert_other by done. split; [|done].
  split; [by apply insert_other_wf|by rewrite total_insert_other|].
  exists nss. eapply registry_inv_agree; [|exact Hr].
  intros k' Hk'. apply lookup_insert_ne. by apply is_host_key_arcadia.
Qed.
End host_keys.
