(* ===== verification/Chain.v ===== *)
(** * Chain: every state the chain can reach

    The host starts from the genesis allocations and changes the state in three
    ways: it executes an action (a failing action is rolled back by the host, so
    only successes count), it deducts a fee, and it writes its own keys. The
    invariant of [ChainInv] holds along every such history, by rule induction,
    using nothing of the actions but their contract. *)

From stdpp Require Import base numbers countable gmap list strings.
From Stdlib Require Import ZArith Lia Strings.Byte.
From S2P Require Import Prelude HyperSDK State Wire Sample Storage Ledger Genesis Auth Actions.
From S2P Require Import ChainInv Transfer SequencerMsg Auction EpochExit RollupRegister Registry.
From S2P Require Import StateManager.

Local Open Scope Z_scope.

Section chain.
Context `{HC : HyperConsts} {HCS : HyperConstsSpec} {CO : Codec} {HA : HActions}.
Context {SM : SafeMath} {SMS : SafeMathSpec}.
Context {DE : DatabaseErrors} {DES : DatabaseErrorsSpec} {CS : CodecSpec} {HS : HActionsSpec}.
Context {SP : StatePermissions}.
Context {S : Type} {IM : Immutable S} {MU : Mutable S} {MS : MutableSpec S}.
Context {A : Type} {CA : ChainAction S A} {CT : ChainActionSpec S A}.
Implicit Types (v : gmap bytes bytes).

(** [chain_step v fee v']: one change of the contents, burning [fee]. A step
    runs on a view of the contents with whatever rights. *)
Inductive chain_step v : Z -> gmap bytes bytes -> Prop :=
  | step_action rules t h actor id (a a' : A) (s s' : S) out :
      view s = v -> action_wf a -> is_u64 h -> epoch_length_ok rules ->
      Execute rules t h actor id (s, a) = ((s', a'), Ok out) ->
      chain_step v 0 (view s')
  | step_fee addr amount (s s' : S) :
      view s = v -> is_u64 amount -> Deduct addr amount s = (s', Ok tt) ->
      chain_step v amount (view s')
  | step_host k b : is_host_key k -> chain_step v 0 (<[k := b]> v).

(** [reachable v0 burned v]: [v] follows from [v0] in any number of steps that
    burned [burned] in total. *)
Inductive reachable v0 : Z -> gmap bytes bytes -> Prop :=
  | reach_start : reachable v0 0 v0
  | reach_step burned v fee v' :
      reachable v0 burned v -> chain_step v fee v' -> reachable v0 (burned + fee) v'.

Lemma fee_inv v addr n :
  chain_inv v -> 0 <= n <= bal_at v addr ->
  chain_inv (debit v addr n) /\ total (debit v addr n) = total v - n.
Proof.
  intros [Hw Hs [nss Hr]] Hn. rewrite total_debit by done. split; [|done].
  split; [by apply debit_wf|rewrite total_debit by done; lia|].
  exists nss. eapply registry_inv_agree; [apply debit_agree|exact Hr].
Qed.

Lemma chain_step_inv v fee v' :
  chain_inv v -> chain_step v fee v' -> chain_inv v' /\ total v' = total v - fee /\ 0 <= fee.
Proof.
  intros Hc Hst. destruct Hst as [rules t h actor id a a' s s' out Hv Hwf Hh Hep Hr
                                 |addr amount s s' Hv Hu Hr|k b Hk].
  - subst v. destruct (Execute_inv _ _ _ _ _ _ _ _ _ _ Hc Hwf Hh Hep Hr) as [Hc' Ht].
    split; [done|lia].
  - subst v. apply SubBalance_Ok_inv in Hr as [Hle [Hv _]]; [|apply Hc|done].
    unfold is_u64 in Hu. rewrite Hv.
    destruct (fee_inv (view s) addr amount Hc ltac:(lia)) as [Hc' Ht]. split; [done|lia].
  - destruct (host_write_inv v k b Hk Hc) as [Hc' Ht]. split; [done|lia].
Qed.

Lemma reachable_inv v0 burned v :
  chain_inv v0 -> reachable v0 burned v ->
  chain_inv v /\ total v + burned = total v0 /\ 0 <= burned.
Proof.
  intros Hc. induction 1 as [|burned v fee v' _ [IHc [IHt IHb]] Hst]; [split; [done|lia]|].
  destruct (chain_step_inv _ _ _ IHc Hst) as (Hc' & Ht' & Hf). split; [done|lia].
Qed.

(** A genesis state satisfies the invariant. *)
Lemma genesis_inv (v : gmap bytes bytes) :
  ledger_wf v -> total v < u64_mod -> (forall k, is_balance_key k = false -> v !! k = None) ->
  chain_inv v.
Proof.
  intros Hw Ht Hk. split; [done|done|]. exists []. apply registry_inv_empty.
  intros k Ha. by apply Hk, is_arcadia_key_other.
Qed.

Lemma Load_inv (bf : Z -> option error) (g : Genesis) (s s' : S) :
  view s = ∅ -> Forall alloc_u64 (CustomAllocations g) ->
  Load bf g s = (s', Ok tt) ->
  chain_inv (view s') /\ total (view s') <= sum_allocs (CustomAllocations g).
Proof.
  intros He Hl Hr. unfold Load in Hr. destruct (bf _); [done|].
  apply load_allocs_Ok in Hr as [Hsum (pl & Hpl & [Hv _])]; [|unfold is_u64, u64_mod; lia|done].
  pose proof (parsed_u64 _ _ Hpl Hl) as Hu. rewrite Hv, He.
  pose proof (apply_allocs_total pl ∅ Hu) as Ht.
  rewrite total_empty, (parsed_sum _ _ Hpl) in Ht. unfold is_u64 in Hsum.
  split; [|lia]. apply genesis_inv; [apply apply_allocs_wf, ledger_wf_empty|lia|].
  intros k Hk. by rewrite apply_allocs_other, lookup_empty.
Qed.
End chain.

(** ** Properties *)

(** C1: The invariant of the chain. In every state reachable from the genesis
    allocations by successful actions of any of the five types, fee payments
    and writes of the host: balances are well formed and their sum fits in a
    [uint64] (so no credit overflows), the registry lists exactly the
    namespaces that have an info, each info being the one of its namespace with
    consistent epochs, and the exits of every epoch are exits of registered
    rollups, at most one each. The supply is the genesis supply less the fees:
    no action creates or destroys value. *)
Theorem chain_invariant
    `{HC : HyperConsts} {HCS : HyperConstsSpec} {CO : Codec} {HA : HActions}
    {SM : SafeMath} {SMS : SafeMathSpec} {BC : BLSCrypto} {BS : BLSCryptoSpec}
    {DE : DatabaseErrors} {DES : DatabaseErrorsSpec} {CS : CodecSpec} {HS : HActionsSpec}
    {SP : StatePermissions} {SPS : StatePermissionsSpec}
    {S : Type} {IM : Immutable S} {MU : Mutable S} {MS : MutableSpec S}
    (bf : Z -> option error) (g : Genesis) (s0 s1 : S) (burned : Z) (v : gmap bytes bytes) :
  view s0 = ∅ -> Forall alloc_u64 (CustomAllocations g) ->
  Load bf g s0 = (s1, Ok tt) ->
  reachable (S := S) (A := Action) (view s1) burned v ->
  chain_inv v /\
  total v + burned = total (view s1) /\
  0 <= burned <= sum_allocs (CustomAllocations g).
Proof.
  intros He Hl Hr Hreach. destruct (Load_inv bf g s0 s1 He Hl Hr) as [Hc Ht].
  destruct (reachable_inv _ _ _ Hc Hreach) as (Hc' & Ht' & Hb).
  pose proof (total_nonneg v). split; [done|]. lia.
Qed.

(** C2: No action panics. In a reachable state, executing any action on any view
    of the contents, with any rights, returns a result or an error; the
    dereferences of rollup infos and exits that the code leaves unchecked are
    never of a nil pointer. *)
Theorem chain_actions_safe
    `{HC : HyperConsts} {HCS : HyperConstsSpec} {CO : Codec} {HA : HActions}
    {SM : SafeMath} {SMS : SafeMathSpec} {BC : BLSCrypto} {BS : BLSCryptoSpec}
    {DE : DatabaseErrors} {DES : DatabaseErrorsSpec} {CS : CodecSpec} {HS : HActionsSpec}
    {SP : StatePermissions} {SPS : StatePermissionsSpec}
    {S : Type} {IM : Immutable S} {MU : Mutable S} {MS : MutableSpec S}
    (bf : Z -> option error) (g : Genesis) (s0 s1 s : S) (burned : Z)
    (rules : Rules) (t h : Z) (actor : Address) (id : ID) (a : Action) :
  view s0 = ∅ -> Forall alloc_u64 (CustomAllocations g) ->
  Load bf g s0 = (s1, Ok tt) ->
  reachable (S := S) (A := Action) (view s1) burned (view s) ->
  Action_wf (S := S) a -> is_u64 h -> epoch_length_ok rules ->
  is_panic (snd (Action_Execute rules t h actor id (s, a))) = false.
Proof.
  intros He Hl Hr Hreach Hwf Hh Hep. destruct (Load_inv bf g s0 s1 He Hl Hr) as [Hc _].
  destruct (reachable_inv _ _ _ Hc Hreach) as (Hc' & _).
  exact (Execute_safe (A := Action) rules t h actor id a s Hc' Hwf Hh Hep).
Qed.
