(* ===== verification/WireTypes.v ===== *)
(** * WireTypes: what the wire can carry is well typed

    The actions a node executes come from bytes: [ActionRegistry_Unmarshal] of
    [src/registry/registry.go] chooses an unmarshaller by the type identifier.
    Whatever the bytes, the value it returns has the Go types of its fields,
    which is what the theorems on the chain assume of an action. *)

From stdpp Require Import base numbers countable gmap list strings.
From Stdlib Require Import ZArith Lia Strings.Byte.
From S2P Require Import Prelude HyperSDK State Wire Sample Storage Ledger Genesis Auth Actions.
From S2P Require Import ChainInv Transfer SequencerMsg Auction EpochExit RollupRegister Registry.
From S2P Require Import StateManager Chain.

Local Open Scope Z_scope.

(** ** Typed readers *)

Section typed.
Context `{HC : HyperConsts} {CO : Codec} {HA : HActions} {CS : CodecSpec} {HS : HActionsSpec}.
Context {CT : CodecTypes}.

(** From any packer, [u] returns a value in [P] or an error. *)
Definition typed {A} (P : A -> Prop) (u : M Packer A) : Prop := forall p,
  match snd (u p) with
  | Ok a => P a
  | Err _ => True
  | Panic _ => False
  end.

Lemma typed_bind {A B} (P : A -> Prop) (Q : B -> Prop) (u : M Packer A) (k : A -> M Packer B) :
  typed P u -> (forall a, P a -> typed Q (k a)) -> typed Q (u ≫= k).
Proof.
  intros Hu Hk p. specialize (Hu p). unfold mbind, M_bind.
  destruct (u p) as [p' [a|e|q]]; [by apply Hk|done|done].
Qed.

Lemma typed_ret {A} (P : A -> Prop) a : P a -> typed P (mret a).
Proof. by intros Ha p. Qed.
Lemma typed_ret_Err {A} (P : A -> Prop) a : P a -> typed P (ret_Err a).
Proof. intros Ha p. unfold ret_Err. by destruct (Packer_Err p). Qed.
Lemma typed_throw {A} (P : A -> Prop) e : typed P (throw e).
Proof. by intros p. Qed.
Lemma typed_unpacks {A} (P : A -> Prop) (f : Packer -> Packer * A) :
  (forall p, P (snd (f p))) -> typed P (unpacks f).
Proof. intros Hf p. specialize (Hf p). unfold unpacks. by destruct (f p). Qed.

Lemma typed_u64 r : typed is_u64 (UnpackUint64 r).
Proof. apply typed_unpacks, UnpackUint64_u64. Qed.
Lemma typed_int r : typed (fun _ => True) (UnpackInt r).
Proof. by apply typed_unpacks. Qed.
Lemma typed_address : typed (fun _ => True) UnpackAddress.
Proof. by apply typed_unpacks. Qed.
Lemma typed_bytes n r :
  typed (fun b => Z.of_nat (length b) < 4294967296 /\ (0 <= n -> Z.of_nat (length b) <= n)) (UnpackBytes n r).
Proof. apply typed_unpacks, UnpackBytes_len. Qed.
Lemma typed_RollupInfo : typed RollupInfo_encodable UnmarshalRollupInfo.
Proof. exact UnmarshalRollupInfo_typed. Qed.
Lemma typed_EpochInfo : typed EpochInfo_encodable UnmarshalEpochInfo.
Proof. exact UnmarshalEpochInfo_typed. Qed.
End typed.

Create HintDb typed.
#[export] Hint Resolve typed_u64 typed_int typed_address typed_bytes typed_RollupInfo typed_EpochInfo
  typed_throw : typed.

(** Field by field; what is left is what is said of the fields. *)
Ltac typed_steps :=
  repeat match goal with
  | |- typed _ (mbind _ _) => eapply typed_bind; [solve [eauto with typed]|intros ? ?; cbv beta in *]
  | |- typed _ (ret_Err _) => apply typed_ret_Err
  | |- typed _ (mret _) => apply typed_ret
  end.

Section actions.
Context `{HC : HyperConsts} {HCS : HyperConstsSpec} {CO : Codec} {HA : HActions}.
Context {SM : SafeMath} {SMS : SafeMathSpec} {BC : BLSCrypto} {BS : BLSCryptoSpec} {EC : ED25519Crypto}.
Context {DE : DatabaseErrors} {DES : DatabaseErrorsSpec} {CS : CodecSpec} {HS : HActionsSpec}.
Context {SP : StatePermissions} {SPS : StatePermissionsSpec} {CT : CodecTypes}.
Context {S : Type} {IM : Immutable S} {MU : Mutable S} {MS : MutableSpec S}.
Context {TP : TypeParsers} {TPS : TypeParsersSpec}.

Lemma typed_Transfer :
  typed (fun t => Transfer_wf t /\ Z.of_nat (length (Memo t)) <= MaxMemoSize) UnmarshalTransfer.
Proof.
  unfold UnmarshalTransfer. typed_steps. cbn [Memo].
  match goal with Hm : _ /\ (0 <= MaxMemoSize -> _) |- _ => destruct Hm as [H1 H2] end.
  split; [by split|]. by apply H2.
Qed.

Lemma typed_SequencerMsg : typed (fun _ => True) UnmarshalSequencerMsg.
Proof. unfold UnmarshalSequencerMsg. by typed_steps. Qed.

Lemma typed_RollupRegister : typed RollupRegistration_wf UnmarshalRollupRegister.
Proof. unfold UnmarshalRollupRegister. by typed_steps. Qed.

Lemma typed_EpochExit : typed EpochExit_wf UnmarshalEpochExit.
Proof. unfold UnmarshalEpochExit. by typed_steps. Qed.

Lemma typed_AuctionInfo :
  typed (fun i => is_u64 (EpochNumber i) /\ is_u64 (BidPrice i)) UnmarshalAuctionInfo.
Proof. unfold UnmarshalAuctionInfo. by typed_steps. Qed.

Lemma typed_Auction :
  typed (fun a => Auction_wf a /\ (length (BuilderPublicKey a) <= 48)%nat /\
                  (length (BuilderSignature a) <= 96)%nat) UnmarshalAuction.
Proof.
  unfold UnmarshalAuction. eapply typed_bind; [apply typed_AuctionInfo|intros i Hi].
  eapply typed_bind; [apply typed_bytes|intros pk [_ Hpk]].
  eapply typed_bind; [apply typed_bytes|intros sig [_ Hsig]].
  apply typed_ret_Err. split; [exact Hi|]. cbn [BuilderPublicKey BuilderSignature]. lia.
Qed.

(** The limits the unmarshallers set on variable-length fields. *)
Definition Action_limits (a : Action) : Prop :=
  match a with
  | Act_Transfer t => Z.of_nat (length (Memo t)) <= MaxMemoSize
  | Act_Auction a => (length (BuilderPublicKey a) <= 48)%nat /\ (length (BuilderSignature a) <= 96)%nat
  | _ => True
  end.

Definition Action_read (typeID : Z) (a : Action) : Prop :=
  Action_wf (S := S) a /\ Action_limits a /\ GetTypeID (S := S) a = typeID.

Lemma typed_iface {A} (inj : A -> Action) (P : A -> Prop) typeID (u : M Packer A) :
  typed P u -> (forall a, P a -> Action_read typeID (inj a)) -> typed (Action_read typeID) (as_iface inj u).
Proof. intros Hu Hinj. eapply typed_bind; [exact Hu|]. intros a Ha. by apply typed_ret, Hinj. Qed.

Lemma registrations_typed : Forall (fun iu => typed (Action_read iu.1) iu.2) action_registrations.
Proof.
  unfold action_registrations. repeat (apply Forall_cons; split); [..|by apply Forall_nil]; cbn [fst snd].
  - eapply typed_iface; [apply typed_Transfer|]. by intros t [Hw Hm].
  - eapply typed_iface; [apply typed_SequencerMsg|]. by intros m _.
  - eapply typed_iface; [apply typed_RollupRegister|]. by intros r Hr.
  - eapply typed_iface; [apply typed_EpochExit|]. by intros e He.
  - eapply typed_iface; [apply typed_Auction|]. by intros a (Hw & Hl).
Qed.

Lemma typed_Unmarshal ar au typeID :
  init = Ok (ar, au) -> typed (Action_read typeID) (ActionRegistry_Unmarshal ar typeID).
Proof.
  intros Hi. unfold ActionRegistry_Unmarshal, init in *.
  pose proof (register_all_spec action_registrations NewTypeParser) as Ha.
  destruct (register_all action_registrations NewTypeParser) as [ar' errs1].
  destruct (register_all auth_registrations NewTypeParser) as [au' errs2].
  destruct (errs1 ++ errs2) as [|] eqn:E; [|done]. injection Hi as <- _.
  apply app_eq_nil in E as [-> _]. destruct Ha as (_ & Hreg & Hother). specialize (Hreg eq_refl).
  destruct (decide (typeID ∈ action_registrations.*1)) as [Hin|Hn].
  - apply list_elem_of_fmap in Hin as ([i u] & -> & Hin). cbn [fst]. rewrite (Hreg _ _ Hin).
    pose proof registrations_typed as Hall. rewrite Forall_forall in Hall. apply (Hall _ Hin).
  - rewrite Hother, NewTypeParser_lookup by (by left). apply typed_throw.
Qed.
End actions.

(** ** Properties *)

(** C19: The wire carries only well-typed actions. Whatever the bytes and the type
    identifier, the tables [init] set up give an error or an action of the type
    with that identifier whose fields are in the ranges of their Go types and
    within the limits of the unmarshallers; they never panic. On any state the
    chain can reach, executing such an action does not panic and a success keeps
    the invariant of the chain and the supply: no assumption on actions is left. *)
Theorem Unmarshal_typed
    `{HC : HyperConsts} {HCS : HyperConstsSpec} {CO : Codec} {HA : HActions}
    {SM : SafeMath} {SMS : SafeMathSpec} {BC : BLSCrypto} {BS : BLSCryptoSpec} {EC : ED25519Crypto}
    {DE : DatabaseErrors} {DES : DatabaseErrorsSpec} {CS : CodecSpec} {HS : HActionsSpec}
    {SP : StatePermissions} {SPS : StatePermissionsSpec} {CT : CodecTypes}
    {S : Type} {IM : Immutable S} {MU : Mutable S} {MS : MutableSpec S}
    {TP : TypeParsers} {TPS : TypeParsersSpec}
    ar au (typeID l : Z) (raw : bytes) :
  init = Ok (ar, au) ->
  match snd (ActionRegistry_Unmarshal ar typeID (NewReader raw l)) with
  | Ok a =>
      Action_wf (S := S) a /\ Action_limits a /\ GetTypeID (S := S) a = typeID /\
      forall rules t h actor id (s : S),
        chain_inv (view s) -> is_u64 h -> epoch_length_ok rules ->
        wp (Action_Execute rules t h actor id) (s, a) (fun '(s', _) o =>
          match o with
          | Ok _ => chain_inv (view s') /\ total (view s') = total (view s)
          | Err _ => True
          | Panic _ => False
          end)
  | Err _ => True
  | Panic _ => False
  end.
Proof.
  intros Hi. pose proof (typed_Unmarshal (S := S) ar au typeID Hi (NewReader raw l)) as Ht.
  destruct (snd (ActionRegistry_Unmarshal ar typeID (NewReader raw l))) as [a|e|p]; [|done..].
  destruct Ht as (Hw & Hl & Hid). split; [done|]. split; [done|]. split; [done|].
  intros rules t h actor id s Hc Hh Hep.
  pose proof (Execute_safe (A := Action) rules t h actor id a s Hc) as Hsafe. specialize (Hsafe Hw Hh Hep).
  cbn [Execute Action_action] in Hsafe. apply wp_intro. intros [s' a'] o Hr. rewrite Hr in Hsafe.
  destruct o as [out|e|p]; [|done|done].
  pose proof (Execute_inv (A := Action) rules t h actor id a a' s s' out Hc) as Hx.
  by apply (Hx Hw Hh Hep).
Qed.
