(* ===== verification/Parallel.v ===== *)
(** * Parallel: what an execution depends on

    The host runs transactions with disjoint state keys in parallel, on the
    values it fetched of the declared keys, and keeps the result as if they ran
    in order. That is sound for code whose outcome depends only on the keys it
    declares, with the rights it declares for them, and which changes only keys
    it declares to write. [local] says so of a computation, relative to the
    keys it may rely on; the repository's accessors are shown to be local to
    the keys they use, and every action to what its [StateKeys] lists. *)

From stdpp Require Import base numbers countable gmap list strings.
From Stdlib Require Import ZArith Lia Strings.Byte.
From S2P Require Import Prelude HyperSDK State Wire Storage Ledger Genesis Auth Actions ChainInv.
From S2P Require Import Transfer SequencerMsg Auction EpochExit RollupRegister Registry.

Local Open Scope Z_scope.

(** Two outcomes that a caller cannot tell apart: errors are not compared. *)
Definition same_outcome {A} (r1 r2 : res A) : Prop :=
  match r1, r2 with
  | Ok a, Ok b => a = b
  | Err _, Err _ => True
  | Panic p, Panic q => p = q
  | _, _ => False
  end.

Lemma same_outcome_refl {A} (r : res A) : same_outcome r r.
Proof. by destruct r. Qed.

Section local.
Context `{DE : DatabaseErrors} `{SP : StatePermissions} {S : Type} `{MU : Mutable S}.
Context {MS : MutableSpec S}.
Context (K : Keys).
Implicit Types (s : S) (k : bytes).

(** The declaration [K] gives the right [q] on the key. *)
Definition grants k (q : Permissions) : Prop := exists p, K !! k = Some p /\ perm_Has p q = true.

(** The declared keys, and those declared with a right to change them. *)
Definition declared k : Prop := is_Some (K !! k).
Definition may_write k : bool :=
  match K !! k with Some p => perm_Has p Write || perm_Has p Allocate | None => false end.

(** Two states with at least the declared rights and the same values under the
    declared keys. They may differ in anything else. *)
Definition agree s1 s2 : Prop :=
  declares s1 K /\ declares s2 K /\ forall k, declared k -> view s1 !! k = view s2 !! k.

Definition within s s' : Prop := touches (fun k => may_write k = true) s s'.

Lemma grants_declared k q : grants k q -> declared k.
Proof. intros (p & Hp & _). by exists p. Qed.

Lemma grants_can s k q : declares s K -> grants k q -> can s k q.
Proof. intros Hd (p & Hp & Hq). by apply (Hd k p q). Qed.

Lemma grants_may_write k : grants k Write \/ grants k Allocate -> may_write k = true.
Proof.
  unfold may_write. intros [(p & -> & Hq)|(p & -> & Hq)]; rewrite Hq; [done|apply orb_true_r].
Qed.

Lemma declares_scope s s' (ks : Keys) : scope s' = scope s -> declares s ks -> declares s' ks.
Proof. intros Hs Hd k p q Hp Hq. unfold can. rewrite Hs. by apply (Hd k p q). Qed.

Lemma within_refl s : within s s.
Proof. done. Qed.

Lemma within_trans s1 s2 s3 : within s1 s2 -> within s2 s3 -> within s1 s3.
Proof. apply touches_trans. Qed.

Lemma agree_sym s1 s2 : agree s1 s2 -> agree s2 s1.
Proof. intros (H1 & H2 & Hv). split_and!; [done|done|]. intros k Hk. by rewrite Hv. Qed.

Lemma GetValue_agree s1 s2 k : agree s1 s2 -> grants k Read -> GetValue s1 k = GetValue s2 k.
Proof.
  intros (H1 & H2 & Hv) Hg. rewrite !GetValue_view by (by eapply grants_can).
  unfold view_get. by rewrite (Hv k) by (by eapply grants_declared).
Qed.

(** *** Two computations related on a state that contains a store *)

Section related.
Context {T : Type} (store : T -> S) (rest : T -> T -> Prop).
Implicit Types (t : T).

Definition related t1 t2 : Prop := agree (store t1) (store t2) /\ rest t1 t2.

Definition sim {A} (m1 m2 : M T A) : Prop := forall t1 t2, related t1 t2 ->
  same_outcome (snd (m1 t1)) (snd (m2 t2)) /\ related (fst (m1 t1)) (fst (m2 t2)) /\
  within (store t1) (store (fst (m1 t1))).

Lemma sim_ret {A} (a : A) : sim (mret a) (mret a).
Proof. by intros t1 t2 Ht. Qed.
Lemma sim_lift {A} (r : res A) : sim (lift r) (lift r).
Proof. intros t1 t2 Ht. by split; [apply same_outcome_refl|]. Qed.
Lemma sim_throw {A} e : sim (throw (A := A) e) (throw e).
Proof. by intros t1 t2 Ht. Qed.
Lemma sim_panic {A} p : sim (gopanic (A := A) p) (gopanic p).
Proof. by intros t1 t2 Ht. Qed.

Lemma sim_bind {A B} (m1 m2 : M T A) (k1 k2 : A -> M T B) :
  sim m1 m2 -> (forall a, sim (k1 a) (k2 a)) -> sim (m1 ≫= k1) (m2 ≫= k2).
Proof.
  intros Hm Hk t1 t2 Ht. destruct (Hm t1 t2 Ht) as (Ho & Hr & Hw). unfold mbind, M_bind.
  destruct (m1 t1) as [t1' [a|e|p]], (m2 t2) as [t2' [b|e'|p']]; cbn in *; try done.
  subst b. destruct (Hk a t1' t2' Hr) as (Ho' & Hr' & Hw'). split_and!; [done|done|].
  by eapply within_trans.
Qed.

(** A result computed from what was read. *)
Lemma sim_bind_lift {A B} (r : res A) (k1 k2 : A -> M T B) :
  (forall a, r = Ok a -> sim (k1 a) (k2 a)) -> sim (lift r ≫= k1) (lift r ≫= k2).
Proof.
  intros Hk. destruct r as [a|e|p]; [|by intros t1 t2 Ht..].
  intros t1 t2 Ht. rewrite !bind_lift_Ok. by apply Hk.
Qed.

(** The state that was read: a copy of the related states. *)
Lemma sim_get {B} (k1 k2 : T -> M T B) :
  (forall u1 u2, related u1 u2 -> sim (k1 u1) (k2 u2)) -> sim (get ≫= k1) (get ≫= k2).
Proof. intros Hk t1 t2 Ht. rewrite !bind_get. by apply Hk. Qed.

Lemma sim_wrap {A} f g (m1 m2 : M T A) : sim m1 m2 -> sim (wrap_err f m1) (wrap_err g m2).
Proof.
  intros Hm t1 t2 Ht. destruct (Hm t1 t2 Ht) as (Ho & Hr & Hw). unfold wrap_err.
  by destruct (m1 t1) as [t1' [a|e|p]], (m2 t2) as [t2' [b|e'|p']].
Qed.

Lemma sim_modify f :
  (forall t, store (f t) = store t) -> (forall t1 t2, rest t1 t2 -> rest (f t1) (f t2)) ->
  sim (modify f) (modify f).
Proof.
  intros Hs Hr t1 t2 [Ha Ht]. unfold modify, related. cbn. rewrite !Hs. by split_and!; [|auto..].
Qed.
End related.


(** *** On the state itself *)

Definition local {A} (m : M S A) : Prop := sim (fun s => s) (fun _ _ => True) m m.

(** [m] run from two related states. *)
Definition local_at {A} (m : M S A) s1 s2 : Prop :=
  same_outcome (snd (m s1)) (snd (m s2)) /\ agree (fst (m s1)) (fst (m s2)) /\
  within s1 (fst (m s1)).

Lemma local_from {A} (m : M S A) : (forall s1 s2, agree s1 s2 -> local_at m s1 s2) -> local m.
Proof. intros Hm s1 s2 [Ha _]. destruct (Hm s1 s2 Ha) as (Ho & Hr & Hw). by split_and!. Qed.

Lemma local_run {A} (m : M S A) s1 s2 : local m -> agree s1 s2 -> local_at m s1 s2.
Proof. intros Hm Ha. destruct (Hm s1 s2) as (Ho & [Hr _] & Hw); by split_and!. Qed.

Lemma agree_updated s1 s2 s1' s2' f :
  agree s1 s2 -> updated s1 s1' (f (view s1)) -> updated s2 s2' (f (view s2)) ->
  (forall k, declared k -> f (view s1) !! k = f (view s2) !! k) -> agree s1' s2'.
Proof.
  intros (H1 & H2 & _) [Hv1 Hs1] [Hv2 Hs2] Hf. split_and!; [by eapply declares_scope..|].
  intros k Hk. rewrite Hv1, Hv2. by apply Hf.
Qed.

(** What an insertion needs: [Write] where there is a value, [Allocate] where
    there is none. *)
Lemma local_at_insert s1 s2 k v :
  agree s1 s2 -> declared k ->
  (is_Some (view s1 !! k) -> grants k Write) -> (view s1 !! k = None -> grants k Allocate) ->
  local_at (Insert k v) s1 s2.
Proof.
  intros Ha Hk Hw Hal. pose proof Ha as (H1 & H2 & Hv).
  assert (forall s, declares s K -> view s !! k = view s1 !! k -> permitted_insert s k v = ValueFits k v) as Hp.
  { intros s Hd Hs. unfold permitted_insert. rewrite Hs.
    destruct (view s1 !! k); rewrite (grants_can s k _ Hd) by eauto; apply andb_true_r. }
  pose proof (Hp s1 H1 eq_refl) as Hp1. pose proof (Hp s2 H2 (eq_sym (Hv k Hk))) as Hp2.
  unfold local_at. destruct (ValueFits k v).
  - pose proof (Insert_ok s1 k v Hp1) as (-> & U1). pose proof (Insert_ok s2 k v Hp2) as (-> & U2).
    split_and!; [done| |].
    + eapply (agree_updated s1 s2 _ _ (fun w => <[k := v]> w)); [done..|]. intros k' Hk'.
      rewrite !lookup_insert. case_decide; [done|]. by apply Hv.
    + split; [apply U1|]. intros k' Hk'. rewrite (proj1 U1), lookup_insert_ne; [done|].
      intros ->. apply Hk', grants_may_write. destruct (view s1 !! k') eqn:E; eauto.
  - pose proof (Insert_denied s1 k v Hp1) as ([e1 ->] & ->).
    pose proof (Insert_denied s2 k v Hp2) as ([e2 ->] & ->). by split_and!.
Qed.

Lemma local_insert k v : grants k Write -> grants k Allocate -> local (Insert k v).
Proof.
  intros Hw Ha. apply local_from. intros s1 s2 Hs.
  apply local_at_insert; [done|by eapply grants_declared|done..].
Qed.

Lemma local_remove k : grants k Write -> local (Remove k).
Proof.
  intros Hg. apply local_from. intros s1 s2 Ha. pose proof Ha as (H1 & H2 & Hv).
  pose proof (Remove_ok s1 k (grants_can _ _ _ H1 Hg)) as (E1 & U1).
  pose proof (Remove_ok s2 k (grants_can _ _ _ H2 Hg)) as (E2 & U2).
  unfold local_at. rewrite E1, E2. split_and!; [done| |].
  - eapply (agree_updated s1 s2 _ _ (fun w => delete k w)); [done..|]. intros k' Hk'.
    rewrite !lookup_delete. case_decide; [done|]. by apply Hv.
  - split; [apply U1|]. intros k' Hk'. rewrite (proj1 U1), lookup_delete_ne; [done|].
    intros ->. apply Hk', grants_may_write. by left.
Qed.

Lemma local_wrap {A} f (m : M S A) : local m -> local (wrap_err f m).
Proof. apply sim_wrap. Qed.

(** The state of an action next to its receiver. *)
Definition with_receiver {A X} (Q : A -> Prop) (m1 m2 : M (S * A) X) : Prop :=
  sim fst (fun t1 t2 => snd t1 = snd t2 /\ Q (snd t1)) m1 m2.

Lemma local_on_state {A X} Q (m : M S X) : local m -> with_receiver (A := A) Q (on_state m) (on_state m).
Proof.
  intros Hm [s1 a1] [s2 a2] [Ha Hr]. rewrite !on_state_run. cbn in *.
  destruct (Hm s1 s2) as (Ho & [Hr' _] & Hw); [done|]. by split_and!.
Qed.

(** An action from two related states: its outcome, its receiver, its writes. *)
Definition execute_local {A} (m : M (S * A) (list bytes)) (a : A) : Prop :=
  forall s1 s2, agree s1 s2 ->
  same_outcome (snd (m (s1, a))) (snd (m (s2, a))) /\ snd (fst (m (s1, a))) = snd (fst (m (s2, a))) /\
  agree (fst (fst (m (s1, a)))) (fst (fst (m (s2, a)))) /\ within s1 (fst (fst (m (s1, a)))).

Lemma execute_local_receiver {A} (Q : A -> Prop) (m : M (S * A) (list bytes)) a :
  Q a -> with_receiver Q m m -> execute_local m a.
Proof.
  intros Hq Hm s1 s2 Ha. destruct (Hm (s1, a) (s2, a)) as (Ho & [Hr [He _]] & Hw); [done|]. by split_and!.
Qed.

(** An action whose execution only reads its receiver. *)
Lemma execute_local_method {A} (m : A -> M S (list bytes)) a :
  local (m a) -> execute_local (fun sa => on_state (m (snd sa)) sa) a.
Proof.
  intros Hm s1 s2 Ha. destruct (Hm s1 s2) as (Ho & [Hr _] & Hw); [done|].
  cbn [snd]. rewrite !on_state_run. by split_and!.
Qed.
End local.

Create HintDb local.
#[export] Hint Resolve sim_ret sim_lift sim_throw sim_panic local_insert local_remove local_wrap : local.

(** Follow the structure of two computations that are the same. *)
Ltac sim_steps :=
  repeat (first
    [ solve [auto with local]
    | match goal with
      | |- sim ?K _ _ ?m ?m => change (local K m); solve [auto with local]
      | |- sim _ _ _ (on_state _) (on_state _) => apply local_on_state
      | |- sim _ _ _ (mbind _ _) (mbind _ _) => apply sim_bind; [|intros ?]
      | |- sim _ _ _ (wrap_err _ _) (wrap_err _ _) => apply sim_wrap
      | |- sim _ _ _ (if ?b then _ else _) _ => destruct b
      | |- sim _ _ _ (match ?x with _ => _ end) _ => destruct x
      end ]).

(** ** The accessors, local to the keys they use *)

Section accessors.
Context `{HC : HyperConsts} {HCS : HyperConstsSpec} {CO : Codec} {HA : HActions}.
Context {SM : SafeMath} {SMS : SafeMathSpec} {DE : DatabaseErrors} {DES : DatabaseErrorsSpec}.
Context {SP : StatePermissions} {SPS : StatePermissionsSpec}.
Context {S : Type} {IM : Immutable S} {MU : Mutable S} {MS : MutableSpec S}.
Context (K : Keys).
Implicit Types (s : S).

Lemma getBalance_agree s1 s2 a :
  agree K s1 s2 -> grants K (BalanceKey a) Read -> getBalance s1 a = getBalance s2 a.
Proof. intros Ha Hg. unfold getBalance. by rewrite (GetValue_agree K s1 s2). Qed.

Lemma GetRollupInfo_agree s1 s2 ns :
  agree K s1 s2 -> grants K (RollupInfoKey ns) Read -> GetRollupInfo s1 ns = GetRollupInfo s2 ns.
Proof. intros Ha Hg. unfold GetRollupInfo. by rewrite (GetValue_agree K s1 s2). Qed.

Lemma GetRollupRegistry_agree s1 s2 :
  agree K s1 s2 -> grants K RollupRegistryKey Read -> GetRollupRegistry s1 = GetRollupRegistry s2.
Proof. intros Ha Hg. unfold GetRollupRegistry. by rewrite (GetValue_agree K s1 s2). Qed.

Lemma GetEpochExits_agree s1 s2 e :
  agree K s1 s2 -> grants K (EpochExitsKey e) Read -> GetEpochExits s1 e = GetEpochExits s2 e.
Proof. intros Ha Hg. unfold GetEpochExits, getEpochExits. by rewrite (GetValue_agree K s1 s2). Qed.

Lemma authorizationChecks_agree s1 s2 actor nss ns :
  agree K s1 s2 -> grants K (RollupInfoKey ns) Read ->
  authorizationChecks actor nss ns s1 = authorizationChecks actor nss ns s2.
Proof. intros Ha Hg. unfold authorizationChecks. by rewrite (GetRollupInfo_agree s1 s2). Qed.

(** A balance is a [uint64], and one above zero is that of a record. *)
Lemma getBalance_Ok s a k bal ex :
  getBalance s a = Ok (k, bal, ex) ->
  k = BalanceKey a /\ is_u64 bal /\ (bal = 0 \/ is_Some (view s !! BalanceKey a)).
Proof.
  intros Hg. split; [by eapply getBalance_key|]. unfold getBalance in Hg.
  apply res_bind_Ok_inv in Hg as ([b x] & Hg & [= <- <- <-]).
  assert (forall e, innerGetBalance (Err e) = Ok (b, x) -> is_u64 b /\ b = 0) as Hz.
  { intros e. unfold innerGetBalance. destruct (errors_Is _ _); [|done]. by intros [= <- <-]. }
  rewrite GetValue_spec in Hg. destruct (perm_Has _ _); [|destruct (Hz _ Hg); eauto].
  destruct (view s !! BalanceKey a) as [v|]; [|destruct (Hz _ Hg); eauto].
  split; [|by right]. cbn [innerGetBalance] in Hg. apply res_bind_Ok_inv in Hg as (b' & Hu & [= <- <-]).
  unfold Uint64 in Hu. destruct (_ <=? _)%nat; [|done]. injection Hu as <-. apply be_dec_take8_bound.
Qed.

(** A debit needs no right to allocate: it only overwrites or removes. *)
Lemma local_SubBalance a n :
  is_u64 n -> grants K (BalanceKey a) Read -> grants K (BalanceKey a) Write ->
  local (S := S) K (SubBalance a n).
Proof.
  intros Hn Hr Hw. apply local_from. intros s1 s2 Ha. unfold local_at, SubBalance. rewrite !bind_get.
  rewrite <- (getBalance_agree s1 s2) by done.
  destruct (getBalance s1 a) as [[[k bal] ex]|e|p] eqn:Eg; [|by split_and!..].
  apply getBalance_Ok in Eg as (-> & Hb & Hex). rewrite !bind_lift_Ok.
  rewrite Sub64_spec by done. destruct (Z.leb_spec n bal) as [Hle|]; cbn [map_err]; [|by split_and!].
  rewrite !bind_lift_Ok.
  destruct (Z.eqb_spec (bal - n) 0) as [|Hnz]; [by apply local_run; [apply local_remove|]|].
  destruct Hex as [->|[v Hv]]; [unfold is_u64 in *; lia|].
  apply local_at_insert; [done|by eapply grants_declared|done|congruence].
Qed.

Definition grants_all k : Prop := grants K k Read /\ grants K k Write /\ grants K k Allocate.

Lemma local_AddBalance a n c : grants_all (BalanceKey a) -> local (S := S) K (AddBalance a n c).
Proof.
  intros (Hr & Hw & Hal). apply sim_get. intros u1 u2 [Ha _]. rewrite (getBalance_agree u1 u2) by done.
  apply sim_bind_lift. intros [[k bal] ex] Hg. apply getBalance_key in Hg as ->.
  unfold setBalance. sim_steps.
Qed.

Lemma local_SetRollupInfo ns i :
  grants K (RollupInfoKey ns) Write -> grants K (RollupInfoKey ns) Allocate ->
  local (S := S) K (SetRollupInfo ns i).
Proof. intros. unfold local, SetRollupInfo. sim_steps. Qed.

Lemma local_SetRollupRegistry l :
  grants K RollupRegistryKey Write -> grants K RollupRegistryKey Allocate ->
  local (S := S) K (SetRollupRegistry l).
Proof. intros. unfold local, SetRollupRegistry. sim_steps. Qed.

Lemma local_SetEpochExits e i :
  grants K (EpochExitsKey e) Write -> grants K (EpochExitsKey e) Allocate ->
  local (S := S) K (SetEpochExits e i).
Proof. intros. unfold local, SetEpochExits, setEpochExits. sim_steps. Qed.

Lemma local_StoreArcadiaBidInfo e p k g :
  grants K (ArcadiaBidKey e) Write -> grants K (ArcadiaBidKey e) Allocate ->
  local (S := S) K (StoreArcadiaBidInfo e p k g).
Proof. intros. unfold local, StoreArcadiaBidInfo. sim_steps. Qed.
End accessors.

#[export] Hint Resolve local_SubBalance local_AddBalance local_SetRollupInfo local_SetRollupRegistry
  local_SetEpochExits local_StoreArcadiaBidInfo : local.

(** ** The actions, local to the keys they declare *)

Section rights.
Context `{SP : StatePermissions} {SPS : StatePermissionsSpec}.

Lemma grants_insert (ks : Keys) k p q : perm_Has p q = true -> grants (<[k := p]> ks) k q.
Proof. intros Hq. exists p. by rewrite lookup_insert_eq. Qed.

(** Under a later entry of a literal: for another key, or with no less. *)
Lemma grants_below (ks : Keys) k p k' q :
  grants ks k' q -> k' <> k \/ perm_Has p q = true -> grants (<[k := p]> ks) k' q.
Proof.
  intros Hg Hor. destruct (decide (k' = k)) as [->|Hne].
  - destruct Hor as [|Hp]; [done|]. by apply grants_insert.
  - destruct Hg as (p' & Hp & Hq). exists p'. by rewrite lookup_insert_ne.
Qed.
End rights.

#[export] Hint Resolve grants_insert Has_All Has_refl : local.

(** What the host needs of an action. *)
Class ChainActionLocal {HC : HyperConsts} {CO : Codec} {HA : HActions} {DE : DatabaseErrors}
    {SP : StatePermissions} (S : Type) {IM : Immutable S} {MU : Mutable S} {MS : MutableSpec S}
    {CS : CodecSpec} {HS : HActionsSpec}
    (A : Type) {CA : ChainAction S A} {CAS : ChainActionSpec S A} : Prop :=
  Execute_local rules t h actor id (a : A) :
    action_wf a -> execute_local (S := S) (StateKeys a actor id) (Execute rules t h actor id) a.

Section actions.
Context `{HC : HyperConsts} {HCS : HyperConstsSpec} {CO : Codec} {HA : HActions}.
Context {SM : SafeMath} {SMS : SafeMathSpec} {BC : BLSCrypto} {BS : BLSCryptoSpec}.
Context {DE : DatabaseErrors} {DES : DatabaseErrorsSpec} {CS : CodecSpec} {HS : HActionsSpec}.
Context {SP : StatePermissions} {SPS : StatePermissionsSpec}.
Context {S : Type} {IM : Immutable S} {MU : Mutable S} {MS : MutableSpec S}.

Lemma Transfer_grants t actor id :
  let K := Transfer_StateKeys t actor id in
  grants K (BalanceKey actor) Read /\ grants K (BalanceKey actor) Write /\
  grants_all K (BalanceKey (To t)).
Proof.
  cbv zeta. unfold Transfer_StateKeys, grants_all. keys_simpl.
  split_and!; try apply grants_insert, Has_All; (apply grants_below; [apply grants_insert|right; apply Has_All]).
  - apply Has_or_l, Has_refl.
  - apply Has_or_r, Has_refl.
Qed.

#[export] Instance Transfer_local : ChainActionLocal S Transfer.
Proof.
  intros rules ts h actor id t [Hv _].
  apply (execute_local_method _ (fun a => Transfer_Execute a rules ts h actor id)).
  destruct (Transfer_grants t actor id) as (Hr & Hw & Hto).
  unfold local, Transfer_Execute. sim_steps.
Qed.

#[export] Instance SequencerMsg_local : ChainActionLocal S SequencerMsg.
Proof.
  intros rules t h actor id a _.
  apply (execute_local_method _ (fun a => SequencerMsg_Execute a rules t h actor id)).
  unfold local, SequencerMsg_Execute. sim_steps.
Qed.

Lemma Auction_grants a actor id :
  let K := Auction_StateKeys a actor id in
  grants K (BalanceKey (BuilderSEQAddress (auction_Info a))) Read /\
  grants K (BalanceKey (BuilderSEQAddress (auction_Info a))) Write /\
  grants_all K (BalanceKey fund_address) /\
  grants K (ArcadiaBidKey (EpochNumber (auction_Info a))) Write /\
  grants K (ArcadiaBidKey (EpochNumber (auction_Info a))) Allocate.
Proof.
  cbv zeta. unfold Auction_StateKeys, grants_all. keys_simpl.
  assert (forall x, BalanceKey x <> ArcadiaBidKey (EpochNumber (auction_Info a))) as Hx.
  { intros x Hx. apply (BalanceKey_not_arcadia x). rewrite Hx. apply ArcadiaBidKey_arcadia. }
  split_and!; try (apply grants_below; [|by left; apply Hx]);
    try (apply grants_insert; by auto using Has_All, Has_or_l, Has_or_r, Has_refl);
    (apply grants_below; [apply grants_insert|right; apply Has_All]).
  - apply Has_or_l, Has_refl.
  - apply Has_or_r, Has_refl.
Qed.

#[export] Instance Auction_local : ChainActionLocal S Auction.
Proof.
  intros rules t h actor id a [_ Hp].
  apply (execute_local_method _ (fun a => Auction_Execute a rules t h actor id)).
  destruct (Auction_grants a actor id) as (Hr & Hw & Hf & Hbw & Hba).
  cbn [StateKeys Auction_action]. unfold local, Auction_Execute, builder in *.
  destruct (decide (CreateAddress BLSID (ToID (BuilderPublicKey a)) = BuilderSEQAddress (auction_Info a)))
    as [He|Hne].
  - rewrite <- He in Hr, Hw. sim_steps.
  - rewrite (bool_decide_eq_false_2 _ Hne). cbn [negb]. sim_steps.
Qed.

Lemma EpochExit_grants e actor id :
  let K := EpochExit_StateKeys e actor id in
  grants K RollupRegistryKey Read /\ grants K (RollupInfoKey (exit_namespace e)) Read /\
  grants_all K (EpochExitsKey (ee_Epoch e)).
Proof.
  cbv zeta. unfold EpochExit_StateKeys, grants_all. keys_simpl.
  pose proof (RollupInfoKey_ne_exits (exit_namespace e) (ee_Epoch e)) as H1.
  pose proof (RollupRegistryKey_ne_exits (ee_Epoch e)) as H2.
  pose proof (RollupInfoKey_ne_registry (exit_namespace e)) as H3.
  split_and!; [apply grants_insert, Has_refl| |..].
  - apply grants_below; [apply grants_insert, Has_refl|by left].
  - do 2 (apply grants_below; [|left; by apply not_eq_sym]). apply grants_insert, Has_All.
  - do 2 (apply grants_below; [|left; by apply not_eq_sym]). apply grants_insert, Has_All.
  - do 2 (apply grants_below; [|left; by apply not_eq_sym]). apply grants_insert, Has_All.
Qed.

#[export] Instance EpochExit_local : ChainActionLocal S EpochExit.
Proof.
  intros rules t h actor id e _.
  apply (execute_local_method _ (fun a => EpochExit_Execute a rules t h actor id)).
  destruct (EpochExit_grants e actor id) as (Hr & Hi & He & Hw & Ha).
  unfold local, EpochExit_Execute. case_match; [sim_steps|].
  apply sim_get. intros u1 u2 [Hag _].
  rewrite (GetRollupRegistry_agree _ u1 u2), (GetRollupInfo_agree _ u1 u2),
    (GetEpochExits_agree _ u1 u2) by done.
  sim_steps.
Qed.

(** *** Registrations read the state they found before their writes *)

Section registration.
Context (ns : bytes).

Definition registers r : Prop := rr_Namespace r = ns.

(** The declaration of any registration of the namespace. *)
Definition registration_keys : Keys := keys_literal [(RollupInfoKey ns, All); (RollupRegistryKey, All)].

Lemma registration_grants q :
  grants registration_keys (RollupInfoKey ns) q /\ grants registration_keys RollupRegistryKey q.
Proof.
  unfold registration_keys. keys_simpl. split; [|apply grants_insert, Has_All].
  apply grants_below; [apply grants_insert, Has_All|left; apply RollupInfoKey_ne_registry].
Qed.

Lemma registration_info_local i : local (S := S) registration_keys (SetRollupInfo ns i).
Proof. apply local_SetRollupInfo; apply registration_grants. Qed.

Lemma registration_registry_local l : local (S := S) registration_keys (SetRollupRegistry l).
Proof. apply local_SetRollupRegistry; apply registration_grants. Qed.

Lemma receiver_get {X} (k : S * RollupRegistration -> M (S * RollupRegistration) X) :
  (forall u1 u2 r, agree registration_keys u1 u2 -> registers r ->
     with_receiver registration_keys registers (k (u1, r)) (k (u2, r))) ->
  with_receiver registration_keys registers (get ≫= k) (get ≫= k).
Proof.
  intros Hk. apply sim_get. intros [u1 r] [u2 r2] [Ha [Hr Hn]]. cbn in Ha, Hr, Hn. subst r2. by apply Hk.
Qed.

Lemma local_set_info i :
  with_receiver registration_keys registers (S := S) (set_info i) (set_info i).
Proof. apply sim_modify; [by intros []|]. by intros [] [] [[= ->] ?]. Qed.

Hint Resolve registration_info_local registration_registry_local : local.

Lemma local_register_create rules h actor nss :
  with_receiver registration_keys registers (S := S)
    (register_create rules h actor nss) (register_create rules h actor nss).
Proof.
  apply receiver_get. intros u1 u2 r Ha Hn. cbv beta iota zeta. rewrite Hn.
  rewrite (authorizationChecks_agree _ u1 u2) by (done || apply registration_grants).
  unfold with_receiver. sim_steps.
Qed.

Lemma local_register_update actor nss :
  with_receiver registration_keys registers (S := S)
    (register_update actor nss) (register_update actor nss).
Proof.
  apply receiver_get. intros u1 u2 r Ha Hn. cbv beta iota zeta. rewrite Hn.
  rewrite (authorizationChecks_agree _ u1 u2), (GetRollupInfo_agree _ u1 u2)
    by (done || apply registration_grants).
  unfold with_receiver. sim_steps. apply local_set_info.
Qed.

Lemma local_register_exit rules h actor nss :
  with_receiver registration_keys registers (S := S)
    (register_exit rules h actor nss) (register_exit rules h actor nss).
Proof.
  apply receiver_get. intros u1 u2 r Ha Hn. cbv beta iota zeta. rewrite Hn.
  rewrite (authorizationChecks_agree _ u1 u2), (GetRollupInfo_agree _ u1 u2)
    by (done || apply registration_grants).
  unfold with_receiver. sim_steps. apply local_set_info.
Qed.

Lemma local_registration rules t h actor id :
  with_receiver registration_keys registers (S := S)
    (RollupRegistration_Execute rules t h actor id) (RollupRegistration_Execute rules t h actor id).
Proof.
  apply receiver_get. intros u1 u2 r Ha Hn. cbv beta iota zeta.
  rewrite (GetRollupRegistry_agree _ u1 u2) by (done || apply registration_grants).
  unfold with_receiver. sim_steps.
  - apply local_register_create.
  - apply local_register_update.
  - apply local_register_exit.
Qed.
End registration.

#[export] Instance RollupRegistration_local : ChainActionLocal S RollupRegistration.
Proof.
  intros rules t h actor id r _. cbn [StateKeys RollupRegistration_action Execute].
  by apply (execute_local_receiver _ (registers (rr_Namespace r))), local_registration.
Qed.
End actions.

(** ** Any action *)

Section dispatch_local.
Context `{HC : HyperConsts} {HCS : HyperConstsSpec} {CO : Codec} {HA : HActions}.
Context {SM : SafeMath} {SMS : SafeMathSpec} {BC : BLSCrypto} {BS : BLSCryptoSpec}.
Context {DE : DatabaseErrors} {DES : DatabaseErrorsSpec} {CS : CodecSpec} {HS : HActionsSpec}.
Context {SP : StatePermissions} {SPS : StatePermissionsSpec}.
Context {S : Type} {IM : Immutable S} {MU : Mutable S} {MS : MutableSpec S}.
Implicit Types (s : S).

Lemma via_local {A B} K (inj : A -> B) (m : M (S * A) (list bytes)) (n : M (S * B) (list bytes)) a :
  (forall s, n (s, inj a) = via inj m s a) -> execute_local K m a -> execute_local K n (inj a).
Proof.
  intros Hn Hm s1 s2 Ha. rewrite !Hn, !via_eq. cbn [fst snd].
  destruct (Hm s1 s2 Ha) as (Ho & Hr & Hg & Hw). split_and!; [done|by f_equal|done|done].
Qed.

Lemma Action_local rules t h actor id (a : Action) :
  Action_wf (S := S) a ->
  execute_local (StateKeys (S := S) a actor id) (Action_Execute rules t h actor id) a.
Proof.
  destruct a as [x|x|x|x|x]; intros Hwf;
    refine (via_local _ _ (Execute rules t h actor id) _ x _ (Execute_local rules t h actor id x Hwf)); done.
Qed.

(** C28: an action of any kind needs exactly what its [StateKeys] declares. Take
    two states that both grant at least the rights the action declares and hold
    the same under the keys it declares; they may differ in every other right
    and in the contents of every other key. The action has the same outcome on
    both (it succeeds with the same output, is refused, or panics alike),
    leaves the same receiver and the same under the declared keys, and changes
    no key that it does not declare to write. So the host may execute it on the
    declared keys alone, fetched before, with the declared rights alone: it
    behaves as it does with every right on the whole state. *)
Theorem Execute_only_needs_StateKeys rules t h actor id (a : Action) s1 s2 :
  let keys := StateKeys (S := S) a actor id in
  Action_wf (S := S) a -> declares s1 keys -> declares s2 keys ->
  (forall k, declared keys k -> view s1 !! k = view s2 !! k) ->
  let r1 := Action_Execute rules t h actor id (s1, a) in
  let r2 := Action_Execute rules t h actor id (s2, a) in
  same_outcome (snd r1) (snd r2) /\ snd (fst r1) = snd (fst r2) /\
  (forall k, declared keys k -> view (fst (fst r1)) !! k = view (fst (fst r2)) !! k) /\
  (forall k, may_write keys k = false ->
     view (fst (fst r1)) !! k = view s1 !! k /\ view (fst (fst r2)) !! k = view s2 !! k).
Proof.
  cbv zeta. intros Hwf H1 H2 Hv. assert (agree (StateKeys a actor id) s1 s2) as Ha by done.
  destruct (Action_local rules t h actor id a Hwf s1 s2 Ha) as (Ho & Hr & (_ & _ & Hk) & _ & Hw1).
  destruct (Action_local rules t h actor id a Hwf s2 s1 (agree_sym _ _ _ Ha)) as (_ & _ & _ & _ & Hw2).
  split_and!; [done..|]. intros k Hn. split; [apply Hw1|apply Hw2]; by rewrite Hn.
Qed.
End dispatch_local.
