(* ===== verification/Schedule.v ===== *)
(** * Schedule: a block is the same in every order its keys allow

    The host runs the transactions of a block in parallel and only keeps two of
    them in order when one declares to write a key the other declares. That is
    sound if the [StateKeys] of the actions list all they read and write.
    [Parallel] shows that they do, action by action; here transactions whose
    declarations do not conflict are shown to commute, and every schedule that
    keeps conflicting transactions in order to end as the block does. *)

From stdpp Require Import base numbers countable gmap list strings.
From Stdlib Require Import ZArith Lia Strings.Byte.
From S2P Require Import Prelude HyperSDK State Wire Sample Storage Ledger Genesis Auth Actions.
From S2P Require Import ChainInv Transfer SequencerMsg Auction EpochExit RollupRegister Registry.
From S2P Require Import Parallel.

Local Open Scope Z_scope.

(** ** Schedules of any jobs on shared keys *)

Section schedules.
Context {J R S : Type} (run : J -> S -> S * R) (look : S -> bytes -> option bytes).
Context (ok : S -> J -> Prop) (writes sees : J -> bytes -> bool).
Implicit Types (j : J) (s : S) (l : list (nat * J)).

Definition same_seen j s1 s2 : Prop := forall k, sees j k = true -> look s1 k = look s2 k.
Definition same s1 s2 : Prop := forall k, look s1 k = look s2 k.

Context (writes_sees : forall j k, writes j k = true -> sees j k = true).
Context (run_ok : forall j j' s, ok s j -> ok s j' -> ok (fst (run j s)) j').
Context (run_confined : forall j s k, ok s j -> writes j k = false -> look (fst (run j s)) k = look s k).
Context (run_local : forall j s1 s2, ok s1 j -> ok s2 j -> same_seen j s1 s2 ->
  snd (run j s1) = snd (run j s2) /\ same_seen j (fst (run j s1)) (fst (run j s2))).

Definition independent j1 j2 : Prop :=
  (forall k, writes j1 k = true -> sees j2 k = false) /\
  (forall k, writes j2 k = true -> sees j1 k = false).

(** Jobs one after the other; every result keeps the number of its job. *)
Fixpoint run_all l s : S * list (nat * R) :=
  match l with
  | [] => (s, [])
  | (i, j) :: l =>
      let '(s, r) := run j s in
      let '(s, rs) := run_all l s in (s, (i, r) :: rs)
  end.

(** [l'] has the jobs of [l], those that conflict in the order they have there. *)
Definition schedule_of l l' : Prop :=
  l ≡ₚ l' /\
  forall x y, [x; y] `sublist_of` l -> independent (snd x) (snd y) \/ [x; y] `sublist_of` l'.

Definition all_ok s l : Prop := Forall (fun x => ok s (snd x)) l.

Lemma all_ok_run j s l : ok s j -> all_ok s l -> all_ok (fst (run j s)) l.
Proof. intros Hj Hl. eapply Forall_impl; [exact Hl|]. intros x. by apply run_ok. Qed.

Lemma independent_sym j1 j2 : independent j1 j2 -> independent j2 j1.
Proof. by intros [? ?]. Qed.

Lemma run_same j s1 s2 :
  ok s1 j -> ok s2 j -> same s1 s2 ->
  snd (run j s1) = snd (run j s2) /\ same (fst (run j s1)) (fst (run j s2)).
Proof.
  intros H1 H2 Hs. destruct (run_local j s1 s2 H1 H2) as [Hr Hv]; [by intros k _|]. split; [done|].
  intros k. destruct (writes j k) eqn:E; [by apply Hv, writes_sees|]. by rewrite !run_confined.
Qed.

Lemma run_all_same l s1 s2 :
  all_ok s1 l -> all_ok s2 l -> same s1 s2 ->
  snd (run_all l s1) = snd (run_all l s2) /\ same (fst (run_all l s1)) (fst (run_all l s2)).
Proof.
  revert s1 s2. induction l as [|[i j] l IH]; intros s1 s2 H1 H2 Hs; [done|].
  apply Forall_cons in H1 as [H1 H1'], H2 as [H2 H2']. cbn [snd] in H1, H2.
  destruct (run_same j s1 s2 H1 H2 Hs) as [Hr Hs'].
  pose proof (all_ok_run _ _ _ H1 H1') as G1. pose proof (all_ok_run _ _ _ H2 H2') as G2.
  cbn [run_all]. destruct (run j s1) as [u1 r1], (run j s2) as [u2 r2]. cbn [fst snd] in *.
  destruct (IH u1 u2 G1 G2 Hs') as [Hrs Hf].
  destruct (run_all l u1) as [w1 rs1], (run_all l u2) as [w2 rs2]. cbn [fst snd] in *.
  split; [by subst|done].
Qed.

(** A job does not notice an independent one. *)
Lemma run_unseen j1 j2 s :
  ok s j1 -> ok s j2 -> independent j1 j2 ->
  snd (run j2 (fst (run j1 s))) = snd (run j2 s) /\
  same_seen j2 (fst (run j2 (fst (run j1 s)))) (fst (run j2 s)).
Proof.
  intros H1 H2 [Hi _]. apply run_local; [by apply run_ok|done|]. intros k Hk.
  apply run_confined; [done|]. destruct (writes j1 k) eqn:E; [|done]. apply Hi in E. congruence.
Qed.

(** What is under a key after two independent jobs. *)
Lemma run_after j1 j2 s k :
  ok s j1 -> ok s j2 -> independent j1 j2 ->
  look (fst (run j2 (fst (run j1 s)))) k =
  if writes j2 k then look (fst (run j2 s)) k else look (fst (run j1 s)) k.
Proof.
  intros H1 H2 Hi. destruct (writes j2 k) eqn:E; [|by apply run_confined; [apply run_ok|]].
  by apply run_unseen, writes_sees.
Qed.

Lemma run_commute j1 j2 s :
  ok s j1 -> ok s j2 -> independent j1 j2 ->
  snd (run j2 (fst (run j1 s))) = snd (run j2 s) /\
  snd (run j1 (fst (run j2 s))) = snd (run j1 s) /\
  same (fst (run j2 (fst (run j1 s)))) (fst (run j1 (fst (run j2 s)))).
Proof.
  intros H1 H2 Hi. pose proof (independent_sym _ _ Hi) as Hi'.
  split; [by apply run_unseen|]. split; [by apply run_unseen|].
  intros k. rewrite (run_after _ _ s k H1 H2 Hi), (run_after _ _ s k H2 H1 Hi').
  destruct (writes j2 k) eqn:E2, (writes j1 k) eqn:E1; try done.
  - apply Hi in E1. apply writes_sees in E2. congruence.
  - by rewrite !run_confined.
Qed.

(** A job moves to the front of jobs it is independent of. *)
Lemma run_all_front l1 i j l2 s :
  all_ok s (l1 ++ (i, j) :: l2) -> Forall (fun y => independent j (snd y)) l1 ->
  same (fst (run_all (l1 ++ (i, j) :: l2) s)) (fst (run_all ((i, j) :: l1 ++ l2) s)) /\
  snd (run_all (l1 ++ (i, j) :: l2) s) ≡ₚ snd (run_all ((i, j) :: l1 ++ l2) s).
Proof.
  intros Hok Hall. revert s Hok. induction Hall as [|[i1 j1] l1 Hj _ IH]; intros s Hok; [done|].
  cbn [app] in Hok |- *. apply Forall_cons in Hok as [H1 Hok]. cbn [snd] in H1, Hj.
  pose proof Hok as [Hok1 [Hjk Hok2]%Forall_cons]%Forall_app. cbn [snd] in Hjk.
  pose proof (all_ok_run _ _ _ H1 Hok) as Hok'.
  assert (all_ok s (l1 ++ l2)) as Hrest by (by apply Forall_app).
  pose proof (all_ok_run _ _ _ (run_ok _ _ _ H1 Hjk) (all_ok_run _ _ _ H1 Hrest)) as G1.
  pose proof (all_ok_run _ _ _ (run_ok _ _ _ Hjk H1) (all_ok_run _ _ _ Hjk Hrest)) as G2.
  destruct (run_commute _ _ s Hjk H1 Hj) as (E1 & E2 & E3). destruct (IH _ Hok') as [IHv IHr].
  cbn [run_all] in IHv, IHr |- *.
  destruct (run j1 s) as [s1 r1], (run j s) as [sj rj]. cbn [fst snd] in *.
  destruct (run j s1) as [s1j r1j], (run j1 sj) as [sj1 rj1]. cbn [fst snd] in *. subst r1j rj1.
  destruct (run_all_same (l1 ++ l2) sj1 s1j G2 G1 E3) as [F1 F2].
  destruct (run_all (l1 ++ (i, j) :: l2) s1) as [w rs], (run_all (l1 ++ l2) s1j) as [w' rs'],
    (run_all (l1 ++ l2) sj1) as [w'' rs'']. cbn [fst snd] in *. subst rs''. split.
  - intros k. by rewrite IHv, F2.
  - rewrite IHr. constructor.
Qed.

Lemma sublist_pair_front (x y : nat * J) l1 l2 :
  NoDup (l1 ++ x :: l2) -> y ∈ l1 -> ~ [x; y] `sublist_of` (l1 ++ x :: l2).
Proof.
  intros Hnd Hy (k1 & k2 & Hk & H1 & H2)%sublist_app_r.
  apply NoDup_app in Hnd as (_ & Hd & _). destruct k1 as [|a k1]; simplify_eq/=.
  - apply (Hd y Hy). eapply elem_of_sublist; [|exact H2]. right. by left.
  - apply (Hd a); [eapply elem_of_sublist; [by left|exact H1]|by left].
Qed.

Lemma sublist_pair_remove (a b x : nat * J) l1 l2 :
  [a; b] `sublist_of` (l1 ++ x :: l2) -> a <> x -> b <> x -> [a; b] `sublist_of` (l1 ++ l2).
Proof.
  intros (k1 & k2 & Hk & H1 & H2)%sublist_app_r Ha Hb. rewrite Hk.
  apply sublist_app; [done|]. apply sublist_cons_r in H2 as [|(k & -> & _)]; [done|exfalso].
  assert (x ∈ [a; b]) as Hx by (rewrite Hk; apply elem_of_app; right; by left).
  by apply elem_of_cons in Hx as [-> | ->%list_elem_of_singleton].
Qed.

(** What comes before [x] in a schedule that starts with [x] otherwise. *)
Lemma schedule_front x l l1 l2 :
  NoDup (x :: l) -> schedule_of (x :: l) (l1 ++ x :: l2) ->
  Forall (fun y => independent (snd x) (snd y)) l1 /\ schedule_of l (l1 ++ l2).
Proof.
  intros Hnd [Hp Hord]. assert (NoDup (l1 ++ x :: l2)) as Hnd' by (by rewrite <- Hp).
  assert (l ≡ₚ l1 ++ l2) as Hp'.
  { apply (Permutation_cons_inv (a := x)). by rewrite Hp, Permutation_middle. }
  apply NoDup_cons in Hnd as [Hx Hnd]. split; [|split; [done|]].
  - apply Forall_forall. intros y Hy. destruct (Hord x y) as [|Hn]; [|done|].
    + apply sublist_skip, singleton_sublist_l. rewrite Hp'. apply elem_of_app. by left.
    + by apply sublist_pair_front in Hn.
  - intros a b Hab.
    assert (a ∈ l /\ b ∈ l) as [Ha Hb].
    { split; (eapply elem_of_sublist; [|exact Hab]); [by left|right; by left]. }
    destruct (Hord a b) as [|Hn]; [by apply sublist_cons|by left|right].
    eapply sublist_pair_remove; [exact Hn|..]; intros ->; by apply Hx.
Qed.

Lemma run_all_schedule l l' s :
  NoDup l -> all_ok s l -> schedule_of l l' ->
  same (fst (run_all l' s)) (fst (run_all l s)) /\ snd (run_all l' s) ≡ₚ snd (run_all l s).
Proof.
  intros Hnd. revert l' s. induction l as [|x l IH]; intros l' s Hok Hs.
  - destruct Hs as [->%Permutation_nil_l _]. done.
  - assert (x ∈ l') as (l1 & l2 & ->)%list_elem_of_split by (rewrite <- (proj1 Hs); by left).
    assert (all_ok s (l1 ++ x :: l2)) as Hok' by (unfold all_ok; by rewrite <- (proj1 Hs)).
    destruct (schedule_front _ _ _ _ Hnd Hs) as [Hi Hs'].
    apply NoDup_cons in Hnd as [_ Hnd]. destruct x as [i j]. apply Forall_cons in Hok as [Hj Hok].
    destruct (run_all_front l1 i j l2 s Hok' Hi) as [Hv Hr].
    pose proof (all_ok_run _ _ _ Hj Hok) as Hok1.
    cbn [run_all] in Hv, Hr |- *. cbn [snd] in Hj, Hok1. destruct (run j s) as [s1 r]. cbn [fst] in Hok1.
    destruct (IH Hnd _ s1 Hok1 Hs') as [Hv' Hr'].
    destruct (run_all (l1 ++ l2) s1) as [w rs], (run_all l s1) as [w' rs']. cbn [fst snd] in *. split.
    + intros k. by rewrite Hv, Hv'.
    + by rewrite Hr, Hr'.
Qed.
End schedules.

(** ** Transactions *)

(** A transaction: its actor and its actions, with the identifiers they are
    executed under. *)
Record Job `{HyperConsts} := {
  j_actor : Address;
  j_actions : list (ID * Action)
}.

(** What the caller sees of a transaction: the outputs of its actions, that it
    failed, or a panic; and the actions it leaves. *)
Definition erase {A} (r : res A) : res A :=
  match r with Err _ => Err (ErrNew "failed") | _ => r end.

Section jobs.
Context `{HC : HyperConsts} {HCS : HyperConstsSpec} {CO : Codec} {HA : HActions}.
Context {SM : SafeMath} {SMS : SafeMathSpec} {BC : BLSCrypto} {BS : BLSCryptoSpec}.
Context {DE : DatabaseErrors} {DES : DatabaseErrorsSpec} {CS : CodecSpec} {HS : HActionsSpec}.
Context {SP : StatePermissions} {SPS : StatePermissionsSpec}.
Context {S : Type} {IM : Immutable S} {MU : Mutable S} {MS : MutableSpec S}.
Context (rules : Rules) (t h : Z).
Implicit Types (j : Job) (s : S) (actor : Address) (l : list (ID * Action)).

(** The actions in order, until one fails; those after it stay as they are. *)
Fixpoint run_actions (actor : Address) (l : list (ID * Action)) s
    : (S * list Action) * res (list (list bytes)) :=
  match l with
  | [] => ((s, []), Ok [])
  | (id, a) :: l =>
      match Action_Execute rules t h actor id (s, a) with
      | ((s, a), Ok out) =>
          let '((s, l), r) := run_actions actor l s in
          ((s, a :: l), outs ← r; Ok (out :: outs))
      | ((s, a), Err e) => ((s, a :: map snd l), Err e)
      | ((s, a), Panic p) => ((s, a :: map snd l), Panic p)
      end
  end.

(** A transaction that fails changes nothing but its actions. *)
Definition run_transaction j s : S * (list Action * res (list (list bytes))) :=
  let '((s', l), r) := run_actions (j_actor j) (j_actions j) s in
  (match r with Ok _ => s' | _ => s end, (l, erase r)).

(** The keys the [StateKeys] of its actions declare, and declare to write. *)
Definition action_keys actor (x : ID * Action) : Keys := StateKeys (S := S) (snd x) actor (fst x).
Definition job_sees j k : bool :=
  existsb (fun x => bool_decide (is_Some (action_keys (j_actor j) x !! k))) (j_actions j).
Definition job_writes j k : bool :=
  existsb (fun x => may_write (action_keys (j_actor j) x) k) (j_actions j).

(** The state grants what the actions of the transaction declare. *)
Definition granted s actor l : Prop :=
  Forall (fun x => Action_wf (S := S) (snd x) /\ declares s (action_keys actor x)) l.
Definition job_ok s j : Prop := granted s (j_actor j) (j_actions j).

Lemma erase_same {A} (r1 r2 : res A) : same_outcome r1 r2 -> erase r1 = erase r2.
Proof. by destruct r1, r2; simpl; intros; subst. Qed.

Lemma may_write_declared (K : Keys) k : may_write K k = true -> declared K k.
Proof. unfold may_write, declared. by destruct (K !! k). Qed.

Lemma granted_scope s s' actor l : scope s' = scope s -> granted s actor l -> granted s' actor l.
Proof.
  intros Hs Hg. eapply Forall_impl; [exact Hg|]. intros x [Hwf Hd]. split; [done|]. by eapply declares_scope.
Qed.

(** The actions depend on what they declare, and write no more than that. *)
Lemma run_actions_local (V W : bytes -> Prop) actor l s1 s2 :
  Forall (fun x => forall k, declared (action_keys actor x) k -> V k) l ->
  Forall (fun x => forall k, may_write (action_keys actor x) k = true -> W k) l ->
  granted s1 actor l -> granted s2 actor l -> (forall k, V k -> view s1 !! k = view s2 !! k) ->
  let r1 := run_actions actor l s1 in let r2 := run_actions actor l s2 in
  same_outcome (snd r1) (snd r2) /\ snd (fst r1) = snd (fst r2) /\
  (forall k, V k -> view (fst (fst r1)) !! k = view (fst (fst r2)) !! k) /\
  touches W s1 (fst (fst r1)).
Proof.
  intros HV HW. revert s1 s2 HW. induction HV as [|[id a] l Hk HV IH]; intros s1 s2 HW G1 G2 Hv; [done|].
  cbn zeta. cbn [run_actions]. apply Forall_cons in HW as [Hw HW].
  apply Forall_cons in G1 as [[Hwf D1] G1], G2 as [[_ D2] G2]. cbn [fst snd] in Hwf.
  unfold action_keys in Hk, Hw, D1, D2. cbn [fst snd] in Hk, Hw, D1, D2.
  assert (agree (StateKeys (S := S) a actor id) s1 s2) as Ha by (split_and!; [done|done|]; eauto).
  destruct (Action_local rules t h actor id a Hwf s1 s2 Ha) as (Ho & Hr & (D1' & D2' & Hg) & Hw1).
  destruct (Action_local rules t h actor id a Hwf s2 s1 (agree_sym _ _ _ Ha)) as (_ & _ & _ & Hw2).
  assert (forall k, V k -> view (fst (fst (Action_Execute rules t h actor id (s1, a)))) !! k =
    view (fst (fst (Action_Execute rules t h actor id (s2, a)))) !! k) as Hv'.
  { intros k HVk. destruct (StateKeys (S := S) a actor id !! k) eqn:E; [apply Hg; by eexists|].
    rewrite (proj2 Hw1), (proj2 Hw2), Hv; [done|done|..]; unfold may_write; by rewrite E. }
  assert (touches W s1 (fst (fst (Action_Execute rules t h actor id (s1, a))))) as Ht1.
  { split; [apply Hw1|]. intros k Hn. apply Hw1. intros Hx. by apply Hn, Hw. }
  pose proof (proj1 Hw1) as Hs1. pose proof (proj1 Hw2) as Hs2. clear Ha Hg Hw1 Hw2.
  destruct (Action_Execute rules t h actor id (s1, a)) as [[s1' a1] [out|e|p]],
    (Action_Execute rules t h actor id (s2, a)) as [[s2' a2] [out'|e'|p']]; cbn [fst snd same_outcome] in *; try done.
  - subst out' a2.
    destruct (IH s1' s2' HW (granted_scope _ _ _ _ Hs1 G1) (granted_scope _ _ _ _ Hs2 G2) Hv')
      as (Ho' & Hr' & Hg' & Hw').
    destruct (run_actions actor l s1') as [[w1 l1] r1], (run_actions actor l s2') as [[w2 l2] r2].
    cbn [fst snd] in *. subst l2. split_and!; [|done|done|by eapply touches_trans].
    destruct r1, r2; simpl in *; congruence.
  - by subst.
  - by subst.
Qed.

Lemma job_sees_spec j k x :
  x ∈ j_actions j -> declared (action_keys (j_actor j) x) k -> job_sees j k = true.
Proof.
  intros Hx Hd. apply existsb_exists. exists x. split; [by apply list_elem_of_In|]. by apply bool_decide_eq_true_2.
Qed.

Lemma job_writes_spec j k x :
  x ∈ j_actions j -> may_write (action_keys (j_actor j) x) k = true -> job_writes j k = true.
Proof. intros Hx Hd. apply existsb_exists. exists x. split; [by apply list_elem_of_In|done]. Qed.

Lemma job_writes_sees j k : job_writes j k = true -> job_sees j k = true.
Proof.
  intros (x & Hx & Hw)%existsb_exists. apply (job_sees_spec j k x); [by apply list_elem_of_In|].
  by apply may_write_declared.
Qed.

Lemma job_run j s1 s2 :
  job_ok s1 j -> job_ok s2 j -> same_seen (fun s k => view s !! k) job_sees j s1 s2 ->
  snd (run_transaction j s1) = snd (run_transaction j s2) /\
  same_seen (fun s k => view s !! k) job_sees j (fst (run_transaction j s1)) (fst (run_transaction j s2)) /\
  touches (fun k => job_writes j k = true) s1 (fst (run_transaction j s1)).
Proof.
  intros H1 H2 Hv. unfold run_transaction.
  destruct (run_actions_local (fun k => job_sees j k = true) (fun k => job_writes j k = true)
    (j_actor j) (j_actions j) s1 s2) as (Ho & Hr & Hg & Hw); [| |done|done|exact Hv|].
  { apply Forall_forall. intros x Hx k Hk. by eapply job_sees_spec. }
  { apply Forall_forall. intros x Hx k Hk. by eapply job_writes_spec. }
  destruct (run_actions _ _ s1) as [[s1' l1] r1], (run_actions _ _ s2) as [[s2' l2] r2].
  cbn [fst snd] in *. subst l2. rewrite (erase_same _ _ Ho). split; [done|].
  destruct r1 as [o1|e1|p1], r2 as [o2|e2|p2]; simpl in Ho; try done.
Qed.

(** C7: Any schedule of a block ends as the block does. Number the transactions
    of a block, and run them in any order in which two transactions only change
    places when neither declares to write, in the [StateKeys] of its actions, a
    key that the other declares. On a state that grants the transactions what
    they declare (and perhaps more), every transaction has the outcome (its
    outputs, its failure, its panic) and leaves the actions it has when the
    block runs in order, and the state ends with the same contents: the keys
    the actions declare tell the host all it needs to run them in parallel. *)
Theorem schedules_agree (block l : list (nat * Job)) s :
  NoDup block -> Forall (fun x => job_ok s (snd x)) block ->
  schedule_of job_writes job_sees block l ->
  view (fst (run_all run_transaction l s)) = view (fst (run_all run_transaction block s)) /\
  snd (run_all run_transaction l s) ≡ₚ snd (run_all run_transaction block s).
Proof.
  intros Hnd Hok Hs.
  destruct (run_all_schedule run_transaction (fun s k => view s !! k) job_ok job_writes job_sees)
    with (l := block) (l' := l) (s := s) as [Hv Hr]; [..|done|done|done|].
  - apply job_writes_sees.
  - intros j j' s' Hj Hj'. eapply granted_scope; [|exact Hj'].
    by destruct (job_run j s' s' Hj Hj) as (_ & _ & [? _]).
  - intros j s' k Hj Hk. destruct (job_run j s' s' Hj Hj) as (_ & _ & [_ Hw]); [done|].
    apply Hw. by rewrite Hk.
  - intros j s1 s2 H1 H2 Hv. by destruct (job_run j s1 s2 H1 H2 Hv) as (? & ? & _).
  - split; [|done]. by apply map_eq.
Qed.
End jobs.
