(* ===== verification/RollupRegistry.v ===== *)
(** * RollupRegistry: the rollups a node knows of

    [src/rollup_registry/registry.go]: a map, in memory, from the identifier of
    a rollup to its info, updated when a block is accepted. The methods run
    under a lock, so each is one step. *)

From stdpp Require Import base numbers countable gmap list strings.
From Stdlib Require Import ZArith Lia Strings.Byte.
From S2P Require Import Prelude HyperSDK Sample.

Local Open Scope Z_scope.

Section registry.
Context `{HC : HyperConsts} {CO : Codec} {HA : HActions}.

Record RollupRegistry := { rollups : gmap ID RollupInfo }.

Definition NewRollupRegistr : RollupRegistry := {| rollups := ∅ |}.

(** Go iterates over a map in an unspecified order: the order of
    [map_to_list] stands for it, and nothing proved depends on it. *)
Definition RollupsValidAtEpoch (r : RollupRegistry) (epoch : Z) : list RollupInfo :=
  foldl (fun ret rollup => if RollupInfo_ValidAtEpoch rollup epoch then ret ++ [rollup] else ret)
    [] (map_to_list (rollups r)).*2.

Definition Update (currentEpoch : Z) (l : list RollupInfo) : M RollupRegistry unit := fun r =>
  let m := foldl (fun m rollup => <[RollupInfo_ID rollup := rollup]> m) (rollups r) l in
  ({| rollups := filter (fun kv => RollupInfo_Exited kv.2 currentEpoch = false) m |}, Ok tt).

(** ** Facts *)

(** The last update of a rollup in a list. *)
Definition last_update (l : list RollupInfo) (id : ID) : option RollupInfo :=
  last (filter (fun i => RollupInfo_ID i = id) l).

Lemma foldl_update_lookup l (m : gmap ID RollupInfo) id :
  foldl (fun m rollup => <[RollupInfo_ID rollup := rollup]> m) m l !! id =
  match last_update l id with Some i => Some i | None => m !! id end.
Proof.
  unfold last_update. induction l as [|i l IH] using rev_ind; [done|].
  rewrite foldl_app, filter_app, filter_cons, filter_nil. simpl.
  destruct (decide (RollupInfo_ID i = id)) as [<-|Hne].
  - by rewrite lookup_insert_eq, last_snoc.
  - by rewrite lookup_insert_ne, app_nil_r.
Qed.

Lemma Update_lookup e l r id :
  rollups (fst (Update e l r)) !! id =
  match (match last_update l id with Some i => Some i | None => rollups r !! id end) with
  | Some i => if RollupInfo_Exited i e then None else Some i
  | None => None
  end.
Proof.
  unfold Update. cbn [fst rollups]. rewrite map_lookup_filter, foldl_update_lookup.
  destruct (match last_update l id with Some i => Some i | None => rollups r !! id end) as [i|]; [|done].
  cbn. destruct (RollupInfo_Exited i e) eqn:E.
  - by rewrite option_guard_False.
  - by rewrite option_guard_True.
Qed.

Lemma valid_foldl e l acc :
  foldl (fun ret rollup => if RollupInfo_ValidAtEpoch rollup e then ret ++ [rollup] else ret) acc l =
  acc ++ filter (fun i => RollupInfo_ValidAtEpoch i e = true) l.
Proof.
  revert acc. induction l as [|i l IH]; intros acc; simpl; [by rewrite filter_nil, app_nil_r|].
  rewrite IH, filter_cons. destruct (RollupInfo_ValidAtEpoch i e); simpl; [|done].
  by rewrite <- app_assoc.
Qed.

Lemma RollupsValidAtEpoch_elem r e i :
  i ∈ RollupsValidAtEpoch r e <->
  RollupInfo_ValidAtEpoch i e = true /\ exists id, rollups r !! id = Some i.
Proof.
  unfold RollupsValidAtEpoch. rewrite valid_foldl, app_nil_l, list_elem_of_filter.
  rewrite list_elem_of_fmap. split; intros [Hv Hm]; (split; [done|]).
  - destruct Hm as ([id j] & -> & Hin). exists id. by apply elem_of_map_to_list.
  - destruct Hm as [id Hin]. exists (id, i). split; [done|]. by apply elem_of_map_to_list.
Qed.
End registry.

(** What the node serves of the rollups. After an update with the rollups of
    a block, an info is served for an epoch exactly when it is valid then, has
    not exited by the current epoch, and is the last one known of its rollup:
    the block's last, or, for a rollup not in the block, the one known before. *)
Theorem Update_RollupsValidAtEpoch
    `{HC : HyperConsts} {CO : Codec} {HA : HActions}
    (r : RollupRegistry) (currentEpoch epoch : Z) (l : list RollupInfo) (i : RollupInfo) :
  i ∈ RollupsValidAtEpoch (fst (Update currentEpoch l r)) epoch <->
  RollupInfo_ValidAtEpoch i epoch = true /\ RollupInfo_Exited i currentEpoch = false /\
  exists id, last_update l id = Some i \/ (last_update l id = None /\ rollups r !! id = Some i).
Proof.
  rewrite RollupsValidAtEpoch_elem. split.
  - intros [Hv [id Hid]]. rewrite Update_lookup in Hid. split; [done|].
    destruct (last_update l id) as [j|] eqn:El.
    + destruct (RollupInfo_Exited j currentEpoch) eqn:Ex; [done|]. injection Hid as ->.
      split; [done|]. exists id. by left.
    + destruct (rollups r !! id) as [j|] eqn:Er; [|done].
      destruct (RollupInfo_Exited j currentEpoch) eqn:Ex; [done|]. injection Hid as ->.
      split; [done|]. exists id. by right.
  - intros (Hv & Hx & id & Hid). split; [done|]. exists id. rewrite Update_lookup.
    by destruct Hid as [->|[-> ->]]; rewrite Hx.
Qed.
