(* ===== verification/Block.v ===== *)
(** * Block: the host's blocks, as the repository reads them

    Types and functions of hypersdk/chain and avalanchego/ids that the
    controller, the archiver and the RPC server share. Block marshalling and
    the text form of identifiers are the host's, so they are parameters. *)

From stdpp Require Import base numbers countable gmap list strings.
From Stdlib Require Import ZArith Lia Strings.Byte Strings.Ascii.
From S2P Require Import Prelude HyperSDK Sample Genesis Auth Actions Transfer SequencerMsg Auction.
From S2P Require Import EpochExit RollupRegister Registry.

Local Open Scope Z_scope.

Record Transaction `{HyperConsts} := {
  tx_ID : ID;
  tx_Actions : list Action
}.

Record Result := {
  r_Success : bool;
  r_Units : Dimensions;
  r_Fee : Z
}.

(** [chain.StatefulBlock]: what a block is on the wire. *)
Record StatefulBlock `{HyperConsts} := {
  sb_Prnt : ID;
  sb_Tmstmp : Z;
  sb_Hght : Z;
  sb_L1Head : Z;
  sb_Txs : list Transaction
}.

(** [chain.StatelessBlock] embeds it and adds what processing it found. *)
Record StatelessBlock `{HyperConsts} := {
  blk_Stateful : StatefulBlock;
  blk_ID : ID;
  blk_Results : list Result
}.

Section stateless.
Context `{HC : HyperConsts}.
Definition blk_Prnt (b : StatelessBlock) : ID := sb_Prnt (blk_Stateful b).
Definition blk_Tmstmp (b : StatelessBlock) : Z := sb_Tmstmp (blk_Stateful b).
Definition blk_Hght (b : StatelessBlock) : Z := sb_Hght (blk_Stateful b).
Definition blk_L1Head (b : StatelessBlock) : Z := sb_L1Head (blk_Stateful b).
Definition blk_Txs (b : StatelessBlock) : list Transaction := sb_Txs (blk_Stateful b).
End stateless.

(** [chain.Parser]: what a block is parsed with. *)
Record chain_Parser `{HyperConsts} := {
  Parser_ChainID : ID;
  Parser_Rules : Z -> Rules
}.

Class Blocks `{HyperConsts} := {
  StatelessBlock_Marshal : StatelessBlock -> res bytes;
  UnmarshalBlock : bytes -> chain_Parser -> res StatefulBlock;
  StatefulBlock_ID : StatefulBlock -> res ID;
  ID_String : ID -> string;
  ids_FromString : string -> res ID
}.

(** A marshalled block unmarshals, whatever parses it, and hashes to its
    identifier; identifiers have faithful texts. *)
Class BlocksSpec `{Blocks} : Prop := {
  UnmarshalBlock_Marshal b raw p :
    StatelessBlock_Marshal b = Ok raw -> UnmarshalBlock raw p = Ok (blk_Stateful b);
  FromString_String i : ids_FromString (ID_String i) = Ok i;
  ID_String_nonempty i : ID_String i <> ""%string;
  Marshal_no_panic b : is_panic (StatelessBlock_Marshal b) = false;
  Unmarshal_no_panic raw p : is_panic (UnmarshalBlock raw p) = false;
  StatefulBlock_ID_no_panic b : is_panic (StatefulBlock_ID b) = false
}.

(** ** Blocks to test with: those without transactions *)

Module BlockExamples.
Import Sample.Instances.

Definition plain (b : StatelessBlock) : bool :=
  match blk_Txs b with
  | [] => (0 <=? blk_Tmstmp b) && (blk_Tmstmp b <? u64_mod) && (0 <=? blk_Hght b) &&
          (blk_Hght b <? u64_mod) && (0 <=? blk_L1Head b) && (blk_L1Head b <? u64_mod)
  | _ => false
  end.

Definition s_encode (b : StatefulBlock) : bytes :=
  arr_list (sb_Prnt b) ++ be_enc 8 (sb_Tmstmp b) ++ be_enc 8 (sb_Hght b) ++ be_enc 8 (sb_L1Head b).

(** A block with messages, which only unmarshals. *)
Definition s_message (n : Z) : Action :=
  Act_SequencerMsg {| ChainID := be_enc 2 n; Data := [x07]; FromAddress := w_addr 1; RelayerID := 0 |}.
Definition s_messages : StatefulBlock := {|
  sb_Prnt := w_id 0; sb_Tmstmp := 1000; sb_Hght := 1; sb_L1Head := 50;
  sb_Txs := [ {| tx_ID := w_id 21; tx_Actions := [s_message 258; s_message 3] |};
              {| tx_ID := w_id 22; tx_Actions := [s_message 258] |} ]
|}.

Definition s_decode (raw : bytes) : res StatefulBlock :=
  if (length raw =? 56)%nat then
    let rest := drop 32 raw in
    Ok {| sb_Prnt := arr_of IDLen (take 32 raw);
          sb_Tmstmp := be_dec (take 8 rest);
          sb_Hght := be_dec (take 8 (drop 8 rest));
          sb_L1Head := be_dec (drop 8 (drop 8 rest));
          sb_Txs := [] |}
  else if bytes_Equal raw [x01] then Ok s_messages
  else Err (ErrNew "not a plain block").

#[export] Instance s_blocks : Blocks := {|
  StatelessBlock_Marshal b :=
    if plain b then Ok (s_encode (blk_Stateful b)) else Err (ErrNew "not a plain block");
  UnmarshalBlock raw _ := s_decode raw;
  StatefulBlock_ID b := Ok (arr_of IDLen (be_enc 32 (sb_Hght b)));
  ID_String i := String.String (Ascii.ascii_of_byte x49) (String.string_of_list_byte (arr_list i));
  ids_FromString s := Ok (arr_of IDLen (tail (String.list_byte_of_string s)))
|}.

Lemma s_decode_encode (pr : ID) t h l :
  is_u64 t -> is_u64 h -> is_u64 l ->
  let b := {| sb_Prnt := pr; sb_Tmstmp := t; sb_Hght := h; sb_L1Head := l; sb_Txs := [] |} in
  s_decode (s_encode b) = Ok b.
Proof.
  intros Ht Hh Hl b. assert (length pr = 32%nat) as Hlen by apply length_arr.
  unfold s_decode, s_encode, b. cbv zeta. cbn [sb_Prnt sb_Tmstmp sb_Hght sb_L1Head].
  rewrite !length_app, !length_be_enc, Hlen. cbn [Nat.add Nat.eqb].
  rewrite (take_app_length' (arr_list pr)), (drop_app_length' (arr_list pr)) by done.
  rewrite arr_of_arr.
  rewrite !(drop_app_length' (be_enc 8 _)), !(take_app_length' (be_enc 8 _)) by (by rewrite length_be_enc).
  by rewrite !is_u64_be.
Qed.

#[export] Instance s_blocks_spec : BlocksSpec.
Proof.
  constructor.
  - intros [[pr t h l txs] i res] raw p. cbn [StatelessBlock_Marshal UnmarshalBlock s_blocks].
    destruct (plain _) eqn:Hp; [|done]. intros [= <-]. revert Hp.
    unfold plain, blk_Txs, blk_Tmstmp, blk_Hght, blk_L1Head.
    cbn [blk_Stateful sb_Txs sb_Tmstmp sb_Hght sb_L1Head]. destruct txs; [|done].
    rewrite !andb_true_iff. intros Hp. apply s_decode_encode; unfold is_u64; lia.
  - intros i. cbn [ids_FromString ID_String s_blocks].
    change (String.list_byte_of_string (String.String ?a ?x)) with
      (byte_of_ascii a :: String.list_byte_of_string x).
    rewrite String.list_byte_of_string_of_list_byte. cbn [tail]. by rewrite arr_of_arr.
  - done.
  - intros b. cbn [StatelessBlock_Marshal s_blocks]. by destruct (plain b).
  - intros raw p. cbn [UnmarshalBlock s_blocks]. unfold s_decode. by repeat case_match.
  - done.
Defined.
End BlockExamples.
