(* ===== verification/Commit.v ===== *)
(** * Commit: commitments to block headers

    [src/types/commit.go] and the types it commits to ([U256], [Header],
    [NmtRoot] of [src/types/types.go]). A commitment is the Keccak hash of a
    sequence of named fields; the theorems show that the sequence determines
    the header, so that equal commitments are equal headers or a collision of
    the hash. Keccak ([go-ethereum/crypto]) is a parameter. *)

From stdpp Require Import base numbers list strings.
From Stdlib Require Import ZArith Lia Strings.Byte.
From S2P Require Import Prelude.

Local Open Scope Z_scope.

(** ** go-ethereum/crypto *)

Class Keccak := {
  KeccakState : Type;
  NewKeccakState : KeccakState;
  (** [hash.Write] and [hash.Sum]: [Sum] appends the digest to its argument. *)
  hasher_Write : bytes -> M KeccakState Z;
  hasher_Sum : KeccakState -> bytes -> bytes
}.

(** A hash state is what was written to it; a write never fails. *)
Class KeccakSpec `{Keccak} := {
  keccak256 : bytes -> bytes;
  absorbed : KeccakState -> bytes;
  absorbed_New : absorbed NewKeccakState = [];
  Write_absorbs p s : wp (hasher_Write p) s (fun s' r =>
    r = Ok (Z.of_nat (length p)) /\ absorbed s' = absorbed s ++ p);
  Sum_digest s b : hasher_Sum s b = b ++ keccak256 (absorbed s);
  length_keccak256 p : length (keccak256 p) = 32%nat
}.

(** ** The standard library's [math/big] and [unicode/utf8] *)

(** [big.Int.Bytes]: the absolute value, big-endian, without leading zeros. *)
Definition byte_len (z : Z) : nat :=
  if Z.abs z =? 0 then O else Z.to_nat (Z.log2 (Z.abs z) / 8 + 1).
Definition Int_Bytes (z : Z) : bytes := be_enc (byte_len z) (Z.abs z).

(** [big.Int.FillBytes] *)
Definition Int_FillBytes (z : Z) (buf : bytes) : res bytes :=
  if (byte_len z <=? length buf)%nat then Ok (be_enc (length buf) (Z.abs z))
  else Panic (PMessage "math/big: buffer too small to fit value").

(** [big.Int.SetBytes] *)
Definition Int_SetBytes (buf : bytes) : Z := be_dec buf.

(** [utf8.Valid]: the ranges of the continuation bytes a first byte asks for. *)
Definition utf8_continuation (b : Z) : option (list (Z * Z)) :=
  let any := (0x80, 0xBF) in
  if b <? 0x80 then Some []
  else if b <? 0xC2 then None
  else if b <? 0xE0 then Some [any]
  else if b =? 0xE0 then Some [(0xA0, 0xBF); any]
  else if b =? 0xED then Some [(0x80, 0x9F); any]
  else if b <? 0xF0 then Some [any; any]
  else if b =? 0xF0 then Some [(0x90, 0xBF); any; any]
  else if b <? 0xF4 then Some [any; any; any]
  else if b =? 0xF4 then Some [(0x80, 0x8F); any; any]
  else None.

Fixpoint utf8_from (pending : list (Z * Z)) (l : bytes) : bool :=
  match l, pending with
  | [], [] => true
  | [], _ => false
  | b :: l, (lo, hi) :: pending =>
      (lo <=? Z_of_byte b) && (Z_of_byte b <=? hi) && utf8_from pending l
  | b :: l, [] =>
      match utf8_continuation (Z_of_byte b) with
      | Some pending => utf8_from pending l
      | None => false
      end
  end.
Definition utf8_Valid (l : bytes) : bool := utf8_from [] l.

Abbreviation str := String.list_byte_of_string.

(** ** types.go: [U256] wraps a [big.Int] *)

Abbreviation U256 := Z.
Abbreviation Commitment := (arr 32).

Definition NewU256 : U256 := 0.
Definition SetBigInt (n : Z) (i : U256) : U256 := n.
Definition SetUint64 (n : Z) (i : U256) : U256 := n.
Definition SetBytes (buf : Commitment) (i : U256) : U256 := Int_SetBytes buf.

(** ** Commitments *)

Definition CommitmentFromUint256 (n : U256) : res Commitment :=
  let bigEndian := Int_Bytes n in
  if (32 <? length bigEndian)%nat then Err (Errorf "integer out of range for U256 (%d)" [AInt n])
  else
    let bigEndian :=
      if (length bigEndian <? 32)%nat then zeros (32 - length bigEndian) ++ bigEndian
      else bigEndian in
    Ok (arr_of 32 bigEndian).

Definition Uint256 (c : Commitment) : U256 := SetBytes c NewU256.
Definition Commitment_Equals (c other : Commitment) : bool := bytes_Equal c other.

(** ** The builder *)

Section builder.
Context `{KK : Keccak}.

(** [RawCommitmentBuilder] holds the hasher; a method changes it and returns it. *)
Abbreviation RawCommitmentBuilder := KeccakState.

(** [b.hasher.Write(bytes)], its results ignored. *)
Definition write_ignored (b : bytes) : M RawCommitmentBuilder unit := fun s =>
  (fst (hasher_Write b s), Ok tt).

Definition FixedSizeBytes (b : bytes) : M RawCommitmentBuilder unit := write_ignored b.

(** [io.WriteString(b.hasher, s)]; an error is a panic. *)
Definition write_or_panic (s : bytes) : M RawCommitmentBuilder unit := fun h =>
  match hasher_Write s h with
  | (h', Ok _) => (h', Ok tt)
  | (h', _) => (h', Panic (PMessage "KeccakState Writer is not supposed to fail"))
  end.

Definition ConstantString (s : bytes) : M RawCommitmentBuilder unit :=
  if negb (utf8_Valid s) then
    gopanic (PMessage "ConstantString must only be called with valid UTF-8 strings")
  else
    write_or_panic s;; FixedSizeBytes [xc0; x7f].

Definition builder_Uint64 (n : Z) : M RawCommitmentBuilder unit :=
  b ← lift (PutUint64 n (zeros 8));
  FixedSizeBytes b.

Definition Field (f : bytes) (c : Commitment) : M RawCommitmentBuilder unit :=
  ConstantString f;; FixedSizeBytes c.

Definition OptionalField (f : bytes) (c : option Commitment) : M RawCommitmentBuilder unit :=
  ConstantString f;;
  match c with
  | None => builder_Uint64 0
  | Some c => builder_Uint64 1;; FixedSizeBytes c
  end.

Definition builder_Uint256 (n : U256) : M RawCommitmentBuilder unit :=
  b ← lift (Int_FillBytes n (zeros 32));
  FixedSizeBytes b.

Definition Uint256Field (f : bytes) (n : U256) : M RawCommitmentBuilder unit :=
  ConstantString f;; builder_Uint256 n.

Definition Uint64Field (f : bytes) (n : Z) : M RawCommitmentBuilder unit :=
  ConstantString f;; builder_Uint64 n.

Definition FixedSizeField (f b : bytes) : M RawCommitmentBuilder unit :=
  ConstantString f;; FixedSizeBytes b.

Definition VarSizeBytes (b : bytes) : M RawCommitmentBuilder unit :=
  builder_Uint64 (u64 (Z.of_nat (length b)));;
  write_ignored b.

Definition VarSizeField (f b : bytes) : M RawCommitmentBuilder unit :=
  ConstantString f;; VarSizeBytes b.

Definition Finalize : M RawCommitmentBuilder Commitment := fun s =>
  (s, Ok (arr_of 32 (hasher_Sum s []))).

(** [NewRawCommitmentBuilder(name)], followed by the rest of a chain of calls. *)
Definition NewRawCommitmentBuilder {A} (name : bytes) (chain : M RawCommitmentBuilder A) : res A :=
  snd ((ConstantString name;; chain) NewKeccakState).
End builder.

(** ** Headers *)

Record NmtRoot := { Root : bytes }.

Record Header := {
  Height : Z;
  Timestamp : Z;
  L1Head : Z;
  TransactionsRoot : NmtRoot
}.

Definition NmtRoot_Commit `{Keccak} (r : NmtRoot) : res Commitment :=
  NewRawCommitmentBuilder (str "NMTROOT") (
    VarSizeField (str "root") (Root r);;
    Finalize).

Definition Header_Commit `{Keccak} (h : Header) : res Commitment :=
  root ← NmtRoot_Commit (TransactionsRoot h);
  NewRawCommitmentBuilder (str "BLOCK") (
    Uint64Field (str "height") (Height h);;
    Uint64Field (str "timestamp") (Timestamp h);;
    Uint64Field (str "l1_head") (L1Head h);;
    Field (str "transactions_root") root;;
    Finalize).

(** ** The separator *)

(** A valid UTF-8 string has no byte 0xC0. *)
Lemma utf8_from_C0 pending l :
  Forall (fun r => snd r < 0xC0) pending -> utf8_from pending l = true -> xc0 ∉ l.
Proof.
  revert pending. induction l as [|b l IH]; intros pending Hp Hv; [apply not_elem_of_nil|].
  apply not_elem_of_cons. destruct pending as [|[lo hi] pending]; cbn [utf8_from] in Hv.
  - destruct (utf8_continuation _) as [p|] eqn:E; [|done].
    split; [intros <-; by vm_compute in E|]. apply (IH p); [|done].
    revert E. unfold utf8_continuation.
    cbv zeta. repeat case_match; (intros Heq; first [discriminate Heq|injection Heq as <-]);
      repeat constructor; simpl; lia.
  - apply Forall_cons in Hp as [Hhi Hp]. cbn [snd] in Hhi.
    apply andb_prop in Hv as [Hv Hl]. apply andb_prop in Hv as [Hlo Hle].
    split; [intros <-; vm_compute Z_of_byte in Hle; lia|]. by apply (IH pending).
Qed.

Lemma app_sep_inj {A} (x : A) l1 l2 r1 r2 :
  x ∉ l1 -> x ∉ l2 -> l1 ++ x :: r1 = l2 ++ x :: r2 -> l1 = l2 /\ r1 = r2.
Proof.
  revert l2. induction l1 as [|a l1 IH]; intros [|b l2] H1 H2; simpl;
    rewrite ?not_elem_of_cons in *.
  - by intros [= ->].
  - intros [= <- _]. tauto.
  - intros [= -> _]. tauto.
  - intros [= <- Heq]. destruct H1 as [_ H1], H2 as [_ H2].
    by destruct (IH l2 H1 H2 Heq) as [-> ->].
Qed.

Definition separator : bytes := [xc0; x7f].

Lemma utf8_separated s1 s2 r1 r2 :
  utf8_Valid s1 = true -> utf8_Valid s2 = true ->
  s1 ++ separator ++ r1 = s2 ++ separator ++ r2 -> s1 = s2 /\ r1 = r2.
Proof.
  intros H1 H2 Heq. apply app_sep_inj in Heq as [-> [= ->]]; [done| |];
    by eapply utf8_from_C0; [apply Forall_nil|].
Qed.

(** ** What a chain of calls writes *)

Section absorbs.
Context `{KK : Keccak} {KS : KeccakSpec}.
Implicit Types (s : KeccakState).

(** [m] succeeds and writes [w]. *)
Definition absorbs (m : M KeccakState unit) (w : bytes) : Prop :=
  forall s, wp m s (fun s' r => r = Ok tt /\ absorbed s' = absorbed s ++ w).

Lemma absorbs_bind m1 m2 w1 w2 :
  absorbs m1 w1 -> absorbs m2 w2 -> absorbs (m1;; m2) (w1 ++ w2).
Proof.
  intros H1 H2 s. apply wp_bind. eapply wp_conseq; [apply H1|]. intros s1 r [-> Ha].
  eapply wp_conseq; [apply H2|]. intros s2 r [-> Hb]. by rewrite Hb, Ha, <- app_assoc.
Qed.

Lemma absorbs_write b : absorbs (write_ignored b) b.
Proof.
  intros s. pose proof (Write_absorbs b s) as Hw. unfold write_ignored, wp in *. cbn [fst snd].
  by destruct Hw as [_ ->].
Qed.

Lemma absorbs_lift_bytes (r : res bytes) b : r = Ok b -> absorbs (b ← lift r; FixedSizeBytes b) b.
Proof. intros -> s. apply absorbs_write. Qed.

Lemma ConstantString_absorbs f : utf8_Valid f = true -> absorbs (ConstantString f) (f ++ separator).
Proof.
  intros Hv. unfold ConstantString. rewrite Hv. cbn [negb].
  apply absorbs_bind; [|apply absorbs_write]. intros s.
  pose proof (Write_absorbs f s) as Hw. unfold write_or_panic, wp in *.
  destruct (hasher_Write f s) as [s1 r]. cbn [fst snd] in *. by destruct Hw as [-> Ha].
Qed.

Lemma builder_Uint64_absorbs n : absorbs (builder_Uint64 n) (be_enc 8 n).
Proof. apply absorbs_lift_bytes. done. Qed.

Lemma builder_Uint256_absorbs n :
  Z.abs n < 2 ^ 256 -> (byte_len n <= 32)%nat -> absorbs (builder_Uint256 n) (be_enc 32 (Z.abs n)).
Proof.
  intros _ Hl. apply absorbs_lift_bytes. unfold Int_FillBytes, zeros. rewrite length_replicate.
  by rewrite (proj2 (Nat.leb_le _ _) Hl).
Qed.

Lemma VarSizeBytes_absorbs b :
  absorbs (VarSizeBytes b) (be_enc 8 (u64 (Z.of_nat (length b))) ++ b).
Proof. apply absorbs_bind; [apply builder_Uint64_absorbs|apply absorbs_write]. Qed.

(** A chain that ends in [Finalize] returns the hash of what it wrote. *)
Definition finishes (m : M KeccakState Commitment) (w : bytes) : Prop :=
  forall s, snd (m s) = Ok (arr_of 32 (keccak256 (absorbed s ++ w))).

Lemma Finalize_finishes : finishes Finalize [].
Proof. intros s. unfold Finalize. cbn [snd]. by rewrite Sum_digest, app_nil_r. Qed.

Lemma finishes_bind m1 m2 w1 w2 : absorbs m1 w1 -> finishes m2 w2 -> finishes (m1;; m2) (w1 ++ w2).
Proof.
  intros H1 H2 s. specialize (H1 s). unfold wp in H1. unfold mbind, M_bind.
  destruct (m1 s) as [s1 r]. cbn [fst snd] in H1. destruct H1 as [-> Ha].
  by rewrite H2, Ha, app_assoc.
Qed.

Lemma builder_run name m w :
  utf8_Valid name = true -> finishes m w ->
  NewRawCommitmentBuilder name m = Ok (arr_of 32 (keccak256 ((name ++ separator) ++ w))).
Proof.
  intros Hn Hm. unfold NewRawCommitmentBuilder.
  by rewrite (finishes_bind _ _ _ _ (ConstantString_absorbs name Hn) Hm), absorbed_New.
Qed.

Lemma Uint64Field_absorbs f n :
  utf8_Valid f = true -> absorbs (Uint64Field f n) ((f ++ separator) ++ be_enc 8 n).
Proof.
  intros. apply absorbs_bind; [by apply ConstantString_absorbs|apply builder_Uint64_absorbs].
Qed.

(** The bytes the two commitments hash. *)
Definition nmt_preimage (r : NmtRoot) : bytes :=
  (str "NMTROOT" ++ separator) ++
  ((str "root" ++ separator) ++ be_enc 8 (u64 (Z.of_nat (length (Root r)))) ++ Root r) ++ [].

Definition header_preimage (h : Header) (root : Commitment) : bytes :=
  (str "BLOCK" ++ separator) ++
  ((str "height" ++ separator) ++ be_enc 8 (Height h)) ++
  ((str "timestamp" ++ separator) ++ be_enc 8 (Timestamp h)) ++
  ((str "l1_head" ++ separator) ++ be_enc 8 (L1Head h)) ++
  ((str "transactions_root" ++ separator) ++ arr_list root) ++ [].

Lemma NmtRoot_Commit_eq r : NmtRoot_Commit r = Ok (arr_of 32 (keccak256 (nmt_preimage r))).
Proof.
  apply builder_run; [done|]. apply finishes_bind; [|apply Finalize_finishes].
  apply absorbs_bind; [by apply ConstantString_absorbs|apply VarSizeBytes_absorbs].
Qed.

Lemma Header_Commit_eq h root :
  NmtRoot_Commit (TransactionsRoot h) = Ok root ->
  Header_Commit h = Ok (arr_of 32 (keccak256 (header_preimage h root))).
Proof.
  intros Hr. unfold Header_Commit. rewrite Hr, bind_Ok. apply builder_run; [done|].
  repeat (apply finishes_bind; [by apply Uint64Field_absorbs|]).
  apply finishes_bind; [|apply Finalize_finishes].
  apply absorbs_bind; [by apply ConstantString_absorbs|apply absorbs_write].
Qed.
End absorbs.

(** ** The 32 bytes of an integer *)

Lemma byte_len_bound z n : (byte_len z <= n)%nat <-> Z.abs z < 256 ^ Z.of_nat n.
Proof.
  unfold byte_len. pose proof (pow256_pos n). pose proof (Z.abs_nonneg z).
  destruct (Z.eqb_spec (Z.abs z) 0) as [->|Hz]; [lia|].
  replace (256 ^ Z.of_nat n) with (2 ^ (8 * Z.of_nat n)) by (rewrite Z.pow_mul_r by lia; done).
  pose proof (Z.log2_nonneg (Z.abs z)). rewrite Z.log2_lt_pow2 by lia.
  pose proof (Z.div_mod (Z.log2 (Z.abs z)) 8 ltac:(lia)).
  pose proof (Z.mod_pos_bound (Z.log2 (Z.abs z)) 8 ltac:(lia)). lia.
Qed.

Lemma be_dec_zeros n l : be_dec (zeros n ++ l) = be_dec l.
Proof.
  induction n as [|n IH]; [done|].
  change (Z_of_byte x00 * 256 ^ Z.of_nat (length (zeros n ++ l)) + be_dec (zeros n ++ l) = be_dec l).
  change (Z_of_byte x00) with 0. lia.
Qed.

Lemma be_dec_Int_Bytes z : be_dec (Int_Bytes z) = Z.abs z.
Proof.
  unfold Int_Bytes. apply be_dec_enc_small. split; [lia|]. by apply byte_len_bound.
Qed.

(** The padded bytes are the 32 of the integer. *)
Lemma pad_be n :
  (byte_len n <= 32)%nat -> zeros (32 - byte_len n) ++ Int_Bytes n = be_enc 32 (Z.abs n).
Proof.
  intros Hl. pose proof (proj1 (byte_len_bound n 32) Hl).
  apply be_dec_inj.
  - rewrite length_app, length_be_enc. unfold Int_Bytes, zeros.
    rewrite length_be_enc, length_replicate. lia.
  - rewrite be_dec_zeros, be_dec_Int_Bytes, be_dec_enc_small; [done|]. lia.
Qed.

Lemma CommitmentFromUint256_eq n :
  CommitmentFromUint256 n =
  if Z.abs n <? 2 ^ 256 then Ok (arr_of 32 (be_enc 32 (Z.abs n)))
  else Err (Errorf "integer out of range for U256 (%d)" [AInt n]).
Proof.
  unfold CommitmentFromUint256. cbv zeta. unfold Int_Bytes at 1 2 3. rewrite length_be_enc.
  pose proof (byte_len_bound n 32) as Hb. change (256 ^ Z.of_nat 32) with (2 ^ 256) in Hb.
  destruct (Nat.ltb_spec 32 (byte_len n)), (Z.ltb_spec (Z.abs n) (2 ^ 256)); try lia; [done|].
  rewrite <- pad_be by lia. destruct (Nat.ltb_spec (byte_len n) 32); [done|].
  by replace (32 - byte_len n)%nat with O by lia.
Qed.

Lemma CommitmentFromUint256_Uint256 (c : Commitment) : CommitmentFromUint256 (Uint256 c) = Ok c.
Proof.
  rewrite CommitmentFromUint256_eq. unfold Uint256, SetBytes, Int_SetBytes.
  pose proof (be_dec_bound c) as Hc. rewrite length_arr in Hc.
  change (256 ^ Z.of_nat 32) with (2 ^ 256) in Hc. rewrite Z.abs_eq by lia.
  rewrite (proj2 (Z.ltb_lt _ _)) by lia. f_equal. apply arr_eq.
  rewrite arr_of_list by apply length_be_enc.
  rewrite <- (length_arr c) at 1. apply be_enc_dec.
Qed.

(** The two conversions between commitments and integers. Every commitment
    is the commitment of its integer, leading zeros included; an integer of at
    most 256 bits is converted to a commitment whose integer is its absolute
    value, and a longer one is refused; none panics. *)
Theorem CommitmentFromUint256_roundtrip (c : Commitment) (n : U256) :
  CommitmentFromUint256 (Uint256 c) = Ok c /\
  (if Z.abs n <? 2 ^ 256
   then exists c', CommitmentFromUint256 n = Ok c' /\ Uint256 c' = Z.abs n
   else exists e, CommitmentFromUint256 n = Err e).
Proof.
  split; [apply CommitmentFromUint256_Uint256|]. rewrite CommitmentFromUint256_eq.
  destruct (Z.ltb_spec (Z.abs n) (2 ^ 256)) as [Hn|]; [|eauto]. eexists. split; [done|].
  unfold Uint256, SetBytes, Int_SetBytes.
  rewrite arr_of_list by apply length_be_enc. apply be_dec_enc_small.
  change (256 ^ Z.of_nat 32) with (2 ^ 256). lia.
Qed.

(** ** Domain separation and binding *)

Section binding.
Context `{KK : Keccak} {KS : KeccakSpec}.

(** The end marker of a constant string separates it from what follows.
    [ConstantString] panics on what is not UTF-8; otherwise it writes bytes
    that, whatever is written after them, no other valid string followed by
    anything gives. *)
Theorem ConstantString_separates (f : bytes) (s : KeccakState) :
  wp (ConstantString f) s (fun s' o =>
    if utf8_Valid f then
      o = Ok tt /\
      forall g rest rest' s2, ConstantString g s = (s2, Ok tt) ->
        absorbed s' ++ rest = absorbed s2 ++ rest' -> f = g /\ rest = rest'
    else is_panic o = true).
Proof.
  destruct (utf8_Valid f) eqn:Hf; [|by unfold ConstantString; rewrite Hf].
  eapply wp_conseq; [by apply ConstantString_absorbs|]. intros s' r [-> Ha]. split; [done|].
  intros g rest rest' s2 Hg Heq. destruct (utf8_Valid g) eqn:Hv.
  - pose proof (ConstantString_absorbs g Hv s) as Hag. unfold wp in Hag. rewrite Hg in Hag.
    destruct Hag as [_ Hag]. cbn [fst] in Hag. rewrite Ha, Hag, <- !app_assoc in Heq.
    apply app_inv_head in Heq. by apply utf8_separated in Heq.
  - unfold ConstantString in Hg. by rewrite Hv in Hg.
Qed.

Definition header_wf (h : Header) : Prop :=
  is_u64 (Height h) /\ is_u64 (Timestamp h) /\ is_u64 (L1Head h) /\
  Z.of_nat (length (Root (TransactionsRoot h))) < u64_mod.

(** Two inputs on which the hash collides. *)
Definition collides (x y : bytes) : Prop := x <> y /\ keccak256 x = keccak256 y.

Lemma digest_inj x y :
  arr_of 32 (keccak256 x) = arr_of 32 (keccak256 y) -> x = y \/ collides x y.
Proof.
  intros Heq%(f_equal arr_list). rewrite !arr_of_list in Heq by apply length_keccak256.
  destruct (decide (x = y)) as [|Hne]; [by left|by right].
Qed.

Lemma nmt_preimage_inj r1 r2 :
  Z.of_nat (length (Root r1)) < u64_mod -> Z.of_nat (length (Root r2)) < u64_mod ->
  nmt_preimage r1 = nmt_preimage r2 -> r1 = r2.
Proof.
  unfold nmt_preimage. rewrite !app_nil_r. intros H1 H2 Heq.
  apply app_inv_head, app_inv_head, app_inj_1 in Heq as [_ Heq]; [|by rewrite !length_be_enc].
  destruct r1, r2. by f_equal.
Qed.

Lemma field_inj (n : bytes) a b x y :
  is_u64 a -> is_u64 b -> (n ++ be_enc 8 a) ++ x = (n ++ be_enc 8 b) ++ y -> a = b /\ x = y.
Proof.
  intros Ha Hb Heq. rewrite <- !app_assoc in Heq.
  apply app_inv_head, app_inj_1 in Heq as [Heq ->]; [|by rewrite !length_be_enc].
  split; [exact (be_enc_inj 8 a b Ha Hb Heq)|done].
Qed.

Lemma header_preimage_inj h1 h2 root1 root2 :
  header_wf h1 -> header_wf h2 -> header_preimage h1 root1 = header_preimage h2 root2 ->
  Height h1 = Height h2 /\ Timestamp h1 = Timestamp h2 /\ L1Head h1 = L1Head h2 /\ root1 = root2.
Proof.
  intros (Ha1 & Ha2 & Ha3 & _) (Hb1 & Hb2 & Hb3 & _). unfold header_preimage.
  intros Heq%app_inv_head.
  destruct (field_inj _ _ _ _ _ Ha1 Hb1 Heq) as [-> Heq1].
  destruct (field_inj _ _ _ _ _ Ha2 Hb2 Heq1) as [-> Heq2].
  destruct (field_inj _ _ _ _ _ Ha3 Hb3 Heq2) as [-> Heq3].
  rewrite !app_nil_r in Heq3. by apply app_inv_head, arr_eq in Heq3.
Qed.

(** C35: A commitment binds its header. Committing to a header never fails and
    never panics; two headers with the same commitment are the same header,
    unless the hash collides on the bytes written for their transaction roots
    or on those written for the headers. *)
Theorem Header_Commit_binding (h1 h2 : Header) :
  header_wf h1 -> header_wf h2 ->
  exists r1 r2 c1 c2,
    NmtRoot_Commit (TransactionsRoot h1) = Ok r1 /\ NmtRoot_Commit (TransactionsRoot h2) = Ok r2 /\
    Header_Commit h1 = Ok c1 /\ Header_Commit h2 = Ok c2 /\
    (c1 = c2 ->
     h1 = h2 \/
     collides (nmt_preimage (TransactionsRoot h1)) (nmt_preimage (TransactionsRoot h2)) \/
     collides (header_preimage h1 r1) (header_preimage h2 r2)).
Proof.
  intros H1 H2.
  pose proof (NmtRoot_Commit_eq (TransactionsRoot h1)) as Hr1.
  pose proof (NmtRoot_Commit_eq (TransactionsRoot h2)) as Hr2.
  do 4 eexists. split_and!; [exact Hr1|exact Hr2|by apply Header_Commit_eq|by apply Header_Commit_eq|].
  intros [Heq|Hc]%digest_inj; [|by auto].
  apply header_preimage_inj in Heq as (Hh & Ht & Hl & Hr); [|done|done].
  apply digest_inj in Hr as [Hr|Hc]; [|by auto].
  apply nmt_preimage_inj in Hr; [|by apply H1|by apply H2].
  left. destruct h1, h2; simpl in *. by subst.
Qed.
End binding.

Module CommitExamples.
(** A hash state that keeps what was written, with a 32-byte digest. *)
#[export] Instance s_keccak : Keccak := {|
  KeccakState := bytes;
  NewKeccakState := [];
  hasher_Write p s := (s ++ p, Ok (Z.of_nat (length p)));
  hasher_Sum s b := b ++ be_enc 32 (be_dec s)
|}.

#[export] Instance s_keccak_spec : KeccakSpec.
Proof.
  refine {| keccak256 p := be_enc 32 (be_dec p); absorbed s := s |}; done.
Defined.

Definition w_header (n : Z) : Header :=
  {| Height := 7; Timestamp := 1000; L1Head := n; TransactionsRoot := {| Root := [x01; x02] |} |}.

Lemma Header_Commit_binding_witness :
  exists c1 c2, Header_Commit (w_header 5) = Ok c1 /\ Header_Commit (w_header 6) = Ok c2.
Proof.
  destruct (Header_Commit_binding (w_header 5) (w_header 6)) as (_ & _ & c1 & c2 & _ & _ & H1 & H2 & _).
  - unfold header_wf. split_and!; in_range.
  - unfold header_wf. split_and!; in_range.
  - by exists c1, c2.
Defined.

Lemma ConstantString_separates_witness :
  snd (ConstantString (str "root") []) = Ok tt /\ is_panic (snd (ConstantString [xc0] [])) = true.
Proof.
  pose proof (ConstantString_separates (str "root") []) as H1.
  pose proof (ConstantString_separates [xc0] []) as H2. split; [exact (proj1 H1)|exact H2].
Defined.
End CommitExamples.
