(* ===== verification/Json.v ===== *)
(** * Json: the JSON forms of the headers

    The methods of [src/types/types.go] that encoding/json calls on an integer
    ([U256]), a root and a header. What encoding/json does between these calls
    (quoting strings, decoding objects into structures of pointers) is a
    parameter with its laws. *)

From stdpp Require Import base numbers countable gmap list strings.
From Stdlib Require Import ZArith Lia Strings.Byte Strings.Ascii Hexadecimal.
From Stdlib Require HexadecimalString HexadecimalZ HexadecimalPos.
From S2P Require Import Prelude HyperSDK Commit.

Local Open Scope Z_scope.

(** ** Hexadecimal integers (math/big, fmt) *)

(** [i.Text(16)] *)
Definition Text16 (i : U256) : string := HexadecimalString.NilEmpty.string_of_int (Z.to_hex_int i).

(** A digit in either case. *)
Definition lower (c : ascii) : ascii :=
  let n := N_of_ascii c in
  if (65 <=? n)%N && (n <=? 70)%N then ascii_of_N (n + 32) else c.

(** The digits a text starts with. *)
Fixpoint leading_digits (s : string) : uint :=
  match s with
  | EmptyString => Nil
  | String c s =>
      match HexadecimalString.uint_of_char (lower c) (Some (leading_digits s)) with
      | Some d => d
      | None => Nil
      end
  end.

(** The blanks the scanner skips: tab, vertical tab, form feed, carriage return
    and space. *)
Definition is_blank (c : ascii) : bool :=
  let n := N_of_ascii c in (n =? 9)%N || (n =? 11)%N || (n =? 12)%N || (n =? 13)%N || (n =? 32)%N.

Fixpoint skip_blanks (s : string) : string :=
  match s with
  | String c s' => if is_blank c then skip_blanks s' else s
  | EmptyString => s
  end.

Definition scan_error : error := Errorf "expected integer" [].

Definition scan_digits (s : string) : res uint :=
  match leading_digits s with
  | Nil => Err scan_error
  | d => Ok d
  end.

(** [%x] into a [big.Int]: blanks, an optional sign, digits; what follows is left. *)
Definition scan_int (s : string) : res U256 :=
  match skip_blanks s with
  | String "-" s => d ← scan_digits s; Ok (Z.of_hex_int (Neg d))
  | String "+" s => d ← scan_digits s; Ok (Z.of_hex_int (Pos d))
  | s => d ← scan_digits s; Ok (Z.of_hex_int (Pos d))
  end.

(** [fmt.Sscanf(s, "0x%x", &i.Int)] *)
Definition Sscanf_0x (s : string) : res U256 :=
  match s with
  | String "0" (String "x" s) => scan_int s
  | _ => Err (Errorf "input does not match format" [])
  end.

(** ** encoding/json *)

(** The structures the decoders of a root and of a header read into. *)
Record NmtRootDec := { rd_Root : option bytes }.
Record HeaderDec := {
  hd_Height : option Z;
  hd_Timestamp : option Z;
  hd_L1Head : option Z;
  hd_TransactionsRoot : option NmtRoot
}.

(** Decoding a header runs the decoder of its root. *)
Class Json := {
  json_Marshal_string : string -> res bytes;
  json_Unmarshal_string : bytes -> res string;
  json_Unmarshal_NmtRootDec : bytes -> res NmtRootDec;
  json_Unmarshal_HeaderDec : (bytes -> res NmtRoot) -> bytes -> res HeaderDec
}.

Definition is_ascii (s : string) : Prop := Forall (fun b => Z_of_byte b < 128) (String.list_byte_of_string s).

Class JsonSpec `{Json} : Prop :=
  Unmarshal_Marshal_string s : is_ascii s ->
    exists b, json_Marshal_string s = Ok b /\ json_Unmarshal_string b = Ok s.

Section json.
Context {JS : Json}.

(** [json.Marshal(fmt.Sprintf("0x%s", i.Text(16)))] *)
Definition U256_MarshalJSON (i : U256) : res bytes := json_Marshal_string (String.append "0x" (Text16 i)).

Definition U256_UnmarshalJSON (in_ : bytes) : M U256 unit :=
  s ← lift (json_Unmarshal_string in_);
  n ← lift (Sscanf_0x s);
  modify (fun _ => n).

(** The root is set when the field is present. *)
Definition NmtRoot_UnmarshalJSON (b : bytes) : M NmtRoot unit :=
  dec ← lift (json_Unmarshal_NmtRootDec b);
  match rd_Root dec with
  | None => throw (Errorf "Field root of type NmtRoot is required" [])
  | Some root => modify (fun _ => {| Root := root |})
  end.

Definition set_Height (v : Z) (h : Header) : Header :=
  {| Height := v; Timestamp := Timestamp h; L1Head := L1Head h; TransactionsRoot := TransactionsRoot h |}.
Definition set_Timestamp (v : Z) (h : Header) : Header :=
  {| Height := Height h; Timestamp := v; L1Head := L1Head h; TransactionsRoot := TransactionsRoot h |}.
Definition set_L1Head (v : Z) (h : Header) : Header :=
  {| Height := Height h; Timestamp := Timestamp h; L1Head := v; TransactionsRoot := TransactionsRoot h |}.
Definition set_TransactionsRoot (v : NmtRoot) (h : Header) : Header :=
  {| Height := Height h; Timestamp := Timestamp h; L1Head := L1Head h; TransactionsRoot := v |}.

(** [if dec.F == nil { return err }; h.F = *dec.F] *)
Definition required {A} (field : string) (v : option A) (set : A -> Header -> Header) : M Header unit :=
  match v with
  | None => throw (Errorf "Field %s of type Header is required" [AStr field])
  | Some v => modify (set v)
  end.

(** The root of a new [NmtRoot], decoded. *)
Definition decode_root (b : bytes) : res NmtRoot :=
  match NmtRoot_UnmarshalJSON b {| Root := [] |} with
  | (r, Ok _) => Ok r
  | (_, Err e) => Err e
  | (_, Panic p) => Panic p
  end.

Definition Header_UnmarshalJSON (b : bytes) : M Header unit :=
  dec ← lift (json_Unmarshal_HeaderDec decode_root b);
  required "height" (hd_Height dec) set_Height;;
  required "timestamp" (hd_Timestamp dec) set_Timestamp;;
  required "l1_head" (hd_L1Head dec) set_L1Head;;
  required "transactions_root" (hd_TransactionsRoot dec) set_TransactionsRoot.
End json.

(** ** Reading integers back *)

Lemma leading_digits_of d : leading_digits (HexadecimalString.NilEmpty.string_of_uint d) = d.
Proof. induction d; cbn; try done; by rewrite IHd. Qed.

Lemma string_of_uint_ascii d : is_ascii (HexadecimalString.NilEmpty.string_of_uint d).
Proof. unfold is_ascii. induction d; cbn; constructor; done. Qed.

Lemma scan_digits_of d : d <> Nil -> scan_digits (HexadecimalString.NilEmpty.string_of_uint d) = Ok d.
Proof. intros Hd. unfold scan_digits. rewrite leading_digits_of. by destruct d. Qed.

(** An unsigned numeral starts with a digit, not with a sign or a blank. *)
Lemma scan_int_pos d : d <> Nil ->
  scan_int (HexadecimalString.NilEmpty.string_of_uint d) = Ok (Z.of_hex_int (Pos d)).
Proof.
  intros Hd. pose proof (scan_digits_of d Hd) as Hs. unfold scan_int.
  replace (skip_blanks _) with (HexadecimalString.NilEmpty.string_of_uint d) by (by destruct d).
  destruct d; [done|..]; cbn [HexadecimalString.NilEmpty.string_of_uint] in *; by rewrite Hs.
Qed.

Lemma scan_int_neg d : d <> Nil ->
  scan_int (String "-" (HexadecimalString.NilEmpty.string_of_uint d)) = Ok (Z.of_hex_int (Neg d)).
Proof. intros Hd. unfold scan_int. cbn [skip_blanks]. change (is_blank "-") with false. cbv iota. by rewrite scan_digits_of. Qed.

Lemma scan_int_Text16 i : scan_int (Text16 i) = Ok i.
Proof.
  rewrite <- (HexadecimalZ.of_to i) at 2. unfold Text16.
  destruct i as [|p|p]; [done| |]; cbn [Z.to_hex_int HexadecimalString.NilEmpty.string_of_int].
  - apply scan_int_pos, HexadecimalPos.Unsigned.to_uint_nonnil.
  - apply scan_int_neg, HexadecimalPos.Unsigned.to_uint_nonnil.
Qed.

Lemma Text16_ascii i : is_ascii (String.append "0x" (Text16 i)).
Proof.
  unfold Text16. repeat (apply Forall_cons; split; [done|]).
  destruct (Z.to_hex_int i) as [d|d]; cbn [HexadecimalString.NilEmpty.string_of_int].
  - apply string_of_uint_ascii.
  - apply Forall_cons; split; [done|apply string_of_uint_ascii].
Qed.

(** An integer of any size and sign survives its JSON form, a hexadecimal text
    after [0x]: it marshals without an error, and unmarshalling the bytes gives
    it back whatever the receiver held. *)
Theorem U256_JSON_roundtrip {JS : Json} {JSS : JsonSpec} (i j : U256) :
  exists b, U256_MarshalJSON i = Ok b /\ U256_UnmarshalJSON b j = (i, Ok tt).
Proof.
  destruct (Unmarshal_Marshal_string _ (Text16_ascii i)) as (b & Hm & Hu). exists b. split; [exact Hm|].
  unfold U256_UnmarshalJSON. rewrite Hu, bind_lift_Ok. 
  change (Sscanf_0x (String.append "0x" (Text16 i))) with (scan_int (Text16 i)).
  by rewrite scan_int_Text16, bind_lift_Ok.
Qed.

(** What decoding a header does, in terms of the fields that were present. *)
Definition header_of (dec : HeaderDec) : option Header :=
  h ← hd_Height dec; t ← hd_Timestamp dec; l ← hd_L1Head dec; r ← hd_TransactionsRoot dec;
  Some {| Height := h; Timestamp := t; L1Head := l; TransactionsRoot := r |}.

(** A header is decoded whole or not at all as far as its caller can tell.
    When the bytes decode to an object, [UnmarshalJSON] succeeds exactly when
    all four fields are present, and then the header is those fields, whatever
    it held; when one is missing, it is an error (with the fields before it
    already set), never a panic; when the bytes do not decode, the header is
    unchanged. *)
Theorem Header_UnmarshalJSON_spec {JS : Json} (b : bytes) (h : Header) :
  wp (Header_UnmarshalJSON b) h (fun h' o =>
    match json_Unmarshal_HeaderDec decode_root b with
    | Ok dec =>
        match header_of dec with
        | Some full => o = Ok tt /\ h' = full
        | None => (exists e, o = Err e) /\
            (hd_Height dec = None -> h' = h)
        end
    | Err e => o = Err e /\ h' = h
    | Panic p => o = Panic p /\ h' = h
    end).
Proof.
  unfold Header_UnmarshalJSON, wp, header_of.
  destruct (json_Unmarshal_HeaderDec decode_root b) as [[[x|] [t|] [l|] [r|]]|e|p]; cbn; eauto;
    split; (eauto || done).
Qed.
