(* ===== verification/Archiver.v ===== *)
(** * Archiver: the table of accepted blocks

    [src/archiver/orm_archiver.go] and the request and response types of
    [src/types/types.go] it answers with. The object-relational mapper and its
    database (gorm) are parameters; a query's SQL condition is translated into
    a predicate on rows. *)

From stdpp Require Import base numbers countable gmap list strings sorting.
From Stdlib Require Import ZArith Lia Strings.Byte.
From S2P Require Import Prelude HyperSDK Sample Genesis Registry Block Commit.

Local Open Scope Z_scope.

(** A row of the table; [db_ID] is the primary key of [gorm.Model]. *)
Record DBBlock := {
  db_ID : Z;
  db_BlockID : string;
  db_Parent : string;
  db_Timestamp : Z;
  db_Height : Z;
  db_L1Head : Z;
  db_Bytes : bytes
}.

(** [var dbBlock DBBlock] *)
Definition zero_row : DBBlock :=
  {| db_ID := 0; db_BlockID := ""; db_Parent := ""; db_Timestamp := 0; db_Height := 0;
     db_L1Head := 0; db_Bytes := [] |}.

(** ** Conditions and orders of the queries *)

Inductive column := height | timestamp.

Definition column_of (c : column) (b : DBBlock) : Z :=
  match c with
  | height => db_Height b
  | timestamp => db_Timestamp b
  end.

Inductive cond :=
  | block_id_eq (id : string)
  | col_eq (c : column) (v : Z)
  | col_ge (c : column) (v : Z)
  | col_lt (c : column) (v : Z)
  | col_le (c : column) (v : Z)
  | AND (a b : cond).

Fixpoint holds (c : cond) (b : DBBlock) : bool :=
  match c with
  | block_id_eq id => bool_decide (db_BlockID b = id)
  | col_eq c v => column_of c b =? v
  | col_ge c v => v <=? column_of c b
  | col_lt c v => column_of c b <? v
  | col_le c v => column_of c b <=? v
  | AND c1 c2 => holds c1 b && holds c2 b
  end.

(** ** gorm *)

Inductive dialector :=
  | postgres_New (DSN : string) (PreferSimpleProtocol : bool)
  | sqlite_Open (DSN : string).

Class Gorm := {
  DB : Type;
  DBTx : Type;
  gorm_Open : dialector -> res DB;
  AutoMigrate : M DB unit;
  (** a transaction holds a connection of the pool until it ends; while none is
      free, [Begin] waits *)
  can_Begin : DB -> bool;
  Begin : DB -> DB * DBTx;
  tx_Create : DBBlock -> M DBTx unit;
  tx_Delete : DBBlock -> M DBTx unit;
  tx_Rollback : DBTx -> DB -> DB;
  tx_Commit : DBTx -> M DB unit;
  (** [Where(c).Order(o).Limit(n).Find(&list)] *)
  Find_all : DB -> cond -> column -> option Z -> res (list DBBlock);
  (** [Where(c).Find(&row)]: without a match the row keeps its value *)
  Find_one : DB -> cond -> res (option DBBlock);
  (** [Where(c).Order(o).First(&row)]: without a match an error *)
  First : DB -> cond -> column -> res DBBlock;
  (** [First(&row)]: by the primary key of the row, if it has one *)
  First_row : DB -> DBBlock -> res DBBlock
}.

(** The row [b] with the primary key the database gave it. *)
Definition stored (b : DBBlock) (i : Z) : DBBlock :=
  {| db_ID := i; db_BlockID := db_BlockID b; db_Parent := db_Parent b;
     db_Timestamp := db_Timestamp b; db_Height := db_Height b; db_L1Head := db_L1Head b;
     db_Bytes := db_Bytes b |}.

Class GormSpec `{Gorm} := {
  rows : DB -> list DBBlock;
  created : DBTx -> list DBBlock;
  (** the columns declared unique, and their types *)
  rows_BlockID d : NoDup (db_BlockID <$> rows d);
  rows_Height d : NoDup (db_Height <$> rows d);
  rows_u64 d : Forall (fun b => is_u64 (db_Height b)) (rows d);
  (** connections that transactions hold, of at most [pool_limit]; [holds_conn]
      counts that of a transaction, which has none if [Begin] failed *)
  in_use : DB -> nat;
  pool_limit : option nat;
  holds_conn : DBTx -> nat;
  can_Begin_spec d : can_Begin d = match pool_limit with None => true | Some n => (in_use d <? n)%nat end;
  Begin_rows d : rows (fst (Begin d)) = rows d;
  created_Begin d : created (snd (Begin d)) = [];
  in_use_Begin d : in_use (fst (Begin d)) = (in_use d + holds_conn (snd (Begin d)))%nat;
  holds_conn_Create b t : holds_conn (fst (tx_Create b t)) = holds_conn t;
  in_use_Commit t d : in_use (fst (tx_Commit t d)) = (in_use d - holds_conn t)%nat;
  in_use_Rollback t d : in_use (tx_Rollback t d) = (in_use d - holds_conn t)%nat;
  Create_Ok b t t' : tx_Create b t = (t', Ok tt) -> created t' = created t ++ [b];
  Commit_Ok t d d' : tx_Commit t d = (d', Ok tt) ->
    exists new, rows d' = rows d ++ new /\ Forall2 (fun b r => exists i, r = stored b i) (created t) new;
  Commit_Err t d d' e : tx_Commit t d = (d', Err e) -> rows d' = rows d;
  rows_Rollback t d : rows (tx_Rollback t d) = rows d;
  Find_all_spec d c o lim l : Find_all d c o lim = Ok l ->
    exists full, full ≡ₚ filter (fun b => holds c b = true) (rows d) /\
      StronglySorted (fun a b => column_of o a <= column_of o b) full /\
      match lim with
      | None => l = full
      | Some n => exists k, l = take k full /\ (0 < n -> k = Z.to_nat n)
      end;
  Find_one_spec d c r : Find_one d c = Ok r ->
    match r with
    | Some b => b ∈ rows d /\ holds c b = true
    | None => forall b, b ∈ rows d -> holds c b = false
    end;
  First_Ok d c o b : First d c o = Ok b ->
    b ∈ rows d /\ holds c b = true /\
    forall b', b' ∈ rows d -> holds c b' = true -> column_of o b <= column_of o b';
  Create_no_panic b t : is_panic (snd (tx_Create b t)) = false;
  Commit_no_panic t d : is_panic (snd (tx_Commit t d)) = false;
  gorm_no_panic_all d c o lim : is_panic (Find_all d c o lim) = false;
  gorm_no_panic_one d c : is_panic (Find_one d c) = false;
  gorm_no_panic_first d c o : is_panic (First d c o) = false
}.

(** ** types.go: requests and responses *)

Record BlockInfo := {
  bi_BlockID : string;
  bi_Timestamp : Z;
  bi_L1Head : Z;
  bi_Height : Z
}.
Definition BlockInfo_zero : BlockInfo :=
  {| bi_BlockID := ""; bi_Timestamp := 0; bi_L1Head := 0; bi_Height := 0 |}.

Record BlockHeadersResponse := {
  hr_From : Z;
  hr_Blocks : list BlockInfo;
  hr_Prev : BlockInfo;
  hr_Next : BlockInfo
}.

Record GetBlockHeadersIDArgs := { ha_ID : string; ha_EndTimeStamp : Z }.
Record GetBlockHeadersByHeightArgs := { hh_Height : Z; hh_EndTimeStamp : Z }.
Record GetBlockHeadersByStartTimeStampArgs := { hs_StartTimeStamp : Z; hs_EndTimeStamp : Z }.
Record GetBlockCommitmentArgs := { ca_First : Z; ca_CurrentHeight : Z; ca_MaxBlocks : Z }.

Record SequencerWarpBlock := {
  wb_BlockID : string;
  wb_Timestamp : Z;
  wb_L1Head : Z;
  wb_Height : Z;
  wb_BlockRoot : Z;
  wb_ParentRoot : Z
}.
Abbreviation SequencerWarpBlockResponse := (list SequencerWarpBlock).

(** ** Opening the archive *)

Record ORMArchiverConfig := { ac_Enabled : bool; ArchiverType : string; DSN : string }.

(** [strings.ToLower], on the letters whose lower case is an ASCII letter: the
    capitals, the dotted capital I and the Kelvin sign. *)
Fixpoint ToLower (l : bytes) : bytes :=
  match l with
  | [] => []
  | xc4 :: xb0 :: l => "i"%byte :: ToLower l
  | xe2 :: x84 :: xaa :: l => "k"%byte :: ToLower l
  | b :: l =>
      (if (0x41 <=? Z_of_byte b) && (Z_of_byte b <=? 0x5A) then byte_of_Z (Z_of_byte b + 0x20) else b)
      :: ToLower l
  end.

Section archiver.
Context `{HC : HyperConsts} {BK : Blocks} {GO : Gorm} {KK : Keccak}.

(** A failed migration ends the process. *)
Definition NewORMArchiver (db : DB) : res DB :=
  match AutoMigrate db with
  | (db, Ok _) => Ok db
  | (_, Err e) => Panic (PMessage "failed to migrate db")
  | (_, Panic p) => Panic p
  end.

Definition dialector_of (conf : ORMArchiverConfig) : dialector :=
  let ty := ToLower (str (ArchiverType conf)) in
  if bytes_Equal ty (str "postgresql") then postgres_New (DSN conf) true
  else if bytes_Equal ty (str "sqlite") then sqlite_Open (DSN conf)
  else sqlite_Open "default.db".

Definition NewORMArchiverFromConfig (conf : ORMArchiverConfig) : res DB :=
  db ← gorm_Open (dialector_of conf);
  NewORMArchiver db.

Definition NewORMArchiverFromConfigBytes (json_Unmarshal : bytes -> res ORMArchiverConfig)
    (configBytes : bytes) : res DB :=
  conf ← json_Unmarshal configBytes;
  db ← gorm_Open (dialector_of conf);
  NewORMArchiver db.

(** ** Blocks in and out *)

Definition new_row (block : StatelessBlock) (blkBytes : bytes) : DBBlock := {|
  db_ID := 0;
  db_BlockID := ID_String (blk_ID block);
  db_Parent := ID_String (blk_Prnt block);
  db_Timestamp := blk_Tmstmp block;
  db_Height := blk_Hght block;
  db_L1Head := blk_L1Head block;
  db_Bytes := blkBytes
|}.

(** [tx := oa.db.Begin()] *)
Definition db_Begin : M DB DBTx := fun db => let '(db, tx) := Begin db in (db, Ok tx).

Definition InsertBlock (block : StatelessBlock) : M DB unit :=
  blkBytes ← lift (StatelessBlock_Marshal block);
  tx ← db_Begin;
  match tx_Create (new_row block blkBytes) tx with
  | (tx, Ok _) => tx_Commit tx
  | (tx, Err e) => modify (tx_Rollback tx);; throw e
  | (tx, Panic p) => gopanic p
  end.

(** [GetBlock(dbBlock, parser)] fills the row it is given. *)
Definition GetBlock (db : DB) (p : chain_Parser) : M DBBlock (StatefulBlock * ID) :=
  dbBlock ← get;
  found ← lift (First_row db dbBlock);
  modify (fun _ => found);;
  blk ← lift (UnmarshalBlock (db_Bytes found) p);
  id ← lift (ids_FromString (db_BlockID found));
  mret (blk, id).

(** [var row DBBlock; db.Where(c).Find(&row)] *)
Definition find_row (db : DB) (c : cond) : res DBBlock :=
  r ← Find_one db c;
  Ok (default zero_row r).

Definition GetBlockByID (db : DB) (id : string) (p : chain_Parser) : res StatefulBlock :=
  dbBlock ← find_row db (block_id_eq id);
  UnmarshalBlock (db_Bytes dbBlock) p.

Definition GetBlockByHeight (db : DB) (h : Z) (p : chain_Parser) : res StatefulBlock :=
  dbBlock ← find_row db (col_eq height h);
  UnmarshalBlock (db_Bytes dbBlock) p.

(** Deleting does not roll back when it fails. *)
Definition DeleteBlock (dbBlock : DBBlock) : M DB bool :=
  tx ← db_Begin;
  match tx_Delete dbBlock tx with
  | (tx, Ok _) => tx_Commit tx;; mret true
  | (_, Err e) => throw e
  | (_, Panic p) => gopanic p
  end.

(** ** Ranges of headers *)

Definition block_info (b : DBBlock) : BlockInfo := {|
  bi_BlockID := db_BlockID b;
  bi_Timestamp := db_Timestamp b;
  bi_L1Head := u64 (db_L1Head b);
  bi_Height := db_Height b
|}.

(** The block before the range. *)
Definition prev_info (db : DB) (first : Z) : res BlockInfo :=
  if 1 <? first then
    prevBlock ← find_row db (col_eq height (u64 (first - 1)));
    Ok (block_info prevBlock)
  else Ok BlockInfo_zero.

(** The loop over the rows of the range: each height follows the last one. *)
Fixpoint append_infos (fail : Z -> Z -> error) (blocks : list DBBlock) (acc : list BlockInfo)
    : res (list BlockInfo) :=
  match blocks with
  | [] => Ok acc
  | block :: blocks =>
      let blkInfo := block_info block in
      match last acc with
      | Some l =>
          if negb (u64 (bi_Height blkInfo - 1) =? bi_Height l)
          then Err (fail (bi_Height blkInfo) (bi_Height l))
          else append_infos fail blocks (acc ++ [blkInfo])
      | None => append_infos fail blocks (acc ++ [blkInfo])
      end
  end.

(** The rows of the range, and the first block after it. *)
Definition range_infos (fail : Z -> Z -> error) (db : DB) (first end_ : Z) : res (list BlockInfo) :=
  blocks ← Find_all db (AND (col_ge height first) (col_lt timestamp end_)) height None;
  append_infos fail blocks [].

Definition next_info (db : DB) (end_ : Z) : res BlockInfo :=
  match First db (col_ge timestamp end_) height with
  | Ok next => Ok (block_info next)
  | Err _ => Ok BlockInfo_zero
  | Panic p => Panic p
  end.

Definition consecutive_error (cur prev : Z) : error :=
  Errorf "queried blocks aren't consecutive, prev: %d, current: %d" [AInt cur; AInt prev].
Definition not_consecutive (cur prev : Z) : error :=
  Errorf "queried blocks aren't consecutive" [].

Definition GetBlockHeadersByHeight (db : DB) (args : GetBlockHeadersByHeightArgs)
    : res BlockHeadersResponse :=
  prev ← prev_info db (hh_Height args);
  blocks ← range_infos consecutive_error db (hh_Height args) (hh_EndTimeStamp args);
  next ← next_info db (hh_EndTimeStamp args);
  Ok {| hr_From := 0; hr_Blocks := blocks; hr_Prev := prev; hr_Next := next |}.

Definition GetBlockHeadersByID (db : DB) (args : GetBlockHeadersIDArgs) : res BlockHeadersResponse :=
  if bool_decide (ha_ID args = ""%string) then Err (Errorf "ID in args is not specified" [])
  else
    firstBlock ← find_row db (block_id_eq (ha_ID args));
    let firstBlockHeight := db_Height firstBlock in
    prev ← prev_info db firstBlockHeight;
    blocks ← range_infos not_consecutive db firstBlockHeight (ha_EndTimeStamp args);
    next ← next_info db (ha_EndTimeStamp args);
    Ok {| hr_From := 0; hr_Blocks := blocks; hr_Prev := prev; hr_Next := next |}.

Definition GetBlockHeadersAfterTimestamp (db : DB) (args : GetBlockHeadersByStartTimeStampArgs)
    : res BlockHeadersResponse :=
  startBlock ← First db (col_ge timestamp (hs_StartTimeStamp args)) timestamp;
  let firstBlockHeight := db_Height startBlock in
  prev ← prev_info db firstBlockHeight;
  blocks ← range_infos not_consecutive db firstBlockHeight (hs_EndTimeStamp args);
  next ← next_info db (hs_EndTimeStamp args);
  Ok {| hr_From := 0; hr_Blocks := blocks; hr_Prev := prev; hr_Next := next |}.

(** ** Commitments of archived blocks *)

Definition row_header (b : DBBlock) (blkID : ID) : Header := {|
  Height := db_Height b;
  Timestamp := u64 (db_Timestamp b);
  L1Head := u64 (db_L1Head b);
  TransactionsRoot := {| Root := arr_list blkID |}
|}.

Definition warp_block (p : chain_Parser) (dbBlock : DBBlock) : res SequencerWarpBlock :=
  blk ← UnmarshalBlock (db_Bytes dbBlock) p;
  blkID ← StatefulBlock_ID blk;
  comm ← Header_Commit (row_header dbBlock blkID);
  Ok {| wb_BlockID := db_BlockID dbBlock;
        wb_Timestamp := db_Timestamp dbBlock;
        wb_L1Head := u64 (db_L1Head dbBlock);
        wb_Height := i64 (db_Height dbBlock);
        wb_BlockRoot := Uint256 comm;
        wb_ParentRoot := SetBytes (arr_of 32 (sb_Prnt blk)) NewU256 |}.

Fixpoint warp_blocks (p : chain_Parser) (blocks : list DBBlock) (acc : list SequencerWarpBlock)
    : res SequencerWarpBlockResponse :=
  match blocks with
  | [] => Ok acc
  | dbBlock :: blocks =>
      w ← warp_block p dbBlock;
      warp_blocks p blocks (acc ++ [w])
  end.

Definition GetCommitmentBlocks (db : DB) (args : GetBlockCommitmentArgs) (p : chain_Parser)
    : res SequencerWarpBlockResponse :=
  if ca_First args <? 1 then Err (Errorf "the first block height is smaller than 1" [])
  else
    blocks ← Find_all db (AND (col_ge height (ca_First args)) (col_le height (ca_CurrentHeight args)))
               height (Some (ca_MaxBlocks args));
    warp_blocks p blocks [].
End archiver.

(** ** Properties *)

Section archiver_facts.
Context `{HC : HyperConsts} {BK : Blocks} {GO : Gorm} {GS : GormSpec}.
Implicit Types (d : DB).

Lemma append_infos_Ok fail blocks acc l :
  append_infos fail blocks acc = Ok l ->
  l = acc ++ (block_info <$> blocks) /\
  (forall i a b, (option_list (last acc) ++ (block_info <$> blocks)) !! i = Some a ->
     (option_list (last acc) ++ (block_info <$> blocks)) !! S i = Some b ->
     bi_Height a = u64 (bi_Height b - 1)).
Proof.
  revert acc. induction blocks as [|b blocks IH]; intros acc; cbn [append_infos].
  - intros [= <-]. rewrite !app_nil_r. split; [done|]. intros i x y Hx Hy.
    destruct (last acc); [by destruct i|done].
  - intros Hr. assert (append_infos fail blocks (acc ++ [block_info b]) = Ok l /\
      match last acc with
      | Some p => bi_Height p = u64 (bi_Height (block_info b) - 1)
      | None => True
      end) as [Hrun Hlast].
    { destruct (last acc) as [p|]; [|done].
      destruct (Z.eqb_spec (u64 (bi_Height (block_info b) - 1)) (bi_Height p)); done. }
    destruct (IH _ Hrun) as [-> Hc]. rewrite last_snoc in Hc. cbn in Hc.
    rewrite <- app_assoc. split; [done|]. intros i x y Hx Hy.
    destruct (last acc) as [p|]; cbn in *.
    + destruct i as [|i]; cbn in *; [by simplify_eq|]. by apply (Hc i).
    + by apply (Hc i).
Qed.

Lemma row_height_u64 d b : b ∈ rows d -> is_u64 (db_Height b).
Proof. intros Hin. pose proof (rows_u64 d) as Hall. rewrite Forall_forall in Hall. by apply Hall. Qed.

Lemma zero_row_u64 : is_u64 (db_Height zero_row).
Proof. by split. Qed.

Lemma sorted_step (f : DBBlock -> Z) l i a b :
  StronglySorted (fun a b => f a <= f b) l -> l !! i = Some a -> l !! S i = Some b -> f a <= f b.
Proof.
  intros Hs. revert i. induction Hs as [|x l Hs IH Hx]; intros i Ha Hb; [done|].
  destruct i as [|i]; cbn in Ha, Hb; [|by apply (IH i)].
  injection Ha as <-. rewrite Forall_lookup in Hx. by apply (Hx 0%nat).
Qed.

Lemma find_row_spec d c b :
  find_row d c = Ok b ->
  (b ∈ rows d /\ holds c b = true) \/ (b = zero_row /\ forall b', b' ∈ rows d -> holds c b' = false).
Proof.
  unfold find_row. intros Hr. apply res_bind_Ok_inv in Hr as (r & Hf & [= <-]).
  apply Find_one_spec in Hf. destruct r as [b|]; simpl; [by left|by right].
Qed.

(** What a response describes: the archived blocks from a height on and before
    an end time, in consecutive heights, with the block before and the block
    after. *)
Record headers_ok (d : DB) (first end_ : Z) (ret : BlockHeadersResponse) : Prop := {
  headers_rows : exists bs, hr_Blocks ret = block_info <$> bs /\
    forall b, b ∈ bs <-> b ∈ rows d /\ first <= db_Height b /\ db_Timestamp b < end_;
  headers_consecutive : forall i a b,
    hr_Blocks ret !! i = Some a -> hr_Blocks ret !! S i = Some b -> bi_Height b = bi_Height a + 1;
  headers_prev :
    if 1 <? first then
      (exists b, b ∈ rows d /\ db_Height b = first - 1 /\ hr_Prev ret = block_info b) \/
      (hr_Prev ret = BlockInfo_zero /\ forall b, b ∈ rows d -> db_Height b <> first - 1)
    else hr_Prev ret = BlockInfo_zero;
  headers_next :
    (exists b, b ∈ rows d /\ end_ <= db_Timestamp b /\ hr_Next ret = block_info b /\
       forall b', b' ∈ rows d -> end_ <= db_Timestamp b' -> db_Height b <= db_Height b') \/
    (hr_Next ret = BlockInfo_zero /\ exists e, First d (col_ge timestamp end_) height = Err e)
}.

Lemma prev_info_spec d first p :
  is_u64 first -> prev_info d first = Ok p ->
  if 1 <? first then
    (exists b, b ∈ rows d /\ db_Height b = first - 1 /\ p = block_info b) \/
    (p = BlockInfo_zero /\ forall b, b ∈ rows d -> db_Height b <> first - 1)
  else p = BlockInfo_zero.
Proof.
  intros Hu. unfold prev_info. destruct (Z.ltb_spec 1 first) as [Hf|]; [|by intros [= <-]].
  rewrite u64_small by (unfold is_u64 in *; lia).
  intros Hr. apply res_bind_Ok_inv in Hr as (b & Hb & [= <-]).
  apply find_row_spec in Hb as [[Hin Hh]|[-> Hno]].
  - left. exists b. cbn in Hh. split_and!; [done|lia|done].
  - right. split; [done|]. intros b Hin Heq. specialize (Hno b Hin). cbn in Hno. lia.
Qed.

Lemma next_info_spec d end_ n :
  next_info d end_ = Ok n ->
  (exists b, b ∈ rows d /\ end_ <= db_Timestamp b /\ n = block_info b /\
     forall b', b' ∈ rows d -> end_ <= db_Timestamp b' -> db_Height b <= db_Height b') \/
  (n = BlockInfo_zero /\ exists e, First d (col_ge timestamp end_) height = Err e).
Proof.
  unfold next_info. destruct (First d _ height) as [b|e|p] eqn:Ef; intros [= <-]; [left|right; by split; [|exists e]].
  apply First_Ok in Ef as (Hin & Hh & Hmin). exists b. cbn in Hh. split_and!; [done|lia|done|].
  intros b' Hin' Ht. apply (Hmin b' Hin'). cbn. by apply Z.leb_le.
Qed.

Lemma range_infos_spec fail d first end_ l :
  range_infos fail d first end_ = Ok l ->
  (exists bs, l = block_info <$> bs /\
     forall b, b ∈ bs <-> b ∈ rows d /\ first <= db_Height b /\ db_Timestamp b < end_) /\
  (forall i a b, l !! i = Some a -> l !! S i = Some b -> bi_Height b = bi_Height a + 1).
Proof.
  unfold range_infos. intros Hr. apply res_bind_Ok_inv in Hr as (bs & Hf & Hr).
  apply Find_all_spec in Hf as (full & Hp & Hs & ->). apply append_infos_Ok in Hr as [-> Hc].
  cbn in Hc. cbn [app]. assert (forall b, b ∈ full <-> b ∈ rows d /\ first <= db_Height b /\ db_Timestamp b < end_) as Hin.
  { intros b. rewrite Hp, list_elem_of_filter. cbn [holds column_of].
    rewrite andb_true_iff, Z.leb_le, Z.ltb_lt. tauto. }
  split; [by exists full|]. intros i a b Ha Hb. specialize (Hc i a b Ha Hb).
  rewrite !list_lookup_fmap in Ha, Hb.
  destruct (full !! i) as [ra|] eqn:Ea; [|done]. destruct (full !! S i) as [rb|] eqn:Eb; [|done].
  injection Ha as <-. injection Hb as <-.
  pose proof (sorted_step _ full i ra rb Hs Ea Eb) as Hle. cbn [column_of] in Hle.
  assert (forall r, r ∈ full -> is_u64 (db_Height r)) as Hu.
  { intros r Hr. apply (row_height_u64 d). by apply Hin. }
  pose proof (Hu ra ltac:(by eapply list_elem_of_lookup_2)) as Hua.
  pose proof (Hu rb ltac:(by eapply list_elem_of_lookup_2)) as Hub.
  cbn in Hc |- *. unfold is_u64, u64 in *.
  destruct (Z.eq_dec (db_Height rb) 0) as [Hz|Hz].
  - rewrite Hz in Hc, Hle. change ((0 - 1) mod u64_mod) with 18446744073709551615 in Hc.
    unfold u64_mod in *. lia.
  - rewrite Z.mod_small in Hc by lia. lia.
Qed.

Lemma headers_intro d fail first end_ prev blocks next :
  is_u64 first -> prev_info d first = Ok prev -> range_infos fail d first end_ = Ok blocks ->
  next_info d end_ = Ok next ->
  headers_ok d first end_ {| hr_From := 0; hr_Blocks := blocks; hr_Prev := prev; hr_Next := next |}.
Proof.
  intros Hu Hp Hb Hn. apply range_infos_spec in Hb as [Hrows Hcons]. constructor; cbn; [done|done| |].
  - by apply prev_info_spec.
  - by apply next_info_spec.
Qed.

End archiver_facts.

(** C33: The three header queries serve consistent ranges. A successful answer
    lists exactly the archived blocks from the first height on and before the
    end time, in consecutive heights, with the block before, blank when it is
    not archived, and the block after: the lowest archived one at or after the
    end time, left blank only when the query for it returns an error. Only the
    first height differs: the one asked for; that of the block with the
    identifier asked for, or 0 when there is no such block; that of the earliest
    block at or after the start time. *)
Theorem GetBlockHeaders_spec
    `{HC : HyperConsts} {BK : Blocks} {GO : Gorm} {GS : GormSpec}
    (d : DB) (byHeight : GetBlockHeadersByHeightArgs) (byID : GetBlockHeadersIDArgs)
    (byTime : GetBlockHeadersByStartTimeStampArgs) (ret : BlockHeadersResponse) :
  is_u64 (hh_Height byHeight) ->
  (GetBlockHeadersByHeight d byHeight = Ok ret ->
     headers_ok d (hh_Height byHeight) (hh_EndTimeStamp byHeight) ret) /\
  (GetBlockHeadersByID d byID = Ok ret ->
     exists first, headers_ok d first (ha_EndTimeStamp byID) ret /\
       ((exists b, b ∈ rows d /\ db_BlockID b = ha_ID byID /\ first = db_Height b) \/
        (first = 0 /\ forall b, b ∈ rows d -> db_BlockID b <> ha_ID byID))) /\
  (GetBlockHeadersAfterTimestamp d byTime = Ok ret ->
     exists b, b ∈ rows d /\ hs_StartTimeStamp byTime <= db_Timestamp b /\
       (forall b', b' ∈ rows d -> hs_StartTimeStamp byTime <= db_Timestamp b' ->
          db_Timestamp b <= db_Timestamp b') /\
       headers_ok d (db_Height b) (hs_EndTimeStamp byTime) ret).
Proof.
  intros Hu. split_and!; intros Hr.
  - unfold GetBlockHeadersByHeight in Hr. inv_ok Hr. inv_ok Hr. inv_ok Hr. injection Hr as <-.
    by eapply headers_intro.
  - unfold GetBlockHeadersByID in Hr. case_bool_decide; [done|].
    inv_ok Hr. inv_ok Hr. inv_ok Hr. inv_ok Hr. injection Hr as <-.
    apply find_row_spec in Hrun as [[Hin Hh]|[-> Hno]]; eexists;
      (split; [eapply headers_intro; [|exact Hrun0|exact Hrun1|exact Hrun2]; eauto using row_height_u64, zero_row_u64|]).
    + left. eexists. split_and!; [exact Hin| |done]. cbn in Hh. by apply bool_decide_eq_true in Hh.
    + right. split; [done|]. intros b Hb Heq. specialize (Hno b Hb). cbn in Hno.
      by apply bool_decide_eq_false in Hno.
  - unfold GetBlockHeadersAfterTimestamp in Hr.
    inv_ok Hr. inv_ok Hr. inv_ok Hr. inv_ok Hr. injection Hr as <-.
    apply First_Ok in Hrun as (Hin & Hh & Hmin). cbn in Hh. eexists. split_and!; [done|by apply Z.leb_le| |].
    + intros b' Hb' Ht. apply (Hmin b' Hb'). cbn. by apply Z.leb_le.
    + eapply headers_intro; eauto using row_height_u64.
Qed.

Section insert_facts.
Context `{HC : HyperConsts} {BK : Blocks} {BS : BlocksSpec} {GO : Gorm} {GS : GormSpec}.

Lemma find_unique {A} `{EqDecision A} (f : DBBlock -> A) d b r :
  NoDup (f <$> rows d) -> b ∈ rows d -> r ∈ rows d -> f b = f r -> b = r.
Proof.
  intros Hnd (i & Hi)%list_elem_of_lookup_1 (j & Hj)%list_elem_of_lookup_1 Heq.
  assert (i = j) as ->; [|congruence].
  eapply (NoDup_lookup (f <$> rows d)); [done| |]; rewrite list_lookup_fmap.
  - by rewrite Hi.
  - by rewrite Hj, Heq.
Qed.

Lemma find_row_unique {A} `{EqDecision A} (f : DBBlock -> A) d c b :
  NoDup (f <$> rows d) -> b ∈ rows d -> holds c b = true ->
  (forall r, holds c r = true -> f r = f b) ->
  find_row d c = Ok b \/ exists e, Find_one d c = Err e.
Proof.
  intros Hnd Hb Hc Hf. unfold find_row. pose proof (gorm_no_panic_one d c) as Hp.
  destruct (Find_one d c) as [r|e|] eqn:E; [left|by right; exists e|done].
  apply Find_one_spec in E. rewrite bind_Ok. destruct r as [r|]; simpl.
  - f_equal. destruct E as [Hr Hh]. apply (find_unique f d); auto.
  - by rewrite (E b Hb) in Hc.
Qed.

Lemma find_row_no_panic d c : is_panic (find_row d c) = false.
Proof. unfold find_row. pose proof (gorm_no_panic_one d c) as Hp. by destruct (Find_one d c). Qed.

Lemma GetBlockByID_no_panic d id p : is_panic (GetBlockByID d id p) = false.
Proof.
  unfold GetBlockByID. pose proof (find_row_no_panic d (block_id_eq id)) as Hp.
  destruct (find_row _ _); [|done|done]. rewrite bind_Ok. apply Unmarshal_no_panic.
Qed.

Lemma GetBlockByHeight_no_panic d h p : is_panic (GetBlockByHeight d h p) = false.
Proof.
  unfold GetBlockByHeight. pose proof (find_row_no_panic d (col_eq height h)) as Hp.
  destruct (find_row _ _); [|done|done]. rewrite bind_Ok. apply Unmarshal_no_panic.
Qed.

(** A block inserted with success is one more row. *)
Lemma InsertBlock_cases (b : StatelessBlock) d d' o :
  InsertBlock b d = (d', o) ->
  match o with
  | Ok _ => exists raw i, StatelessBlock_Marshal b = Ok raw /\
      rows d' = rows d ++ [stored (new_row b raw) i]
  | Err _ => rows d' = rows d
  | Panic _ => False
  end.
Proof.
  unfold InsertBlock. destruct (StatelessBlock_Marshal b) as [raw|e|p] eqn:Em.
  2: by intros [= <- <-].
  2: pose proof (Marshal_no_panic b) as Hp; by rewrite Em in Hp.
  pose proof (Begin_rows d) as Hb. pose proof (created_Begin d) as Hcb.
  rewrite bind_lift_Ok. unfold db_Begin, mbind, M_bind. destruct (Begin d) as [d1 tx0]. cbn [fst snd] in Hb, Hcb.
  pose proof (Create_no_panic (new_row b raw) tx0) as Hnp.
  destruct (tx_Create (new_row b raw) tx0) as [tx [[]|e|p]] eqn:Ec; [| |done].
  - apply Create_Ok in Ec. rewrite Hcb in Ec. intros Hr. rewrite <- Hb.
    pose proof (Commit_no_panic tx d1) as Hp.
    destruct o as [[]|e|p]; [|by eapply Commit_Err|by rewrite Hr in Hp].
    apply Commit_Ok in Hr as (new & Hnew & Hf). rewrite Ec in Hf.
    inversion Hf as [|? r ? rs [i ->] Hn]; subst. inversion Hn; subst. by exists raw, i.
  - intros [= <- <-]. by rewrite rows_Rollback.
Qed.

(** An insertion gives back the connection it takes, whatever its outcome. *)
Lemma InsertBlock_releases (b : StatelessBlock) d : in_use (fst (InsertBlock b d)) = in_use d.
Proof.
  unfold InsertBlock. destruct (StatelessBlock_Marshal b) as [raw|e|p]; [|done..].
  pose proof (in_use_Begin d) as Hu. rewrite bind_lift_Ok. unfold db_Begin, mbind, M_bind.
  destruct (Begin d) as [d1 tx0]. cbn [fst snd] in Hu.
  pose proof (holds_conn_Create (new_row b raw) tx0) as Hh.
  pose proof (Create_no_panic (new_row b raw) tx0) as Hnp.
  destruct (tx_Create (new_row b raw) tx0) as [tx [[]|e|p]]; cbn [fst] in *; [| |done].
  - rewrite in_use_Commit. lia.
  - cbn. rewrite in_use_Rollback. lia.
Qed.

(** A deletion that the database refuses keeps its connection: it is not
    rolled back. *)
Lemma DeleteBlock_keeps_connection (row : DBBlock) d e :
  snd (tx_Delete row (snd (Begin d))) = Err e ->
  snd (DeleteBlock row d) = Err e /\
  in_use (fst (DeleteBlock row d)) = (in_use d + holds_conn (snd (Begin d)))%nat.
Proof.
  intros He. pose proof (in_use_Begin d) as Hu. unfold DeleteBlock, db_Begin, mbind, M_bind.
  destruct (Begin d) as [d1 tx0]. cbn [fst snd] in *.
  destruct (tx_Delete row tx0) as [tx [[]|e'|p]]; simplify_eq/=. done.
Qed.

(** A block with a row is returned by its identifier and by its height. *)
Lemma row_served (b : StatelessBlock) raw i d p :
  StatelessBlock_Marshal b = Ok raw -> stored (new_row b raw) i ∈ rows d ->
  (GetBlockByID d (ID_String (blk_ID b)) p = Ok (blk_Stateful b) \/
   exists e, Find_one d (block_id_eq (ID_String (blk_ID b))) = Err e) /\
  (GetBlockByHeight d (blk_Hght b) p = Ok (blk_Stateful b) \/
   exists e, Find_one d (col_eq height (blk_Hght b)) = Err e).
Proof.
  intros Hm Hin. pose proof (UnmarshalBlock_Marshal b raw p Hm) as Hu. split.
  - destruct (find_row_unique db_BlockID d (block_id_eq (ID_String (blk_ID b)))
      (stored (new_row b raw) i)) as [Hf|]; [apply rows_BlockID|done| | | |by right].
    + by apply bool_decide_eq_true.
    + by intros r ?%bool_decide_eq_true.
    + left. unfold GetBlockByID. by rewrite Hf, bind_Ok.
  - destruct (find_row_unique db_Height d (col_eq height (blk_Hght b))
      (stored (new_row b raw) i)) as [Hf|]; [apply rows_Height|done| | | |by right].
    + by apply Z.eqb_refl.
    + by intros r ?%Z.eqb_eq.
    + left. unfold GetBlockByHeight. by rewrite Hf, bind_Ok.
Qed.
End insert_facts.

(** What is archived is what is served. A block inserted with success is
    returned, as it was marshalled, by its identifier and by its height, unless
    the database fails the query, and the rows of the other blocks stay; an
    insertion that fails leaves the table as it was. *)
Theorem InsertBlock_GetBlock
    `{HC : HyperConsts} {BK : Blocks} {BS : BlocksSpec} {GO : Gorm} {GS : GormSpec}
    (b : StatelessBlock) (d : DB) (p : chain_Parser) :
  wp (InsertBlock b) d (fun d' o =>
    match o with
    | Ok _ =>
        (GetBlockByID d' (ID_String (blk_ID b)) p = Ok (blk_Stateful b) \/
         exists e, Find_one d' (block_id_eq (ID_String (blk_ID b))) = Err e) /\
        (GetBlockByHeight d' (blk_Hght b) p = Ok (blk_Stateful b) \/
         exists e, Find_one d' (col_eq height (blk_Hght b)) = Err e) /\
        (exists r, rows d' = rows d ++ [r] /\ db_BlockID r = ID_String (blk_ID b) /\
           db_Height r = blk_Hght b /\ db_Timestamp r = blk_Tmstmp b)
    | Err _ => rows d' = rows d
    | Panic _ => False
    end).
Proof.
  apply wp_intro. intros d' o Hr%InsertBlock_cases. destruct o as [[]|e|q]; [|done|done].
  destruct Hr as (raw & i & Hm & Hrows).
  assert (stored (new_row b raw) i ∈ rows d') as Hin by (rewrite Hrows; set_solver).
  destruct (row_served b raw i d' p Hm Hin). split_and!; [done|done|by eexists].
Qed.

Section warp_facts.
Context `{HC : HyperConsts} {BK : Blocks} {BS : BlocksSpec} {GO : Gorm} {GS : GormSpec}.
Context {KK : Keccak} {KS : KeccakSpec}.

Lemma warp_block_no_panic p b : is_panic (warp_block p b) = false.
Proof.
  unfold warp_block. pose proof (Unmarshal_no_panic (db_Bytes b) p) as H1.
  destruct (UnmarshalBlock _ _) as [blk|e|]; [|done|done]. rewrite bind_Ok.
  pose proof (StatefulBlock_ID_no_panic blk) as H2.
  destruct (StatefulBlock_ID blk) as [id|e|]; [|done|done]. rewrite bind_Ok.
  by rewrite (Header_Commit_eq (row_header b id) _ (NmtRoot_Commit_eq _)).
Qed.

Lemma warp_blocks_spec p bs acc :
  is_panic (warp_blocks p bs acc) = false /\
  forall l, warp_blocks p bs acc = Ok l ->
    exists ws, l = acc ++ ws /\ Forall2 (fun b w => warp_block p b = Ok w) bs ws.
Proof.
  revert acc. induction bs as [|b bs IH]; intros acc; cbn [warp_blocks].
  - split; [done|]. intros l [= <-]. exists []. by rewrite app_nil_r.
  - pose proof (warp_block_no_panic p b) as Hp.
    destruct (warp_block p b) as [w|e|] eqn:Ew; [|done|done]. rewrite bind_Ok.
    destruct (IH (acc ++ [w])) as [Hnp Hok]. split; [done|].
    intros l (ws & -> & Hf)%Hok. exists (w :: ws). rewrite <- app_assoc. split; [done|]. by constructor.
Qed.

(** The row behind a served commitment. *)
Definition commits_to (p : chain_Parser) (b : DBBlock) (w : SequencerWarpBlock) : Prop :=
  exists blk id comm,
    UnmarshalBlock (db_Bytes b) p = Ok blk /\ StatefulBlock_ID blk = Ok id /\
    Header_Commit (row_header b id) = Ok comm /\
    CommitmentFromUint256 (wb_BlockRoot w) = Ok comm /\
    wb_BlockID w = db_BlockID b /\ wb_ParentRoot w = be_dec (arr_of 32 (sb_Prnt blk)).

Lemma warp_block_commits p b w : warp_block p b = Ok w -> commits_to p b w.
Proof.
  unfold warp_block. intros Hr. inv_ok Hr. inv_ok Hr. inv_ok Hr. injection Hr as <-.
  do 3 eexists. split_and!; [done|done|done| |done|done].
  cbn [wb_BlockRoot]. apply CommitmentFromUint256_Uint256.
Qed.
End warp_facts.

(** C34: The served commitments are commitments of archived blocks. The query
    never panics and refuses a first height of 0; an answer lists, in order of
    height, archived blocks of the range, each with a root that converts back
    to the commitment of the header of its row and its unmarshalled block; a
    positive limit bounds its length, and below the limit no block of the range
    is missing. *)
Theorem GetCommitmentBlocks_spec
    `{HC : HyperConsts} {BK : Blocks} {BS : BlocksSpec} {GO : Gorm} {GS : GormSpec}
    {KK : Keccak} {KS : KeccakSpec}
    (d : DB) (args : GetBlockCommitmentArgs) (p : chain_Parser) :
  is_panic (GetCommitmentBlocks d args p) = false /\
  forall ws, GetCommitmentBlocks d args p = Ok ws ->
    1 <= ca_First args /\
    exists bs, Forall2 (commits_to p) bs ws /\
      StronglySorted (fun a b => db_Height a <= db_Height b) bs /\
      (forall b, b ∈ bs -> b ∈ rows d /\ ca_First args <= db_Height b <= ca_CurrentHeight args) /\
      (0 < ca_MaxBlocks args ->
         Z.of_nat (length ws) <= ca_MaxBlocks args /\
         (Z.of_nat (length ws) < ca_MaxBlocks args ->
            forall b, b ∈ rows d -> ca_First args <= db_Height b <= ca_CurrentHeight args -> b ∈ bs)).
Proof.
  unfold GetCommitmentBlocks. destruct (Z.ltb_spec (ca_First args) 1) as [|H1]; [done|].
  set (c := AND _ _). pose proof (gorm_no_panic_all d c height (Some (ca_MaxBlocks args))) as Hp.
  destruct (Find_all d c height _) as [l|e|] eqn:Ef; [|done|done]. rewrite bind_Ok.
  destruct (warp_blocks_spec p l []) as [Hnp Hok]. split; [done|].
  intros ws (ws' & -> & Hf)%Hok. split; [lia|]. exists l.
  apply Find_all_spec in Ef as (full & Hperm & Hs & k & -> & Hk).
  assert (forall b, b ∈ full <-> b ∈ rows d /\ ca_First args <= db_Height b <= ca_CurrentHeight args) as Hin.
  { intros b. rewrite Hperm, list_elem_of_filter. unfold c. cbn [holds column_of].
    rewrite andb_true_iff, !Z.leb_le. tauto. }
  split_and!.
  - eapply Forall2_impl; [exact Hf|]. intros. by apply warp_block_commits.
  - rewrite <- (take_drop k full) in Hs. by apply StronglySorted_app in Hs as (_ & Hs & _).
  - intros b Hb. apply Hin. apply elem_of_take in Hb as (j & Hj & _). by eapply list_elem_of_lookup_2.
  - intros Hpos. specialize (Hk Hpos). cbn [app]. apply Forall2_length in Hf.
    rewrite length_take in Hf. split; [lia|]. intros Hlt b Hb Hr. rewrite take_ge by lia.
    by apply Hin.
Qed.

(** ** A database to test with: the list of the rows, checked on commit *)

Module ArchiverExamples.
Definition table_ok (l : list DBBlock) : bool :=
  bool_decide (NoDup (db_BlockID <$> l)) && bool_decide (NoDup (db_Height <$> l)) &&
  forallb (fun b => (0 <=? db_Height b) && (db_Height b <? u64_mod)) l.

Definition table : Type := { l : list DBBlock | table_ok l = true }.

(** The table, and the connections that transactions hold. *)
Record database := { db_table : table; db_conns : nat }.

Definition checked (l : list DBBlock) (old : table) : table * res unit :=
  match decide (table_ok l = true) with
  | left H => (exist _ l H, Ok tt)
  | right _ => (old, Err (ErrNew "UNIQUE constraint failed"))
  end.

Definition below (o : column) (a b : DBBlock) : Prop := column_of o a <= column_of o b.
#[export] Instance below_dec o a b : Decision (below o a b) := Z_le_dec _ _.
#[export] Instance below_total o : Total (below o).
Proof. intros a b. unfold below. lia. Qed.
#[export] Instance below_trans o : Transitive (below o).
Proof. intros a b c. unfold below. lia. Qed.

Definition matching (l : list DBBlock) (c : cond) (o : column) : list DBBlock :=
  merge_sort (below o) (filter (fun b => holds c b = true) l).

#[export] Instance s_gorm : Gorm := {|
  DB := database;
  DBTx := list DBBlock;
  gorm_Open _ := Ok {| db_table := exist (fun l => table_ok l = true) [] eq_refl; db_conns := 0 |};
  AutoMigrate d := (d, Ok tt);
  can_Begin d := (db_conns d <? 2)%nat;
  Begin d := ({| db_table := db_table d; db_conns := S (db_conns d) |}, []);
  tx_Create b t := (t ++ [b], Ok tt);
  tx_Delete _ t := (t, Err (ErrNew "WHERE conditions required"));
  tx_Rollback _ d := {| db_table := db_table d; db_conns := db_conns d - 1 |};
  tx_Commit t d :=
    let '(l, r) := checked (proj1_sig (db_table d) ++ t) (db_table d) in
    ({| db_table := l; db_conns := db_conns d - 1 |}, r);
  Find_all d c o lim :=
    let l := matching (proj1_sig (db_table d)) c o in
    Ok (match lim with Some n => if 0 <=? n then take (Z.to_nat n) l else l | None => l end);
  Find_one d c := Ok (head (filter (fun b => holds c b = true) (proj1_sig (db_table d))));
  First d c o :=
    match matching (proj1_sig (db_table d)) c o with
    | b :: _ => Ok b
    | [] => Err (ErrNew "record not found")
    end;
  First_row d b := Err (ErrNew "record not found")
|}.

Lemma matching_perm l c o : matching l c o ≡ₚ filter (fun b => holds c b = true) l.
Proof. apply merge_sort_Permutation. Qed.

Lemma matching_sorted l c o :
  StronglySorted (fun a b => column_of o a <= column_of o b) (matching l c o).
Proof. apply (StronglySorted_merge_sort (below o)). Qed.

Lemma table_wf (d : table) :
  NoDup (db_BlockID <$> proj1_sig d) /\ NoDup (db_Height <$> proj1_sig d) /\
  Forall (fun b => is_u64 (db_Height b)) (proj1_sig d).
Proof.
  destruct d as [l Hl]. cbn [proj1_sig]. revert Hl. unfold table_ok.
  rewrite !andb_true_iff, !bool_decide_eq_true, forallb_forall. intros [[H1 H2] H3].
  split_and!; [done|done|]. rewrite Forall_forall. intros b Hb%list_elem_of_In.
  specialize (H3 b Hb). unfold is_u64. lia.
Qed.

#[export] Instance s_gorm_spec : GormSpec.
Proof.
  refine {| rows d := proj1_sig (db_table d); created t := t; in_use d := db_conns d;
            pool_limit := Some 2%nat; holds_conn _ := 1%nat |}; try done.
  - intros d. apply table_wf.
  - intros d. apply table_wf.
  - intros d. apply table_wf.
  - intros d. cbn. lia.
  - intros t d. cbn. unfold checked. by destruct (decide _).
  - by intros b t t' [= <-].
  - intros t d d' Hr. cbn in Hr. unfold checked in Hr. destruct (decide _); [|done]. injection Hr as <-.
    cbn [db_table proj1_sig].
    exists t. split; [done|]. apply Forall2_same_length_lookup. split; [done|].
    intros i x y Hx Hy. assert (x = y) as -> by congruence. exists (db_ID y). by destruct y.
  - intros t d d' e Hr. cbn in Hr. unfold checked in Hr. destruct (decide _); [done|]. by injection Hr as <-.
  - intros d c o lim l [= <-]. destruct lim as [n|].
    + exists (matching (proj1_sig (db_table d)) c o). split_and!; [apply matching_perm|apply matching_sorted|].
      destruct (Z.leb_spec 0 n); [by exists (Z.to_nat n)|].
      exists (length (matching (proj1_sig (db_table d)) c o)). rewrite firstn_all. split; [done|lia].
    + exists (matching (proj1_sig (db_table d)) c o). by split_and!; [apply matching_perm|apply matching_sorted|].
  - intros d c r [= <-]. destruct (filter _ _) as [|b l] eqn:E; simpl.
    + intros b Hb. destruct (holds c b) eqn:Hh; [|done]. exfalso.
      eapply (not_elem_of_nil b). rewrite <- E. by apply list_elem_of_filter.
    + assert (b ∈ filter (fun b => holds c b = true) (proj1_sig (db_table d))) as Hb by (rewrite E; by left).
      by apply list_elem_of_filter in Hb as [? ?].
  - intros d c o b Hr. cbn in Hr. pose proof (matching_perm (proj1_sig (db_table d)) c o) as Hp.
    pose proof (matching_sorted (proj1_sig (db_table d)) c o) as Hs.
    destruct (matching _ c o) as [|x l]; [done|]. injection Hr as ->.
    assert (forall y, y ∈ b :: l <-> holds c y = true /\ y ∈ proj1_sig (db_table d)) as Hin.
    { intros y. by rewrite Hp, list_elem_of_filter. }
    split_and!; [by apply Hin; left|by apply Hin; left|].
    intros y Hy Hh. assert (y ∈ b :: l) as Hyl by (by apply Hin).
    apply StronglySorted_inv in Hs as [_ Hf]. rewrite Forall_forall in Hf.
    apply elem_of_cons in Hyl as [->|Hyl]; [lia|by apply Hf].
  - intros t d. cbn. unfold checked. by destruct (decide _).
  - intros d c o. cbn. by case_match.
Defined.

Import Sample.Instances Block.BlockExamples Commit.CommitExamples.

Definition w_blk (h : Z) : StatelessBlock := {|
  blk_Stateful := {| sb_Prnt := w_id (h - 1); sb_Tmstmp := 1000 * h; sb_Hght := h; sb_L1Head := 50; sb_Txs := [] |};
  blk_ID := w_id h;
  blk_Results := []
|}.

Definition w_parser : chain_Parser := {| Parser_ChainID := w_id 0; Parser_Rules := fun t => Genesis_Rules (Default 16) t 1 (w_id 0) [] |}.

(** The table after the blocks of heights 1 to 4. *)
Definition w_empty : DB :=
  {| db_table := exist (fun l => table_ok l = true) [] eq_refl; db_conns := 0 |}.
Definition w_table : DB :=
  foldl (fun d h => fst (InsertBlock (w_blk h) d)) w_empty [1; 2; 3; 4].

Definition w_byHeight : GetBlockHeadersByHeightArgs := {| hh_Height := 2; hh_EndTimeStamp := 4000 |}.

Lemma GetBlockHeaders_spec_witness :
  exists ret, GetBlockHeadersByHeight w_table w_byHeight = Ok ret /\
    bi_Height <$> hr_Blocks ret = [2; 3] /\ headers_ok w_table 2 4000 ret.
Proof.
  eexists. split; [vm_compute; reflexivity|]. split; [reflexivity|].
  apply (GetBlockHeaders_spec w_table w_byHeight {| ha_ID := ""; ha_EndTimeStamp := 0 |}
    {| hs_StartTimeStamp := 0; hs_EndTimeStamp := 0 |}); [in_range|]. vm_compute. reflexivity.
Defined.

Lemma InsertBlock_GetBlock_witness :
  GetBlockByHeight (fst (InsertBlock (w_blk 5) w_table)) 5 w_parser = Ok (blk_Stateful (w_blk 5)).
Proof.
  pose proof (InsertBlock_GetBlock (w_blk 5) w_table w_parser) as Hw. unfold wp in Hw.
  replace (snd (InsertBlock (w_blk 5) w_table)) with (Ok tt) in Hw by (vm_compute; reflexivity).
  destruct Hw as (_ & [Hh|[e He]] & _); [exact Hh|discriminate He].
Defined.

Lemma GetCommitmentBlocks_spec_witness :
  let args := {| ca_First := 2; ca_CurrentHeight := 9; ca_MaxBlocks := 2 |} in
  exists ws, GetCommitmentBlocks w_table args w_parser = Ok ws /\
    Z.of_nat (length ws) <= 2.
Proof.
  intros args. destruct (GetCommitmentBlocks_spec w_table args w_parser) as [_ Hok].
  assert (is_ok (GetCommitmentBlocks w_table args w_parser) = true) as Hr by (vm_compute; reflexivity).
  destruct (GetCommitmentBlocks w_table args w_parser) as [ws|e|p]; [|discriminate Hr..].
  exists ws. split; [reflexivity|]. destruct (Hok ws eq_refl) as (_ & bs & _ & _ & _ & Hm).
  apply Hm. reflexivity.
Defined.
End ArchiverExamples.
