(* ===== verification/Config.v ===== *)
(** * Config: the node's configuration

    [src/config/config.go]. The defaults of the host ([hypersdk/config],
    [hypersdk/gossiper], [hypersdk/rpc]) and the JSON decoder are parameters. *)

From stdpp Require Import base numbers countable gmap list strings.
From Stdlib Require Import ZArith Lia Strings.Byte.
From S2P Require Import Prelude HyperSDK Sample Genesis Block Commit Archiver.

Local Open Scope Z_scope.

(** [rpc.JSONRPCValServerConfig], as far as the repository sets it. *)
Record JSONRPCValServerConfig := { DerivePort : bool }.

(** What the host's configuration and gossiper packages provide. *)
Class HostConfig := {
  float64 : Type;
  float64_zero : float64;
  host_LogLevel : Z;
  host_AuthVerificationCores : Z;
  host_RootGenerationCores : Z;
  host_TransactionExecutionCores : Z;
  host_StateFetchConcurrency : Z;
  host_MempoolSize : Z;
  host_MempoolSponsorSize : Z;
  host_StateSyncServerDelay : Z;
  host_StreamingBacklogSize : Z;
  host_VerifyAuth : bool;
  host_StoreBlockResultsOnDisk : bool;
  host_ETHL1RPC : string;
  host_ETHL1WS : string;
  host_ArcadiaURL : string;
  host_ValServerConfig : JSONRPCValServerConfig;
  gossip_GossipMaxSize : Z;
  gossip_GossipProposerDiff : Z;
  gossip_GossipProposerDepth : Z;
  gossip_NoGossipBuilderDiff : Z;
  gossip_VerifyTimeout : Z;
  (** [ids.NodeID.String], [version.Version.String] *)
  NodeID : Type;
  NodeID_String : NodeID -> string;
  Version_String : string
}.

(** [1 * time.Minute], in nanoseconds *)
Definition defaultContinuousProfilerFrequency : Z := 60000000000.
Definition defaultContinuousProfilerMaxFiles : Z := 10.
Definition defaultStoreTransactions : bool := true.
Definition defaultMaxOrdersPerPair : Z := 1024.

Section config.
Context `{HC : HyperConsts} {CO : Codec} {HO : HostConfig}.

(** The exported fields, which the JSON decoder sets. *)
Record Settings := {
  (* Concurrency *)
  AuthVerificationCores : Z;
  RootGenerationCores : Z;
  TransactionExecutionCores : Z;
  StateFetchConcurrency : Z;
  (* Gossip *)
  GossipMaxSize : Z;
  GossipProposerDiff : Z;
  GossipProposerDepth : Z;
  NoGossipBuilderDiff : Z;
  VerifyTimeout : Z;
  (* Tracing *)
  TraceEnabled : bool;
  TraceSampleRate : float64;
  (* Profiling *)
  ContinuousProfilerDir : bytes;
  (* Streaming settings *)
  StreamingBacklogSize : Z;
  StoreBlockResultsOnDisk : bool;
  (* Mempool *)
  MempoolSize : Z;
  MempoolSponsorSize : Z;
  MempoolExemptSponsors : list string;
  (* Whitelisted addresses *)
  WhitelistedAddresses : list string;
  (* Misc *)
  VerifyAuth : bool;
  StoreTransactions : bool;
  TestMode : bool;
  LogLevel : Z;
  (* State sync *)
  StateSyncServerDelay : Z;
  (* ETH L1 *)
  ETHRPCAddr : string;
  ETHWSAddr : string;
  (* Archiver *)
  ArchiverConfig : ORMArchiverConfig;
  (* Arcadia *)
  ArcadiaURL : string;
  (* Validator RPC port *)
  ValRPCConfig : JSONRPCValServerConfig
}.

Record Config := {
  settings :> Settings;
  loaded : bool;
  nodeID : NodeID;
  parsedExemptSponsors : list Address;
  parsedWhiteListedAddresses : list Address
}.

(** [c.setDefault()] on a new configuration; the fields it leaves keep their
    zero value. *)
Definition setDefault : Settings := {|
  AuthVerificationCores := host_AuthVerificationCores;
  RootGenerationCores := host_RootGenerationCores;
  TransactionExecutionCores := host_TransactionExecutionCores;
  StateFetchConcurrency := host_StateFetchConcurrency;
  GossipMaxSize := gossip_GossipMaxSize;
  GossipProposerDiff := gossip_GossipProposerDiff;
  GossipProposerDepth := gossip_GossipProposerDepth;
  NoGossipBuilderDiff := gossip_NoGossipBuilderDiff;
  VerifyTimeout := gossip_VerifyTimeout;
  TraceEnabled := false;
  TraceSampleRate := float64_zero;
  ContinuousProfilerDir := [];
  StreamingBacklogSize := host_StreamingBacklogSize;
  StoreBlockResultsOnDisk := host_StoreBlockResultsOnDisk;
  MempoolSize := host_MempoolSize;
  MempoolSponsorSize := host_MempoolSponsorSize;
  MempoolExemptSponsors := [];
  WhitelistedAddresses := [];
  VerifyAuth := host_VerifyAuth;
  StoreTransactions := defaultStoreTransactions;
  TestMode := false;
  LogLevel := host_LogLevel;
  StateSyncServerDelay := host_StateSyncServerDelay;
  ETHRPCAddr := host_ETHL1RPC;
  ETHWSAddr := host_ETHL1WS;
  ArchiverConfig := {| ac_Enabled := false; ArchiverType := ""; DSN := "" |};
  ArcadiaURL := host_ArcadiaURL;
  ValRPCConfig := host_ValServerConfig
|}.

(** The loop that parses a list of addresses, stopping at the first that fails. *)
Fixpoint parse_addresses (l : list string) : res (list Address) :=
  match l with
  | [] => Ok []
  | a :: l =>
      p ← ParseAddressBech32 HRP a;
      ps ← parse_addresses l;
      Ok (p :: ps)
  end.

(** [json_Unmarshal b c]: the decoder overwrites the exported fields [b] names. *)
Definition Config_New (json_Unmarshal : bytes -> Settings -> res Settings) (id : NodeID) (b : bytes)
    : res Config :=
  let c := setDefault in
  '(c, l) ← (if (0 <? length b)%nat then
         c ← map_err (ErrWrap "failed to unmarshal config %s: %w" [ABytes b]) (json_Unmarshal b c);
         Ok (c, true)
       else Ok (c, false));
  ex ← parse_addresses (MempoolExemptSponsors c);
  wh ← parse_addresses (WhitelistedAddresses c);
  Ok {| settings := c; loaded := l; nodeID := id;
        parsedExemptSponsors := ex; parsedWhiteListedAddresses := wh |}.

(** ** What the host reads *)

Definition GetLogLevel (c : Config) : Z := LogLevel c.
Definition GetTestMode (c : Config) : bool := TestMode c.
Definition GetAuthVerificationCores (c : Config) : Z := AuthVerificationCores c.
Definition GetRootGenerationCores (c : Config) : Z := RootGenerationCores c.
Definition GetTransactionExecutionCores (c : Config) : Z := TransactionExecutionCores c.
Definition GetStateFetchConcurrency (c : Config) : Z := StateFetchConcurrency c.
Definition GetMempoolSize (c : Config) : Z := MempoolSize c.
Definition GetMempoolSponsorSize (c : Config) : Z := MempoolSponsorSize c.
Definition GetMempoolExemptSponsors (c : Config) : list Address := parsedExemptSponsors c.

Record trace_Config := {
  tr_Enabled : bool;
  tr_TraceSampleRate : float64;
  tr_AppName : string;
  tr_Agent : string;
  tr_Version : string
}.
Definition GetTraceConfig (c : Config) : trace_Config := {|
  tr_Enabled := TraceEnabled c;
  tr_TraceSampleRate := TraceSampleRate c;
  tr_AppName := Name;
  tr_Agent := NodeID_String (nodeID c);
  tr_Version := Version_String
|}.

Definition GetStateSyncServerDelay (c : Config) : Z := StateSyncServerDelay c.
Definition GetStreamingBacklogSize (c : Config) : Z := StreamingBacklogSize c.
Definition GetStoreBlockResultsOnDisk (c : Config) : bool := StoreBlockResultsOnDisk c.

(** [strings.ReplaceAll(s, "*", new)] *)
Definition star : byte := x2a.
Definition replace_star (new s : bytes) : bytes :=
  concat (map (fun b => if Byte.eqb b star then new else [b]) s).

Record profiler_Config := {
  pr_Enabled : bool;
  pr_Dir : bytes;
  pr_Freq : Z;
  pr_MaxNumFiles : Z
}.

Definition set_ContinuousProfilerDir (d : bytes) (c : Config) : Config := {|
  settings := {|
  AuthVerificationCores := AuthVerificationCores c;
  RootGenerationCores := RootGenerationCores c;
  TransactionExecutionCores := TransactionExecutionCores c;
  StateFetchConcurrency := StateFetchConcurrency c;
  GossipMaxSize := GossipMaxSize c;
  GossipProposerDiff := GossipProposerDiff c;
  GossipProposerDepth := GossipProposerDepth c;
  NoGossipBuilderDiff := NoGossipBuilderDiff c;
  VerifyTimeout := VerifyTimeout c;
  TraceEnabled := TraceEnabled c;
  TraceSampleRate := TraceSampleRate c;
  ContinuousProfilerDir := d;
  StreamingBacklogSize := StreamingBacklogSize c;
  StoreBlockResultsOnDisk := StoreBlockResultsOnDisk c;
  MempoolSize := MempoolSize c;
  MempoolSponsorSize := MempoolSponsorSize c;
  MempoolExemptSponsors := MempoolExemptSponsors c;
  WhitelistedAddresses := WhitelistedAddresses c;
  VerifyAuth := VerifyAuth c;
  StoreTransactions := StoreTransactions c;
  TestMode := TestMode c;
  LogLevel := LogLevel c;
  StateSyncServerDelay := StateSyncServerDelay c;
  ETHRPCAddr := ETHRPCAddr c;
  ETHWSAddr := ETHWSAddr c;
  ArchiverConfig := ArchiverConfig c;
  ArcadiaURL := ArcadiaURL c;
  ValRPCConfig := ValRPCConfig c |};
  loaded := loaded c;
  nodeID := nodeID c;
  parsedExemptSponsors := parsedExemptSponsors c;
  parsedWhiteListedAddresses := parsedWhiteListedAddresses c
|}.

(** The directory is rewritten in place. *)
Definition GetContinuousProfilerConfig : M Config profiler_Config :=
  get ≫= fun c : Config =>
  if (length (ContinuousProfilerDir c) =? 0)%nat then
    mret {| pr_Enabled := false; pr_Dir := []; pr_Freq := 0; pr_MaxNumFiles := 0 |}
  else
    let dir := replace_star (str (NodeID_String (nodeID c))) (ContinuousProfilerDir c) in
    modify (set_ContinuousProfilerDir dir);;
    mret {| pr_Enabled := true; pr_Dir := dir; pr_Freq := defaultContinuousProfilerFrequency;
            pr_MaxNumFiles := defaultContinuousProfilerMaxFiles |}.

Definition GetVerifyAuth (c : Config) : bool := VerifyAuth c.
Definition GetStoreTransactions (c : Config) : bool := StoreTransactions c.
Definition Loaded (c : Config) : bool := loaded c.
Definition GetETHL1RPC (c : Config) : string := ETHRPCAddr c.
Definition GetETHL1WS (c : Config) : string := ETHWSAddr c.
Definition GetArcadiaURL (c : Config) : string := ArcadiaURL c.

(** The receiver is not used. *)
Definition GetValServerConfig (c : Config) : JSONRPCValServerConfig := {| DerivePort := true |}.

Definition GetParsedWhiteListedAddress (c : Config) : list Address := parsedWhiteListedAddresses c.
End config.

(** ** Properties *)

Section config_facts.
Context `{HC : HyperConsts} {CO : Codec} {HO : HostConfig}.

Lemma parse_addresses_spec l :
  match parse_addresses l with
  | Ok ps => Forall2 (fun a p => ParseAddressBech32 HRP a = Ok p) l ps
  | Err e => exists i a, l !! i = Some a /\ ParseAddressBech32 HRP a = Err e /\
      Forall (fun a => is_ok (ParseAddressBech32 HRP a) = true) (take i l)
  | Panic p => exists a, a ∈ l /\ ParseAddressBech32 HRP a = Panic p
  end.
Proof.
  induction l as [|a l IH]; cbn [parse_addresses]; [constructor|].
  destruct (ParseAddressBech32 HRP a) as [p|e|q] eqn:E; cbn -[parse_addresses].
  - destruct (parse_addresses l) as [ps|e|q]; cbn.
    + by constructor.
    + destruct IH as (i & x & Hi & Hx & Hf). exists (S i), x. split_and!; [done|done|].
      constructor; [by rewrite E|done].
    + destruct IH as (x & Hx & Hq). exists x. split; [by right|done].
  - exists 0%nat, a. by split_and!.
  - exists a. split; [by left|done].
Qed.

Lemma replace_star_none n s : star ∉ s -> replace_star n s = s.
Proof.
  induction s as [|b s IH]; intros Hs; [done|]. apply not_elem_of_cons in Hs as [Hb Hs].
  unfold replace_star in *. cbn [map concat]. rewrite IH by done.
  destruct (Byte.eqb b star) eqn:E; [|done]. apply Byte.byte_dec_bl in E. by subst b.
Qed.

Lemma replace_star_no_star n s : star ∉ n -> star ∉ replace_star n s.
Proof.
  intros Hn. induction s as [|b s IH]; [apply not_elem_of_nil|].
  unfold replace_star in *. cbn [map concat]. rewrite elem_of_app. intros [Hb|Hb]; [|done].
  destruct (Byte.eqb b star) eqn:E; [done|]. apply list_elem_of_singleton in Hb as <-.
  by rewrite (Byte.byte_dec_lb eq_refl) in E.
Qed.

Lemma replace_star_length n b s : n <> [] -> length (replace_star n (b :: s)) <> 0%nat.
Proof.
  intros Hn. unfold replace_star. cbn [map concat]. rewrite length_app.
  destruct (Byte.eqb b star); [by destruct n|done].
Qed.
End config_facts.

(** A configuration is what its bytes say, over the defaults. Without bytes
    it is the default one; with bytes that the decoder accepts it is the decoded
    one, marked as loaded; its parsed sponsors and parsed white list, which the
    rules of the chain are made with, are the addresses of its two lists, one
    for one, and a list with an address that does not parse is refused. *)
Theorem Config_New_spec `{HC : HyperConsts} {CO : Codec} {HO : HostConfig}
    (json_Unmarshal : bytes -> Settings -> res Settings) (id : NodeID) (b : bytes) (c : Config) :
  (Config_New json_Unmarshal id b = Ok c) <->
  (if loaded c then b <> [] /\ json_Unmarshal b setDefault = Ok (settings c)
   else b = [] /\ settings c = setDefault) /\
  nodeID c = id /\
  Forall2 (fun a p => ParseAddressBech32 HRP a = Ok p) (MempoolExemptSponsors c) (GetMempoolExemptSponsors c) /\
  Forall2 (fun a p => ParseAddressBech32 HRP a = Ok p) (WhitelistedAddresses c) (GetParsedWhiteListedAddress c).
Proof.
  assert (forall l ps, parse_addresses l = Ok ps <-> Forall2 (fun a p => ParseAddressBech32 HRP a = Ok p) l ps) as Hp.
  { induction l as [|a l IH]; intros ps; cbn [parse_addresses].
    - split; [by intros [= <-]; constructor|]. by inversion 1.
    - split.
      + intros Hr. inv_ok Hr. inv_ok Hr. injection Hr as <-. constructor; [done|by apply IH].
      + inversion 1 as [|? p ? ps' Ha Hl]; subst. rewrite Ha, bind_Ok. by apply IH in Hl as ->. }
  unfold Config_New, GetMempoolExemptSponsors, GetParsedWhiteListedAddress. split.
  - intros Hr. inv_ok Hr. destruct a as [s l]. inv_ok Hr. inv_ok Hr. injection Hr as <-. cbn.
    apply Hp in Hrun0, Hrun1. split_and!; [|done|done|done]. destruct b as [|x b]; cbn in Hrun.
    + by injection Hrun as <- <-.
    + destruct (json_Unmarshal _ _); cbn in Hrun; [|done|done]. by injection Hrun as <- <-.
  - destruct c as [s l i ex wh]. cbn. intros (Hl & -> & Hex & Hwh). apply Hp in Hex, Hwh.
    destruct l; destruct Hl as [Hb Hs].
    + destruct b as [|x b]; [done|]. cbn [length Nat.ltb Nat.leb]. rewrite Hs. cbn [map_err].
      rewrite !bind_Ok. by rewrite Hex, bind_Ok, Hwh.
    + subst b s. cbn [length Nat.ltb Nat.leb]. rewrite bind_Ok. by rewrite Hex, bind_Ok, Hwh.
Qed.

(** The profiler's directory is settled by the first request: every star is
    replaced by the node's identifier, and asking again gives the same answer
    and changes nothing more. *)
Theorem GetContinuousProfilerConfig_settled `{HC : HyperConsts} {CO : Codec} {HO : HostConfig}
    (c c' : Config) (p : profiler_Config) :
  star ∉ str (NodeID_String (nodeID c)) -> str (NodeID_String (nodeID c)) <> [] ->
  GetContinuousProfilerConfig c = (c', Ok p) ->
  (star ∉ ContinuousProfilerDir c') /\
  (pr_Enabled p = true -> pr_Dir p = ContinuousProfilerDir c') /\
  GetContinuousProfilerConfig c' = (c', Ok p).
Proof.
  intros Hn Hne. unfold GetContinuousProfilerConfig. rewrite !bind_get.
  destruct (ContinuousProfilerDir c) as [|x d] eqn:Ed; cbn [length Nat.eqb].
  - intros [= <- <-]. rewrite Ed. by split_and!; [apply not_elem_of_nil|..].
  - rewrite bind_modify. intros [= <- <-].
    cbn [set_ContinuousProfilerDir ContinuousProfilerDir settings nodeID pr_Dir].
    set (d' := replace_star _ _).
    assert (star ∉ d') as Hd by (by apply replace_star_no_star).
    assert (length d' <> 0%nat) as Hl by (by apply replace_star_length).
    split_and!; [done|done|]. rewrite (replace_star_none _ d') by done.
    apply Nat.eqb_neq in Hl. by rewrite Hl.
Qed.

Module ConfigExamples.
Import Sample.Instances.

#[export] Instance s_host : HostConfig := {|
  float64 := unit; float64_zero := tt; host_LogLevel := 1; host_AuthVerificationCores := 1;
  host_RootGenerationCores := 1; host_TransactionExecutionCores := 1; host_StateFetchConcurrency := 1;
  host_MempoolSize := 2048; host_MempoolSponsorSize := 32; host_StateSyncServerDelay := 0;
  host_StreamingBacklogSize := 1024; host_VerifyAuth := true; host_StoreBlockResultsOnDisk := true;
  host_ETHL1RPC := "http://localhost:8545"; host_ETHL1WS := "ws://localhost:8546"; host_ArcadiaURL := "";
  host_ValServerConfig := {| DerivePort := true |}; gossip_GossipMaxSize := 1; gossip_GossipProposerDiff := 4;
  gossip_GossipProposerDepth := 1; gossip_NoGossipBuilderDiff := 4; gossip_VerifyTimeout := 5;
  NodeID := string; NodeID_String id := id; Version_String := "seqvm@v0.0.1"
|}.

Definition w_config : Config :=
  set_ContinuousProfilerDir (str "/tmp/*-profile")
    {| settings := setDefault; loaded := true; nodeID := "N1"%string : NodeID;
       parsedExemptSponsors := []; parsedWhiteListedAddresses := [] |}.

Lemma GetContinuousProfilerConfig_settled_witness :
  ContinuousProfilerDir (fst (GetContinuousProfilerConfig w_config)) = str "/tmp/N1-profile" /\
  star ∉ ContinuousProfilerDir (fst (GetContinuousProfilerConfig w_config)).
Proof.
  split; [reflexivity|].
  apply (GetContinuousProfilerConfig_settled w_config _
    {| pr_Enabled := true; pr_Dir := str "/tmp/N1-profile"; pr_Freq := 60000000000; pr_MaxNumFiles := 10 |});
    [|discriminate|reflexivity].
  apply (bool_decide_eq_true_1 _). reflexivity.
Defined.
End ConfigExamples.
