(* ===== verification/Controller.v ===== *)
(** * Controller: what happens when a block is accepted, and state queries

    [src/controller/controller.go], [resolutions.go] and [metrics.go]. *)

From stdpp Require Import base numbers countable gmap list strings.
From Stdlib Require Import ZArith Lia Strings.Byte.
From S2P Require Import Prelude HyperSDK State Wire Sample Storage Ledger Genesis Auth Actions.
From S2P Require Import ChainInv Transfer SequencerMsg Auction EpochExit RollupRegister Registry.
From S2P Require Import Block RollupRegistry.

Local Open Scope Z_scope.

(** metrics.go: one counter per action type. *)
Record metrics := {
  m_transfer : Z;
  m_sequencerMsg : Z;
  m_auction : Z;
  m_rollupRegister : Z;
  m_epochExit : Z
}.

Definition newMetrics : metrics := {|
  m_transfer := 0; m_sequencerMsg := 0; m_auction := 0; m_rollupRegister := 0; m_epochExit := 0
|}.

(** What the switch of [Accepted] increments. *)
Definition Inc `{HyperConsts} (a : Action) (m : metrics) : metrics :=
  match a with
  | Act_Transfer _ => {| m_transfer := m_transfer m + 1; m_sequencerMsg := m_sequencerMsg m;
      m_auction := m_auction m; m_rollupRegister := m_rollupRegister m; m_epochExit := m_epochExit m |}
  | Act_SequencerMsg _ => {| m_transfer := m_transfer m; m_sequencerMsg := m_sequencerMsg m + 1;
      m_auction := m_auction m; m_rollupRegister := m_rollupRegister m; m_epochExit := m_epochExit m |}
  | Act_Auction _ => {| m_transfer := m_transfer m; m_sequencerMsg := m_sequencerMsg m;
      m_auction := m_auction m + 1; m_rollupRegister := m_rollupRegister m; m_epochExit := m_epochExit m |}
  | Act_RollupRegistration _ => {| m_transfer := m_transfer m; m_sequencerMsg := m_sequencerMsg m;
      m_auction := m_auction m; m_rollupRegister := m_rollupRegister m + 1; m_epochExit := m_epochExit m |}
  | Act_EpochExit _ => {| m_transfer := m_transfer m; m_sequencerMsg := m_sequencerMsg m;
      m_auction := m_auction m; m_rollupRegister := m_rollupRegister m; m_epochExit := m_epochExit m + 1 |}
  end.

(** [rollups = append(rollups, &reg.Info)] *)
Definition registered_info `{HyperConsts} (a : Action) : list RollupInfo :=
  match a with
  | Act_RollupRegistration reg => [rr_Info reg]
  | _ => []
  end.

Section controller.
Context `{HC : HyperConsts} {CO : Codec} {HA : HActions} {DE : DatabaseErrors} {FE : Fees}.
Context {D B : Type} {DR : KeyValueReader D} {BW : KeyValueWriter B} {BD : Batching D B}.

(** The state of the controller that its methods change; [c_archive] is the
    blocks handed to the archiver, which a goroutine inserts. *)
Record Controller := {
  c_genesis : Genesis;
  c_networkID : Z;
  c_chainID : ID;
  c_storeTransactions : bool;
  c_whiteListed : list Address;
  c_metaDB : D;
  c_metrics : metrics;
  c_rollupRegistry : RollupRegistry;
  c_archive : list StatelessBlock
}.

Definition set_metaDB (d : D) (c : Controller) : Controller :=
  {| c_genesis := c_genesis c; c_networkID := c_networkID c; c_chainID := c_chainID c;
     c_storeTransactions := c_storeTransactions c; c_whiteListed := c_whiteListed c;
     c_metaDB := d; c_metrics := c_metrics c; c_rollupRegistry := c_rollupRegistry c;
     c_archive := c_archive c |}.
Definition set_metrics (m : metrics) (c : Controller) : Controller :=
  {| c_genesis := c_genesis c; c_networkID := c_networkID c; c_chainID := c_chainID c;
     c_storeTransactions := c_storeTransactions c; c_whiteListed := c_whiteListed c;
     c_metaDB := c_metaDB c; c_metrics := m; c_rollupRegistry := c_rollupRegistry c;
     c_archive := c_archive c |}.
Definition set_registry (r : RollupRegistry) (c : Controller) : Controller :=
  {| c_genesis := c_genesis c; c_networkID := c_networkID c; c_chainID := c_chainID c;
     c_storeTransactions := c_storeTransactions c; c_whiteListed := c_whiteListed c;
     c_metaDB := c_metaDB c; c_metrics := c_metrics c; c_rollupRegistry := r;
     c_archive := c_archive c |}.
Definition set_archive (l : list StatelessBlock) (c : Controller) : Controller :=
  {| c_genesis := c_genesis c; c_networkID := c_networkID c; c_chainID := c_chainID c;
     c_storeTransactions := c_storeTransactions c; c_whiteListed := c_whiteListed c;
     c_metaDB := c_metaDB c; c_metrics := c_metrics c; c_rollupRegistry := c_rollupRegistry c;
     c_archive := l |}.

Definition Controller_Rules (c : Controller) (t : Z) : Rules :=
  Genesis_Rules (c_genesis c) t (c_networkID c) (c_chainID c) (c_whiteListed c).

(** The loop over the actions of a successful transaction. *)
Fixpoint accept_actions (l : list Action) (rollups : list RollupInfo)
    : M Controller (list RollupInfo) :=
  match l with
  | [] => mret rollups
  | act :: l =>
      modify (fun c => set_metrics (Inc act (c_metrics c)) c);;
      accept_actions l (rollups ++ registered_info act)
  end.

(** [batch], threaded next to the controller. *)
Definition on_batch {X} (m : M B X) : M (Controller * B) X := fun '(c, b) =>
  let '(b', r) := m b in ((c, b'), r).
Definition on_controller {X} (m : M Controller X) : M (Controller * B) X := fun '(c, b) =>
  let '(c', r) := m c in ((c', b), r).

(** The loop over the transactions: transaction [i] has result [i]. *)
Fixpoint accept_txs (t : Z) (results : list Result) (i : nat) (txs : list Transaction)
    (rollups : list RollupInfo) : M (Controller * B) (list RollupInfo) :=
  match txs with
  | [] => mret rollups
  | tx :: txs =>
      '(c, _) ← get;
      result ← lift (match results !! i with Some r => Ok r | None => Panic PIndex end);
      (if c_storeTransactions c then
         on_batch (StoreTransaction (tx_ID tx) t (r_Success result) (r_Units result) (r_Fee result))
       else mret tt);;
      rollups ← (if r_Success result then on_controller (accept_actions (tx_Actions tx) rollups)
                 else mret rollups);
      accept_txs t results (S i) txs rollups
  end.

Definition Accepted (blk : StatelessBlock) : M Controller unit := fun c0 =>
  let '((c, batch), r) :=
    (modify (fun '(c, b) => (set_archive (c_archive c ++ [blk]) c, b));;
     rollups ← accept_txs (blk_Tmstmp blk) (blk_Results blk) 0 (blk_Txs blk) [];
     '(c, _) ← get;
     (* currentEpoch := blk.Hght / uint64(GetEpochLength()) *)
     currentEpoch ← lift (Epoch (blk_Hght blk) (GetEpochLength (Controller_Rules c (blk_Tmstmp blk))));
     on_controller (modify (fun c =>
       set_registry (fst (Update currentEpoch rollups (c_rollupRegistry c))) c)))
    (c0, NewBatch_db (D := D)) in
  match r with
  | Ok _ =>
      let '(d, w) := Batch_Write batch (c_metaDB c) in
      (set_metaDB d c, w)
  | Err e => (c, Err e)
  | Panic p => (c, Panic p)
  end.

Definition Rejected (blk : StatelessBlock) : M Controller unit := mret tt.
Definition Shutdown : M Controller unit := mret tt.

(** ** resolutions.go: what the RPC server asks for *)

Definition Controller_Genesis (c : Controller) : Genesis := c_genesis c.

Definition Controller_GetTransaction (c : Controller) (txID : ID) : res (option TxResult) :=
  GetTransaction (c_metaDB c) txID.

(** [ReadState] is the host's. *)
Definition Controller_GetBalanceFromState (f : ReadState) (addr : Address) : res Z :=
  GetBalanceFromState f addr.

Definition Controller_GetRollupRegistryFromState (f : ReadState) : res (list bytes) :=
  GetRollupRegistryFromState f.

Definition Controller_GetEpochExitsFromState (f : ReadState) (epoch : Z) : res (option EpochExitInfo) :=
  info ← GetEpochExitsFromState f epoch;
  Ok info.

Definition Controller_GetRollupInfoFromState (f : ReadState) (ns : bytes) : res (option RollupInfo) :=
  GetRollupInfoFromState f ns.

Definition Controller_GetBuilderFromState (f : ReadState) (epoch : Z) : res (option bytes) :=
  GetArcadiaBuilderFromState f epoch.

Definition Controller_RollupRegistry (c : Controller) : RollupRegistry := c_rollupRegistry c.
Definition Controller_NetworkID (c : Controller) : Z := c_networkID c.
Definition Controller_ChainID (c : Controller) : ID := c_chainID c.
End controller.

(** ** Accepting a block *)

Section accepted.
Context `{HC : HyperConsts} {HCS : HyperConstsSpec} {CO : Codec} {HA : HActions} {DE : DatabaseErrors}.
Context {FE : Fees} {FES : FeesSpec}.
Context {D B : Type} {DR : KeyValueReader D} {BW : KeyValueWriter B} {BD : Batching D B}.
Context {BDS : BatchingSpec D B}.
Implicit Types (c : Controller (D := D)) (b : B).

(** The actions of the successful transactions, in order. *)
Fixpoint successful_actions (txs : list Transaction) (results : list Result) : list Action :=
  match txs, results with
  | tx :: txs, r :: results =>
      (if r_Success r then tx_Actions tx else []) ++ successful_actions txs results
  | _, _ => []
  end.

Definition registered_infos (l : list Action) : list RollupInfo := concat (map registered_info l).

(** What is put in the batch for each transaction. *)
Fixpoint tx_ops (t : Z) (txs : list Transaction) (results : list Result) : list (bytes * bytes) :=
  match txs, results with
  | tx :: txs, r :: results =>
      (txPrefix :: arr_list (tx_ID tx), tx_value t (r_Success r) (r_Units r) (r_Fee r)) ::
      tx_ops t txs results
  | _, _ => []
  end.

Definition count (l : list Action) (m : metrics) : metrics := foldl (fun m a => Inc a m) m l.

Lemma accept_actions_run l rollups c :
  accept_actions l rollups c =
  (set_metrics (count l (c_metrics c)) c, Ok (rollups ++ registered_infos l)).
Proof.
  revert rollups c. induction l as [|a l IH]; intros rollups c; simpl.
  - unfold registered_infos. simpl. rewrite app_nil_r. by destruct c.
  - change ((modify ?f ≫= ?k) c) with (k tt (f c)). cbv beta. rewrite IH.
    cbn [set_metrics c_metrics]. f_equal. f_equal. unfold registered_infos. simpl.
    by rewrite app_assoc.
Qed.

Definition result_wf (r : Result) : Prop := Dimensions_wf (r_Units r).

Definition tx_success_actions (tx : Transaction) (r : Result) : list Action :=
  if r_Success r then tx_Actions tx else [].

Lemma count_app l1 l2 m : count (l1 ++ l2) m = count l2 (count l1 m).
Proof. apply foldl_app. Qed.

Lemma registered_infos_app l1 l2 :
  registered_infos (l1 ++ l2) = registered_infos l1 ++ registered_infos l2.
Proof. unfold registered_infos. by rewrite map_app, concat_app. Qed.

(** One transaction: its actions are counted, its registrations collected. *)
Lemma accept_one tx r rollups c b :
  (if r_Success r then on_controller (accept_actions (tx_Actions tx) rollups) else mret rollups) (c, b) =
  ((set_metrics (count (tx_success_actions tx r) (c_metrics c)) c, b),
   Ok (rollups ++ registered_infos (tx_success_actions tx r))).
Proof.
  unfold tx_success_actions. destruct (r_Success r).
  - unfold on_controller. by rewrite accept_actions_run.
  - unfold mret, M_ret, registered_infos. simpl. rewrite app_nil_r. by destruct c.
Qed.

(** One transaction: its result goes to the batch, unless that fails. *)
Lemma store_one t tx r c b :
  Dimensions_wf (r_Units r) ->
  let m := if c_storeTransactions c then
      on_batch (StoreTransaction (tx_ID tx) t (r_Success r) (r_Units r) (r_Fee r))
    else mret tt in
  (exists b', m (c, b) = ((c, b'), Ok tt) /\
     batch_ops b' = batch_ops b ++ (if c_storeTransactions c then tx_ops t [tx] [r] else [])) \/
  (exists b' e, m (c, b) = ((c, b'), Err e)).
Proof.
  intros Hu m. unfold m. destruct (c_storeTransactions c).
  - unfold on_batch. rewrite StoreTransaction_eq by done.
    pose proof (Put_no_panic b (txPrefix :: arr_list (tx_ID tx))
      (tx_value t (r_Success r) (r_Units r) (r_Fee r))) as Hnp.
    destruct (Put _ _ b) as [b1 [[]|e|p]] eqn:Ep; [left|right|done]; exists b1; [|by exists e].
    split; [done|]. by apply Put_ops in Ep.
  - left. exists b. by rewrite app_nil_r.
Qed.

(** The loop: it succeeds, or the batch refused a write. *)
Lemma accept_txs_run t results i txs rollups c b :
  (i + length txs <= length results)%nat -> Forall result_wf results ->
  let acts := successful_actions txs (drop i results) in
  let ops := if c_storeTransactions c then tx_ops t txs (drop i results) else [] in
  (exists b', accept_txs t results i txs rollups (c, b) =
     ((set_metrics (count acts (c_metrics c)) c, b'), Ok (rollups ++ registered_infos acts)) /\
     batch_ops b' = batch_ops b ++ ops) \/
  (exists m b' e, accept_txs t results i txs rollups (c, b) = ((set_metrics m c, b'), Err e)).
Proof.
  intros Hlen Hwf. revert i rollups c b Hlen.
  induction txs as [|tx txs IH]; intros i rollups c b Hlen acts ops.
  - left. exists b. unfold acts, ops. simpl. rewrite app_nil_r.
    split; [by destruct c|]. by destruct (c_storeTransactions c); rewrite app_nil_r.
  - cbn [length] in Hlen. destruct (lookup_lt_is_Some_2 results i ltac:(lia)) as [r Hr].
    unfold acts, ops. rewrite (drop_S results r i Hr). cbn [successful_actions tx_ops accept_txs].
    rewrite bind_get, Hr, bind_lift_Ok. fold (tx_success_actions tx r).
    assert (Dimensions_wf (r_Units r)) as Hu by (by eapply Forall_lookup_1 in Hwf).
    destruct (store_one t tx r c b Hu) as [(b1 & Hrun1 & Hops1)|(b1 & e & Hrun1)].
    + rewrite (bind_run _ _ _ _ _ Hrun1), (bind_run _ _ _ _ _ (accept_one tx r rollups c b1)).
      set (c1 := set_metrics (count (tx_success_actions tx r) (c_metrics c)) c).
      destruct (IH (S i) (rollups ++ registered_infos (tx_success_actions tx r)) c1 b1 ltac:(lia))
        as [(b' & -> & Hops)|(m & b' & e & ->)]; cbn zeta in *.
      * left. exists b'. split.
        -- by rewrite registered_infos_app, <- app_assoc, count_app.
        -- rewrite Hops, Hops1. cbn [c1 set_metrics c_storeTransactions].
           destruct (c_storeTransactions c); [by rewrite <- app_assoc|by rewrite !app_nil_r].
      * right. by exists m, b', e.
    + right. exists (c_metrics c), b1, e. rewrite (bind_run_err _ _ _ _ _ Hrun1). by destruct c.
Qed.

Lemma tx_ops_last t txs results i tx r :
  NoDup (tx_ID <$> txs) -> txs !! i = Some tx -> results !! i = Some r ->
  last_write (tx_ops t txs results) (txPrefix :: arr_list (tx_ID tx)) =
  Some (tx_value t (r_Success r) (r_Units r) (r_Fee r)).
Proof.
  unfold last_write. revert results i. induction txs as [|tx0 txs IH]; intros results i Hnd Ht Hr; [done|].
  destruct results as [|r0 results]; [done|]. apply NoDup_cons in Hnd as [Hnot Hnd].
  assert (forall tx', tx' ∈ txs -> tx_ID tx' <> tx_ID tx0) as Hne.
  { intros tx' Hin Heq. apply Hnot. rewrite <- Heq. by apply list_elem_of_fmap_2. }
  destruct i as [|i]; cbn in Ht, Hr; cbn [tx_ops].
  - injection Ht as ->. injection Hr as ->. rewrite filter_cons, decide_True by done.
    replace (filter _ (tx_ops t txs results)) with (@nil (bytes * bytes)); [done|]. symmetry.
    clear -Hne. revert results. induction txs as [|tx' txs IH]; intros [|r' results]; try done.
    cbn [tx_ops]. rewrite filter_cons, decide_False.
    + apply IH. intros x Hx. apply Hne. by right.
    + simpl. intros Heq%(f_equal tail). simpl in Heq. apply arr_eq in Heq.
      by apply (Hne tx'); [left|].
  - specialize (IH results i Hnd Ht Hr). rewrite filter_cons, decide_False; [done|].
    simpl. intros Heq%(f_equal tail). simpl in Heq. apply arr_eq in Heq.
    apply (Hne tx); [by eapply list_elem_of_lookup_2|done].
Qed.

Lemma tx_ops_none t txs results (id : ID) :
  id ∉ tx_ID <$> txs -> last_write (tx_ops t txs results) (txPrefix :: arr_list id) = None.
Proof.
  unfold last_write. revert results. induction txs as [|tx txs IH]; intros [|r results] Hn; try done.
  apply not_elem_of_cons in Hn as [Hne Hn]. cbn [tx_ops]. rewrite filter_cons, decide_False.
  - by apply IH.
  - simpl. intros Heq%(f_equal tail). simpl in Heq. apply arr_eq in Heq. by symmetry in Heq.
Qed.
(** The controller when everything but the last write is done. *)
Definition accepted blk (epoch : Z) (acts : list Action) c : Controller :=
  set_registry (fst (Update epoch (registered_infos acts) (c_rollupRegistry c)))
    (set_metrics (count acts (c_metrics c)) (set_archive (c_archive c ++ [blk]) c)).

(** Either the batch is built and written last, or a write to it was refused and
    the registry was not reached. *)
Lemma Accepted_run blk c :
  length (blk_Txs blk) = length (blk_Results blk) -> Forall result_wf (blk_Results blk) ->
  u64 (EpochLength (c_genesis c)) <> 0 ->
  let acts := successful_actions (blk_Txs blk) (blk_Results blk) in
  let c1 := accepted blk (blk_Hght blk / u64 (EpochLength (c_genesis c))) acts c in
  (exists b, Accepted (B := B) blk c =
     (let '(d, w) := Batch_Write b (c_metaDB c) in (set_metaDB d c1, w)) /\
     batch_ops b = if c_storeTransactions c then tx_ops (blk_Tmstmp blk) (blk_Txs blk) (blk_Results blk) else []) \/
  (exists c' e, Accepted (B := B) blk c = (c', Err e) /\ c_metaDB c' = c_metaDB c /\
     c_rollupRegistry c' = c_rollupRegistry c /\ c_genesis c' = c_genesis c /\
     c_archive c' = c_archive c ++ [blk]).
Proof.
  intros Hlen Hwf Hep acts c1. unfold Accepted. rewrite bind_modify.
  set (c0 := set_archive (c_archive c ++ [blk]) c).
  destruct (accept_txs_run (blk_Tmstmp blk) (blk_Results blk) 0 (blk_Txs blk) [] c0
              (NewBatch_db (D := D)) ltac:(lia) Hwf) as [(b & Hrun & Hops)|(m & b & e & Hrun)].
  - left. exists b. cbn zeta in *. rewrite (bind_run _ _ _ _ _ Hrun), bind_get, drop_0 in *.
    rewrite bind_lift with (a := blk_Hght blk / u64 (EpochLength (c_genesis c))) by (by apply Epoch_ok).
    by rewrite NewBatch_ops, app_nil_l in Hops.
  - right. rewrite (bind_run_err _ _ _ _ _ Hrun). by eexists _, e.
Qed.

(** What a success leaves for the next block. *)
Lemma Accepted_Ok_inv blk c c' u :
  length (blk_Txs blk) = length (blk_Results blk) -> Forall result_wf (blk_Results blk) ->
  u64 (EpochLength (c_genesis c)) <> 0 -> Accepted (B := B) blk c = (c', Ok u) ->
  c_genesis c' = c_genesis c /\ c_archive c' = c_archive c ++ [blk] /\
  c_rollupRegistry c' = fst (Update (blk_Hght blk / u64 (EpochLength (c_genesis c)))
    (registered_infos (successful_actions (blk_Txs blk) (blk_Results blk))) (c_rollupRegistry c)).
Proof.
  intros Hlen Hwf Hep Hr.
  destruct (Accepted_run blk c Hlen Hwf Hep) as [(b & E & _)|(c1 & e & E & _)]; rewrite E in Hr; [|done].
  destruct (Batch_Write b (c_metaDB c)) as [d w]. by injection Hr as <- _.
Qed.

(** Whatever happens to the rest, the archiver is started first. *)
Lemma Accepted_archive blk c c' o :
  length (blk_Txs blk) = length (blk_Results blk) -> Forall result_wf (blk_Results blk) ->
  u64 (EpochLength (c_genesis c)) <> 0 -> Accepted (B := B) blk c = (c', o) ->
  is_panic o = false /\ c_genesis c' = c_genesis c /\ c_archive c' = c_archive c ++ [blk].
Proof.
  intros Hlen Hwf Hep Hr.
  destruct (Accepted_run blk c Hlen Hwf Hep) as [(b & E & _)|(c1 & e & E & _ & _ & Hg & Ha)]; rewrite E in Hr.
  - pose proof (Write_failed b (c_metaDB c)) as Hf.
    destruct (Batch_Write b (c_metaDB c)) as [d w]. injection Hr as <- <-. cbn [snd] in Hf.
    split_and!; [|done..]. destruct w; [done|by apply Hf..].
  - by injection Hr as <- <-.
Qed.
End accepted.

(** C15: Accepting a block. With a result for each transaction, [Accepted] never
    panics; when it succeeds, the rollup registry is updated, at the block's
    epoch, with the infos of the registrations of the successful transactions
    in order, each action of a successful transaction is counted once under its
    type, the block was handed to the archiver, and, when transactions are
    stored, a query of any transaction of the block returns its result and of
    any other what it returned before. When it fails, the meta database is
    unchanged. *)
Theorem Accepted_spec
    `{HC : HyperConsts} {HCS : HyperConstsSpec} {CO : Codec} {HA : HActions} {DE : DatabaseErrors}
    {FE : Fees} {FES : FeesSpec} {D B : Type} {DR : KeyValueReader D} {BW : KeyValueWriter B}
    {BD : Batching D B} {BDS : BatchingSpec D B}
    (c : Controller (D := D)) (blk : StatelessBlock) :
  length (blk_Txs blk) = length (blk_Results blk) -> NoDup (tx_ID <$> blk_Txs blk) ->
  Forall (fun r => Dimensions_wf (r_Units r) /\ is_u64 (r_Fee r)) (blk_Results blk) ->
  is_i64 (blk_Tmstmp blk) -> u64 (EpochLength (c_genesis c)) <> 0 ->
  let acts := successful_actions (blk_Txs blk) (blk_Results blk) in
  let epoch := blk_Hght blk / u64 (EpochLength (c_genesis c)) in
  wp (Accepted (B := B) blk) c (fun c' o =>
    match o with
    | Ok _ =>
        c_rollupRegistry c' = fst (Update epoch (registered_infos acts) (c_rollupRegistry c)) /\
        c_metrics c' = count acts (c_metrics c) /\
        c_archive c' = c_archive c ++ [blk] /\
        (forall id, id ∉ tx_ID <$> blk_Txs blk ->
           Controller_GetTransaction c' id = Controller_GetTransaction c id) /\
        (c_storeTransactions c = true -> forall i tx r,
           blk_Txs blk !! i = Some tx -> blk_Results blk !! i = Some r ->
           Controller_GetTransaction c' (tx_ID tx) =
             Ok (Some {| tx_timestamp := blk_Tmstmp blk; tx_success := r_Success r;
                         tx_units := r_Units r; tx_fee := r_Fee r |}))
    | Err _ => c_metaDB c' = c_metaDB c
    | Panic _ => False
    end).
Proof.
  intros Hlen Hnd Hwf Ht Hep acts epoch. unfold wp.
  assert (Forall result_wf (blk_Results blk)) as Hwf' by (eapply Forall_impl; [exact Hwf|by intros r [? _]]).
  destruct (Accepted_run (B := B) blk c Hlen Hwf' Hep) as [(b & -> & Hops)|(c1 & e & -> & Hdb & _)]; [|done].
  pose proof (Write_failed b (c_metaDB c)) as Hfail. pose proof (fun d' u k => Write_Get b (c_metaDB c) d' u k) as Hget.
  destruct (Batch_Write b (c_metaDB c)) as [d [u|e|p]].
  - cbn -[count Update]. split; [done|]. split; [done|]. split; [done|].
    unfold Controller_GetTransaction, GetTransaction. cbn [c_metaDB set_metaDB]. split.
    + intros id Hid. rewrite TxKey_eq, !bind_Ok, (Hget d u _ eq_refl), Hops.
      destruct (c_storeTransactions c); [by rewrite tx_ops_none|done].
    + intros Hst i tx r Hi Hr. rewrite Hst in Hops.
      rewrite TxKey_eq, bind_Ok, (Hget d u _ eq_refl), Hops, (tx_ops_last _ _ _ _ _ _ Hnd Hi Hr).
      pose proof (Forall_lookup_1 _ _ _ _ Hwf Hr) as [Hu Hf]. by apply decode_tx_value.
  - by destruct (Hfail eq_refl) as [Hd _].
  - by destruct (Hfail eq_refl) as [_ ?].
Qed.
