(* ===== verification/Server.v ===== *)
(** * Server: the JSON-RPC handlers of a node

    [src/rpc/jsonrpc_server.go], the interface of [src/rpc/dependencies.go] it
    is written against, and the requests and replies of [src/types/types.go].
    A handler fills the reply it is given: it is a computation on the reply. *)

From stdpp Require Import base numbers countable gmap list strings.
From Stdlib Require Import ZArith Lia Strings.Byte Strings.Ascii.
From S2P Require Import Prelude HyperSDK State Wire Sample Storage Ledger Genesis Auth Actions.
From S2P Require Import ChainInv Transfer SequencerMsg Auction EpochExit RollupRegister Registry.
From S2P Require Import RollupRegistry Block Commit Archiver Controller.

Local Open Scope Z_scope.

(** ** The interface the server is written against *)

Class RpcController `{HyperConsts, HActions, Gorm} (C : Type) := {
  ctl_NetworkID : C -> Z;
  ctl_ChainID : C -> ID;
  ctl_Genesis : C -> Genesis;
  ctl_GetTransaction : C -> ID -> res (option TxResult);
  ctl_GetBalanceFromState : C -> Address -> res Z;
  ctl_GetEpochExitsFromState : C -> Z -> res (option EpochExitInfo);
  ctl_GetBuilderFromState : C -> Z -> res (option bytes);
  ctl_GetRollupInfoFromState : C -> bytes -> res (option RollupInfo);
  ctl_GetRollupRegistryFromState : C -> res (list bytes);
  ctl_UnitPrices : C -> res Dimensions;
  ctl_NameSpacesPrice : C -> list string -> res (list Z);
  ctl_GetAcceptedBlockWindow : C -> Z;
  ctl_Archiver : C -> DB;
  ctl_RollupRegistry : C -> RollupRegistry
}.

(** ** Requests and replies (types.go) *)

Record SEQTransaction := {
  st_Namespace : string;
  st_TxID : string;
  st_Index : Z;
  st_Transaction : bytes
}.

Record SEQTransactionResponse := { sr_Txs : list SEQTransaction; sr_BlockID : string }.
Record GetBlockTransactionsArgs := { bt_ID : string }.
Record GetBlockTransactionsByNamespaceArgs := { bn_Height : Z; bn_Namespace : string }.
Record RegistryReply := { rr_Namespaces : list bytes }.
Record EpochExitsArgs := { ee_args_Epoch : Z }.
Record EpochExitsReply := { er_Info : option EpochExitInfo }.
Record GetRollupInfoArgs := { ri_args_Namespace : bytes }.
Record GetRollupInfoReply `{HyperConsts} := { ir_Info : RollupInfo }.
Record GetBuilderArgs := { gb_Epoch : Z }.
Record GetBuilderReply := { gb_BuilderPubKey : option bytes }.
Record GetRollupsInfoAtEpochArgs := { ra_Epoch : Z }.
Record GetRollupsInfoAtEpochReply `{HyperConsts} := { ra_Rollups : list RollupInfo }.
Record TxArgs `{HyperConsts} := { ta_TxID : ID }.
Record TxReply := { tr_Timestamp : Z; tr_Success : bool; tr_Units : Dimensions; tr_Fee : Z }.
Record BalanceArgs := { ba_Address : string }.
Record BalanceReply := { ba_Amount : Z }.
(** [Genesis] is a pointer *)
Record GenesisReply := { gr_Genesis : option Genesis }.

(** [GetAllRollupInfoReply.Info]: the registrations by start epoch. *)
Abbreviation GetAllRollupInfoReply := (gmap Z (list RollupInfo)).

(** rpc/errors.go *)
Definition ErrTxNotFound : error := ErrNew "tx not found".
Definition ErrAssetNotFound : error := ErrNew "asset not found".
Definition ErrTxFailed : error := ErrNew "tx result failed".

(** [hex.EncodeToString] *)
Definition hex_digit (z : Z) : ascii :=
  ascii_of_byte (byte_of_Z (if z <? 10 then 0x30 + z else 0x57 + z)).
Fixpoint EncodeToString (b : bytes) : string :=
  match b with
  | [] => EmptyString
  | x :: b =>
      String (hex_digit (Z_of_byte x / 16)) (String (hex_digit (Z_of_byte x mod 16)) (EncodeToString b))
  end.

Section server.
Context `{HC : HyperConsts} {CO : Codec} {HA : HActions} {SM : SafeMath} {BC : BLSCrypto}.
Context {EC : ED25519Crypto} {DE : DatabaseErrors} {SP : StatePermissions}.
Context {S : Type} {IM : Immutable S} {MU : Mutable S}.
Context {BK : Blocks} {GO : Gorm} {KK : Keccak}.
Context {C : Type} {RC : RpcController C}.
Implicit Types (c : C).

(** [reply.Field = v], for a reply of that one field. *)
Definition set_reply {R} (r : R) : M R unit := modify (fun _ => r).

Definition Server_Genesis c : M GenesisReply unit := set_reply {| gr_Genesis := Some (ctl_Genesis c) |}.

Definition Server_Tx c (args : TxArgs) : M TxReply unit :=
  found ← lift (ctl_GetTransaction c (ta_TxID args));
  match found with
  | None => throw ErrTxNotFound
  | Some tx => set_reply {| tr_Timestamp := tx_timestamp tx; tr_Success := tx_success tx;
                            tr_Units := tx_units tx; tr_Fee := tx_fee tx |}
  end.

Definition Server_Balance c (args : BalanceArgs) : M BalanceReply unit :=
  addr ← lift (ParseAddressBech32 HRP (ba_Address args));
  balance ← lift (ctl_GetBalanceFromState c addr);
  set_reply {| ba_Amount := balance |}.

(** ** Headers and commitments: the archiver's answers *)

Definition Server_GetBlockHeadersByHeight c (args : GetBlockHeadersByHeightArgs)
    : M BlockHeadersResponse unit :=
  headers ← lift (GetBlockHeadersByHeight (ctl_Archiver c) args);
  set_reply {| hr_From := hr_From headers; hr_Blocks := hr_Blocks headers;
               hr_Prev := hr_Prev headers; hr_Next := hr_Next headers |}.

Definition Server_GetBlockHeadersID c (args : GetBlockHeadersIDArgs) : M BlockHeadersResponse unit :=
  headers ← lift (GetBlockHeadersByID (ctl_Archiver c) args);
  set_reply {| hr_From := hr_From headers; hr_Blocks := hr_Blocks headers;
               hr_Prev := hr_Prev headers; hr_Next := hr_Next headers |}.

Definition Server_GetBlockHeadersByStartTimeStamp c (args : GetBlockHeadersByStartTimeStampArgs)
    : M BlockHeadersResponse unit :=
  headers ← lift (GetBlockHeadersAfterTimestamp (ctl_Archiver c) args);
  set_reply {| hr_From := hr_From headers; hr_Blocks := hr_Blocks headers;
               hr_Prev := hr_Prev headers; hr_Next := hr_Next headers |}.

(** [ServerParser]: the rules of the genesis, without a white list. *)
Definition ServerParser (networkID : Z) (chainID : ID) (g : Genesis) : chain_Parser := {|
  Parser_ChainID := chainID;
  Parser_Rules := fun t => Genesis_Rules g t networkID chainID []
|}.

Definition server_parser c : chain_Parser :=
  ServerParser (ctl_NetworkID c) (ctl_ChainID c) (ctl_Genesis c).

Definition Server_GetCommitmentBlocks c (args : GetBlockCommitmentArgs)
    : M SequencerWarpBlockResponse unit :=
  warpResp ← lift (GetCommitmentBlocks (ctl_Archiver c) args (server_parser c));
  set_reply warpResp.

(** ** Sequencer messages of a block *)

(** [action.( *actions.SequencerMsg)] *)
Definition as_SequencerMsg (a : Action) : res SequencerMsg :=
  match a with
  | Act_SequencerMsg m => Ok m
  | _ => Panic PTypeAssert
  end.

Definition append_tx (t : SEQTransaction) (r : SEQTransactionResponse) : SEQTransactionResponse :=
  {| sr_Txs := sr_Txs r ++ [t]; sr_BlockID := sr_BlockID r |}.
Definition set_BlockID (id : string) (r : SEQTransactionResponse) : SEQTransactionResponse :=
  {| sr_Txs := sr_Txs r; sr_BlockID := id |}.

(** The body of the inner loop; [keep] is the test of the namespace. *)
Definition collect_action (keep : string -> bool) (txID : ID) (k : Z) (action : Action)
    : M SEQTransactionResponse unit :=
  if GetTypeID (S := S) action =? MsgID then
    let ns := EncodeToString (NMTNamespace (S := S) action) in
    if keep ns then
      msg ← lift (as_SequencerMsg action);
      modify (append_tx {| st_Namespace := ns; st_TxID := ID_String txID; st_Index := k;
                           st_Transaction := Data msg |})
    else mret tt
  else mret tt.

Fixpoint collect_actions (keep : string -> bool) (txID : ID) (k : Z) (l : list Action)
    : M SEQTransactionResponse unit :=
  match l with
  | [] => mret tt
  | action :: l => collect_action keep txID k action;; collect_actions keep txID (k + 1) l
  end.

Fixpoint collect_txs (keep : string -> bool) (txs : list Transaction) : M SEQTransactionResponse unit :=
  match txs with
  | [] => mret tt
  | tx :: txs => collect_actions keep (tx_ID tx) 0 (tx_Actions tx);; collect_txs keep txs
  end.

Definition Server_GetBlockTransactions c (args : GetBlockTransactionsArgs)
    : M SEQTransactionResponse unit :=
  if bool_decide (bt_ID args = ""%string) then throw (Errorf "block id not provided" [])
  else
    blk ← lift (GetBlockByID (ctl_Archiver c) (bt_ID args) (server_parser c));
    collect_txs (fun _ => true) (sb_Txs blk);;
    modify (set_BlockID (bt_ID args)).

Definition Server_GetBlockTransactionsByNamespace c (args : GetBlockTransactionsByNamespaceArgs)
    : M SEQTransactionResponse unit :=
  blk ← lift (GetBlockByHeight (ctl_Archiver c) (bn_Height args) (server_parser c));
  blkID ← lift (StatefulBlock_ID blk);
  collect_txs (fun ns => bool_decide (bn_Namespace args = ns)) (sb_Txs blk);;
  modify (set_BlockID (ID_String blkID)).

(** ** Rollups *)

Definition Server_GetEpochExits c (args : EpochExitsArgs) : M EpochExitsReply unit :=
  info ← lift (ctl_GetEpochExitsFromState c (ee_args_Epoch args));
  set_reply {| er_Info := info |}.

Definition Server_GetBuilder c (args : GetBuilderArgs) : M GetBuilderReply unit :=
  builder ← lift (ctl_GetBuilderFromState c (gb_Epoch args));
  set_reply {| gb_BuilderPubKey := builder |}.

Definition Server_GetRollupRegistry c : M RegistryReply unit :=
  namespaces ← lift (ctl_GetRollupRegistryFromState c);
  set_reply {| rr_Namespaces := namespaces |}.

Definition Server_GetRollupInfo c (args : GetRollupInfoArgs) : M GetRollupInfoReply unit :=
  info ← lift (ctl_GetRollupInfoFromState c (ri_args_Namespace args));
  match info with
  | None => throw (Errorf "not such rollup in state" [])
  | Some info => set_reply {| ir_Info := info |}
  end.

(** [l := reply.Info[e]; l = append(l, *info); reply.Info[e] = l] *)
Definition add_info (info : RollupInfo) (m : GetAllRollupInfoReply) : GetAllRollupInfoReply :=
  <[StartEpoch info := default [] (m !! StartEpoch info) ++ [info]]> m.

(** The loop over the namespaces; the info is dereferenced unchecked. *)
Fixpoint collect_infos c (namespaces : list bytes) : M GetAllRollupInfoReply unit :=
  match namespaces with
  | [] => mret tt
  | ns :: namespaces =>
      info ← lift (ctl_GetRollupInfoFromState c ns);
      info ← lift (match info with Some i => Ok i | None => Panic PNil end);
      modify (add_info info);;
      collect_infos c namespaces
  end.

Definition Server_GetAllRollupInfo c : M GetAllRollupInfoReply unit :=
  namespaces ← lift (ctl_GetRollupRegistryFromState c);
  modify (fun _ => ∅);;
  collect_infos c namespaces.

Definition Server_GetValidRollupsAtEpoch c (args : GetRollupsInfoAtEpochArgs)
    : M GetRollupsInfoAtEpochReply unit :=
  set_reply {| ra_Rollups := RollupsValidAtEpoch (ctl_RollupRegistry c) (ra_Epoch args) |}.

Definition Server_GetAcceptedBlockWindow c : M Z unit := set_reply (ctl_GetAcceptedBlockWindow c).
End server.

(** ** What the interface promises: answers from the committed state *)

Class RpcControllerSpec `{RpcController C, DatabaseErrors} := {
  committed : C -> gmap bytes bytes;
  GetRollupInfo_committed c ns : ctl_GetRollupInfoFromState c ns = rollup_at (committed c) ns;
  GetRollupRegistry_committed c : ctl_GetRollupRegistryFromState c = registry_at (committed c);
  GetEpochExits_committed c e :
    ctl_GetEpochExitsFromState c e = ('(i, _) ← exits_at (committed c) e; Ok i)
}.

(** *** The controller of a node keeps the promise

    [vm.ReadState] reads the committed state; the archive is the one blocks are
    inserted into. *)

Section node.
Context `{HC : HyperConsts} {CO : Codec} {HA : HActions} {DE : DatabaseErrors} {FE : Fees}.
Context {GO : Gorm} {D : Type} {DR : KeyValueReader D}.

Record Node := {
  n_controller : Controller (D := D);
  n_ReadState : ReadState;
  n_view : gmap bytes bytes;
  n_reads : reads_state n_ReadState n_view;
  n_archiver : DB;
  n_UnitPrices : res Dimensions;
  n_NameSpacesPrice : list string -> res (list Z);
  n_AcceptedBlockWindow : Z
}.

#[export] Instance node_controller : RpcController Node := {|
  ctl_NetworkID n := Controller_NetworkID (n_controller n);
  ctl_ChainID n := Controller_ChainID (n_controller n);
  ctl_Genesis n := Controller_Genesis (n_controller n);
  ctl_GetTransaction n := Controller_GetTransaction (n_controller n);
  ctl_GetBalanceFromState n := Controller_GetBalanceFromState (n_ReadState n);
  ctl_GetEpochExitsFromState n := Controller_GetEpochExitsFromState (n_ReadState n);
  ctl_GetBuilderFromState n := Controller_GetBuilderFromState (n_ReadState n);
  ctl_GetRollupInfoFromState n := Controller_GetRollupInfoFromState (n_ReadState n);
  ctl_GetRollupRegistryFromState n := Controller_GetRollupRegistryFromState (n_ReadState n);
  ctl_UnitPrices n := n_UnitPrices n;
  ctl_NameSpacesPrice n := n_NameSpacesPrice n;
  ctl_GetAcceptedBlockWindow n := n_AcceptedBlockWindow n;
  ctl_Archiver n := n_archiver n;
  ctl_RollupRegistry n := Controller_RollupRegistry (n_controller n)
|}.

#[export] Instance node_controller_spec : RpcControllerSpec.
Proof.
  refine {| committed n := n_view n |}.
  - intros n ns. cbn. unfold Controller_GetRollupInfoFromState, GetRollupInfoFromState, rollup_at.
    by rewrite (read_one_view _ _ _ (n_reads n)).
  - intros n. cbn. unfold Controller_GetRollupRegistryFromState, GetRollupRegistryFromState, registry_at.
    by rewrite (read_one_view _ _ _ (n_reads n)).
  - intros n e. cbn. unfold Controller_GetEpochExitsFromState, GetEpochExitsFromState, exits_at.
    rewrite (read_one_view _ _ _ (n_reads n)). by destruct (innerGetEpochExits _) as [[]| |].
Defined.
End node.

(** ** The listing of the rollups *)

Section listing.
Context `{HC : HyperConsts} {CO : Codec} {HA : HActions} {DE : DatabaseErrors} {CS : CodecSpec} {HS : HActionsSpec}.
Context {GO : Gorm} {C : Type} {RC : RpcController C} {RS : RpcControllerSpec}.
Implicit Types (c : C).

(** The infos that start at an epoch, in the order of the registry. *)
Definition starting (e : Z) (infos : list RollupInfo) : list RollupInfo :=
  filter (fun i => StartEpoch i = e) infos.

Lemma add_infos_lookup infos (m : GetAllRollupInfoReply) e :
  default [] (foldl (fun m i => add_info i m) m infos !! e) = default [] (m !! e) ++ starting e infos.
Proof.
  revert m. induction infos as [|i infos IH]; intros m; cbn [foldl starting].
  - by rewrite app_nil_r.
  - rewrite IH. unfold starting, add_info. rewrite filter_cons.
    destruct (decide (StartEpoch i = e)) as [<-|Hne].
    + rewrite lookup_insert_eq. simpl. by rewrite <- app_assoc.
    + by rewrite lookup_insert_ne.
Qed.

Lemma collect_infos_run c nss infos m :
  Forall2 (fun ns i => rollup_at (committed c) ns = Ok (Some i)) nss infos ->
  collect_infos c nss m = (foldl (fun m i => add_info i m) m infos, Ok tt).
Proof.
  intros Hf. revert m. induction Hf as [|ns i nss infos Hi Hf IH]; intros m; [done|].
  cbn [collect_infos foldl]. rewrite GetRollupInfo_committed, Hi, !bind_lift_Ok, bind_modify. apply IH.
Qed.

Lemma registry_infos v nss :
  registry_inv v nss -> exists infos,
    Forall2 (fun ns i => rollup_at v ns = Ok (Some i)) nss infos /\ RI_Namespace <$> infos = nss.
Proof.
  intros Hinv. assert (forall l, (forall ns, ns ∈ l -> ns ∈ nss) -> exists infos,
    Forall2 (fun ns i => rollup_at v ns = Ok (Some i)) l infos /\ RI_Namespace <$> infos = l) as Hl.
  { intros l. induction l as [|ns l IH]; intros Hin; [by exists []|].
    destruct IH as (infos & Hf & Hn); [intros; apply Hin; by right|].
    destruct (ri_registered _ _ Hinv ns) as (i & Hi & Hw & _); [apply Hin; by left|].
    exists (i :: infos). split; [by constructor|]. cbn. by rewrite Hw, Hn. }
  by apply Hl.
Qed.
End listing.

(** The listing of all rollups is complete, and never dereferences a missing
    info. On a committed state with a well-formed registry, whatever the reply
    held, the handler succeeds, and for every start epoch the reply lists the
    infos of exactly the registered namespaces that start then, in the order of
    the registry. *)
Theorem GetAllRollupInfo_complete
    `{HC : HyperConsts} {CO : Codec} {HA : HActions} {DE : DatabaseErrors} {CS : CodecSpec}
    {HS : HActionsSpec} {GO : Gorm} {C : Type} {RC : RpcController C} {RS : RpcControllerSpec}
    (c : C) (nss : list bytes) (reply : GetAllRollupInfoReply) :
  registry_inv (committed c) nss ->
  wp (Server_GetAllRollupInfo c) reply (fun reply' o =>
    o = Ok tt /\
    exists infos,
      Forall2 (fun ns i => rollup_at (committed c) ns = Ok (Some i)) nss infos /\
      RI_Namespace <$> infos = nss /\
      forall e, default [] (reply' !! e) = starting e infos).
Proof.
  intros Hinv. destruct (registry_infos _ _ Hinv) as (infos & Hf & Hn).
  unfold Server_GetAllRollupInfo. rewrite GetRollupRegistry_committed, (ri_registry _ _ Hinv).
  unfold wp. rewrite bind_lift_Ok, bind_modify, (collect_infos_run c nss infos) by done.
  split; [done|]. exists infos. split_and!; [done|done|]. intros e.
  etransitivity; [apply add_infos_lookup|]. by rewrite lookup_empty.
Qed.

(** ** The messages of a block *)

Section messages.
Context `{HC : HyperConsts} {BK : Blocks}.

(** The message an action carries, at its index in its transaction. *)
Definition message_of (txID : ID) (k : Z) (a : Action) : list SEQTransaction :=
  match a with
  | Act_SequencerMsg m =>
      [{| st_Namespace := EncodeToString (ChainID m); st_TxID := ID_String txID; st_Index := k;
          st_Transaction := Data m |}]
  | _ => []
  end.

Fixpoint messages_from (txID : ID) (k : Z) (l : list Action) : list SEQTransaction :=
  match l with
  | [] => []
  | a :: l => message_of txID k a ++ messages_from txID (k + 1) l
  end.

(** All the messages of a block, in the order of its transactions. *)
Definition block_messages (blk : StatefulBlock) : list SEQTransaction :=
  concat (map (fun tx => messages_from (tx_ID tx) 0 (tx_Actions tx)) (sb_Txs blk)).

Definition kept (keep : string -> bool) (l : list SEQTransaction) : list SEQTransaction :=
  filter (fun t => keep (st_Namespace t) = true) l.

Lemma kept_all l : kept (fun _ => true) l = l.
Proof.
  induction l as [|t l IH]; [done|]. unfold kept in *. by rewrite filter_cons, decide_True, IH.
Qed.
End messages.

Section message_facts.
Context `{HC : HyperConsts} {CO : Codec} {HA : HActions} {SM : SafeMath} {BC : BLSCrypto}.
Context {EC : ED25519Crypto} {DE : DatabaseErrors} {SP : StatePermissions}.
Context {S : Type} {IM : Immutable S} {MU : Mutable S}.
Context {BK : Blocks} {TP : TypeParsers} {TPS : TypeParsersSpec}.
Implicit Types (r : SEQTransactionResponse).

Definition add_messages (l : list SEQTransaction) r : SEQTransactionResponse :=
  {| sr_Txs := sr_Txs r ++ l; sr_BlockID := sr_BlockID r |}.

(** The start-up check makes the message identifier the messages' alone. *)
Lemma init_MsgID ar au a :
  init = Ok (ar, au) -> (GetTypeID (S := S) a =? MsgID) = true -> exists m, a = Act_SequencerMsg m.
Proof.
  intros Hi Ht%Z.eqb_eq. unfold init in Hi.
  pose proof (register_all_spec action_registrations NewTypeParser) as Ha.
  destruct (register_all action_registrations NewTypeParser) as [p1 errs1].
  destruct (register_all auth_registrations NewTypeParser) as [p2 errs2].
  destruct (errs1 ++ errs2) eqn:E; [|done]. apply app_eq_nil in E as [-> _].
  destruct Ha as (Ha & _ & _). apply proj1 in Ha. destruct (Ha eq_refl) as [Hnd _].
  cbn in Hnd. rewrite !NoDup_cons in Hnd. destruct Hnd as (H1 & H2 & H3 & H4 & _).
  rewrite !not_elem_of_cons in *.
  destruct a; [|by eauto|..]; exfalso; cbn in Ht;
    unfold Transfer_GetTypeID, RollupRegistration_GetTypeID, EpochExit_GetTypeID, Auction_GetTypeID in Ht;
    intuition congruence.
Qed.

Lemma add_messages_nil r : r = add_messages [] r.
Proof. unfold add_messages. rewrite app_nil_r. by destruct r. Qed.

Lemma add_messages_app l1 l2 r : add_messages l2 (add_messages l1 r) = add_messages (l1 ++ l2) r.
Proof. unfold add_messages. cbn. by rewrite app_assoc. Qed.

Lemma collect_action_run ar au keep txID k a r :
  init = Ok (ar, au) ->
  collect_action (S := S) keep txID k a r = (add_messages (kept keep (message_of txID k a)) r, Ok tt).
Proof.
  intros Hi. unfold collect_action. destruct (GetTypeID a =? MsgID) eqn:Ht.
  - destruct (init_MsgID ar au a Hi Ht) as [m ->].
    change (NMTNamespace (Act_SequencerMsg m)) with (ChainID m). cbv zeta.
    cbn [message_of as_SequencerMsg]. unfold kept. rewrite filter_cons, filter_nil. cbn [st_Namespace].
    destruct (keep (EncodeToString (ChainID m))); [done|]. cbn. by rewrite <- add_messages_nil.
  - assert (message_of txID k a = []) as ->.
    { by destruct a. }
    unfold kept. cbn. by rewrite <- add_messages_nil.
Qed.

Lemma collect_actions_run ar au keep txID k l r :
  init = Ok (ar, au) ->
  collect_actions (S := S) keep txID k l r = (add_messages (kept keep (messages_from txID k l)) r, Ok tt).
Proof.
  intros Hi. revert k r. induction l as [|a l IH]; intros k r.
  - unfold kept. cbn. by rewrite <- add_messages_nil.
  - cbn [collect_actions messages_from].
    rewrite (bind_run _ _ _ _ _ (collect_action_run ar au _ _ _ _ _ Hi)), IH, add_messages_app.
    unfold kept. by rewrite filter_app.
Qed.

Lemma collect_txs_run ar au keep txs r :
  init = Ok (ar, au) ->
  collect_txs (S := S) keep txs r =
  (add_messages (kept keep (concat (map (fun tx => messages_from (tx_ID tx) 0 (tx_Actions tx)) txs))) r, Ok tt).
Proof.
  intros Hi. revert r. induction txs as [|tx txs IH]; intros r.
  - unfold kept. cbn. by rewrite <- add_messages_nil.
  - cbn [collect_txs map concat].
    rewrite (bind_run _ _ _ _ _ (collect_actions_run ar au _ _ _ _ _ Hi)), IH, add_messages_app.
    unfold kept. by rewrite filter_app.
Qed.
End message_facts.

(** C29: The messages a node serves of a block are the messages of the block, in
    order. For a block the archive serves, neither query panics (the type
    assertion is behind the test of the identifier, which start-up made unique);
    the query by identifier returns every sequencer message with its namespace,
    transaction and index, the query by height and namespace exactly those of
    the namespace; an error leaves the reply alone. *)
Theorem GetBlockTransactions_spec
    `{HC : HyperConsts} {CO : Codec} {HA : HActions} {SM : SafeMath} {BC : BLSCrypto}
    {EC : ED25519Crypto} {DE : DatabaseErrors} {SP : StatePermissions}
    {S : Type} {IM : Immutable S} {MU : Mutable S} {BK : Blocks} {BS : BlocksSpec}
    {TP : TypeParsers} {TPS : TypeParsersSpec} {GO : Gorm} {GS : GormSpec}
    {C : Type} {RC : RpcController C}
    (c : C) ar au (byID : GetBlockTransactionsArgs) (byNs : GetBlockTransactionsByNamespaceArgs)
    (reply : SEQTransactionResponse) :
  init = Ok (ar, au) -> sr_Txs reply = [] ->
  wp (Server_GetBlockTransactions (S := S) c byID) reply (fun reply' o =>
    match o with
    | Ok _ => exists blk,
        GetBlockByID (ctl_Archiver c) (bt_ID byID) (server_parser c) = Ok blk /\
        sr_Txs reply' = block_messages blk /\ sr_BlockID reply' = bt_ID byID
    | Err _ => reply' = reply
    | Panic _ => False
    end) /\
  wp (Server_GetBlockTransactionsByNamespace (S := S) c byNs) reply (fun reply' o =>
    match o with
    | Ok _ => exists blk id,
        GetBlockByHeight (ctl_Archiver c) (bn_Height byNs) (server_parser c) = Ok blk /\
        StatefulBlock_ID blk = Ok id /\
        sr_Txs reply' = filter (fun t => st_Namespace t = bn_Namespace byNs) (block_messages blk) /\
        sr_BlockID reply' = ID_String id
    | Err _ => reply' = reply
    | Panic _ => False
    end).
Proof.
  intros Hi Hr. split.
  - unfold Server_GetBlockTransactions. case_bool_decide; [done|].
    pose proof (GetBlockByID_no_panic (ctl_Archiver c) (bt_ID byID) (server_parser c)) as Hp.
    destruct (GetBlockByID _ _ _) as [blk|e|p] eqn:E; [|done|done]. unfold wp.
    rewrite bind_lift_Ok, (bind_run _ _ _ _ _ (collect_txs_run ar au _ _ _ Hi)). exists blk. cbn.
    rewrite Hr. by rewrite kept_all.
  - unfold Server_GetBlockTransactionsByNamespace.
    pose proof (GetBlockByHeight_no_panic (ctl_Archiver c) (bn_Height byNs) (server_parser c)) as Hp.
    destruct (GetBlockByHeight _ _ _) as [blk|e|p] eqn:E; [|done|done]. unfold wp.
    rewrite bind_lift_Ok. pose proof (StatefulBlock_ID_no_panic blk) as Hip.
    destruct (StatefulBlock_ID blk) as [id|e|p] eqn:Ei; [|done|done].
    rewrite bind_lift_Ok, (bind_run _ _ _ _ _ (collect_txs_run ar au _ _ _ Hi)). exists blk, id. cbn.
    rewrite Hr. split_and!; [done|done| |done]. unfold kept. apply list_filter_iff.
    intros t. rewrite bool_decide_eq_true. by split.
Qed.
