(* ===== verification/BlockRun.v ===== *)
(** * BlockRun: what the host makes of a block before it is accepted

    The host executes the transactions of a block one after the other on the
    state (transactions whose keys do not conflict also run in parallel, which
    [Schedule] shows to be the same). It executes the actions of the block in
    place: an action sees and changes the very object [Accepted] is given, so a
    run relates the actions that were submitted to those the accepted block
    holds. A transaction that fails leaves its fee and nothing else, and
    whatever it did to its actions. *)

From stdpp Require Import base numbers countable gmap list strings.
From Stdlib Require Import ZArith Lia Strings.Byte.
From S2P Require Import Prelude HyperSDK State Wire Sample Storage Ledger Genesis Auth Actions.
From S2P Require Import ChainInv Transfer SequencerMsg Auction EpochExit RollupRegister Registry.
From S2P Require Import StateManager Chain RollupRegistry Block Controller.

Local Open Scope Z_scope.

Section run.
Context `{HC : HyperConsts} {HCS : HyperConstsSpec} {CO : Codec} {HA : HActions}.
Context {SM : SafeMath} {SMS : SafeMathSpec} {BC : BLSCrypto} {BS : BLSCryptoSpec}.
Context {DE : DatabaseErrors} {DES : DatabaseErrorsSpec} {CS : CodecSpec} {HS : HActionsSpec}.
Context {SP : StatePermissions} {SPS : StatePermissionsSpec}.
Context {S : Type} {IM : Immutable S} {MU : Mutable S} {MS : MutableSpec S}.
Context (rules : Rules) (t h : Z).
Implicit Types (v : gmap bytes bytes).

(** [actions_run v l l' v']: the actions [l], executed in order from the
    contents [v], all succeed, are [l'] afterwards and leave [v']. *)
Inductive actions_run : gmap bytes bytes -> list Action -> list Action -> gmap bytes bytes -> Prop :=
  | actions_done v : actions_run v [] [] v
  | actions_next v a a' actor id (s s' : S) out l l' v' :
      view s = v -> Action_wf (S := S) a ->
      Action_Execute rules t h actor id (s, a) = ((s', a'), Ok out) ->
      actions_run (view s') l l' v' ->
      actions_run v (a :: l) (a' :: l') v'.

(** [block_run v txs results v']: [txs] are the transactions as executed. Fees
    are paid, and the host writes its keys, between transactions. *)
Inductive block_run : gmap bytes bytes -> list Transaction -> list Result -> gmap bytes bytes -> Prop :=
  | block_done v : block_run v [] [] v
  | block_host v k b txs results v' :
      is_host_key k -> block_run (<[k := b]> v) txs results v' -> block_run v txs results v'
  | block_fee v addr amount (s s' : S) txs results v' :
      view s = v -> is_u64 amount -> Deduct addr amount s = (s', Ok tt) ->
      block_run (view s') txs results v' -> block_run v txs results v'
  | block_success v l tx r v1 txs results v' :
      r_Success r = true -> actions_run v l (tx_Actions tx) v1 ->
      block_run v1 txs results v' -> block_run v (tx :: txs) (r :: results) v'
  | block_failure v tx r txs results v' :
      r_Success r = false -> block_run v txs results v' ->
      block_run v (tx :: txs) (r :: results) v'.

Lemma block_run_length v txs results v' :
  block_run v txs results v' -> length txs = length results.
Proof. induction 1; simpl; congruence. Qed.
End run.

(** ** What a run does to the rollup infos *)

(** The last info a list has for a namespace. *)
Definition last_info `{HyperConsts} (l : list RollupInfo) (ns : bytes) : option RollupInfo :=
  last (filter (fun i => RI_Namespace i = ns) l).

(** [ns ↦ last_info l ns], for the others what it was. *)
Definition overlay `{HyperConsts} (l : list RollupInfo) (f : bytes -> option RollupInfo) (ns : bytes)
    : option RollupInfo :=
  match last_info l ns with Some i => Some i | None => f ns end.

Section overlay.
Context `{HC : HyperConsts}.
Implicit Types (l : list RollupInfo) (f : bytes -> option RollupInfo).

Lemma overlay_nil f ns : overlay [] f ns = f ns.
Proof. done. Qed.

Lemma overlay_app l1 l2 f ns : overlay (l1 ++ l2) f ns = overlay l2 (overlay l1 f) ns.
Proof.
  unfold overlay, last_info. rewrite filter_app, last_app. by destruct (last (filter _ l2)).
Qed.

Lemma overlay_eq l f g ns : f ns = g ns -> overlay l f ns = overlay l g ns.
Proof. unfold overlay. by intros ->. Qed.

Lemma overlay_singleton i f ns :
  overlay [i] f ns = if decide (RI_Namespace i = ns) then Some i else f ns.
Proof. unfold overlay, last_info. rewrite filter_cons, filter_nil. by case_decide. Qed.

Lemma last_info_Some l ns i : last_info l ns = Some i -> i ∈ l /\ RI_Namespace i = ns.
Proof.
  unfold last_info. intros Hl%last_Some. destruct Hl as [l' Hl].
  assert (i ∈ filter (fun i => RI_Namespace i = ns) l) as Hin.
  { rewrite Hl. apply elem_of_app. right. by apply list_elem_of_singleton. }
  by apply list_elem_of_filter in Hin as [? ?].
Qed.

Lemma last_info_None l ns : last_info l ns = None <-> ns ∉ RI_Namespace <$> l.
Proof.
  unfold last_info. rewrite last_None. split.
  - intros Hf (i & -> & Hi)%list_elem_of_fmap.
    assert (i ∈ filter (fun j => RI_Namespace j = RI_Namespace i) l) as Hin
      by (by apply list_elem_of_filter). rewrite Hf in Hin. by apply not_elem_of_nil in Hin.
  - intros Hn. destruct (filter _ l) as [|i l'] eqn:E; [done|]. destruct Hn.
    assert (i ∈ filter (fun i => RI_Namespace i = ns) l) as Hin by (rewrite E; by left).
    apply list_elem_of_filter in Hin as [<- Hin]. by apply list_elem_of_fmap_2.
Qed.
End overlay.

Section infos.
Context `{HC : HyperConsts} {HCS : HyperConstsSpec} {CO : Codec} {HA : HActions}.
Context {SM : SafeMath} {SMS : SafeMathSpec} {BC : BLSCrypto} {BS : BLSCryptoSpec}.
Context {DE : DatabaseErrors} {DES : DatabaseErrorsSpec} {CS : CodecSpec} {HS : HActionsSpec}.
Context {SP : StatePermissions} {SPS : StatePermissionsSpec}.
Context {S : Type} {IM : Immutable S} {MU : Mutable S} {MS : MutableSpec S}.
Implicit Types (v : gmap bytes bytes) (s : S).

Lemma info_of_eq v v' ns : v' !! RollupInfoKey ns = v !! RollupInfoKey ns -> info_of v' ns = info_of v ns.
Proof. intros Hk. unfold info_of. by rewrite (rollup_at_eq v' v). Qed.

(** Transfers, messages, bids and exits are kept under keys of other data. *)
Lemma others_keep_infos rules t h actor id (a a' : Action) s s' out ns :
  registered_info a = [] -> Action_Execute rules t h actor id (s, a) = ((s', a'), Ok out) ->
  registered_info a' = [] /\ view s' !! RollupInfoKey ns = view s !! RollupInfoKey ns.
Proof.
  intros Ha Hr. pose proof (Execute_frame (A := Action) rules t h actor id a s) as Hf.
  unfold wp in Hf. cbn [Execute Action_action] in Hf. rewrite Hr in Hf. destruct Hf as [_ Hf]. cbn [fst] in Hf.
  assert (forall b, RollupInfoKey ns <> BalanceKey b) as Hb.
  { intros b E. apply (BalanceKey_not_arcadia b). rewrite <- E. apply RollupInfoKey_arcadia. }
  destruct a as [x|x|x|x|x]; unfold Action_Execute in Hr; rewrite via_eq in Hr; try done;
    cbn [StateKeys Action_action on_action Transfer_action SequencerMsg_action Auction_action] in Hf.
  - injection Hr as _ <- _. split; [done|]. apply Hf. unfold Transfer_StateKeys. keys_simpl.
    rewrite !lookup_insert_ne by done. by intros [? ?].
  - injection Hr as _ <- _. split; [done|]. apply Hf. unfold SequencerMsg_StateKeys. keys_simpl.
    by intros [? ?].
  - cbn [Execute EpochExit_action] in Hr. rewrite on_state_run in Hr.
    pose proof (EpochExit_writes (fun k => k <> RollupInfoKey ns) x rules t h actor id) as Hw.
    specialize (Hw (not_eq_sym (RollupInfoKey_ne_exits _ _)) s). unfold wp in Hw.
    cbn [snd fst] in Hr. destruct (EpochExit_Execute x rules t h actor id s) as [s1 o].
    injection Hr as <- <- _. split; [done|]. apply Hw. auto.
  - injection Hr as _ <- _. split; [done|]. apply Hf. unfold Auction_StateKeys. keys_simpl.
    rewrite !lookup_insert_ne by (done || apply not_eq_sym, RollupInfoKey_ne_bid). by intros [? ?].
Qed.

(** An accepted registration stores the info its receiver is left with. *)
Lemma registration_info rules t h actor id (r r' : RollupRegistration) s s' out :
  chain_inv (view s) -> RollupRegistration_wf r -> epoch_length_ok rules ->
  RollupRegistration_Execute rules t h actor id (s, r) = ((s', r'), Ok out) ->
  forall ns, info_of (view s') ns = overlay [rr_Info r'] (info_of (view s)) ns.
Proof.
  intros [_ _ [nss Hr]] Hwf Hep Hrun ns.
  destruct (RollupRegistration_Execute_cases r rules t h actor id s nss Hr Hep)
    as [(f & info & nss' & Hst & E)|(e & E & _)]; rewrite E in Hrun; [|done].
  destruct (reg_step_wf _ _ _ _ _ _ _ Hr Hwf Hst) as ([Hns _] & _).
  destruct (reg_write_Ok_inv _ _ _ _ _ _ _ _ _ _ _ Hr Hwf Hst Hrun) as (-> & Hi & _ & b1 & b2 & Hv).
  rewrite overlay_singleton. cbn [with_info rr_Info]. case_decide as Hc.
  - unfold info_of. rewrite <- Hc, Hns. by rewrite Hi.
  - apply info_of_eq. rewrite Hv, lookup_insert_ne by apply not_eq_sym, RollupInfoKey_ne_registry.
    apply lookup_insert_ne. intros E'%RollupInfoKey_inj. congruence.
Qed.

Lemma action_info rules t h actor id (a a' : Action) s s' out :
  chain_inv (view s) -> Action_wf (S := S) a -> epoch_length_ok rules ->
  Action_Execute rules t h actor id (s, a) = ((s', a'), Ok out) ->
  forall ns, info_of (view s') ns = overlay (registered_info a') (info_of (view s)) ns.
Proof.
  intros Hc Hwf Hep Hr ns. destruct (decide (registered_info a = [])) as [Ha|Ha].
  - destruct (others_keep_infos rules t h actor id a a' s s' out ns Ha Hr) as [-> Hk].
    by apply info_of_eq.
  - destruct a as [x|x|x|x|x]; try done. unfold Action_Execute in Hr. rewrite via_eq in Hr.
    cbn [Execute RollupRegistration_action] in Hr.
    destruct (RollupRegistration_Execute rules t h actor id (s, x)) as [[s1 x1] o] eqn:E.
    injection Hr as <- <- ->. exact (registration_info rules t h actor id x x1 s s1 out Hc Hwf Hep E ns).
Qed.

Section over_block.
Context (rules : Rules) (t h : Z) (Hh : is_u64 h) (Hep : epoch_length_ok rules).

Lemma actions_run_infos v l l' v' :
  actions_run (S := S) rules t h v l l' v' -> chain_inv v ->
  chain_inv v' /\ forall ns, info_of v' ns = overlay (registered_infos l') (info_of v) ns.
Proof.
  induction 1 as [v|v a a' actor id s s' out l l' v' <- Hwf Hr _ IH]; intros Hc; [done|].
  pose proof (Execute_inv (A := Action) rules t h actor id a a' s s' out Hc) as Hx.
  destruct (Hx Hwf Hh Hep Hr) as [Hc' _].
  destruct (IH Hc') as [Hc2 Hi]. split; [done|]. intros ns. rewrite Hi.
  change (registered_infos (a' :: l')) with (registered_info a' ++ registered_infos l').
  rewrite overlay_app. apply overlay_eq. by eapply action_info.
Qed.

Lemma block_run_infos v txs results v' :
  block_run (S := S) rules t h v txs results v' -> chain_inv v ->
  chain_inv v' /\
  forall ns, info_of v' ns = overlay (registered_infos (successful_actions txs results)) (info_of v) ns.
Proof.
  induction 1 as [v|v k b txs results v' Hk _ IH|v addr amount s s' txs results v' <- Hu Hd _ IH
                 |v l tx r v1 txs results v' Hs Ha _ IH|v tx r txs results v' Hs _ IH]; intros Hc.
  - done.
  - destruct (host_write_inv v k b Hk Hc) as [Hc1 _]. destruct (IH Hc1) as [Hc2 Hi].
    split; [done|]. intros ns. rewrite Hi. apply overlay_eq.
    apply info_of_eq, lookup_insert_ne. apply is_host_key_arcadia; [done|apply RollupInfoKey_arcadia].
  - destruct (chain_step_inv (A := Action) (view s) amount (view s') Hc) as [Hc1 _].
    { by eapply step_fee. }
    destruct (IH Hc1) as [Hc2 Hi]. split; [done|]. intros ns. rewrite Hi. apply overlay_eq, info_of_eq.
    apply SubBalance_Ok_inv in Hd as [_ [-> _]]; [|apply Hc|done].
    apply debit_agree, RollupInfoKey_arcadia.
  - destruct (actions_run_infos _ _ _ _ Ha Hc) as [Hc1 Hi1]. destruct (IH Hc1) as [Hc2 Hi].
    split; [done|]. intros ns. cbn [successful_actions]. rewrite Hs, registered_infos_app, overlay_app.
    rewrite Hi. by apply overlay_eq.
  - destruct (IH Hc) as [Hc2 Hi]. split; [done|]. intros ns. cbn [successful_actions]. by rewrite Hs.
Qed.
End over_block.
End infos.
