(* ===== verification/ChainSpec.v ===== *)
(** * ChainSpec: the chain as an abstract machine

    What the chain promises, with nothing of how it stores it: balances of
    addresses, the registered rollups, the exits and the winning bid of every
    epoch. Each event of the chain is a partial function on this state. The
    contents of the real state are mapped to it by [abs], and every history of
    the chain is shown to be a run of the abstract machine. *)

From stdpp Require Import base functions numbers countable gmap list strings.
From Stdlib Require Import ZArith Lia Strings.Byte Setoid Morphisms.
From S2P Require Import Prelude HyperSDK State Wire Sample Storage Ledger Genesis Auth Actions.
From S2P Require Import ChainInv Transfer SequencerMsg Auction EpochExit RollupRegister Registry.
From S2P Require Import StateManager Chain RollupRegistry Block Controller BlockRun.

Local Open Scope Z_scope.

(** The winning bid of an epoch. *)
Record Bid := {
  bid_price : Z;
  bid_key : bytes;
  bid_signature : bytes
}.

Record ChainState `{HyperConsts} := {
  c_balance : Address -> Z;
  c_registry : list bytes;                    (** registered namespaces, oldest first *)
  c_info : bytes -> option RollupInfo;
  c_exits : Z -> list EpochInfo;
  c_bid : Z -> option Bid
}.

(** What happens to a chain. *)
Inductive event `{HyperConsts} :=
  | EvAction (rules : Rules) (h : Z) (actor : Address) (a : Action)
  | EvFee (sponsor : Address) (amount : Z)
  | EvHost.

(** ** Equal states *)

Section equal.
Context `{HC : HyperConsts}.
Implicit Types (σ : ChainState).

(** States are compared point by point. *)
#[export] Instance ChainState_equiv : Equiv ChainState := fun σ1 σ2 =>
  (forall x, c_balance σ1 x = c_balance σ2 x) /\ c_registry σ1 = c_registry σ2 /\
  (forall ns, c_info σ1 ns = c_info σ2 ns) /\ (forall e, c_exits σ1 e = c_exits σ2 e) /\
  (forall e, c_bid σ1 e = c_bid σ2 e).

#[export] Instance ChainState_equivalence : Equivalence (≡@{ChainState}).
Proof.
  split.
  - intros σ. by split_and!.
  - intros σ1 σ2 (H1 & H2 & H3 & H4 & H5). by split_and!.
  - intros σ1 σ2 σ3 (H1 & H2 & H3 & H4 & H5) (G1 & G2 & G3 & G4 & G5).
    split_and!; intros; etransitivity; eauto.
Qed.

#[export] Instance c_balance_proper : Proper ((≡) ==> (=) ==> (=)) c_balance.
Proof. by intros σ1 σ2 (H & _) x _ <-. Qed.
#[export] Instance c_registry_proper : Proper ((≡) ==> (=)) c_registry.
Proof. by intros σ1 σ2 (_ & H & _). Qed.
#[export] Instance c_info_proper : Proper ((≡) ==> (=) ==> (=)) c_info.
Proof. by intros σ1 σ2 (_ & _ & H & _) x _ <-. Qed.
#[export] Instance c_exits_proper : Proper ((≡) ==> (=) ==> (=)) c_exits.
Proof. by intros σ1 σ2 (_ & _ & _ & H & _) x _ <-. Qed.
#[export] Instance c_bid_proper : Proper ((≡) ==> (=) ==> (=)) c_bid.
Proof. by intros σ1 σ2 (_ & _ & _ & _ & H) x _ <-. Qed.
End equal.

(** ** The abstract machine *)

Section machine.
Context `{HC : HyperConsts} {CO : Codec} {HA : HActions} {BC : BLSCrypto}.
Implicit Types (σ : ChainState).

Definition set_balance (x : Address) (n : Z) σ : ChainState := {|
  c_balance := <[x := n]> (c_balance σ); c_registry := c_registry σ;
  c_info := c_info σ; c_exits := c_exits σ; c_bid := c_bid σ |}.

Definition set_rollup (ns : bytes) (i : RollupInfo) (nss : list bytes) σ : ChainState := {|
  c_balance := c_balance σ; c_registry := nss;
  c_info := <[ns := Some i]> (c_info σ); c_exits := c_exits σ; c_bid := c_bid σ |}.

Definition set_exits (e : Z) (l : list EpochInfo) σ : ChainState := {|
  c_balance := c_balance σ; c_registry := c_registry σ;
  c_info := c_info σ; c_exits := <[e := l]> (c_exits σ); c_bid := c_bid σ |}.

Definition set_bid (e : Z) (b : Bid) σ : ChainState := {|
  c_balance := c_balance σ; c_registry := c_registry σ;
  c_info := c_info σ; c_exits := c_exits σ; c_bid := <[e := Some b]> (c_bid σ) |}.

Definition withdraw (x : Address) (n : Z) σ : option ChainState :=
  if c_balance σ x <? n then None else Some (set_balance x (c_balance σ x - n) σ).

Definition deposit (x : Address) (n : Z) σ : option ChainState :=
  if c_balance σ x + n <? u64_mod then Some (set_balance x (c_balance σ x + n) σ) else None.

Definition move (x y : Address) (n : Z) σ : option ChainState :=
  withdraw x n σ ≫= deposit y n.

(** [bid_valid] as a test. *)
Definition bid_accepted (a : Auction) (rules : Rules) (h : Z) (actor : Address) : bool :=
  bool_decide (actor ∈ parsedWhiteListedAddress rules) &&
  (EpochNumber (auction_Info a) =? u64 (h / u64 (GetEpochLength rules) + 1)) &&
  match bls_PublicKeyFromBytes (BuilderPublicKey a), bls_SignatureFromBytes (BuilderSignature a) with
  | Ok pk, Ok sig => bls_Verify (bid_digest (auction_Info a)) pk sig
  | _, _ => false
  end &&
  bool_decide (builder a = CreateAddress BLSID (ToID (BuilderPublicKey a))).

Definition bid_of (a : Auction) : Bid := {|
  bid_price := BidPrice (auction_Info a);
  bid_key := BuilderPublicKey a;
  bid_signature := BuilderSignature a |}.

(** The authority of a registered rollup may change its exits. *)
Definition may_exit (actor : Address) (e : EpochExit) σ : bool :=
  (ee_Epoch e =? EI_Epoch (ee_Info e)) && bool_decide (exit_namespace e ∈ c_registry σ) &&
  authorized actor (c_info σ (exit_namespace e)).

Definition apply_action (rules : Rules) (h : Z) (actor : Address) (a : Action) σ : option ChainState :=
  match a with
  | Act_Transfer t =>
      if (Value t =? 0) || (MaxMemoSize <? Z.of_nat (length (Memo t))) then None
      else move actor (To t) (Value t) σ
  | Act_SequencerMsg _ => Some σ
  | Act_RollupRegistration r =>
      '(i, nss) ← reg_step r actor (h / u64 (GetEpochLength rules))
                    (c_info σ (rr_Namespace r)) (c_registry σ);
      Some (set_rollup (rr_Namespace r) i nss σ)
  | Act_EpochExit e =>
      if may_exit actor e σ then
        l ← exit_step e (c_exits σ (ee_Epoch e)); Some (set_exits (ee_Epoch e) l σ)
      else None
  | Act_Auction b =>
      if bid_accepted b rules h actor then
        σ ← move (builder b) fund_address (BidPrice (auction_Info b)) σ;
        Some (set_bid (EpochNumber (auction_Info b)) (bid_of b) σ)
      else None
  end.

Definition apply_event (ev : event) σ : option ChainState :=
  match ev with
  | EvAction rules h actor a => apply_action rules h actor a σ
  | EvFee x n => withdraw x n σ
  | EvHost => Some σ
  end.

Fixpoint run_events (evs : list event) σ : option ChainState :=
  match evs with
  | [] => Some σ
  | ev :: evs => apply_event ev σ ≫= run_events evs
  end.

(** The chain before its first event: every address has its last allocation. *)
Definition genesis_chain (pl : list (Address * Z)) : ChainState := {|
  c_balance x := match last (filter (fun pn => pn.1 = x) pl) with Some pn => pn.2 | None => 0 end;
  c_registry := [];
  c_info _ := None;
  c_exits _ := [];
  c_bid _ := None |}.
End machine.

(** ** Equal states step to equal states *)

Section proper.
Context `{HC : HyperConsts} {CO : Codec} {HA : HActions} {BC : BLSCrypto}.
Implicit Types (σ : ChainState).

Lemma fn_insert_ext {A B} `{EqDecision A} (f g : A -> B) k x i :
  (forall j, f j = g j) -> (<[k := x]> f) i = (<[k := x]> g) i.
Proof. intros H. unfold insert, fn_insert. by destruct (decide (k = i)). Qed.

#[export] Instance set_balance_proper x n : Proper ((≡) ==> (≡)) (set_balance x n).
Proof. intros σ1 σ2 (H1 & H2 & H3 & H4 & H5). split_and!; try done. intros y. by apply fn_insert_ext. Qed.
#[export] Instance set_rollup_proper ns i l : Proper ((≡) ==> (≡)) (set_rollup ns i l).
Proof. intros σ1 σ2 (H1 & H2 & H3 & H4 & H5). split_and!; try done. intros y. by apply fn_insert_ext. Qed.
#[export] Instance set_exits_proper e l : Proper ((≡) ==> (≡)) (set_exits e l).
Proof. intros σ1 σ2 (H1 & H2 & H3 & H4 & H5). split_and!; try done. intros y. by apply fn_insert_ext. Qed.
#[export] Instance set_bid_proper e b : Proper ((≡) ==> (≡)) (set_bid e b).
Proof. intros σ1 σ2 (H1 & H2 & H3 & H4 & H5). split_and!; try done. intros y. by apply fn_insert_ext. Qed.

#[export] Instance withdraw_proper x n : Proper ((≡) ==> (≡)) (withdraw x n).
Proof.
  intros σ1 σ2 H. unfold withdraw. rewrite (c_balance_proper _ _ H x x eq_refl).
  destruct (_ <? _); constructor. by rewrite H.
Qed.
#[export] Instance deposit_proper x n : Proper ((≡) ==> (≡)) (deposit x n).
Proof.
  intros σ1 σ2 H. unfold deposit. rewrite (c_balance_proper _ _ H x x eq_refl).
  destruct (_ <? _); constructor. by rewrite H.
Qed.

Lemma bind_proper (f : ChainState -> option ChainState) (o1 o2 : option ChainState) :
  Proper ((≡) ==> (≡)) f -> o1 ≡ o2 -> (o1 ≫= f) ≡ (o2 ≫= f).
Proof. intros Hf [σ1 σ2 H|]; [by apply Hf|constructor]. Qed.

#[export] Instance move_proper x y n : Proper ((≡) ==> (≡)) (move x y n).
Proof. intros σ1 σ2 H. unfold move. apply bind_proper; [apply _|by rewrite H]. Qed.

#[export] Instance apply_event_proper ev : Proper ((≡) ==> (≡)) (apply_event ev).
Proof.
  intros σ1 σ2 H. destruct ev as [rules h actor a|x n|]; cbn [apply_event]; [|by rewrite H|by constructor].
  destruct a as [t|m|r|e|b]; cbn [apply_action].
  - destruct (_ || _); [constructor|by rewrite H].
  - by constructor.
  - rewrite (c_info_proper _ _ H _ _ eq_refl), (c_registry_proper _ _ H).
    destruct (reg_step _ _ _ _ _) as [[i nss]|]; constructor. by rewrite H.
  - unfold may_exit. rewrite (c_info_proper _ _ H _ _ eq_refl), (c_registry_proper _ _ H).
    rewrite (c_exits_proper _ _ H _ _ eq_refl). destruct (_ && _); [|constructor].
    destruct (exit_step _ _); constructor. by rewrite H.
  - destruct (bid_accepted _ _ _ _); [|constructor]. apply bind_proper; [|by rewrite H].
    intros τ1 τ2 Hτ. constructor. by rewrite Hτ.
Qed.

#[export] Instance run_events_proper evs : Proper ((≡) ==> (≡)) (run_events evs).
Proof.
  induction evs as [|ev evs IH]; intros σ1 σ2 H; cbn [run_events]; [by constructor|].
  apply bind_proper; [exact IH|by rewrite H].
Qed.
End proper.

(** ** The abstraction *)

Section abstraction.
Context `{HC : HyperConsts} {HCS : HyperConstsSpec} {CO : Codec} {HA : HActions}.
Context {SM : SafeMath} {SMS : SafeMathSpec} {BC : BLSCrypto} {BS : BLSCryptoSpec}.
Context {DE : DatabaseErrors} {DES : DatabaseErrorsSpec} {CS : CodecSpec} {HS : HActionsSpec}.
Context {SP : StatePermissions} {SPS : StatePermissionsSpec}.
Context {S : Type} {IM : Immutable S} {MU : Mutable S} {MS : MutableSpec S}.
Implicit Types (v : gmap bytes bytes) (s : S).

(** The eight, 48 and 96 bytes of a stored bid. *)
Definition read_bid (b : bytes) : Bid := {|
  bid_price := be_dec (take 8 b);
  bid_key := take 48 (drop 8 b);
  bid_signature := drop 56 b |}.

Definition in_u64 (e : Z) : bool := (0 <=? e) && (e <? u64_mod).

(** What the contents of the state mean. Epochs are [uint64]s. *)
Definition abs v : ChainState := {|
  c_balance := bal_at v;
  c_registry := match registry_at v with Ok l => l | _ => [] end;
  c_info := info_of v;
  c_exits e := if in_u64 e then exits_list v e else [];
  c_bid e := if in_u64 e then read_bid <$> v !! ArcadiaBidKey e else None |}.

Lemma in_u64_spec e : in_u64 e = true <-> is_u64 e.
Proof. unfold in_u64, is_u64. rewrite andb_true_iff, Z.leb_le, Z.ltb_lt. done. Qed.

Lemma abs_bid v e : is_u64 e -> c_bid (abs v) e = read_bid <$> v !! ArcadiaBidKey e.
Proof. intros He%in_u64_spec. simpl. by rewrite He. Qed.

Lemma abs_exits v e : is_u64 e -> c_exits (abs v) e = exits_list v e.
Proof. intros He%in_u64_spec. simpl. by rewrite He. Qed.

(** Contents with the same arcadia data mean the same but for the balances. *)
Lemma abs_arcadia v v' :
  arcadia_agree v v' ->
  c_registry (abs v') = c_registry (abs v) /\ (forall ns, c_info (abs v') ns = c_info (abs v) ns) /\
  (forall e, c_exits (abs v') e = c_exits (abs v) e) /\ (forall e, c_bid (abs v') e = c_bid (abs v) e).
Proof.
  intros Ha. split_and!; simpl.
  - rewrite (registry_at_eq v' v); [done|]. apply Ha, RollupRegistryKey_arcadia.
  - intros ns. unfold info_of. rewrite (rollup_at_eq v' v); [done|]. apply Ha, RollupInfoKey_arcadia.
  - intros e. unfold exits_list. rewrite (exits_at_eq v' v); [done|]. apply Ha, EpochExitsKey_arcadia.
  - intros e. rewrite Ha; [done|]. apply ArcadiaBidKey_arcadia.
Qed.

Lemma abs_eq v v' :
  (forall x, bal_at v' x = bal_at v x) -> arcadia_agree v v' -> abs v' ≡ abs v.
Proof. intros Hb Ha. split; [exact Hb|by apply abs_arcadia]. Qed.

Lemma abs_set_balance v v' x n :
  bal_at v' x = n -> (forall y, x <> y -> bal_at v' y = bal_at v y) -> arcadia_agree v v' ->
  abs v' ≡ set_balance x n (abs v).
Proof.
  intros Hx Hy Ha. split; [|by apply abs_arcadia].
  intros y. simpl. unfold insert, fn_insert. destruct (decide (x = y)) as [<-|]; auto.
Qed.

(** *** Balances *)

Lemma withdraw_debit v x n :
  0 <= n <= bal_at v x -> exists σ, withdraw x n (abs v) = Some σ /\ abs (debit v x n) ≡ σ.
Proof.
  intros Hn. unfold withdraw. simpl. rewrite (proj2 (Z.ltb_ge _ _)) by lia. eexists. split; [done|].
  apply abs_set_balance; [by apply bal_at_debit|intros; by apply bal_at_debit_ne|apply debit_agree].
Qed.

Lemma deposit_credit v x n :
  0 <= n -> bal_at v x + n < u64_mod ->
  exists σ, deposit x n (abs v) = Some σ /\ abs (credit v x n) ≡ σ.
Proof.
  intros Hn Hlt. unfold deposit. simpl. rewrite (proj2 (Z.ltb_lt _ _)) by lia. eexists. split; [done|].
  apply abs_set_balance; [by apply bal_at_credit|intros; by apply bal_at_credit_ne|apply credit_agree].
Qed.

(** One step after another, up to equality of states. *)
Lemma step_bind (f : ChainState -> option ChainState) `{!Proper ((≡) ==> (≡)) f} o v v' :
  (exists σ, o = Some σ /\ abs v ≡ σ) -> (exists σ', f (abs v) = Some σ' /\ abs v' ≡ σ') ->
  exists σ', (o ≫= f) = Some σ' /\ abs v' ≡ σ'.
Proof.
  intros (σ & -> & Hσ) (σ' & Hf & Hσ'). cbn.
  assert (f σ ≡ Some σ') as Hx by (by rewrite <- Hf, Hσ).
  apply Some_equiv_eq in Hx as (τ & -> & Hτ). exists τ. split; [done|by rewrite Hσ', Hτ].
Qed.

Lemma move_abs v x y n :
  0 <= n <= bal_at v x -> bal_at (debit v x n) y + n < u64_mod ->
  exists σ, move x y n (abs v) = Some σ /\ abs (credit (debit v x n) y n) ≡ σ.
Proof.
  intros Hn Hlt. apply step_bind with (v := debit v x n); [apply _|by apply withdraw_debit|].
  apply deposit_credit; [lia|done].
Qed.

(** *** Actions *)

(** The change from [v] to [v'] is the event [ev]. *)
Definition follows (ev : event) v v' : Prop :=
  exists σ, apply_event ev (abs v) = Some σ /\ abs v' ≡ σ.

Lemma transfer_follows x rules t h actor id s s' out :
  chain_inv (view s) -> Transfer_wf x ->
  Transfer_Execute x rules t h actor id s = (s', Ok out) ->
  follows (EvAction rules h actor (Act_Transfer x)) (view s) (view s').
Proof.
  intros Hc Hwf Hr. unfold follows. cbn [apply_event apply_action].
  destruct (_ || _) eqn:Eg.
  { unfold Transfer_Execute in Hr. apply orb_true_iff in Eg as [Hz|Hm%Z.ltb_lt]; [by rewrite Hz in Hr|].
    destruct (_ =? 0); [done|]. by rewrite Z.gtb_ltb, (proj2 (Z.ltb_lt _ _) Hm) in Hr. }
  apply Transfer_Execute_Ok_inv in Hr as (Hle & Hlt & [-> _]); [|apply Hc|done].
  apply move_abs; [lia|done].
Qed.

Lemma bid_accepted_spec a rules h actor :
  bid_accepted a rules h actor = true <-> bid_valid a rules h actor.
Proof.
  unfold bid_accepted. rewrite !andb_true_iff, !bool_decide_eq_true, Z.eqb_eq. split.
  - intros [[[Hw He] Hs] Ha]. split; [done|done| |done].
    destruct (bls_PublicKeyFromBytes _) as [pk| |]; [|done|done].
    destruct (bls_SignatureFromBytes _) as [sig| |]; [|done|done]. eauto.
  - intros [Hw He (pk & sig & -> & -> & Hv) Ha]. done.
Qed.

Lemma read_bid_of a :
  is_u64 (BidPrice (auction_Info a)) ->
  length (BuilderPublicKey a) = 48%nat ->
  read_bid (be_enc 8 (BidPrice (auction_Info a)) ++ BuilderPublicKey a ++ BuilderSignature a) = bid_of a.
Proof.
  intros Hp Hk. unfold read_bid, bid_of. f_equal.
  - rewrite take_app_length' by (by rewrite length_be_enc). by apply is_u64_be.
  - rewrite drop_app_length' by (by rewrite length_be_enc). by rewrite take_app_length'.
  - rewrite app_assoc, drop_app_length'; [done|]. by rewrite length_app, length_be_enc, Hk.
Qed.

Lemma abs_store_bid v e b :
  is_u64 e -> abs (<[ArcadiaBidKey e := b]> v) ≡ set_bid e (read_bid b) (abs v).
Proof.
  intros He. assert (forall k, k <> ArcadiaBidKey e -> <[ArcadiaBidKey e := b]> v !! k = v !! k) as Hk.
  { intros k Hne. by rewrite lookup_insert_ne. }
  split_and!; simpl.
  - intros x. unfold bal_at. rewrite Hk; [done|]. intros Hx. apply (BalanceKey_not_arcadia x).
    rewrite Hx. apply ArcadiaBidKey_arcadia.
  - rewrite (registry_at_eq _ v); [done|]. apply Hk, RollupRegistryKey_ne_bid.
  - intros ns. unfold info_of. rewrite (rollup_at_eq _ v); [done|]. apply Hk, RollupInfoKey_ne_bid.
  - intros e'. unfold exits_list. rewrite (exits_at_eq _ v); [done|]. apply Hk, EpochExitsKey_ne_bid.
  - intros e'. unfold insert at 2, fn_insert. destruct (decide (e = e')) as [<-|Hne].
    + by rewrite (proj2 (in_u64_spec e) He), lookup_insert_eq.
    + destruct (in_u64 e') eqn:Ee; [|done]. apply in_u64_spec in Ee. rewrite Hk; [done|].
      intros E. apply Hne. symmetry. by apply ArcadiaBidKey_inj.
Qed.

Lemma auction_follows a rules t h actor id s s' out :
  chain_inv (view s) -> Auction_wf a ->
  Auction_Execute a rules t h actor id s = (s', Ok out) ->
  follows (EvAction rules h actor (Act_Auction a)) (view s) (view s').
Proof.
  intros Hc Hwf Hr. unfold follows. cbn [apply_event apply_action].
  destruct (Auction_Execute_cases a rules t h actor id s)
    as [(Hb & _ & E)|[[_ [e E]]|[_ E]]]; rewrite E in Hr; [|done..].
  destruct (bid_valid_lengths _ _ _ _ Hb) as [Hpk Hsig].
  apply bid_payment_Ok_inv in Hr as (Hle & Hlt & [-> _]); [|apply Hc|done..].
  rewrite (proj2 (bid_accepted_spec _ _ _ _) Hb). destruct Hwf as [He Hp].
  destruct (move_abs (view s) (builder a) fund_address (BidPrice (auction_Info a)))
    as (σ & -> & Hσ); [unfold is_u64 in Hp; lia|done|].
  eexists. split; [done|]. unfold bid_effect. rewrite abs_store_bid, read_bid_of by done. by rewrite Hσ.
Qed.

Lemma abs_store_rollup v v' ns i nss b1 b2 :
  v' = <[RollupRegistryKey := b2]> (<[RollupInfoKey ns := b1]> v) ->
  rollup_at v' ns = Ok (Some i) -> registry_at v' = Ok nss ->
  abs v' ≡ set_rollup ns i nss (abs v).
Proof.
  intros Hv Hi Hl.
  assert (forall k, k <> RollupInfoKey ns -> k <> RollupRegistryKey -> v' !! k = v !! k) as Hk.
  { intros k H1 H2. by rewrite Hv, !lookup_insert_ne. }
  assert (forall x k, is_arcadia_key k -> BalanceKey x <> k) as Hx.
  { intros x k Ha E. apply (BalanceKey_not_arcadia x). by rewrite E. }
  split_and!; simpl.
  - intros x. unfold bal_at. rewrite Hk; [done|..]; apply Hx;
      [apply RollupInfoKey_arcadia|apply RollupRegistryKey_arcadia].
  - by rewrite Hl.
  - intros ns'. unfold insert, fn_insert. destruct (decide (ns = ns')) as [<-|Hne].
    + unfold info_of. by rewrite Hi.
    + apply info_of_eq, Hk; [|apply RollupInfoKey_ne_registry].
      intros E. apply Hne. symmetry. by apply RollupInfoKey_inj.
  - intros e. unfold exits_list. rewrite (exits_at_eq _ v); [done|].
    apply Hk; apply not_eq_sym; [apply RollupInfoKey_ne_exits|apply RollupRegistryKey_ne_exits].
  - intros e. rewrite Hk; [done|apply not_eq_sym, RollupInfoKey_ne_bid|].
    apply not_eq_sym, RollupRegistryKey_ne_bid.
Qed.

Lemma registration_follows r r' rules t h actor id s s' out :
  chain_inv (view s) -> RollupRegistration_wf r -> epoch_length_ok rules ->
  RollupRegistration_Execute rules t h actor id (s, r) = ((s', r'), Ok out) ->
  follows (EvAction rules h actor (Act_RollupRegistration r)) (view s) (view s').
Proof.
  intros [_ _ [nss Hr]] Hwf Hep Hrun. unfold follows. cbn [apply_event apply_action abs c_info c_registry].
  rewrite (ri_registry _ _ Hr).
  destruct (RollupRegistration_Execute_cases r rules t h actor id s nss Hr Hep)
    as [(f & info & nss' & Hst & E)|(e & E & _)]; rewrite E in Hrun; [|done].
  rewrite Hst. destruct (reg_write_Ok_inv _ _ _ _ _ _ _ _ _ _ _ Hr Hwf Hst Hrun)
    as (_ & Hi & Hr' & b1 & b2 & Hv).
  eexists. split; [done|]. by apply (abs_store_rollup _ _ _ _ _ b1 b2 Hv), Hr'.
Qed.

Lemma abs_store_exits v v' e :
  is_u64 e -> (forall k, k <> EpochExitsKey e -> v' !! k = v !! k) ->
  abs v' ≡ set_exits e (exits_list v' e) (abs v).
Proof.
  intros He Hk. split_and!; simpl.
  - intros x. unfold bal_at. rewrite Hk; [done|]. intros Hx. apply (BalanceKey_not_arcadia x).
    rewrite Hx. apply EpochExitsKey_arcadia.
  - rewrite (registry_at_eq _ v); [done|]. apply Hk, RollupRegistryKey_ne_exits.
  - intros ns. apply info_of_eq, Hk, RollupInfoKey_ne_exits.
  - intros e'. unfold insert, fn_insert. destruct (decide (e = e')) as [<-|Hne].
    + by rewrite (proj2 (in_u64_spec e) He).
    + destruct (in_u64 e') eqn:Ee; [|done]. apply in_u64_spec in Ee.
      unfold exits_list. rewrite (exits_at_eq _ v); [done|]. apply Hk.
      intros E. apply Hne. symmetry. by apply EpochExitsKey_inj.
  - intros e'. rewrite Hk; [done|]. apply not_eq_sym, EpochExitsKey_ne_bid.
Qed.

Lemma exit_follows e rules t h actor id s s' out :
  chain_inv (view s) -> EpochExit_wf e ->
  EpochExit_Execute e rules t h actor id s = (s', Ok out) ->
  follows (EvAction rules h actor (Act_EpochExit e)) (view s) (view s').
Proof.
  intros [_ _ [nss Hr]] Hwf Hrun. unfold follows. cbn [apply_event apply_action].
  pose proof (EpochExit_Execute_Ok_inv e rules t h actor id s s' nss out Hr Hwf Hrun)
    as ((He & (nss' & Hn & Hin) & i & Hi & Ha) & Hst & Hk & _).
  destruct Hwf as [Hu _].
  assert (may_exit actor e (abs (view s)) = true) as ->.
  { unfold may_exit. simpl. unfold info_of. rewrite Hn, Hi, He, Z.eqb_refl. simpl.
    by rewrite !bool_decide_eq_true_2. }
  rewrite abs_exits, Hst by done. eexists. split; [done|]. by apply abs_store_exits.
Qed.

Lemma action_follows rules t h actor id (a a' : Action) s s' out :
  chain_inv (view s) -> Action_wf (S := S) a -> epoch_length_ok rules ->
  Action_Execute rules t h actor id (s, a) = ((s', a'), Ok out) ->
  follows (EvAction rules h actor a) (view s) (view s').
Proof.
  intros Hc Hwf Hep Hr. destruct a as [x|x|x|x|x]; unfold Action_Execute in Hr; rewrite via_eq in Hr.
  - cbn [Execute Transfer_action snd] in Hr. rewrite on_state_run in Hr.
    destruct (Transfer_Execute x rules t h actor id s) as [s1 o] eqn:E.
    injection Hr as <- _ ->. by eapply transfer_follows.
  - injection Hr as <- _ _. by eexists.
  - cbn [Execute RollupRegistration_action] in Hr.
    destruct (RollupRegistration_Execute rules t h actor id (s, x)) as [[s1 x1] o] eqn:E.
    injection Hr as <- _ ->. by eapply registration_follows.
  - cbn [Execute EpochExit_action snd] in Hr. rewrite on_state_run in Hr.
    destruct (EpochExit_Execute x rules t h actor id s) as [s1 o] eqn:E.
    injection Hr as <- _ ->. by eapply exit_follows.
  - cbn [Execute Auction_action snd] in Hr. rewrite on_state_run in Hr.
    destruct (Auction_Execute x rules t h actor id s) as [s1 o] eqn:E.
    injection Hr as <- _ ->. by eapply auction_follows.
Qed.
End abstraction.

(** ** Histories *)

Section histories.
Context `{HC : HyperConsts} {HCS : HyperConstsSpec} {CO : Codec} {HA : HActions}.
Context {SM : SafeMath} {SMS : SafeMathSpec} {BC : BLSCrypto} {BS : BLSCryptoSpec}.
Context {DE : DatabaseErrors} {DES : DatabaseErrorsSpec} {CS : CodecSpec} {HS : HActionsSpec}.
Context {SP : StatePermissions} {SPS : StatePermissionsSpec}.
Context {S : Type} {IM : Immutable S} {MU : Mutable S} {MS : MutableSpec S}.
Implicit Types (v : gmap bytes bytes) (s : S).

(** [happens v ev v']: the code and the host make [ev] happen. Actions that
    fail leave no event: the host undoes them. *)
Inductive happens v : event -> gmap bytes bytes -> Prop :=
  | happens_action rules t h actor id (a a' : Action) s s' out :
      view s = v -> Action_wf (S := S) a -> is_u64 h -> epoch_length_ok rules ->
      Action_Execute rules t h actor id (s, a) = ((s', a'), Ok out) ->
      happens v (EvAction rules h actor a) (view s')
  | happens_fee addr amount s s' :
      view s = v -> is_u64 amount -> Deduct addr amount s = (s', Ok tt) ->
      happens v (EvFee addr amount) (view s')
  | happens_host k b : is_host_key k -> happens v EvHost (<[k := b]> v).

Inductive history : gmap bytes bytes -> list event -> gmap bytes bytes -> Prop :=
  | history_done v : history v [] v
  | history_next v ev v1 evs v' : happens v ev v1 -> history v1 evs v' -> history v (ev :: evs) v'.

Lemma history_app v evs1 v1 evs2 v2 :
  history v evs1 v1 -> history v1 evs2 v2 -> history v (evs1 ++ evs2) v2.
Proof. induction 1; [done|]. intros H2. eapply history_next; eauto. Qed.

(** The value an event burns. *)
Definition burned (ev : event) : Z := match ev with EvFee _ n => n | _ => 0 end.

Lemma happens_step v ev v' : happens v ev v' -> chain_step (S := S) (A := Action) v (burned ev) v'.
Proof.
  destruct 1 as [rules t h actor id a a' s s' out Hv Hwf Hh Hep Hr|addr n s s' Hv Hu Hr|k b Hk].
  - by eapply step_action.
  - by eapply step_fee.
  - by apply step_host.
Qed.

Lemma happens_inv v ev v' : happens v ev v' -> chain_inv v -> chain_inv v'.
Proof. intros Hs%happens_step Hc. exact (proj1 (chain_step_inv _ _ _ Hc Hs)). Qed.

Lemma history_inv v evs v' : history v evs v' -> chain_inv v -> chain_inv v'.
Proof. induction 1; eauto using happens_inv. Qed.

Lemma happens_follows v ev v' : happens v ev v' -> chain_inv v -> follows ev v v'.
Proof.
  destruct 1 as [rules t h actor id a a' s s' out <- Hwf _ Hep Hr|x n s s' <- Hu Hr|k b Hk]; intros Hc.
  - by eapply action_follows.
  - apply SubBalance_Ok_inv in Hr as [Hle [-> _]]; [|apply Hc|done].
    apply withdraw_debit. unfold is_u64 in Hu. lia.
  - eexists. split; [done|]. apply abs_eq.
    + intros x. unfold bal_at. rewrite lookup_insert_ne; [done|]. intros ->.
      apply is_host_key_other in Hk. by rewrite is_balance_key_BalanceKey in Hk.
    + intros k' Hk'. apply lookup_insert_ne. by apply is_host_key_arcadia.
Qed.

(** A history is a run of the abstract machine. *)
Lemma history_run v evs v' :
  history v evs v' -> chain_inv v ->
  exists σ, run_events evs (abs v) = Some σ /\ abs v' ≡ σ.
Proof.
  induction 1 as [v|v ev v1 evs v' Hh _ IH]; intros Hc; [by eexists|]. cbn [run_events].
  apply step_bind with (v := v1); [apply _|by apply happens_follows|].
  by apply IH, (happens_inv _ _ _ Hh).
Qed.

Lemma genesis_abs v pl :
  (forall a, bal_at v a = match last (filter (fun pn => pn.1 = a) pl) with Some pn => pn.2 | None => 0 end) ->
  (forall k, is_balance_key k = false -> v !! k = None) -> abs v ≡ genesis_chain pl.
Proof.
  intros Hb Hk.
  assert (forall k, is_arcadia_key k -> v !! k = None) as Ha
    by (intros k Hk'; by apply Hk, is_arcadia_key_other).
  split_and!; simpl; [done| | | |].
  - by rewrite registry_at_empty by apply Ha, RollupRegistryKey_arcadia.
  - intros ns. unfold info_of. by rewrite rollup_at_none by apply Ha, RollupInfoKey_arcadia.
  - intros e. destruct (in_u64 e); [|done]. unfold exits_list, exits_at, view_get.
    rewrite Ha by apply EpochExitsKey_arcadia. unfold innerGetEpochExits. by rewrite inner_get_none.
  - intros e. rewrite Ha by apply ArcadiaBidKey_arcadia. by destruct (in_u64 e).
Qed.
End histories.

(** ** Refinement *)

(** C3: The chain implements the abstract machine. Whatever actions, fee payments
    and writes of the host happen after a genesis, the abstract machine, started
    with the balances the genesis allocates and nothing else, accepts the same
    events one after the other, and the contents of the state mean the state it
    ends in: the same balances, registered namespaces with the same infos, and
    the same exits and winning bid of every epoch. *)
Theorem chain_refines
    `{HC : HyperConsts} {HCS : HyperConstsSpec} {CO : Codec} {HA : HActions}
    {SM : SafeMath} {SMS : SafeMathSpec} {BC : BLSCrypto} {BS : BLSCryptoSpec}
    {DE : DatabaseErrors} {DES : DatabaseErrorsSpec} {CS : CodecSpec} {HS : HActionsSpec}
    {SP : StatePermissions} {SPS : StatePermissionsSpec}
    {S : Type} {IM : Immutable S} {MU : Mutable S} {MS : MutableSpec S}
    (bf : Z -> option error) (g : Genesis) (s0 s1 : S) (evs : list event) (v : gmap bytes bytes) :
  view s0 = ∅ -> Forall alloc_u64 (CustomAllocations g) ->
  Load bf g s0 = (s1, Ok tt) -> history (S := S) (view s1) evs v ->
  exists pl σ, parsed (CustomAllocations g) pl /\
    run_events evs (genesis_chain pl) = Some σ /\ abs v ≡ σ.
Proof.
  intros He Hl Hload Hh. destruct (Load_inv bf g s0 s1 He Hl Hload) as [Hc _].
  destruct (Load_facts bf g s0 s1 He Hl Hload) as (_ & _ & (pl & Hpl & Hb) & Hk).
  destruct (history_run _ _ _ Hh Hc) as (σ & Hrun & Hσ).
  assert (run_events evs (genesis_chain pl) ≡ Some σ) as Hx.
  { by rewrite <- (genesis_abs _ _ Hb Hk), Hrun. }
  apply Some_equiv_eq in Hx as (τ & Hτ & Heq). exists pl, τ. split; [done|]. split; [done|].
  by rewrite Hσ, Heq.
Qed.
