(* ===== verification/Ownership.v ===== *)
(** * Ownership: what can happen to whose property

    Consequences of the refinement of [ChainSpec], proved on the abstract
    machine and read back on the contents of the state: every change of a
    balance is accounted for and consented to, only its authority changes a
    rollup and its exits, and the winning bid of an epoch is the last one
    accepted before the epoch started. *)

From stdpp Require Import base functions numbers countable gmap list strings.
From Stdlib Require Import ZArith Lia Strings.Byte.
From S2P Require Import Prelude HyperSDK State Wire Sample Storage Ledger Genesis Auth Actions.
From S2P Require Import ChainInv Transfer SequencerMsg Auction EpochExit RollupRegister Registry.
From S2P Require Import StateManager Chain RollupRegistry Block Controller BlockRun ChainSpec.

Local Open Scope Z_scope.

(** ** What an event says about an address, a rollup, an epoch *)

Section events.
Context `{HC : HyperConsts} {CO : Codec} {HA : HActions} {BC : BLSCrypto}.
Implicit Types (ev : event) (x : Address).

(** What [x] pays, and is paid, in an event. *)
Definition spent x ev : Z :=
  match ev with
  | EvAction _ _ actor (Act_Transfer t) => if decide (actor = x) then Value t else 0
  | EvAction _ _ _ (Act_Auction a) => if decide (builder a = x) then BidPrice (auction_Info a) else 0
  | EvFee y n => if decide (y = x) then n else 0
  | _ => 0
  end.

Definition received x ev : Z :=
  match ev with
  | EvAction _ _ _ (Act_Transfer t) => if decide (To t = x) then Value t else 0
  | EvAction _ _ _ (Act_Auction a) => if decide (fund_address = x) then BidPrice (auction_Info a) else 0
  | _ => 0
  end.

Definition sum_of (f : event -> Z) (evs : list event) : Z := foldr (fun ev acc => f ev + acc) 0 evs.

(** [x] sent the transfer, signed the bid with the key of the address, or is
    the sponsor of the fee. *)
Definition consents x ev : Prop :=
  match ev with
  | EvAction _ _ actor (Act_Transfer _) => actor = x
  | EvAction _ _ _ (Act_Auction a) =>
      x = CreateAddress BLSID (ToID (BuilderPublicKey a)) /\
      exists pk sig, bls_PublicKeyFromBytes (BuilderPublicKey a) = Ok pk /\
        bls_SignatureFromBytes (BuilderSignature a) = Ok sig /\
        bls_Verify (bid_digest (auction_Info a)) pk sig = true
  | EvFee y _ => y = x
  | _ => False
  end.

(** A request of [x] about the rollup [ns]: a registration or an exit. *)
Definition request_of x (ns : bytes) ev : Prop :=
  match ev with
  | EvAction _ _ actor (Act_RollupRegistration r) => rr_Namespace r = ns /\ actor = x
  | EvAction _ _ actor (Act_EpochExit e) => exit_namespace e = ns /\ actor = x
  | _ => False
  end.

(** The bid an event places for an epoch. *)
Definition bid_for (e : Z) ev : option Bid :=
  match ev with
  | EvAction _ _ _ (Act_Auction a) => if EpochNumber (auction_Info a) =? e then Some (bid_of a) else None
  | _ => None
  end.

(** The action of the event, if it is one, is executed in epoch [e] or later. *)
Definition not_before (e : Z) ev : Prop :=
  match ev with
  | EvAction rules h _ _ => is_u64 h /\ epoch_length_ok rules /\ e <= h / u64 (GetEpochLength rules)
  | _ => True
  end.

(** The bid of the event, if it is one, is valid where it is executed. *)
Definition valid_bid ev : Prop :=
  match ev with
  | EvAction rules h actor (Act_Auction a) => bid_valid a rules h actor
  | _ => True
  end.

(** The exits of a rollup in an epoch. *)
Definition exits_of (ns : bytes) (l : list EpochInfo) : list EpochInfo :=
  filter (fun i => EI_Namespace i = ns) l.
End events.

(** ** The abstract machine *)

Section machine.
Context `{HC : HyperConsts} {CO : Codec} {HA : HActions} {BC : BLSCrypto}.
Implicit Types (σ : ChainState) (ev : event) (x : Address).

Lemma fn_insert_eq {A B} `{EqDecision A} (f : A -> B) k b i :
  (<[k := b]> f) i = if decide (k = i) then b else f i.
Proof. done. Qed.

Lemma withdraw_Some x n σ σ' :
  withdraw x n σ = Some σ' -> σ' = set_balance x (c_balance σ x - n) σ /\ n <= c_balance σ x.
Proof.
  unfold withdraw. destruct (Z.ltb_spec (c_balance σ x) n); [done|]. intros [= <-]. split; [done|lia].
Qed.

Lemma deposit_Some x n σ σ' :
  deposit x n σ = Some σ' -> σ' = set_balance x (c_balance σ x + n) σ.
Proof. unfold deposit. destruct (_ <? _); [|done]. by intros [= <-]. Qed.

Lemma move_Some x y n σ σ' :
  move x y n σ = Some σ' ->
  c_registry σ' = c_registry σ /\ c_info σ' = c_info σ /\ c_exits σ' = c_exits σ /\
  c_bid σ' = c_bid σ /\
  forall z, c_balance σ' z =
    c_balance σ z - (if decide (x = z) then n else 0) + (if decide (y = z) then n else 0).
Proof.
  unfold move. intros (σ1 & Hw & Hd)%bind_Some.
  apply withdraw_Some in Hw as [-> _]. apply deposit_Some in Hd as ->.
  split_and!; try done. intros z. simpl. rewrite !fn_insert_eq.
  repeat case_decide; simplify_eq; lia.
Qed.

(** *** Balances *)

Lemma apply_balance ev σ σ' x :
  apply_event ev σ = Some σ' ->
  c_balance σ' x = c_balance σ x - spent x ev + received x ev /\ (spent x ev <> 0 -> consents x ev).
Proof.
  destruct ev as [rules h actor a|y n|]; cbn [apply_event].
  - destruct a as [t|m|r|e|b]; cbn [apply_action spent received consents].
    + destruct (_ || _); [done|]. intros (_ & _ & _ & _ & ->)%move_Some. split; [done|].
      by case_decide.
    + intros [= <-]. split; [lia|done].
    + intros ([i nss] & _ & [= <-])%bind_Some. simpl. split; [lia|done].
    + destruct (may_exit _ _ _); [|done]. intros (l & _ & [= <-])%bind_Some. simpl. split; [lia|done].
    + destruct (bid_accepted b rules h actor) eqn:Eb; [|done].
      apply bid_accepted_spec in Eb as [_ _ Hs Ha].
      intros (σ1 & (_ & _ & _ & _ & Hb)%move_Some & [= <-])%bind_Some. simpl. rewrite Hb.
      split; [done|]. case_decide as Hx; [|done]. intros _. split; [congruence|done].
  - intros [-> _]%withdraw_Some. simpl. rewrite fn_insert_eq.
    destruct (decide (y = x)) as [->|]; (split; [lia|done]).
  - intros [= <-]. simpl. split; [lia|done].
Qed.

Lemma run_balance evs σ σ' x :
  run_events evs σ = Some σ' ->
  c_balance σ' x = c_balance σ x - sum_of (spent x) evs + sum_of (received x) evs /\
  Forall (fun ev => spent x ev <> 0 -> consents x ev) evs.
Proof.
  revert σ. induction evs as [|ev evs IH]; intros σ; cbn [run_events].
  - intros [= <-]. simpl. split; [lia|constructor].
  - intros (σ1 & Ha & Hr)%bind_Some. apply (apply_balance _ _ _ x) in Ha as [Hb Hc].
    apply IH in Hr as [Hb' Hc']. split; [simpl; lia|by constructor].
Qed.

(** *** Rollups *)

(** A namespace is added at the end; of a registered one, only the authority
    gets anything accepted. *)
Lemma reg_step_registry r actor ep old nss i nss' :
  reg_step r actor ep old nss = Some (i, nss') ->
  nss `prefix_of` nss' /\ (rr_Namespace r ∈ nss -> authorized actor old = true).
Proof.
  unfold reg_step. destruct (_ || _); [done|]. destruct (_ =? CreateRollup).
  - destruct (_ && (_ && _)) eqn:Eg; [|done]. intros [= <- <-].
    apply andb_true_iff in Eg as [Ha _]. split.
    + destruct (bool_decide (_ ∈ nss)); [reflexivity|by eexists].
    + intros Hin. apply orb_true_iff in Ha as [Ha|]; [|done]. by apply bool_decide_eq_true in Ha.
  - destruct old as [o|]; [|done]. destruct (negb _ || _) eqn:Eg; [done|].
    apply orb_false_iff in Eg as [_ Ha%negb_false_iff].
    intros Hst. split; [|done]. destruct (_ =? UpdateRollup); [injection Hst as _ <-; reflexivity|].
    destruct (_ =? ExitRollup); [|done]. destruct (_ && _); [|done]. injection Hst as _ <-; reflexivity.
Qed.

Lemma apply_registry ev σ σ' :
  apply_event ev σ = Some σ' -> c_registry σ `prefix_of` c_registry σ'.
Proof.
  destruct ev as [rules h actor a|y n|]; cbn [apply_event].
  - destruct a as [t|m|r|e|b]; cbn [apply_action].
    + destruct (_ || _); [done|]. intros (-> & _)%move_Some. reflexivity.
    + intros [= <-]. reflexivity.
    + intros ([i nss] & Hst & [= <-])%bind_Some. simpl. by apply reg_step_registry in Hst as [Hst _].
    + destruct (may_exit _ _ _); [|done]. intros (l & _ & [= <-])%bind_Some. reflexivity.
    + destruct (bid_accepted _ _ _ _); [|done].
      intros (σ1 & (Hr & _)%move_Some & [= <-])%bind_Some. simpl. rewrite Hr. reflexivity.
  - intros [-> _]%withdraw_Some. reflexivity.
  - intros [= <-]. reflexivity.
Qed.

Lemma exits_of_step e old new ns :
  exit_step e old = Some new -> exit_namespace e <> ns -> exits_of ns new = exits_of ns old.
Proof.
  intros Hst Hne. unfold exit_step in Hst. unfold exits_of, exit_namespace in *.
  case_decide; [|case_decide; [|done]]; case_decide; try done; injection Hst as <-.
  - rewrite filter_app, filter_cons_False, filter_nil, app_nil_r; done.
  - apply list_filter_filter_l. intros i -> Hi. by apply Hne.
Qed.

(** Nobody else changes a registered rollup or its exits. *)
Lemma apply_rollup ev σ σ' ns i :
  apply_event ev σ = Some σ' -> ns ∈ c_registry σ -> c_info σ ns = Some i ->
  ~ request_of (AuthoritySEQAddress i) ns ev ->
  c_info σ' ns = Some i /\ forall e, exits_of ns (c_exits σ' e) = exits_of ns (c_exits σ e).
Proof.
  intros Ha Hin Hi Hno. destruct ev as [rules h actor a|y n|]; cbn [apply_event] in Ha.
  - destruct a as [t|m|r|e|b]; cbn [apply_action request_of] in Ha, Hno.
    + destruct (_ || _); [done|]. apply move_Some in Ha as (_ & -> & -> & _). done.
    + by injection Ha as <-.
    + apply bind_Some in Ha as ([j nss] & Hst & [= <-]). simpl. split; [|done].
      rewrite fn_insert_eq. case_decide as Hns; [|done]. exfalso. apply Hno. split; [done|].
      apply reg_step_registry in Hst as [_ Hau]. rewrite Hns in Hau. specialize (Hau Hin).
      rewrite Hi in Hau. by apply bool_decide_eq_true in Hau.
    + destruct (may_exit _ _ _) eqn:Em; [|done]. apply bind_Some in Ha as (l & Hst & [= <-]).
      split; [done|]. intros e'. simpl. rewrite fn_insert_eq. case_decide as He; [subst e'|done].
      apply (exits_of_step _ _ _ _ Hst). intros Hns. apply Hno. split; [done|].
      unfold may_exit in Em. rewrite Hns, Hi in Em. apply andb_prop in Em as [_ Em].
      by apply bool_decide_eq_true in Em.
    + destruct (bid_accepted _ _ _ _); [|done].
      apply bind_Some in Ha as (σ1 & (_ & Hi' & He & _)%move_Some & [= <-]). simpl. by rewrite Hi', He.
  - apply withdraw_Some in Ha as [-> _]. done.
  - by injection Ha as <-.
Qed.

Lemma run_rollup evs σ σ' ns i :
  run_events evs σ = Some σ' -> ns ∈ c_registry σ -> c_info σ ns = Some i ->
  Forall (fun ev => ~ request_of (AuthoritySEQAddress i) ns ev) evs ->
  c_info σ' ns = Some i /\ forall e, exits_of ns (c_exits σ' e) = exits_of ns (c_exits σ e).
Proof.
  revert σ. induction evs as [|ev evs IH]; intros σ; cbn [run_events]; [by intros [= <-]|].
  intros (σ1 & Ha & Hr)%bind_Some Hin Hi [Hno Hall]%Forall_cons.
  destruct (apply_rollup _ _ _ _ _ Ha Hin Hi Hno) as [Hi1 He1].
  destruct (IH σ1 Hr) as [Hi2 He2]; [|done..|].
  { apply apply_registry in Ha. by eapply elem_of_prefix. }
  split; [done|]. intros e. by rewrite He2.
Qed.

Lemma run_registry evs σ σ' :
  run_events evs σ = Some σ' -> c_registry σ `prefix_of` c_registry σ'.
Proof.
  revert σ. induction evs as [|ev evs IH]; intros σ; cbn [run_events]; [by intros [= <-]; reflexivity|].
  intros (σ1 & Ha & Hr)%bind_Some. etransitivity; [by eapply apply_registry|by apply IH].
Qed.

(** *** Bids *)

Lemma apply_bid ev σ σ' e :
  apply_event ev σ = Some σ' ->
  c_bid σ' e = match bid_for e ev with Some b => Some b | None => c_bid σ e end.
Proof.
  destruct ev as [rules h actor a|y n|]; cbn [apply_event bid_for].
  - destruct a as [t|m|r|x|b]; cbn [apply_action].
    + destruct (_ || _); [done|]. by intros (_ & _ & _ & -> & _)%move_Some.
    + by intros [= <-].
    + by intros ([i nss] & _ & [= <-])%bind_Some.
    + destruct (may_exit _ _ _); [|done]. by intros (l & _ & [= <-])%bind_Some.
    + destruct (bid_accepted _ _ _ _); [|done].
      intros (σ1 & (_ & _ & _ & Hb & _)%move_Some & [= <-])%bind_Some. simpl.
      rewrite fn_insert_eq, Hb. destruct (Z.eqb_spec (EpochNumber (auction_Info b)) e);
        by case_decide.
  - by intros [-> _]%withdraw_Some.
  - by intros [= <-].
Qed.

Lemma run_bid evs σ σ' e :
  run_events evs σ = Some σ' ->
  c_bid σ' e = match last (omap (bid_for e) evs) with Some b => Some b | None => c_bid σ e end.
Proof.
  revert σ. induction evs as [|ev evs IH]; intros σ; cbn [run_events]; [by intros [= <-]|].
  intros (σ1 & Ha & Hr)%bind_Some. rewrite (IH _ Hr), (apply_bid _ _ _ e Ha).
  cbn [omap list_omap]. destruct (bid_for e ev) as [b|]; [|done].
  rewrite last_cons. by destruct (last (omap (bid_for e) evs)).
Qed.

(** An accepted bid is covered by the balance of its builder. *)
Lemma apply_bid_covered rules h actor a σ σ' :
  apply_event (EvAction rules h actor (Act_Auction a)) σ = Some σ' ->
  BidPrice (auction_Info a) <= c_balance σ (builder a).
Proof.
  cbn [apply_event apply_action]. destruct (bid_accepted _ _ _ _); [|done].
  intros (σ1 & Hm & _)%bind_Some. unfold move in Hm.
  by apply bind_Some in Hm as (σ2 & [_ Hle]%withdraw_Some & _).
Qed.

(** A bid that is accepted is valid where it is executed. *)
Lemma run_bids_valid evs σ σ' : run_events evs σ = Some σ' -> Forall valid_bid evs.
Proof.
  revert σ. induction evs as [|ev evs IH]; intros σ; cbn [run_events]; [constructor|].
  intros (σ1 & Ha & Hr)%bind_Some. constructor; [|by eapply IH].
  destruct ev as [rules h actor [| | | |b]|y n|]; try done. cbn [apply_event apply_action] in Ha.
  destruct (bid_accepted _ _ _ _) eqn:Eb; [|done]. by apply bid_accepted_spec in Eb.
Qed.

(** No bid for an epoch is valid once the epoch has started. *)
Lemma no_late_bid e ev : 0 < e -> valid_bid ev -> not_before e ev -> bid_for e ev = None.
Proof.
  destruct ev as [rules h actor [| | | |b]|y n|]; try done. cbn [valid_bid not_before bid_for].
  intros He [_ Hn _ _] (Hh & Hl & Hle).
  destruct (Z.eqb_spec (EpochNumber (auction_Info b)) e) as [<-|]; [exfalso|done].
  pose proof (u64_is_u64 (GetEpochLength rules)) as Hlen. unfold epoch_length_ok, is_u64 in *.
  set (d := h / u64 (GetEpochLength rules)) in *.
  assert (0 <= d <= h) as Hd by (split; [apply Z.div_pos; lia|apply Z.div_le_upper_bound; nia]).
  destruct (decide (d + 1 < u64_mod)) as [Hs|Hs].
  - rewrite u64_small in Hn by (unfold is_u64; lia). lia.
  - assert (d + 1 = u64_mod) as E by lia. rewrite E in Hn. unfold u64 in Hn.
    rewrite Z.mod_same in Hn by (unfold u64_mod; lia). lia.
Qed.

Lemma no_late_bids e evs :
  0 < e -> Forall valid_bid evs -> Forall (not_before e) evs -> omap (bid_for e) evs = [].
Proof.
  intros He Hv. induction Hv as [|ev evs Hev _ IH]; [done|].
  intros [Hn Hns]%Forall_cons. cbn [omap list_omap]. rewrite no_late_bid by done. by apply IH.
Qed.
End machine.

(** ** Properties *)

Section properties.
Context `{HC : HyperConsts} {HCS : HyperConstsSpec} {CO : Codec} {HA : HActions}.
Context {SM : SafeMath} {SMS : SafeMathSpec} {BC : BLSCrypto} {BS : BLSCryptoSpec}.
Context {DE : DatabaseErrors} {DES : DatabaseErrorsSpec} {CS : CodecSpec} {HS : HActionsSpec}.
Context {SP : StatePermissions} {SPS : StatePermissionsSpec}.
Context {S : Type} {IM : Immutable S} {MU : Mutable S} {MS : MutableSpec S}.
Implicit Types (v : gmap bytes bytes).

(** C4: Balances are accounted for, and nobody pays without consent. Along any
    history from a state that satisfies the invariant of the chain, the balance
    of an address changes by exactly what the successful transfers to it and
    the bids paid to the fund bring, less its transfers, its bids and the fees
    it sponsors; and each event it pays for is a transfer it sent, a fee it
    sponsors, or a bid whose signature verifies under a key of this address. *)
Theorem balances_accounted v evs v' (x : Address) :
  chain_inv v -> history (S := S) v evs v' ->
  bal_at v' x = bal_at v x - sum_of (spent x) evs + sum_of (received x) evs /\
  Forall (fun ev => spent x ev <> 0 -> consents x ev) evs.
Proof.
  intros Hc Hh. destruct (history_run _ _ _ Hh Hc) as (σ & Hrun & Hσ).
  apply (run_balance _ _ _ x) in Hrun as [Hb Hall]. split; [|done].
  rewrite <- (c_balance_proper _ _ Hσ x x eq_refl) in Hb. exact Hb.
Qed.

(** C5: A rollup belongs to its authority. Along any history, the list of
    registered namespaces only grows at its end; and as long as the authority
    of a rollup makes no request about it, its info and its exits in every
    epoch stay as they are, whatever anybody else does. *)
Theorem rollup_ownership v evs v' :
  chain_inv v -> history (S := S) v evs v' ->
  (exists nss nss', registry_at v = Ok nss /\ registry_at v' = Ok nss' /\ nss `prefix_of` nss') /\
  (forall ns i, info_of v ns = Some i ->
     Forall (fun ev => ~ request_of (AuthoritySEQAddress i) ns ev) evs ->
     info_of v' ns = Some i /\
     forall e, is_u64 e -> exits_of ns (exits_list v' e) = exits_of ns (exits_list v e)).
Proof.
  intros Hc Hh. destruct (history_run _ _ _ Hh Hc) as (σ & Hrun & Hσ).
  pose proof (history_inv _ _ _ Hh Hc) as Hc'.
  destruct Hc as [_ _ [nss Hr]], Hc' as [_ _ [nss' Hr']].
  pose proof (ri_registry _ _ Hr) as Hl. pose proof (ri_registry _ _ Hr') as Hl'.
  assert (c_registry (abs v) = nss) as Habs by (simpl; by rewrite Hl). split.
  - exists nss, nss'. split; [done|]. split; [done|]. apply run_registry in Hrun.
    rewrite Habs, <- (c_registry_proper _ _ Hσ) in Hrun. simpl in Hrun. by rewrite Hl' in Hrun.
  - intros ns i Hi Hno.
    assert (ns ∈ c_registry (abs v)) as Hin.
    { rewrite Habs. destruct (decide (ns ∈ nss)) as [|Hn]; [done|].
      pose proof (ri_unregistered _ _ Hr ns Hn) as Hv. unfold info_of in Hi.
      by rewrite rollup_at_none in Hi. }
    destruct (run_rollup _ _ _ ns i Hrun Hin Hi Hno) as [Hi' He'].
    rewrite <- (c_info_proper _ _ Hσ ns ns eq_refl) in Hi'. split; [exact Hi'|].
    intros e He. specialize (He' e). rewrite <- (c_exits_proper _ _ Hσ e e eq_refl) in He'.
    by rewrite !abs_exits in He'.
Qed.

(** A history is one up to any of its events, the event, and one from there. *)
Lemma history_split v evs1 ev evs2 v' :
  history (S := S) v (evs1 ++ ev :: evs2) v' ->
  exists u u', history (S := S) v evs1 u /\ happens (S := S) u ev u' /\ history (S := S) u' evs2 v'.
Proof.
  revert v. induction evs1 as [|e evs1 IH]; intros v Hh; inversion Hh as [|? ? v1 ? ? He Hr]; subst.
  - exists v, v1. split_and!; [constructor|done..].
  - destruct (IH v1 Hr) as (u & u' & H1 & H2 & H3). exists u, u'. split_and!; [|done..].
    by eapply history_next.
Qed.

(** What a bid does to the balances where it is accepted. *)
Lemma happens_bid u rules h actor a u' x :
  chain_inv u -> happens (S := S) u (EvAction rules h actor (Act_Auction a)) u' ->
  let price := BidPrice (auction_Info a) in
  price <= bal_at u (builder a) /\
  bal_at u' x = bal_at u x - (if decide (builder a = x) then price else 0)
                           + (if decide (fund_address = x) then price else 0).
Proof.
  intros Hc Hh. destruct (happens_follows _ _ _ Hh Hc) as (σ & Ha & Hσ). split.
  - by apply apply_bid_covered in Ha.
  - apply (apply_balance _ _ _ x) in Ha as [Hb _].
    by rewrite <- (c_balance_proper _ _ Hσ x x eq_refl) in Hb.
Qed.

(** C6: The winning bid of an epoch. Along any history, the bid stored for an
    epoch is the last one accepted for it, or the one that was there, and once
    the epoch has started it never changes. Every accepted bid was submitted by
    a whitelisted address in the epoch before, is signed by the builder's key,
    and is paid where it is accepted: the address of that key had the price,
    the price moves from it to the fund, and no other balance changes. *)
Theorem winning_bid v evs v' (e : Z) :
  chain_inv v -> history (S := S) v evs v' -> is_u64 e ->
  let bid u := read_bid <$> u !! ArcadiaBidKey e in
  bid v' = match last (omap (bid_for e) evs) with Some b => Some b | None => bid v end /\
  Forall valid_bid evs /\
  (forall evs1 rules h actor a evs2, evs = evs1 ++ EvAction rules h actor (Act_Auction a) :: evs2 ->
     exists u u', history (S := S) v evs1 u /\
       happens (S := S) u (EvAction rules h actor (Act_Auction a)) u' /\ history (S := S) u' evs2 v' /\
       BidPrice (auction_Info a) <= bal_at u (builder a) /\
       forall x, bal_at u' x = bal_at u x
         - (if decide (builder a = x) then BidPrice (auction_Info a) else 0)
         + (if decide (fund_address = x) then BidPrice (auction_Info a) else 0)) /\
  (0 < e -> Forall (not_before e) evs -> bid v' = bid v).
Proof.
  intros Hc Hh He bid. destruct (history_run _ _ _ Hh Hc) as (σ & Hrun & Hσ).
  pose proof (run_bids_valid _ _ _ Hrun) as Hv. apply (run_bid _ _ _ e) in Hrun.
  rewrite <- (c_bid_proper _ _ Hσ e e eq_refl), !abs_bid in Hrun by done. fold (bid v) (bid v') in Hrun.
  split; [done|]. split; [done|]. split.
  - intros evs1 rules h actor a evs2 ->.
    destruct (history_split _ _ _ _ _ Hh) as (u & u' & H1 & H2 & H3).
    pose proof (history_inv _ _ _ H1 Hc) as Hu. exists u, u'. split; [done|]. split; [done|]. split; [done|].
    split; [by apply (happens_bid u rules h actor a u' (builder a) Hu H2)|].
    intros x. by apply (happens_bid u rules h actor a u' x Hu H2).
  - intros Hpos Hn. by rewrite Hrun, no_late_bids.
Qed.
End properties.
