(* ===== verification/NodeSync.v ===== *)
(** * NodeSync: the rollups a node serves are those of the chain

    A node keeps the rollups twice: in the state, written by the executions of
    [RollupRegistration], and in memory, updated by [Accepted] from the actions
    those executions left behind. A run of a node alternates the two: a block
    is executed ([BlockRun]) and then accepted ([Controller]). The two copies
    agree along every run that starts with the chain; a node that starts on a
    state with rollups knows only those registered or changed since. *)

From stdpp Require Import base numbers countable gmap list strings.
From Stdlib Require Import ZArith Lia Strings.Byte.
From S2P Require Import Prelude HyperSDK State Wire Sample Storage Ledger Genesis Auth Actions.
From S2P Require Import ChainInv Transfer SequencerMsg Auction EpochExit RollupRegister Registry.
From S2P Require Import StateManager Chain RollupRegistry Block Controller Archiver Server BlockRun.

Local Open Scope Z_scope.

Section node_run.
Context `{HC : HyperConsts} {HCS : HyperConstsSpec} {CO : Codec} {HA : HActions}.
Context {SM : SafeMath} {SMS : SafeMathSpec} {BC : BLSCrypto} {BS : BLSCryptoSpec}.
Context {DE : DatabaseErrors} {DES : DatabaseErrorsSpec} {CS : CodecSpec} {HS : HActionsSpec}.
Context {SP : StatePermissions} {SPS : StatePermissionsSpec}.
Context {S : Type} {IM : Immutable S} {MU : Mutable S} {MS : MutableSpec S}.
Context {FE : Fees} {FES : FeesSpec}.
Context {D B : Type} {DR : KeyValueReader D} {BW : KeyValueWriter B} {BD : Batching D B}.
Context {BDS : BatchingSpec D B}.
Implicit Types (v : gmap bytes bytes) (c : Controller (D := D)).

(** [node_run v0 c0 h0 blks h v c]: from the contents [v0] and the controller
    [c0], with [h0] the last height, the node executed and accepted [blks]. *)
Inductive node_run v0 c0 (h0 : Z) : list StatelessBlock -> Z -> gmap bytes bytes -> Controller (D := D) -> Prop :=
  | run_start : node_run v0 c0 h0 [] h0 v0 c0
  | run_block blks h v c blk v' c' :
      node_run v0 c0 h0 blks h v c ->
      h < blk_Hght blk -> is_u64 (blk_Hght blk) -> Forall result_wf (blk_Results blk) ->
      block_run (S := S) (Controller_Rules c (blk_Tmstmp blk)) (blk_Tmstmp blk) (blk_Hght blk)
        v (blk_Txs blk) (blk_Results blk) v' ->
      Accepted (B := B) blk c = (c', Ok tt) ->
      node_run v0 c0 h0 (blks ++ [blk]) (blk_Hght blk) v' c'.

Definition block_infos (blk : StatelessBlock) : list RollupInfo :=
  registered_infos (successful_actions (blk_Txs blk) (blk_Results blk)).

(** The registrations of the accepted blocks, in order. *)
Definition accepted_infos (blks : list StatelessBlock) : list RollupInfo := concat (map block_infos blks).

Lemma accepted_infos_snoc blks blk :
  accepted_infos (blks ++ [blk]) = accepted_infos blks ++ block_infos blk.
Proof. unfold accepted_infos. rewrite map_app, concat_app. simpl. by rewrite app_nil_r. Qed.

Lemma Controller_epoch_length c t :
  u64 (EpochLength (c_genesis c)) <> 0 -> epoch_length_ok (Controller_Rules c t).
Proof. done. Qed.

Lemma node_run_state v0 c0 h0 blks h v c :
  chain_inv v0 -> u64 (EpochLength (c_genesis c0)) <> 0 -> node_run v0 c0 h0 blks h v c ->
  c_genesis c = c_genesis c0 /\ chain_inv v /\
  forall ns, info_of v ns = overlay (accepted_infos blks) (info_of v0) ns.
Proof.
  intros Hc He. induction 1 as [|blks h v c blk v' c' _ [IHg [IHc IHi]] _ Hu Hwf Hb Ha]; [done|].
  pose proof (block_run_length _ _ _ _ _ _ _ Hb) as Hlen. rewrite <- IHg in He.
  destruct (Accepted_Ok_inv _ _ _ _ Hlen Hwf He Ha) as (Hg & _ & _).
  destruct (block_run_infos _ _ _ Hu (Controller_epoch_length _ _ He) _ _ _ _ Hb IHc) as [Hc' Hi].
  split; [congruence|]. split; [done|]. intros ns.
  rewrite accepted_infos_snoc, overlay_app, Hi. by apply overlay_eq.
Qed.

Context {RIS : RollupInfoSpec}.

(** The identifiers of the namespaces, hashes of them, do not collide. *)
Definition collision_free (nss : list bytes) : Prop :=
  forall a b, a ∈ nss -> b ∈ nss -> rollup_id a = rollup_id b -> a = b.

(** Known by identifier is known by namespace. *)
Lemma last_update_info nss l ns :
  collision_free nss -> ns ∈ nss -> RI_Namespace <$> l ⊆ nss ->
  last_update l (rollup_id ns) = last_info l ns.
Proof.
  intros Hcf Hns Hl. unfold last_update, last_info. f_equal.
  induction l as [|i l IH]; [done|]. rewrite fmap_cons in Hl.
  rewrite !filter_cons, RollupInfo_ID_ns, IH by (intros x Hx; apply Hl; by right).
  assert (RI_Namespace i ∈ nss) as Hi by (apply Hl; by left).
  destruct (decide (RI_Namespace i = ns)) as [->|Hne]; [by rewrite decide_True|].
  rewrite decide_False; [done|]. intros E. apply Hne. by apply Hcf.
Qed.

(** The registry holds, under the identifier of its namespace, every info of the
    state that an accepted block registered, unless it has exited by [epoch]. *)
Definition in_sync (epoch : Z) (known : list bytes) v (r : RollupRegistry) : Prop :=
  forall id i, rollups r !! id = Some i <->
    exists ns, id = rollup_id ns /\ ns ∈ known /\ info_of v ns = Some i /\
      RollupInfo_Exited i epoch = false.

Lemma in_sync_update nss known e e' v v' l r :
  collision_free nss -> known ⊆ nss -> RI_Namespace <$> l ⊆ nss -> e <= e' ->
  (forall ns, info_of v' ns = overlay l (info_of v) ns) ->
  in_sync e known v r ->
  in_sync e' (known ++ (RI_Namespace <$> l)) v' (fst (Update e' l r)).
Proof.
  intros Hcf Hk Hl Hle Hi Hs id i. rewrite Update_lookup. split.
  - destruct (last_update l id) as [j|] eqn:El.
    + destruct (RollupInfo_Exited j e') eqn:Ex; [done|]. intros [= <-].
      assert (j ∈ l /\ RollupInfo_ID j = id) as [Hj <-].
      { unfold last_update in El. apply last_Some in El as [l' El].
        assert (j ∈ filter (fun i => RollupInfo_ID i = id) l) as Hin.
        { rewrite El. apply elem_of_app. right. by apply list_elem_of_singleton. }
        by apply list_elem_of_filter in Hin as [? ?]. }
      assert (RI_Namespace j ∈ RI_Namespace <$> l) as Hin by (by apply list_elem_of_fmap_2).
      rewrite RollupInfo_ID_ns in El. rewrite (last_update_info nss) in El by (auto).
      exists (RI_Namespace j). rewrite RollupInfo_ID_ns, elem_of_app, Hi. unfold overlay. rewrite El. auto.
    + destruct (rollups r !! id) as [j|] eqn:Er; [|done].
      destruct (RollupInfo_Exited j e') eqn:Ex; [done|]. intros [= <-].
      apply Hs in Er as (ns & -> & Hns & Hv & _).
      rewrite (last_update_info nss) in El by auto.
      exists ns. rewrite elem_of_app, Hi. unfold overlay. rewrite El. auto.
  - intros (ns & -> & Hns & Hv & Hx). rewrite Hi in Hv. unfold overlay in Hv.
    assert (ns ∈ nss) as Hin by (apply elem_of_app in Hns as [?|?]; auto).
    rewrite (last_update_info nss) by auto.
    destruct (last_info l ns) as [j|] eqn:El; [injection Hv as ->; by rewrite Hx|].
    apply last_info_None in El. apply elem_of_app in Hns as [Hns|]; [|done].
    assert (rollups r !! rollup_id ns = Some i) as ->; [|by rewrite Hx].
    apply Hs. exists ns. split; [done|]. split; [done|]. split; [done|].
    destruct (RollupInfo_Exited i e) eqn:E; [|done].
    by rewrite (RollupInfo_Exited_mono i e e' Hle E) in Hx.
Qed.

Lemma in_sync_empty e v : in_sync e [] v NewRollupRegistr.
Proof.
  intros id i. cbn [NewRollupRegistr rollups]. rewrite lookup_empty. split; [done|].
  intros (ns & _ & Hns & _). by apply not_elem_of_nil in Hns.
Qed.

Lemma node_run_in_sync nss v0 c0 h0 blks h v c :
  collision_free nss -> chain_inv v0 -> u64 (EpochLength (c_genesis c0)) <> 0 ->
  c_rollupRegistry c0 = NewRollupRegistr ->
  node_run v0 c0 h0 blks h v c -> RI_Namespace <$> accepted_infos blks ⊆ nss ->
  in_sync (h / u64 (EpochLength (c_genesis c0))) (RI_Namespace <$> accepted_infos blks) v (c_rollupRegistry c).
Proof.
  intros Hcf Hc He H0. induction 1 as [|blks h v c blk v' c' Hrun IH Hlt Hu Hwf Hb Ha]; intros Hin.
  - rewrite H0. apply in_sync_empty.
  - destruct (node_run_state _ _ _ _ _ _ _ Hc He Hrun) as (Hg & Hcv & _).
    rewrite accepted_infos_snoc, fmap_app in Hin |- *.
    pose proof (block_run_length _ _ _ _ _ _ _ Hb) as Hlen.
    assert (u64 (EpochLength (c_genesis c)) <> 0) as He' by (by rewrite Hg).
    destruct (Accepted_Ok_inv _ _ _ _ Hlen Hwf He' Ha) as (_ & _ & ->). rewrite Hg.
    destruct (block_run_infos _ _ _ Hu (Controller_epoch_length _ _ He') _ _ _ _ Hb Hcv) as [_ Hi].
    apply (in_sync_update nss) with (e := h / u64 (EpochLength (c_genesis c0))) (v := v).
    + done.
    + intros x Hx. apply Hin, elem_of_app. by left.
    + intros x Hx. apply Hin, elem_of_app. by right.
    + apply Z.div_le_mono; [|lia]. unfold u64, u64_mod in *.
      pose proof (Z.mod_pos_bound (EpochLength (c_genesis c0)) 18446744073709551616). lia.
    + exact Hi.
    + apply IH. intros x Hx. apply Hin, elem_of_app. by left.
Qed.
End node_run.

Section served.
Context `{HC : HyperConsts} {HCS : HyperConstsSpec} {CO : Codec} {HA : HActions}.
Context {DE : DatabaseErrors} {DES : DatabaseErrorsSpec} {CS : CodecSpec} {HS : HActionsSpec}.
Context {RIS : RollupInfoSpec}.

Lemma info_of_wf v ns i : chain_inv v -> info_of v ns = Some i -> RI_Namespace i = ns.
Proof.
  intros [_ _ [nss Hr]] Hi. unfold info_of in Hi. destruct (decide (ns ∈ nss)) as [Hns|Hns].
  - destruct (ri_registered _ _ Hr _ Hns) as (j & Hj & [Hw _]). rewrite Hj in Hi. by injection Hi as <-.
  - rewrite (rollup_at_none _ _ (ri_unregistered _ _ Hr _ Hns)) in Hi. done.
Qed.

Lemma info_of_Some v ns i : info_of v ns = Some i <-> rollup_at v ns = Ok (Some i).
Proof. unfold info_of. destruct (rollup_at v ns) as [o| |]; split; congruence. Qed.

(** What a registry in sync serves. *)
Lemma in_sync_serves e known v r ep i :
  chain_inv v -> in_sync e known v r ->
  i ∈ RollupsValidAtEpoch r ep <->
    RollupInfo_ValidAtEpoch i ep = true /\ RollupInfo_Exited i e = false /\
    rollup_at v (RI_Namespace i) = Ok (Some i) /\ RI_Namespace i ∈ known.
Proof.
  intros Hc Hs. rewrite RollupsValidAtEpoch_elem. split.
  - intros [Hv [id (ns & -> & Hns & Hi & Hx)%Hs]]. pose proof (info_of_wf _ _ _ Hc Hi) as Hw. subst ns.
    apply info_of_Some in Hi. auto.
  - intros (Hv & Hx & Hi%info_of_Some & Hns). split; [done|].
    exists (rollup_id (RI_Namespace i)). apply Hs. eauto.
Qed.

(** Each rollup is served once. *)
Lemma in_sync_NoDup e known v r ep :
  chain_inv v -> in_sync e known v r -> NoDup (RI_Namespace <$> RollupsValidAtEpoch r ep).
Proof.
  intros Hc Hs. apply (NoDup_fmap_1 rollup_id). rewrite <- list_fmap_compose.
  unfold RollupsValidAtEpoch. rewrite valid_foldl, app_nil_l.
  apply (sublist_NoDup _ (((fun i => rollup_id (RI_Namespace i)) <$> (map_to_list (rollups r)).*2)));
    [|apply fmap_sublist, sublist_filter].
  replace (_ <$> (map_to_list (rollups r)).*2) with (map_to_list (rollups r)).*1;
    [apply NoDup_fst_map_to_list|].
  rewrite <- list_fmap_compose. apply list_fmap_ext. intros k [id i] Hk%list_elem_of_lookup_2. simpl.
  apply elem_of_map_to_list, Hs in Hk as (ns & -> & _ & Hi & _).
  by rewrite (info_of_wf _ _ _ Hc Hi).
Qed.
End served.

Section start.
Context `{HC : HyperConsts} {HCS : HyperConstsSpec} {CO : Codec} {HA : HActions}.
Context {SM : SafeMath} {SMS : SafeMathSpec} {DE : DatabaseErrors} {DES : DatabaseErrorsSpec}.
Context {CS : CodecSpec} {HS : HActionsSpec} {SP : StatePermissions}.
Context {S : Type} {IM : Immutable S} {MU : Mutable S} {MS : MutableSpec S}.

(** A genesis state has no rollup. *)
Lemma Load_no_rollup bf (g : Genesis) (s s' : S) ns :
  view s = ∅ -> Forall alloc_u64 (CustomAllocations g) ->
  Load bf g s = (s', Ok tt) -> info_of (view s') ns = None.
Proof.
  intros He Hl Hr. unfold Load in Hr. destruct (bf _); [done|].
  apply load_allocs_Ok in Hr as [_ (pl & _ & [Hv _])]; [|unfold is_u64, u64_mod; lia|done].
  unfold info_of. rewrite rollup_at_none; [done|]. rewrite Hv, He, apply_allocs_other; [apply lookup_empty|].
  apply is_arcadia_key_other, RollupInfoKey_arcadia.
Qed.
End start.

(** ** Properties *)

(** C18: What a node serves is the chain's. Of a node that has executed and
    accepted every block since the genesis, [getValidRollupsAtEpoch] returns
    each rollup once, and exactly those rollups that [getRollupInfo] reads from
    the state, with the info it reads, that are valid at the epoch asked for and
    had not exited by the epoch of the last block: the copy in memory, updated
    from the actions of the accepted blocks, never differs from the state. *)
Theorem rollups_served_are_on_chain
    `{HC : HyperConsts} {HCS : HyperConstsSpec} {CO : Codec} {HA : HActions}
    {SM : SafeMath} {SMS : SafeMathSpec} {BC : BLSCrypto} {BS : BLSCryptoSpec}
    {DE : DatabaseErrors} {DES : DatabaseErrorsSpec} {CS : CodecSpec} {HS : HActionsSpec}
    {SP : StatePermissions} {SPS : StatePermissionsSpec}
    {S : Type} {IM : Immutable S} {MU : Mutable S} {MS : MutableSpec S}
    {FE : Fees} {FES : FeesSpec} {D B : Type} {DR : KeyValueReader D} {BW : KeyValueWriter B}
    {BD : Batching D B} {BDS : BatchingSpec D B} {RIS : RollupInfoSpec} {GO : Gorm}
    (bf : Z -> option error) (s0 s1 : S) (c0 : Controller (D := D)) (blks : list StatelessBlock) (h : Z)
    (n : Node (D := D)) (epoch : Z) (reply0 : GetRollupsInfoAtEpochReply) :
  let g := c_genesis c0 in
  view s0 = ∅ -> Forall alloc_u64 (CustomAllocations g) ->
  u64 (EpochLength g) <> 0 -> Load bf g s0 = (s1, Ok tt) ->
  c_rollupRegistry c0 = NewRollupRegistr ->
  node_run (S := S) (B := B) (view s1) c0 0 blks h (n_view n) (n_controller n) ->
  collision_free (RI_Namespace <$> accepted_infos blks) ->
  wp (Server_GetValidRollupsAtEpoch n {| ra_Epoch := epoch |}) reply0 (fun reply o =>
    o = Ok tt /\ NoDup (RI_Namespace <$> ra_Rollups reply) /\
    forall i, i ∈ ra_Rollups reply <->
      ctl_GetRollupInfoFromState n (RI_Namespace i) = Ok (Some i) /\
      RollupInfo_ValidAtEpoch i epoch = true /\
      RollupInfo_Exited i (h / u64 (EpochLength g)) = false).
Proof.
  intros g He Hl Hep Hload H0 Hrun Hcf. destruct (Load_inv bf g s0 s1 He Hl Hload) as [Hc _].
  pose proof (node_run_in_sync _ _ _ _ _ _ _ _ Hcf Hc Hep H0 Hrun (fun x Hx => Hx)) as Hs.
  destruct (node_run_state _ _ _ _ _ _ _ Hc Hep Hrun) as (_ & Hcv & Hi).
  split; [done|]. split; [by eapply in_sync_NoDup|]. intros i. cbn [ra_Rollups set_reply].
  etransitivity; [by apply (in_sync_serves _ _ _ _ _ _ Hcv Hs)|].
  rewrite GetRollupInfo_committed. change (committed n) with (n_view n). split; [tauto|].
  intros (Hr & Hv & Hx). split_and!; try done. destruct (decide (RI_Namespace i ∈ RI_Namespace <$> accepted_infos blks))
    as [|Hn]; [done|]. apply last_info_None in Hn. apply info_of_Some in Hr.
  rewrite Hi in Hr. unfold overlay in Hr. rewrite Hn in Hr.
  by rewrite (Load_no_rollup bf g s0 s1 _ He Hl Hload) in Hr.
Qed.

(** C22: What a node serves after a restart. A node that starts, with the empty
    registry [Initialize] gives it, on a state that already has rollups, serves
    of the rollups of the state those that a block accepted since the start
    registered or changed, and no other: the registry is not read back from the
    state. *)
Theorem rollups_served_after_restart
    `{HC : HyperConsts} {HCS : HyperConstsSpec} {CO : Codec} {HA : HActions}
    {SM : SafeMath} {SMS : SafeMathSpec} {BC : BLSCrypto} {BS : BLSCryptoSpec}
    {DE : DatabaseErrors} {DES : DatabaseErrorsSpec} {CS : CodecSpec} {HS : HActionsSpec}
    {SP : StatePermissions} {SPS : StatePermissionsSpec}
    {S : Type} {IM : Immutable S} {MU : Mutable S} {MS : MutableSpec S}
    {FE : Fees} {FES : FeesSpec} {D B : Type} {DR : KeyValueReader D} {BW : KeyValueWriter B}
    {BD : Batching D B} {BDS : BatchingSpec D B} {RIS : RollupInfoSpec} {GO : Gorm}
    (v0 : gmap bytes bytes) (c0 : Controller (D := D)) (h0 : Z) (blks : list StatelessBlock) (h : Z)
    (n : Node (D := D)) (epoch : Z) (reply0 : GetRollupsInfoAtEpochReply) :
  chain_inv v0 -> u64 (EpochLength (c_genesis c0)) <> 0 -> c_rollupRegistry c0 = NewRollupRegistr ->
  node_run (S := S) (B := B) v0 c0 h0 blks h (n_view n) (n_controller n) ->
  collision_free (RI_Namespace <$> accepted_infos blks) ->
  wp (Server_GetValidRollupsAtEpoch n {| ra_Epoch := epoch |}) reply0 (fun reply o =>
    o = Ok tt /\
    forall i, i ∈ ra_Rollups reply <->
      ctl_GetRollupInfoFromState n (RI_Namespace i) = Ok (Some i) /\
      RI_Namespace i ∈ RI_Namespace <$> accepted_infos blks /\
      RollupInfo_ValidAtEpoch i epoch = true /\
      RollupInfo_Exited i (h / u64 (EpochLength (c_genesis c0))) = false).
Proof.
  intros Hc Hep H0 Hrun Hcf.
  pose proof (node_run_in_sync _ _ _ _ _ _ _ _ Hcf Hc Hep H0 Hrun (fun x Hx => Hx)) as Hs.
  destruct (node_run_state _ _ _ _ _ _ _ Hc Hep Hrun) as (_ & Hcv & _).
  split; [done|]. intros i. cbn [ra_Rollups set_reply].
  etransitivity; [by apply (in_sync_serves _ _ _ _ _ _ Hcv Hs)|].
  rewrite GetRollupInfo_committed. change (committed n) with (n_view n). tauto.
Qed.
