(* ===== verification/ArchiveRun.v ===== *)
(** * ArchiveRun: the archive is filled beside the chain

    [Accepted] starts a goroutine that inserts the block in the archive and
    does not wait for it ([src/controller/controller.go]); [InsertBlock]
    ([src/archiver/orm_archiver.go]) opens a transaction, creates the row and
    commits. Goroutines of several blocks run at the same time, so a run is an
    interleaving of three kinds of steps: a block is accepted, an insertion
    creates its row, an insertion commits. A transaction holds a connection of
    the database until it ends, and an insertion waits while none is free. *)

From stdpp Require Import base numbers countable gmap list strings relations.
From Stdlib Require Import ZArith Lia Strings.Byte.
From S2P Require Import Prelude HyperSDK State Wire Sample Storage Ledger Genesis Auth Actions.
From S2P Require Import ChainInv Transfer SequencerMsg Auction EpochExit RollupRegister Registry.
From S2P Require Import RollupRegistry Block Commit Archiver Controller.

Local Open Scope Z_scope.

(** ** An insertion in two steps *)

Section insertion.
Context `{HC : HyperConsts} {BK : Blocks} {GO : Gorm}.

(** Up to the commit: a transaction to commit, or the result of [InsertBlock]. *)
Definition start_insert (b : StatelessBlock) (d : DB) : DB * (DBTx + res unit) :=
  match StatelessBlock_Marshal b with
  | Ok blkBytes =>
      let '(d, tx) := Begin d in
      match tx_Create (new_row b blkBytes) tx with
      | (tx, Ok _) => (d, inl tx)
      | (tx, Err e) => (tx_Rollback tx d, inr (Err e))
      | (tx, Panic p) => (d, inr (Panic p))
      end
  | Err e => (d, inr (Err e))
  | Panic p => (d, inr (Panic p))
  end.

Lemma InsertBlock_start b d :
  InsertBlock b d =
  let '(d, k) := start_insert b d in
  match k with inl tx => tx_Commit tx d | inr r => (d, r) end.
Proof.
  unfold InsertBlock, start_insert. destruct (StatelessBlock_Marshal b); [|done..].
  rewrite bind_lift_Ok. unfold db_Begin, mbind, M_bind. destruct (Begin d) as [d1 tx0].
  by destruct (tx_Create _ _) as [tx []].
Qed.

(** An insertion that gets as far as [Begin] waits for a connection. *)
Definition can_start (b : StatelessBlock) (d : DB) : bool :=
  match StatelessBlock_Marshal b with Ok _ => can_Begin d | _ => true end.

(** Where the goroutine of a block is. *)
Inductive task :=
  | Spawned (b : StatelessBlock)
  | Creating (b : StatelessBlock) (tx : DBTx)
  | Finished (b : StatelessBlock) (o : res unit).

Definition after_start (b : StatelessBlock) (k : DBTx + res unit) : task :=
  match k with inl tx => Creating b tx | inr o => Finished b o end.

Definition task_block (t : task) : StatelessBlock :=
  match t with Spawned b | Creating b _ | Finished b _ => b end.

(** The block whose insertion succeeded. *)
Definition inserted (t : task) : option StatelessBlock :=
  match t with Finished b (Ok _) => Some b | _ => None end.

Definition finished (t : task) : bool :=
  match t with Finished _ _ => true | _ => false end.
End insertion.

Section run.
Context `{HC : HyperConsts} {HCS : HyperConstsSpec} {CO : Codec} {HA : HActions} {DE : DatabaseErrors}.
Context {FE : Fees} {FES : FeesSpec}.
Context {D B : Type} {DR : KeyValueReader D} {BW : KeyValueWriter B} {BD : Batching D B}.
Context {BDS : BatchingSpec D B} {BK : Blocks} {BKS : BlocksSpec} {GO : Gorm} {GS : GormSpec}.
Implicit Types (c : Controller (D := D)) (d : DB) (ts : list task) (i : nat).

(** [insert_step]: one of the goroutines goes on. *)
Inductive insert_step : DB * list task -> DB * list task -> Prop :=
  | insert_create d d' ts i b k :
      ts !! i = Some (Spawned b) -> can_start b d = true -> start_insert b d = (d', k) ->
      insert_step (d, ts) (d', <[i := after_start b k]> ts)
  | insert_commit d d' ts i b tx o :
      ts !! i = Some (Creating b tx) -> tx_Commit tx d = (d', o) ->
      insert_step (d, ts) (d', <[i := Finished b o]> ts).

(** [arch_step]: the controller, the database and the goroutines. *)
Inductive arch_step : Controller (D := D) * DB * list task -> Controller (D := D) * DB * list task -> Prop :=
  | arch_accept c c' d ts blk o :
      length (blk_Txs blk) = length (blk_Results blk) -> Forall result_wf (blk_Results blk) ->
      Accepted (B := B) blk c = (c', o) ->
      arch_step (c, d, ts) (c', d, ts ++ [Spawned blk])
  | arch_insert c d d' ts ts' :
      insert_step (d, ts) (d', ts') -> arch_step (c, d, ts) (c, d', ts').

(** A row of a block. *)
Definition row_of (b : StatelessBlock) (r : DBBlock) : Prop :=
  exists raw j, StatelessBlock_Marshal b = Ok raw /\ r = stored (new_row b raw) j.

(** The connections that the goroutines hold. *)
Definition task_conns (t : task) : nat := match t with Creating _ tx => holds_conn tx | _ => 0 end.

(** A transaction to commit holds the row of its block; nothing panicked. *)
Definition task_ok (t : task) : Prop :=
  match t with
  | Spawned _ => True
  | Creating b tx => exists raw, StatelessBlock_Marshal b = Ok raw /\ created tx = [new_row b raw]
  | Finished _ o => is_panic o = false
  end.

Definition arch_inv c0 d0 (k : Controller (D := D) * DB * list task) : Prop :=
  let '(c, d, ts) := k in
  c_genesis c = c_genesis c0 /\
  c_archive c = c_archive c0 ++ (task_block <$> ts) /\
  Forall task_ok ts /\
  in_use d = (in_use d0 + sum_list_with task_conns ts)%nat /\
  exists done new, done ≡ₚ omap inserted ts /\ rows d = rows d0 ++ new /\ Forall2 row_of done new.

Lemma task_blocks_insert ts i t t' :
  ts !! i = Some t -> task_block t' = task_block t -> task_block <$> <[i := t']> ts = task_block <$> ts.
Proof. intros Hi Ht. rewrite list_fmap_insert, Ht. apply list_insert_id. by rewrite list_lookup_fmap, Hi. Qed.

Lemma inserted_insert ts i t t' :
  ts !! i = Some t -> inserted t = None ->
  omap inserted (<[i := t']> ts) ≡ₚ option_list (inserted t') ++ omap inserted ts.
Proof.
  intros Hi Ht. pose proof (lookup_lt_Some _ _ _ Hi) as Hlt.
  rewrite insert_take_drop by done.
  rewrite <- (take_drop_middle ts i t Hi) at 3. rewrite !omap_app. cbn [omap list_omap].
  change (list_omap _ _ inserted) with (omap (M := list) inserted). rewrite Ht.
  destruct (inserted t'); simpl; [|done]. by rewrite Permutation_middle.
Qed.

Lemma sum_insert (f : task -> nat) ts i t t' :
  ts !! i = Some t ->
  (sum_list_with f (<[i := t']> ts) + f t = sum_list_with f ts + f t')%nat.
Proof.
  intros Hi. pose proof (lookup_lt_Some _ _ _ Hi) as Hl. rewrite insert_take_drop by done.
  rewrite <- (take_drop_middle ts i t Hi) at 3. rewrite !sum_list_with_app. simpl. lia.
Qed.

(** [start_insert] leaves the rows alone, and takes a connection only for a
    transaction that is still to commit. *)
Lemma start_insert_rows b d d' k :
  start_insert b d = (d', k) ->
  rows d' = rows d /\
  in_use d' = (in_use d + task_conns (after_start b k))%nat /\
  task_ok (after_start b k) /\
  inserted (after_start b k) = None.
Proof.
  unfold start_insert. pose proof (Marshal_no_panic b) as Hm.
  destruct (StatelessBlock_Marshal b) as [raw|e|p] eqn:Em; [|by intros [= <- <-]; rewrite Nat.add_0_r|done].
  pose proof (Begin_rows d) as Hb. pose proof (created_Begin d) as Hcb. pose proof (in_use_Begin d) as Hu.
  destruct (Begin d) as [d1 tx0]. cbn [fst snd] in Hb, Hcb, Hu.
  pose proof (Create_no_panic (new_row b raw) tx0) as Hp.
  pose proof (holds_conn_Create (new_row b raw) tx0) as Hh.
  destruct (tx_Create (new_row b raw) tx0) as [tx [[]|e|p]] eqn:Ec; [| |done]; cbn [fst] in Hh; intros [= <- <-].
  - split_and!; [done|simpl; lia| |done]. exists raw. apply Create_Ok in Ec. by rewrite Hcb in Ec.
  - split_and!; [by rewrite rows_Rollback|rewrite in_use_Rollback; simpl; lia|done|done].
Qed.

Lemma insert_step_inv c0 d0 c d ts d' ts' :
  arch_inv c0 d0 (c, d, ts) -> insert_step (d, ts) (d', ts') -> arch_inv c0 d0 (c, d', ts').
Proof.
  intros (Hg & Har & Hok & Hu & done & new & Hd & Hr & Hrow) Hst.
  inversion Hst as [? ? ? i b k Hi _ Hs|? ? ? i b tx o Hi Hc]; subst.
  - apply start_insert_rows in Hs as (Hr' & Hu' & Hk & Hn).
    pose proof (sum_insert task_conns _ _ _ (after_start b k) Hi) as Hsum. simpl in Hsum.
    split; [done|]. split; [|split; [|split]].
    + erewrite task_blocks_insert; [done|done|by destruct k].
    + by apply Forall_insert.
    + lia.
    + exists done, new. rewrite (inserted_insert _ _ _ _ Hi eq_refl), Hn, Hr'. done.
  - pose proof (Forall_lookup_1 _ _ _ _ Hok Hi) as (raw & Hm & Hcr).
    pose proof (Commit_no_panic tx d) as Hp. pose proof (in_use_Commit tx d) as Hu'.
    rewrite Hc in Hp, Hu'. cbn [fst snd] in Hp, Hu'.
    pose proof (sum_insert task_conns _ _ _ (Finished b o) Hi) as Hsum. simpl in Hsum.
    split; [done|]. split; [|split; [|split]].
    + by erewrite task_blocks_insert.
    + by apply Forall_insert.
    + lia.
    + destruct o as [[]|e|p]; [|exists done, new|done].
      * apply Commit_Ok in Hc as (nw & Hnw & Hf). rewrite Hcr in Hf.
        inversion Hf as [|? r ? rs [j Hj] Hn]; subst. inversion Hn; subst.
        exists (done ++ [b]), (new ++ [stored (new_row b raw) j]).
        rewrite (inserted_insert _ _ _ _ Hi eq_refl). cbn [inserted option_list]. split; [|split].
        -- rewrite Permutation_app_comm. simpl. by constructor.
        -- by rewrite Hnw, Hr, app_assoc.
        -- apply Forall2_app; [done|]. constructor; [|constructor]. by exists raw, j.
      * rewrite (inserted_insert _ _ _ _ Hi eq_refl). cbn [inserted option_list].
        apply Commit_Err in Hc. rewrite Hc. done.
Qed.

Lemma insert_steps_inv c0 d0 c n d ts d' ts' :
  arch_inv c0 d0 (c, d, ts) -> nsteps insert_step n (d, ts) (d', ts') -> arch_inv c0 d0 (c, d', ts').
Proof.
  revert d ts. induction n as [|n IH]; intros d ts Hinv Hr;
    inversion Hr as [|? ? [d1 ts1] ? Hst Hr']; subst; [done|].
  by apply (IH d1 ts1); [eapply insert_step_inv|].
Qed.

Lemma arch_step_inv c0 d0 k k' :
  u64 (EpochLength (c_genesis c0)) <> 0 -> arch_inv c0 d0 k -> arch_step k k' -> arch_inv c0 d0 k'.
Proof.
  intros Hep Hinv Hst. destruct Hst as [c c' d ts blk o Hlen Hwf Ha|c d d' ts ts' Hst];
    [|by eapply insert_step_inv].
  destruct Hinv as (Hg & Har & Hok & Hu & done & new & Hd & Hr & Hrow).
  rewrite <- Hg in Hep. destruct (Accepted_archive _ _ _ _ Hlen Hwf Hep Ha) as (_ & Hg' & Har').
  split; [congruence|]. split; [|split; [|split]].
  - by rewrite Har', Har, fmap_app, <- app_assoc.
  - apply Forall_app. split; [done|]. by apply Forall_singleton.
  - rewrite sum_list_with_app. simpl. lia.
  - exists done, new. rewrite omap_app. cbn. by rewrite app_nil_r.
Qed.

Lemma arch_run_inv c0 d0 k :
  u64 (EpochLength (c_genesis c0)) <> 0 -> rtc arch_step (c0, d0, []) k -> arch_inv c0 d0 k.
Proof.
  intros Hep Hrun. apply (rtc_ind_r (R := arch_step) (arch_inv c0 d0) (c0, d0, [])); [| |exact Hrun].
  - cbn. rewrite app_nil_r, Nat.add_0_r. split; [done|]. split; [done|]. split; [done|]. split; [done|].
    exists [], []. by rewrite app_nil_r.
  - intros y z _ Hst Hy. by eapply arch_step_inv.
Qed.

(** *** Every goroutine ends *)

Definition remaining_steps (t : task) : nat :=
  match t with Spawned _ => 2 | Creating _ _ => 1 | Finished _ _ => 0 end.

Lemma insert_step_decreases d ts d' ts' :
  insert_step (d, ts) (d', ts') ->
  (sum_list_with remaining_steps ts' < sum_list_with remaining_steps ts)%nat /\
  task_block <$> ts' = task_block <$> ts.
Proof.
  intros Hst. inversion Hst as [? ? ? i b k Hi _ Hs|? ? ? i b tx o Hi Hc]; subst.
  - pose proof (sum_insert remaining_steps _ _ _ (after_start b k) Hi) as Hsum. split.
    + destruct k; simpl in *; lia.
    + eapply task_blocks_insert; [exact Hi|by destruct k].
  - pose proof (sum_insert remaining_steps _ _ _ (Finished b o) Hi) as Hsum. simpl in Hsum.
    split; [lia|]. by eapply task_blocks_insert.
Qed.

Lemma insert_steps_bounded n d ts d' ts' :
  nsteps insert_step n (d, ts) (d', ts') ->
  (n + sum_list_with remaining_steps ts' <= sum_list_with remaining_steps ts)%nat /\
  task_block <$> ts' = task_block <$> ts.
Proof.
  revert d ts. induction n as [|n IH]; intros d ts Hr; inversion Hr as [|? ? [d1 ts1] ? Hst Hr']; subst.
  - by split.
  - apply insert_step_decreases in Hst as [Hlt Hb]. apply IH in Hr' as [Hle Hb']. split; [lia|congruence].
Qed.

Lemma remaining_steps_le ts : (sum_list_with remaining_steps ts <= 2 * length ts)%nat.
Proof. induction ts as [|t ts IH]; [done|]. simpl. destruct t; simpl; lia. Qed.

(** The connections free at the start are free when no transaction is open. *)
Lemma can_Begin_again d0 d :
  in_use d = in_use d0 -> can_Begin d0 = true -> can_Begin d = true.
Proof. rewrite !can_Begin_spec. by intros ->. Qed.

(** Some goroutine can go on, or all have ended and hold nothing: one that is
    still to commit can commit, and when there is none, every connection that
    was taken has been given back, so that another one can begin. *)
Lemma insert_progress c0 d0 c d ts :
  can_Begin d0 = true -> arch_inv c0 d0 (c, d, ts) ->
  (exists k, insert_step (d, ts) k) \/
  (Forall (fun t => finished t = true) ts /\ can_Begin d = true).
Proof.
  intros Hfree (_ & _ & _ & Hu & _).
  destruct (decide (Exists (fun t => remaining_steps t = 1%nat) ts)) as [He|Hn].
  - left. apply Exists_exists in He as (t & (i & Hi)%list_elem_of_lookup_1 & Ht).
    destruct t as [b|b tx|]; [done| |done]. destruct (tx_Commit tx d) as [d' o] eqn:Ec.
    eexists. by eapply insert_commit.
  - assert (Forall (fun t => remaining_steps t <> 1%nat) ts) as Hall by (by apply not_Exists_Forall in Hn; [|apply _]).
    assert (sum_list_with task_conns ts = 0%nat) as Hz.
    { clear -Hall. induction Hall as [|t ts Ht _ IH]; [done|]. simpl. rewrite IH. by destruct t. }
    assert (can_Begin d = true) as Hd by (apply (can_Begin_again d0); [lia|done]).
    destruct (decide (Exists (fun t => finished t = false) ts)) as [He|Hf].
    + left. apply Exists_exists in He as (t & (i & Hi)%list_elem_of_lookup_1 & Ht).
      pose proof (Forall_lookup_1 _ _ _ _ Hall Hi) as Hr. destruct t as [b|b tx|]; [|done..].
      destruct (start_insert b d) as [d' k] eqn:Es. eexists. eapply insert_create; [done| |done].
      unfold can_start. by destruct (StatelessBlock_Marshal b).
    + right. split; [|done]. apply not_Exists_Forall in Hf; [|apply _].
      eapply Forall_impl; [exact Hf|]. intros t. by apply not_false_is_true.
Qed.
End run.

(** ** Properties *)

(** C20: The archive is the accepted blocks, in whatever order their insertions
    run. After any interleaving of accepting blocks, creating rows and
    committing, nothing has panicked, the goroutines are those of the accepted
    blocks in order, and the rows are those there were and one for each block
    whose insertion succeeded; such a block is returned, as it was marshalled,
    by its identifier and by its height, unless the database fails the query. *)
Theorem archive_run_spec
    `{HC : HyperConsts} {HCS : HyperConstsSpec} {CO : Codec} {HA : HActions} {DE : DatabaseErrors}
    {FE : Fees} {FES : FeesSpec} {D B : Type} {DR : KeyValueReader D} {BW : KeyValueWriter B}
    {BD : Batching D B} {BDS : BatchingSpec D B} {BK : Blocks} {BKS : BlocksSpec}
    {GO : Gorm} {GS : GormSpec}
    (c0 c : Controller (D := D)) (d0 d : DB) (ts : list task) (p : chain_Parser) :
  u64 (EpochLength (c_genesis c0)) <> 0 ->
  rtc (arch_step (B := B)) (c0, d0, []) (c, d, ts) ->
  c_archive c = c_archive c0 ++ (task_block <$> ts) /\
  (forall b o, Finished b o ∈ ts -> is_panic o = false) /\
  (exists done new, done ≡ₚ omap inserted ts /\ rows d = rows d0 ++ new /\
     Forall2 (fun b r => db_BlockID r = ID_String (blk_ID b) /\ db_Height r = blk_Hght b /\
                         db_Timestamp r = blk_Tmstmp b /\ db_Parent r = ID_String (blk_Prnt b)) done new) /\
  (forall b, b ∈ omap inserted ts ->
     (GetBlockByID d (ID_String (blk_ID b)) p = Ok (blk_Stateful b) \/
      exists e, Find_one d (block_id_eq (ID_String (blk_ID b))) = Err e) /\
     (GetBlockByHeight d (blk_Hght b) p = Ok (blk_Stateful b) \/
      exists e, Find_one d (col_eq height (blk_Hght b)) = Err e)).
Proof.
  intros Hep Hrun. destruct (arch_run_inv c0 d0 _ Hep Hrun) as (_ & Ha & Hok & _ & done & new & Hd & Hr & Hrow).
  split; [done|]. split; [|split].
  - intros b o Hin. rewrite Forall_forall in Hok. apply (Hok _ Hin).
  - exists done, new. split; [done|]. split; [done|]. eapply Forall2_impl; [exact Hrow|].
    by intros b r (raw & j & _ & ->).
  - intros b Hb. rewrite <- Hd in Hb. apply list_elem_of_lookup in Hb as [i Hi].
    destruct (Forall2_lookup_l _ _ _ _ _ Hrow Hi) as (r & Hj & raw & j & Hm & ->).
    apply (row_served b raw j); [done|]. rewrite Hr. apply elem_of_app. right. by eapply list_elem_of_lookup_2.
Qed.

(** C21: Every insertion ends, whatever the scheduler does, and gives back its
    connection. Suppose the database had a free connection before the first
    block, of however many its pool has (one is enough). From any point of any
    run, let the insertions that are under way go on in any order, each waiting
    for a connection when it begins: together they take at most two steps each,
    and as long as one of them can go on or has not ended, one can go on. Once
    none can, every one has ended, a connection is free again, and the archive
    misses only blocks whose insertion returned an error. *)
Theorem archive_run_completes
    `{HC : HyperConsts} {HCS : HyperConstsSpec} {CO : Codec} {HA : HActions} {DE : DatabaseErrors}
    {FE : Fees} {FES : FeesSpec} {D B : Type} {DR : KeyValueReader D} {BW : KeyValueWriter B}
    {BD : Batching D B} {BDS : BatchingSpec D B} {BK : Blocks} {BKS : BlocksSpec}
    {GO : Gorm} {GS : GormSpec}
    (c0 c : Controller (D := D)) (d0 d : DB) (ts : list task) n d' ts' :
  u64 (EpochLength (c_genesis c0)) <> 0 -> can_Begin d0 = true ->
  rtc (arch_step (B := B)) (c0, d0, []) (c, d, ts) ->
  nsteps insert_step n (d, ts) (d', ts') ->
  (n <= 2 * length ts)%nat /\ task_block <$> ts' = task_block <$> ts /\
  ((exists k, insert_step (d', ts') k) \/
   can_Begin d' = true /\
   forall t, t ∈ ts' ->
     (exists r, r ∈ rows d' /\ db_BlockID r = ID_String (blk_ID (task_block t)) /\
        db_Height r = blk_Hght (task_block t)) \/
     (exists e, t = Finished (task_block t) (Err e))).
Proof.
  intros Hep Hfree Hrun Hsteps. destruct (insert_steps_bounded _ _ _ _ _ Hsteps) as [Hle Hb].
  pose proof (remaining_steps_le ts) as Hts. split; [lia|]. split; [done|].
  pose proof (insert_steps_inv _ _ _ _ _ _ _ _ (arch_run_inv c0 d0 _ Hep Hrun) Hsteps) as Hinv.
  destruct (insert_progress c0 d0 c d' ts' Hfree Hinv) as [|[Hf Hd']]; [by left|right]. split; [done|].
  intros t Ht. destruct Hinv as (_ & _ & Hok & _ & done & new & Hd & Hr & Hrow).
  rewrite Forall_forall in Hf, Hok. specialize (Hf t Ht). specialize (Hok t Ht).
  destruct t as [b|b tx|b [[]|e|q]]; [done|done| |by right; exists e|done].
  left. assert (b ∈ done) as (i & Hi)%list_elem_of_lookup.
  { rewrite Hd. apply list_elem_of_omap. by eexists. }
  destruct (Forall2_lookup_l _ _ _ _ _ Hrow Hi) as (r & Hj & raw & j & Hm & ->).
  exists (stored (new_row b raw) j). split; [|done]. rewrite Hr. apply elem_of_app. right.
  by eapply list_elem_of_lookup_2.
Qed.
