(* ===== verification/TxFee.v ===== *)
(** * TxFee: the transactions the repository builds itself

    [SubmitMsgTx] of [src/rpc/jsonrpc_server.go] and [GenerateAndSubmitTx] of
    [src/rpc/multi_jsonrpc_client.go] estimate the fee of a transaction, sign
    it and submit it. Here are what both share, the handler of the server, and
    the fee it is willing to pay. *)

From stdpp Require Import base numbers countable gmap list strings.
From Stdlib Require Import ZArith Lia Strings.Byte Strings.Ascii.
From S2P Require Import Prelude HyperSDK State Wire Sample Storage Ledger Genesis Auth Actions.
From S2P Require Import ChainInv Transfer SequencerMsg Auction EpochExit RollupRegister Registry.
From S2P Require Import RollupRegistry Block Commit Archiver Controller Server.

Local Open Scope Z_scope.

(** ** Transactions of the host *)

(** [chain.Base] *)
Record Base `{HyperConsts} := {
  b_Timestamp : Z;
  b_ChainID : ID;
  b_PriorityFee : Z;
  b_MaxFee : Z
}.

(** The interface value [chain.AuthFactory]. *)
Inductive AuthFactory `{BLSCrypto, ED25519Crypto} :=
  | Factory_BLS (priv : bls_PrivateKey)
  | Factory_ED25519 (priv : ed25519_PrivateKey).

Class Transactions `{HC : HyperConsts, CO : Codec, BC : BLSCrypto, EC : ED25519Crypto, TP : TypeParsers} := {
  EstimateUnits : Rules -> list Action -> AuthFactory -> res (Dimensions * gmap string Z);
  MulSum : Dimensions -> Dimensions -> res Z;
  UnixRMilli : Z -> Z -> Z;
  Tx : Type;
  NewTx : Base -> list Action -> Tx;
  Tx_Sign : Tx -> AuthFactory -> TypeParser (M Packer Action) -> TypeParser (M Packer Auth) -> res Tx;
  Tx_Digest : Tx -> res bytes;
  Tx_Auth : Tx -> Auth;
  Tx_TxID : Tx -> ID;
  Tx_Bytes : Tx -> bytes;
  ed25519_PrivateKeyLen : Z;
  LoadHex : string -> Z -> res bytes;
  ed25519_PrivateKeyOf : bytes -> ed25519_PrivateKey;
  bls_PrivateKeyFromBytes : bytes -> bls_PrivateKey * option error
}.

(** Signing keeps what is signed; [MulSum] is the checked sum of products. *)
Class TransactionsSpec `{Transactions} := {
  Tx_Base : Tx -> Base;
  Tx_acts : Tx -> list Action;
  Sign_keeps b acts f ar au tx :
    Tx_Sign (NewTx b acts) f ar au = Ok tx -> Tx_Base tx = b /\ Tx_acts tx = acts;
  MulSum_u64 p u f : MulSum p u = Ok f -> is_u64 f
}.

Definition Auth_Verify `{HC : HyperConsts, CO : Codec, BC : BLSCrypto, EC : ED25519Crypto, CE : CryptoErrors}
    (a : Auth) (msg : bytes) : res unit :=
  match a with
  | Auth_BLS b => BLS_Verify b msg
  | Auth_ED25519 d => ED25519_Verify d msg
  end.

(** [Submit] returns an error, or nil, for each transaction. *)
Class Submitter `{Transactions} (C : Type) := ctl_Submit : C -> bool -> list Tx -> list (option error).

(** What a run finds outside the program: the order in which [range] visits a
    map, the clock at its two readings, and the generated key. *)
Record Outside `{ED25519Crypto} := {
  o_range : gmap string Z -> list string;
  o_now1 : Z;
  o_now2 : Z;
  o_key : res ed25519_PrivateKey
}.

(** ** The fee *)

(** [for i, ns := range nss { fee += nsPrices[i] * feeMarketUnits[ns] }], from
    index [i]. *)
Fixpoint add_ns_fees (nsPrices : list Z) (feeMarketUnits : gmap string Z) (i : nat)
    (nss : list string) (fee : Z) : res Z :=
  match nss with
  | [] => Ok fee
  | ns :: nss =>
      p ← match nsPrices !! i with Some p => Ok p | None => Panic PIndex end;
      add_ns_fees nsPrices feeMarketUnits (S i) nss
        (u64 (fee + u64 (p * default 0 (feeMarketUnits !! ns))))
  end.

(** [fee += (fee / 5)] *)
Definition add_margin (fee : Z) : Z := u64 (fee + fee / 5).

(** *** What it amounts to *)

Definition market_fees (price : string -> Z) (l : list (string * Z)) : Z :=
  foldr (fun nu acc => price nu.1 * nu.2 + acc) 0 l.

Lemma market_fees_perm price l1 l2 : l1 ≡ₚ l2 -> market_fees price l1 = market_fees price l2.
Proof.
  induction 1 as [|x l1 l2 _ IH|x y l|l1 l2 l3 _ IH1 _ IH2]; unfold market_fees in *; cbn; lia.
Qed.

Lemma u64_add_l a b : u64 (u64 a + b) = u64 (a + b).
Proof. apply Zplus_mod_idemp_l. Qed.
Lemma u64_add_r a b : u64 (a + u64 b) = u64 (a + b).
Proof. apply Zplus_mod_idemp_r. Qed.

Lemma add_ns_fees_from price m nss pre fee :
  add_ns_fees (pre ++ (price <$> nss)) m (length pre) nss (u64 fee) =
  Ok (u64 (fee + market_fees price ((fun ns => (ns, default 0 (m !! ns))) <$> nss))).
Proof.
  revert pre fee. induction nss as [|ns nss IH]; intros pre fee; cbn [add_ns_fees fmap list_fmap market_fees foldr].
  - by rewrite Z.add_0_r.
  - rewrite lookup_app_r, Nat.sub_diag by done. cbn [lookup list_lookup]. rewrite bind_Ok.
    rewrite u64_add_r, u64_add_l.
    replace (S (length pre)) with (length (pre ++ [price ns])) by (rewrite length_app; cbn; lia).
    replace (pre ++ price ns :: (price <$> nss)) with ((pre ++ [price ns]) ++ (price <$> nss))
      by (by rewrite <- app_assoc).
    rewrite IH. do 2 f_equal. cbn. unfold market_fees. lia.
Qed.

(** The keys of a map, in any order, give its entries. *)
Lemma range_entries (m : gmap string Z) nss :
  nss ≡ₚ (map_to_list m).*1 -> (fun ns => (ns, default 0 (m !! ns))) <$> nss ≡ₚ map_to_list m.
Proof.
  intros ->. rewrite <- list_fmap_compose. apply reflexive_eq. rewrite <- (list_fmap_id (map_to_list m)) at 2.
  apply list_fmap_ext. intros i [ns u] Hi. cbn. apply list_elem_of_lookup_2, elem_of_map_to_list in Hi.
  by rewrite Hi.
Qed.

(** The sum does not depend on the order of the namespaces. *)
Lemma add_ns_fees_spec price (m : gmap string Z) nss fee :
  nss ≡ₚ (map_to_list m).*1 ->
  add_ns_fees (price <$> nss) m 0 nss (u64 fee) = Ok (u64 (fee + market_fees price (map_to_list m))).
Proof.
  intros Hp. etransitivity; [exact (add_ns_fees_from price m nss [] fee)|]. do 3 f_equal.
  by apply market_fees_perm, range_entries.
Qed.

Lemma add_margin_exact total :
  0 <= total -> total + total / 5 < u64_mod -> add_margin (u64 total) = total + total / 5.
Proof.
  intros H0 Hb. pose proof (Z.div_pos total 5 H0 ltac:(lia)).
  unfold add_margin. rewrite (u64_small total) by (unfold is_u64; lia).
  apply u64_small. unfold is_u64. lia.
Qed.

(** ** The handler *)

Record SubmitMsgTxArgs := {
  sm_ChainID : string;
  sm_NetworkID : Z;
  sm_SecondaryChainID : bytes;
  sm_Data : list bytes
}.

Record SubmitMsgTxReply := { sm_TxID : string }.

(** The key of the test account, in hexadecimal. *)
Definition test_key : string :=
  "323b1d8f4eed5f0da9da93071b034f2dce9d2d22692c172f3cb252a64ddfafd01b057de320297c29ad0c1f589ea216869cf1938d88c9fbd70d6748323dbf2fa7".

Section submit.
Context `{HC : HyperConsts} {CO : Codec} {HA : HActions} {BC : BLSCrypto} {EC : ED25519Crypto}.
Context {CE : CryptoErrors} {TP : TypeParsers} {BK : Blocks} {GO : Gorm} {TX : Transactions}.
Context {C : Type} {RC : RpcController C} {SB : Submitter C}.
Variables (ar : TypeParser (M Packer Action)) (au : TypeParser (M Packer Auth)).

(** One message to the rollup for each piece of data. *)
Definition msg_actions (rsender : Address) (args : SubmitMsgTxArgs) : list Action :=
  map (fun data => Act_SequencerMsg {| FromAddress := rsender; Data := data;
                                       ChainID := sm_SecondaryChainID args; RelayerID := 0 |})
    (sm_Data args).

(** [return j.c.Submit(ctx, false, []*chain.Transaction{tx})[0]] *)
Definition submit_one (c : C) (tx : Tx) : M (SubmitMsgTxReply * list (bool * list Tx)) unit :=
  modify (fun '(reply, sent) => (reply, sent ++ [(false, [tx])]));;
  match ctl_Submit c false [tx] with
  | [] => gopanic PIndex
  | None :: _ => mret tt
  | Some err :: _ => throw err
  end.

(** This method submits SequencerMsg actions to the chain, without any priority
    fee. The state is the reply next to the calls of [Submit]. *)
Definition Server_SubmitMsgTx (o : Outside) (c : C) (args : SubmitMsgTxArgs)
    : M (SubmitMsgTxReply * list (bool * list Tx)) unit :=
  chainID ← lift (ids_FromString (sm_ChainID args));
  unitPrices ← lift (ctl_UnitPrices c);
  let parser := ServerParser (sm_NetworkID args) chainID (ctl_Genesis c) in
  privBytes ← lift (LoadHex test_key ed25519_PrivateKeyLen);
  let factory := Factory_ED25519 (ed25519_PrivateKeyOf privBytes) in
  tpriv ← lift (o_key o);
  let acts := msg_actions (NewED25519Address (ed25519_PublicKeyOf tpriv)) args in
  '(maxUnits, feeMarketUnits) ← lift (EstimateUnits (Parser_Rules parser (o_now1 o)) acts factory);
  maxFee ← lift (MulSum unitPrices maxUnits);
  let nss := o_range o feeMarketUnits in
  nsPrices ← lift (ctl_NameSpacesPrice c nss);
  maxFee ← lift (add_ns_fees nsPrices feeMarketUnits 0 nss maxFee);
  (* Add 20% to the max fee *)
  let maxFee := add_margin maxFee in
  let rules := Parser_Rules parser (o_now2 o) in
  let base := {| b_Timestamp := UnixRMilli (o_now2 o) (GetValidityWindow rules); b_ChainID := chainID;
                 b_PriorityFee := 0; b_MaxFee := maxFee |} in
  (* Build transaction *)
  tx ← lift (map_err (ErrWrap "%w: failed to sign transaction" []) (Tx_Sign (NewTx base acts) factory ar au));
  msg ← lift (Tx_Digest tx);
  lift (Auth_Verify (Tx_Auth tx) msg);;
  modify (fun '(_, sent) => ({| sm_TxID := ID_String (Tx_TxID tx) |}, sent));;
  submit_one c tx.
End submit.

(** ** What the handler submits *)

Section submit_facts.
Context `{HC : HyperConsts} {CO : Codec} {HA : HActions} {BC : BLSCrypto} {EC : ED25519Crypto}.
Context {CE : CryptoErrors} {TP : TypeParsers} {BK : Blocks} {GO : Gorm} {TX : Transactions}.
Context {TXS : TransactionsSpec} {C : Type} {RC : RpcController C} {SB : Submitter C}.
Implicit Types (c : C).

(** The node prices every namespace it is asked for, in the order asked. *)
Definition priced c (price : string -> Z) : Prop := forall nss, ctl_NameSpacesPrice c nss = Ok (price <$> nss).
(** [range] visits every key of a map once. *)
Definition ranges (o : Outside) : Prop := forall m, o_range o m ≡ₚ (map_to_list m).*1.

Lemma submit_one_run c tx reply sent :
  submit_one c tx (reply, sent) =
  ((reply, sent ++ [(false, [tx])]),
   match ctl_Submit c false [tx] with
   | [] => Panic PIndex
   | None :: _ => Ok tt
   | Some err :: _ => Err err
   end).
Proof. unfold submit_one. rewrite bind_modify. by destruct (ctl_Submit c false [tx]) as [|[]]. Qed.

(** A computation that stops at a failed [lift] has done nothing. *)
Lemma wp_lift_bind {S A B} (r : res A) (k : A -> M S B) s (Q : S -> res B -> Prop) :
  (forall a, r = Ok a -> wp (k a) s Q) -> (forall b, is_ok b = false -> Q s b) -> wp (lift r ≫= k) s Q.
Proof.
  intros Hk Hn. destruct r as [a|e|p].
  - eapply wp_eq; [apply bind_lift_Ok|]. by apply Hk.
  - by apply (Hn (Err e)).
  - by apply (Hn (Panic p)).
Qed.
End submit_facts.

(** C26: the handler submits at most one transaction, built from the request, and
    the fee it accepts is the estimate with a fifth added, whatever the order
    in which the namespaces are visited. Either nothing is submitted, the reply
    is untouched and the call fails; or exactly one transaction is submitted,
    unverified by the pool because its signature was verified here: it carries
    one message per piece of data for the requested chain, the reply names it,
    and the call's outcome is the pool's. With [total] the price of the
    estimated units and of every namespace's units, its maximal fee is [total +
    total / 5] when that fits 64 bits; in general it is computed modulo 2^64,
    so a larger estimate wraps to a smaller fee. *)
Theorem SubmitMsgTx_spec
    `{HC : HyperConsts} {CO : Codec} {HA : HActions} {BC : BLSCrypto} {EC : ED25519Crypto}
    {CE : CryptoErrors} {TP : TypeParsers} {BK : Blocks} {GO : Gorm} {TX : Transactions}
    {TXS : TransactionsSpec} {C : Type} {RC : RpcController C} {SB : Submitter C}
    ar au (o : Outside) (c : C) (price : string -> Z) (args : SubmitMsgTxArgs) (reply : SubmitMsgTxReply) :
  priced c price -> ranges o -> (forall tx, length (ctl_Submit c false [tx]) = 1%nat) ->
  wp (Server_SubmitMsgTx ar au o c args) (reply, []) (fun '(reply', sent) out =>
    (sent = [] /\ reply' = reply /\ is_ok out = false) \/
    exists tx chainID prices units market fee sender factory msg,
      sent = [(false, [tx])] /\ sm_TxID reply' = ID_String (Tx_TxID tx) /\
      out = match ctl_Submit c false [tx] with Some e :: _ => Err e | _ => Ok tt end /\
      Tx_Digest tx = Ok msg /\ Auth_Verify (Tx_Auth tx) msg = Ok tt /\
      ids_FromString (sm_ChainID args) = Ok chainID /\ b_ChainID (Tx_Base tx) = chainID /\
      Tx_acts tx = msg_actions sender args /\
      ctl_UnitPrices c = Ok prices /\
      EstimateUnits (Genesis_Rules (ctl_Genesis c) (o_now1 o) (sm_NetworkID args) chainID [])
        (Tx_acts tx) factory = Ok (units, market) /\
      MulSum prices units = Ok fee /\
      let total := fee + market_fees price (map_to_list market) in
      b_MaxFee (Tx_Base tx) = add_margin (u64 total) /\
      (0 <= total -> total + total / 5 < u64_mod -> b_MaxFee (Tx_Base tx) = total + total / 5)).
Proof.
  intros Hp Hr Hs. unfold Server_SubmitMsgTx.
  apply wp_lift_bind; [intros chainID Hid|by intros b Hb; left].
  apply wp_lift_bind; [intros prices Hpr|by intros b Hb; left]. cbv zeta.
  apply wp_lift_bind; [intros pk Hk|by intros b Hb; left].
  apply wp_lift_bind; [intros tpriv Ht|by intros b Hb; left].
  apply wp_lift_bind; [intros [units market] He|by intros b Hb; left].
  apply wp_lift_bind; [intros fee Hf|by intros b Hb; left].
  apply wp_lift_bind; [intros nsp Hnp|by intros b Hb; left]. rewrite Hp in Hnp. injection Hnp as <-.
  apply wp_lift_bind; [intros maxFee Hm|by intros b Hb; left].
  apply wp_lift_bind; [intros tx Htx|by intros b Hb; left].
  apply wp_lift_bind; [intros msg Hmsg|by intros b Hb; left].
  apply wp_lift_bind; [intros [] Hver|by intros b Hb; left].
  destruct (Tx_Sign _ _ _ _) as [tx'|e|p] eqn:Hsign; cbn in Htx; [|done..]. injection Htx as ->.
  apply Sign_keeps in Hsign as [Hb Ha].
  rewrite <- (u64_small fee (MulSum_u64 _ _ _ Hf)), (add_ns_fees_spec price) in Hm by apply Hr.
  injection Hm as <-. unfold wp. rewrite bind_modify, submit_one_run. specialize (Hs tx).
  right. exists tx, chainID, prices, units, market, fee. do 2 eexists. exists msg.
  rewrite Hb, Ha. split_and!; try done; [by destruct (ctl_Submit c false [tx]) as [|[]]|].
  cbn. intros. by apply add_margin_exact.
Qed.
