(* ===== verification/Client.v ===== *)
(** * Client: the JSON-RPC clients

    [src/rpc/jsonrpc_client.go] and [src/rpc/multi_jsonrpc_client.go]. A client
    method sends a request over a transport of hypersdk and returns fields of
    the reply. The world the transport acts on is a parameter; connected to a
    node, it is the handlers of [Server] that answer. *)

From stdpp Require Import base numbers countable gmap list strings.
From Stdlib Require Import ZArith Lia Strings.Byte Strings.Ascii.
From S2P Require Import Prelude HyperSDK State Wire Sample Storage Ledger Genesis Auth Actions.
From S2P Require Import ChainInv Transfer SequencerMsg Auction EpochExit RollupRegister Registry.
From S2P Require Import RollupRegistry Block Commit Archiver Controller Server TxFee.

Local Open Scope Z_scope.

(** ** Strings (package strings) *)

(** [strings.Contains] *)
Fixpoint Contains (s substr : string) : bool :=
  String.prefix substr s || match s with EmptyString => false | String _ s => Contains s substr end.

(** [strings.TrimSuffix], for a suffix of one character *)
Fixpoint TrimSuffix (s : string) (suffix : ascii) : string :=
  match s with
  | EmptyString => EmptyString
  | String c EmptyString => if bool_decide (c = suffix) then EmptyString else s
  | String c s => String c (TrimSuffix s suffix)
  end.

(** ** Requests *)

(** The arguments of each request, with the type of its reply. *)
Inductive Request `{HyperConsts} : Type -> Type :=
  | Q_SubmitMsgTx (a : SubmitMsgTxArgs) : Request SubmitMsgTxReply
  | Q_Genesis : Request GenesisReply
  | Q_Tx (a : TxArgs) : Request TxReply
  | Q_Balance (a : BalanceArgs) : Request BalanceReply
  | Q_HeadersByHeight (a : GetBlockHeadersByHeightArgs) : Request BlockHeadersResponse
  | Q_HeadersID (a : GetBlockHeadersIDArgs) : Request BlockHeadersResponse
  | Q_HeadersByStart (a : GetBlockHeadersByStartTimeStampArgs) : Request BlockHeadersResponse
  | Q_BlockTransactions (a : GetBlockTransactionsArgs) : Request SEQTransactionResponse
  | Q_ByNamespace (a : GetBlockTransactionsByNamespaceArgs) : Request SEQTransactionResponse
  | Q_CommitmentBlocks (a : GetBlockCommitmentArgs) : Request SequencerWarpBlockResponse
  | Q_AcceptedBlockWindow : Request Z
  | Q_RollupRegistry : Request RegistryReply
  | Q_RollupInfo (a : GetRollupInfoArgs) : Request GetRollupInfoReply
  | Q_AllRollupInfo : Request GetAllRollupInfoReply
  | Q_RollupsAtEpoch (a : GetRollupsInfoAtEpochArgs) : Request GetRollupsInfoAtEpochReply
  | Q_EpochExits (a : EpochExitsArgs) : Request EpochExitsReply
  | Q_Builder (a : GetBuilderArgs) : Request GetBuilderReply.

(** [new(T)] for the reply types *)
Definition new_info `{Codec} : RollupInfo :=
  {| FeeRecipient := EmptyAddress; RI_Namespace := []; AuthoritySEQAddress := EmptyAddress;
     SequencerPublicKey := []; StartEpoch := 0; ExitEpoch := 0 |}.

Definition new_reply `{HC : HyperConsts, CO : Codec, FE : Fees} {R} (q : Request R) : R :=
  match q in Request R return R with
  | Q_SubmitMsgTx _ => {| sm_TxID := "" |}
  | Q_Genesis => {| gr_Genesis := None |}
  | Q_Tx _ => {| tr_Timestamp := 0; tr_Success := false; tr_Units := replicate (DimensionsLen / 8) 0;
                 tr_Fee := 0 |}
  | Q_Balance _ => {| ba_Amount := 0 |}
  | Q_HeadersByHeight _ | Q_HeadersID _ | Q_HeadersByStart _ =>
      {| hr_From := 0; hr_Blocks := []; hr_Prev := BlockInfo_zero; hr_Next := BlockInfo_zero |}
  | Q_BlockTransactions _ | Q_ByNamespace _ => {| sr_Txs := []; sr_BlockID := "" |}
  | Q_CommitmentBlocks _ => []
  | Q_AcceptedBlockWindow => 0
  | Q_RollupRegistry => {| rr_Namespaces := [] |}
  | Q_RollupInfo _ => {| ir_Info := new_info |}
  | Q_AllRollupInfo => ∅
  | Q_RollupsAtEpoch _ => {| ra_Rollups := [] |}
  | Q_EpochExits _ => {| er_Info := None |}
  | Q_Builder _ => {| gb_BuilderPubKey := None |}
  end.

(** hypersdk's requester: it sends a named request and decodes the answer into
    the reply it is given. [error_Error] is the text of an error. *)
Class Requester `{HyperConsts} (W : Type) := {
  Endpoint : Type;
  NewRequester : string -> string -> Endpoint;
  SendRequest {R} : Endpoint -> string -> Request R -> M (W * R) unit;
  error_Error : error -> string
}.

(** [rpc.Wait] polls a check, sleeping in between, while the context lives. *)
Class Waiting (W : Type) := {
  ctx_Err : W -> option error;
  sleep : W -> W;
  Wait {L} : M (W * L) (bool * option error) -> M (W * L) (option error)
}.

Class WaitingSpec (W : Type) `{Waiting W} : Prop := {
  Wait_over {L} (check : M (W * L) (bool * option error)) w l e :
    ctx_Err w = Some e -> Wait check (w, l) = ((w, l), Ok (Some e));
  Wait_exit {L} (check : M (W * L) (bool * option error)) w l wl :
    ctx_Err w = None -> check (w, l) = (wl, Ok (true, None)) -> Wait check (w, l) = (wl, Ok None);
  Wait_failed {L} (check : M (W * L) (bool * option error)) w l wl b e :
    ctx_Err w = None -> check (w, l) = (wl, Ok (b, Some e)) -> Wait check (w, l) = (wl, Ok (Some e));
  Wait_again {L} (check : M (W * L) (bool * option error)) w l l' :
    ctx_Err w = None -> check (w, l) = ((w, l'), Ok (false, None)) ->
    Wait check (w, l) = Wait check (sleep w, l')
}.

(** ** JSONRPCClient *)

(** rpc/consts.go *)
Definition JSONRPCEndpoint : string := "/seqapi".

Section client.
Context `{HC : HyperConsts} {CO : Codec} {FE : Fees} {W : Type} {RQ : Requester W} {WT : Waiting W}.

Record JSONRPCClient := {
  cli_requester : Endpoint;
  cli_networkID : Z;
  cli_chainID : ID;
  cli_g : option Genesis
}.
Implicit Types (cli : JSONRPCClient).

Definition NewJSONRPCClient (uri : string) (networkID : Z) (chainID : ID) : JSONRPCClient :=
  let uri := TrimSuffix uri "/" in
  let uri := String.append uri JSONRPCEndpoint in
  {| cli_requester := NewRequester uri Name; cli_networkID := networkID; cli_chainID := chainID;
     cli_g := None |}.

(** [err := cli.requester.SendRequest(ctx, method, args, resp)] on a new
    [resp]: the reply and the error are both values. *)
Definition send {R} cli (method : string) (q : Request R) : M W (R * option error) := fun w =>
  match SendRequest (cli_requester cli) method q (w, new_reply q) with
  | ((w, resp), Ok _) => (w, Ok (resp, None))
  | ((w, resp), Err e) => (w, Ok (resp, Some e))
  | ((w, _), Panic p) => (w, Panic p)
  end.

Definition Client_SubmitMsgTx cli (chainID : string) (networkID : Z) (secondaryChainID : bytes)
    (data : list bytes) : M W (string * option error) :=
  '(resp, err) ← send cli "submitMsgTx" (Q_SubmitMsgTx
    {| sm_ChainID := chainID; sm_NetworkID := networkID; sm_SecondaryChainID := secondaryChainID;
       sm_Data := data |});
  mret (sm_TxID resp, err).

(** A method that changes the client. *)
Definition on_world {X A} (m : M W A) : M (X * W) A := fun '(x, w) =>
  let '(w, r) := m w in ((x, w), r).

Definition set_g (g : option Genesis) cli : JSONRPCClient :=
  {| cli_requester := cli_requester cli; cli_networkID := cli_networkID cli;
     cli_chainID := cli_chainID cli; cli_g := g |}.

Definition Client_Genesis : M (JSONRPCClient * W) (option Genesis * option error) :=
  '(cli, _) ← get;
  match cli_g cli with
  | Some g => mret (Some g, None)
  | None =>
      '(resp, err) ← on_world (send cli "genesis" Q_Genesis);
      match err with
      | Some err => mret (None, Some err)
      | None =>
          modify (fun '(cli, w) => (set_g (gr_Genesis resp) cli, w));;
          mret (gr_Genesis resp, None)
      end
  end.

(** found, success, timestamp, fee, error *)
Definition Client_Tx cli (id : ID) : M W (bool * bool * Z * Z * option error) :=
  '(resp, err) ← send cli "tx" (Q_Tx {| ta_TxID := id |});
  match err with
  | Some err =>
      (* We use string parsing here because the JSON-RPC library we use may not
         allows us to perform errors.Is. *)
      if Contains (error_Error err) (error_Error ErrTxNotFound)
      then mret (false, false, -1, 0, None)
      else mret (false, false, -1, 0, Some err)
  | None => mret (true, tr_Success resp, tr_Timestamp resp, tr_Fee resp, None)
  end.

Definition Client_Balance cli (addr : string) : M W (Z * option error) :=
  '(resp, err) ← send cli "balance" (Q_Balance {| ba_Address := addr |});
  mret (ba_Amount resp, err).

Definition Client_GetBlockHeadersByHeight cli (height endTimeStamp : Z)
    : M W (BlockHeadersResponse * option error) :=
  send cli "getBlockHeadersByHeight"
    (Q_HeadersByHeight {| hh_Height := height; hh_EndTimeStamp := endTimeStamp |}).

Definition Client_GetBlockHeadersID cli (id : string) (endTimeStamp : Z)
    : M W (BlockHeadersResponse * option error) :=
  send cli "getBlockHeadersID" (Q_HeadersID {| ha_ID := id; ha_EndTimeStamp := endTimeStamp |}).

Definition Client_GetBlockHeadersByStartTimeStamp cli (startTimeStamp endTimeStamp : Z)
    : M W (BlockHeadersResponse * option error) :=
  send cli "getBlockHeadersByStartTimeStamp"
    (Q_HeadersByStart {| hs_StartTimeStamp := startTimeStamp; hs_EndTimeStamp := endTimeStamp |}).

Definition Client_GetBlockTransactions cli (id : string) : M W (SEQTransactionResponse * option error) :=
  send cli "getBlockTransactions" (Q_BlockTransactions {| bt_ID := id |}).

Definition Client_GetBlockTransactionsByNamespace cli (height : Z) (namespace : string)
    : M W (SEQTransactionResponse * option error) :=
  send cli "getBlockTransactionsByNamespace" (Q_ByNamespace {| bn_Height := height; bn_Namespace := namespace |}).

Definition Client_GetCommitmentBlocks cli (first height maxBlocks : Z)
    : M W (SequencerWarpBlockResponse * option error) :=
  send cli "getCommitmentBlocks"
    (Q_CommitmentBlocks {| ca_First := first; ca_CurrentHeight := height; ca_MaxBlocks := maxBlocks |}).

Definition Client_GetAcceptedBlockWindow cli : M W (Z * option error) :=
  send cli "getAcceptedBlockWindow" Q_AcceptedBlockWindow.

Definition Client_RollupRegistry cli : M W (list bytes * option error) :=
  '(resp, err) ← send cli "getRollupRegistry" Q_RollupRegistry;
  mret (rr_Namespaces resp, err).

Definition Client_GetRollupInfo cli (namespace : bytes) : M W (RollupInfo * option error) :=
  '(resp, err) ← send cli "getRollupInfo" (Q_RollupInfo {| ri_args_Namespace := namespace |});
  mret (ir_Info resp, err).

Definition Client_GetAllRollupInfo cli : M W (GetAllRollupInfoReply * option error) :=
  send cli "getAllRollupInfo" Q_AllRollupInfo.

Definition Client_GetValidRollupsAtEpoch cli (epoch : Z) : M W (GetRollupsInfoAtEpochReply * option error) :=
  send cli "getValidRollupsAtEpoch" (Q_RollupsAtEpoch {| ra_Epoch := epoch |}).

Definition Client_GetEpochExits cli (epoch : Z) : M W (option EpochExitInfo * option error) :=
  '(resp, err) ← send cli "getEpochExits" (Q_EpochExits {| ee_args_Epoch := epoch |});
  mret (er_Info resp, err).

Definition Client_GetBuilder cli (epoch : Z) : M W (option bytes * option error) :=
  '(resp, err) ← send cli "getBuilder" (Q_Builder {| gb_Epoch := epoch |});
  mret (gb_BuilderPubKey resp, err).

(** *** Waiting *)

(** The check of [WaitForBalance], which captures nothing; its output is left
    out. *)
Definition check_balance cli (addr : string) (min : Z) : M (W * unit) (bool * option error) :=
  on_state (
    '(balance, err) ← Client_Balance cli addr;
    match err with
    | Some err => mret (false, Some err)
    | None => mret (min <=? balance, None)
    end).

Definition WaitForBalance cli (addr : string) (min : Z) : M W (option error) := fun w =>
  let '((w, _), r) := Wait (check_balance cli addr min) (w, tt) in (w, r).

(** The check of [WaitForTransaction] sets the captured [success] and [fee]. *)
Definition check_tx cli (txID : ID) : M (W * (bool * Z)) (bool * option error) :=
  '(found, isuccess, _, ifee, err) ← on_state (Client_Tx cli txID);
  match err with
  | Some err => mret (false, Some err)
  | None =>
      modify (fun '(w, _) => (w, (isuccess, ifee)));;
      mret (found, None)
  end.

Definition WaitForTransaction cli (txID : ID) : M W (bool * Z * option error) := fun w =>
  let '((w, (success, fee)), r) := Wait (check_tx cli txID) (w, (false, 0)) in
  (w, err ← r; match err with
               | Some err => Ok (false, 0, Some err)
               | None => Ok (success, fee, None)
               end).

(** ** The parser of a client *)

(** [Parser]: [Rules] dereferences the genesis. *)
Record Client_Parser := {
  cp_networkID : Z;
  cp_chainID : ID;
  cp_genesis : option Genesis
}.

Definition Client_Parser_Rules (p : Client_Parser) (t : Z) : res Rules :=
  match cp_genesis p with
  | Some g => Ok (Genesis_Rules g t (cp_networkID p) (cp_chainID p) [])
  | None => Panic PNil
  end.

Definition Client_parser : M (JSONRPCClient * W) (option Client_Parser * option error) :=
  '(g, err) ← Client_Genesis;
  match err with
  | Some err => mret (None, Some err)
  | None =>
      '(cli, _) ← get;
      mret (Some {| cp_networkID := cli_networkID cli; cp_chainID := cli_chainID cli; cp_genesis := g |}, None)
  end.
End client.

(** ** A client of a node *)

Section served.
Context `{HC : HyperConsts} {CO : Codec} {FE : Fees} {HA : HActions} {SM : SafeMath} {BC : BLSCrypto}.
Context {EC : ED25519Crypto} {DE : DatabaseErrors} {SP : StatePermissions}.
Context {S : Type} {IM : Immutable S} {MU : Mutable S}.
Context {BK : Blocks} {GO : Gorm} {KK : Keccak} {C : Type} {RC : RpcController C}.

(** The method a request is served by, under the name it is registered with:
    its own, with a small initial. Submissions, which change the node, are left
    to the transport. *)
Definition served_by (c : C) {R} (q : Request R) : option (string * M R unit) :=
  match q in Request R return option (string * M R unit) with
  | Q_SubmitMsgTx _ => None
  | Q_Genesis => Some ("genesis"%string, Server_Genesis c)
  | Q_Tx a => Some ("tx"%string, Server_Tx c a)
  | Q_Balance a => Some ("balance"%string, Server_Balance c a)
  | Q_HeadersByHeight a => Some ("getBlockHeadersByHeight"%string, Server_GetBlockHeadersByHeight c a)
  | Q_HeadersID a => Some ("getBlockHeadersID"%string, Server_GetBlockHeadersID c a)
  | Q_HeadersByStart a =>
      Some ("getBlockHeadersByStartTimeStamp"%string, Server_GetBlockHeadersByStartTimeStamp c a)
  | Q_BlockTransactions a => Some ("getBlockTransactions"%string, Server_GetBlockTransactions (S := S) c a)
  | Q_ByNamespace a =>
      Some ("getBlockTransactionsByNamespace"%string, Server_GetBlockTransactionsByNamespace (S := S) c a)
  | Q_CommitmentBlocks a => Some ("getCommitmentBlocks"%string, Server_GetCommitmentBlocks c a)
  | Q_AcceptedBlockWindow => Some ("getAcceptedBlockWindow"%string, Server_GetAcceptedBlockWindow c)
  | Q_RollupRegistry => Some ("getRollupRegistry"%string, Server_GetRollupRegistry c)
  | Q_RollupInfo a => Some ("getRollupInfo"%string, Server_GetRollupInfo c a)
  | Q_AllRollupInfo => Some ("getAllRollupInfo"%string, Server_GetAllRollupInfo c)
  | Q_RollupsAtEpoch a => Some ("getValidRollupsAtEpoch"%string, Server_GetValidRollupsAtEpoch c a)
  | Q_EpochExits a => Some ("getEpochExits"%string, Server_GetEpochExits c a)
  | Q_Builder a => Some ("getBuilder"%string, Server_GetBuilder c a)
  end.

(** What the transport promises while it is connected to a node: a query under
    its name brings back what the handler leaves in a new reply, or its error,
    whose text contains the handler's. *)
Class RequesterSpec {W : Type} {RQ : Requester W} := {
  node : W -> C;
  connected : W -> Prop;
  remote : error -> error;
  remote_text e : Contains (error_Error (remote e)) (error_Error e) = true;
  SendRequest_served {R} (q : Request R) ep w (r : R) name h :
    connected w -> served_by (node w) q = Some (name, h) ->
    is_panic (snd (h (new_reply q))) = false ->
    SendRequest ep name q (w, r) =
      match h (new_reply q) with
      | (r', Ok _) => ((w, r'), Ok tt)
      | (_, Err e) => ((w, r), Err (remote e))
      | (_, Panic p) => ((w, r), Panic p)
      end
}.
End served.
#[global] Arguments RequesterSpec {_ _ _ _ _ _ _ _} S {_ _ _ _ _} C {_} W {_}.

Section client_facts.
Context `{HC : HyperConsts} {CO : Codec} {FE : Fees} {HA : HActions} {SM : SafeMath} {BC : BLSCrypto}.
Context {EC : ED25519Crypto} {DE : DatabaseErrors} {SP : StatePermissions}.
Context {S : Type} {IM : Immutable S} {MU : Mutable S}.
Context {BK : Blocks} {GO : Gorm} {KK : Keccak} {C : Type} {RC : RpcController C}.
Context {W : Type} {RQ : Requester W} {RQS : RequesterSpec S C W} {WT : Waiting W} {WTS : WaitingSpec W}.
Implicit Types (cli : JSONRPCClient) (w : W).

(** The answer of the node, as a client method gets it. *)
Definition answer {R} (q : Request R) (h : M R unit) : R * option error :=
  match h (new_reply q) with
  | (r, Ok _) => (r, None)
  | (_, Err e) => (new_reply q, Some (remote e))
  | (r, Panic _) => (r, None)
  end.

Lemma send_served {R} cli (q : Request R) w name h :
  connected w -> served_by (node w) q = Some (name, h) ->
  is_panic (snd (h (new_reply q))) = false ->
  send cli name q w = (w, Ok (answer q h)).
Proof.
  intros Hc Hs Hp. unfold send, answer. rewrite (SendRequest_served q _ w _ name h Hc Hs Hp).
  by destruct (h (new_reply q)) as [r [u|e|p]].
Qed.

(** The reply of a node that knows the transaction, does not know it, or fails
    to look it up with an error that reads otherwise. *)
Lemma Client_Tx_served cli w id :
  connected w ->
  match ctl_GetTransaction (node w) id with
  | Ok (Some tx) => Client_Tx cli id w =
      (w, Ok (true, tx_success tx, tx_timestamp tx, tx_fee tx, None))
  | Ok None => Client_Tx cli id w = (w, Ok (false, false, -1, 0, None))
  | Err e => Contains (error_Error (remote e)) (error_Error ErrTxNotFound) = false ->
      Client_Tx cli id w = (w, Ok (false, false, -1, 0, Some (remote e)))
  | Panic _ => True
  end.
Proof.
  intros Hc. unfold Client_Tx.
  pose proof (send_served cli (Q_Tx {| ta_TxID := id |}) w "tx" (Server_Tx (node w) {| ta_TxID := id |})
    Hc eq_refl) as Hs.
  unfold answer, Server_Tx in Hs. cbn [ta_TxID] in Hs.
  destruct (ctl_GetTransaction (node w) id) as [[tx|]|e|p]; [| | |done].
  - by rewrite (bind_run _ _ _ _ _ (Hs eq_refl)).
  - rewrite (bind_run _ _ _ _ _ (Hs eq_refl)). cbn. by rewrite remote_text.
  - intros Ht. rewrite (bind_run _ _ _ _ _ (Hs eq_refl)). cbn. by rewrite Ht.
Qed.

Lemma Client_Balance_served cli w addr a b :
  connected w -> ParseAddressBech32 HRP addr = Ok a -> ctl_GetBalanceFromState (node w) a = Ok b ->
  Client_Balance cli addr w = (w, Ok (b, None)).
Proof.
  intros Hc Ha Hb. unfold Client_Balance.
  pose proof (send_served cli (Q_Balance {| ba_Address := addr |}) w "balance"
    (Server_Balance (node w) {| ba_Address := addr |}) Hc eq_refl) as Hs.
  unfold answer, Server_Balance in Hs. cbn [ba_Address] in Hs. rewrite Ha in Hs.
  rewrite !bind_lift_Ok, Hb, !bind_lift_Ok in Hs. by rewrite (bind_run _ _ _ _ _ (Hs eq_refl)).
Qed.

(** *** Polling: the context lives through polls that find nothing, up to a
    poll that stops. *)
Inductive polled (pending stop : W -> Prop) : W -> W -> Prop :=
  | polled_now w : stop w -> polled pending stop w w
  | polled_later w w' :
      ctx_Err w = None -> connected w -> pending w -> polled pending stop (sleep w) w' ->
      polled pending stop w w'.

Definition found (P : W -> Prop) w : Prop := ctx_Err w = None /\ connected w /\ P w.
Definition over e w : Prop := ctx_Err w = Some e.

Section polling.
Context {L : Type} (check : M (W * L) (bool * option error)) (pending : W -> Prop).
Hypothesis check_pending :
  forall w l, connected w -> pending w -> exists l1, check (w, l) = ((w, l1), Ok (false, None)).

Lemma Wait_found P w w' l l' :
  (forall w l, connected w -> P w -> check (w, l) = ((w, l'), Ok (true, None))) ->
  polled pending (found P) w w' -> Wait check (w, l) = ((w', l'), Ok None).
Proof using All.
  intros Hf Hw. revert l. induction Hw as [w (Ha & Hc & H1)|w w' Ha Hc H1 Hw IH]; intros l.
  - apply Wait_exit; auto.
  - destruct (check_pending w l Hc H1) as [l1 Hl]. rewrite (Wait_again _ _ _ l1) by done. apply IH.
Qed.

Lemma Wait_expired e w w' l :
  polled pending (over e) w w' -> exists l', Wait check (w, l) = ((w', l'), Ok (Some e)).
Proof using All.
  intros Hw. revert l. induction Hw as [w Ho|w w' Ha Hc H1 Hw IH]; intros l.
  - exists l. by apply Wait_over.
  - destruct (check_pending w l Hc H1) as [l1 Hl]. rewrite (Wait_again _ _ _ l1) by done. apply IH.
Qed.
End polling.

Lemma check_tx_pending cli id w l :
  connected w -> ctl_GetTransaction (node w) id = Ok None ->
  exists l1, check_tx cli id (w, l) = ((w, l1), Ok (false, None)).
Proof.
  intros Hc Hn. pose proof (Client_Tx_served cli w id Hc) as Ht. rewrite Hn in Ht. exists (false, 0).
  unfold check_tx, mbind, M_bind. rewrite on_state_run, Ht. by destruct l.
Qed.

Lemma check_tx_found cli id tx w l :
  connected w -> ctl_GetTransaction (node w) id = Ok (Some tx) ->
  check_tx cli id (w, l) = ((w, (tx_success tx, tx_fee tx)), Ok (true, None)).
Proof.
  intros Hc Hn. pose proof (Client_Tx_served cli w id Hc) as Ht. rewrite Hn in Ht.
  unfold check_tx, mbind, M_bind. rewrite on_state_run, Ht. by destruct l.
Qed.

Lemma check_balance_served cli addr a min b w l :
  connected w -> ParseAddressBech32 HRP addr = Ok a -> ctl_GetBalanceFromState (node w) a = Ok b ->
  check_balance cli addr min (w, l) = ((w, l), Ok (min <=? b, None)).
Proof.
  intros Hc Ha Hb. unfold check_balance. rewrite on_state_run.
  by rewrite (bind_run _ _ _ _ _ (Client_Balance_served cli w addr a b Hc Ha Hb)).
Qed.

(** Waiting for a balance ends at the first poll that finds it large enough. *)
Theorem WaitForBalance_returns cli addr a min w w' :
  ParseAddressBech32 HRP addr = Ok a ->
  polled (fun w => exists b, ctl_GetBalanceFromState (node w) a = Ok b /\ b < min)
         (found (fun w => exists b, ctl_GetBalanceFromState (node w) a = Ok b /\ min <= b)) w w' ->
  WaitForBalance cli addr min w = (w', Ok None).
Proof.
  intros Ha Hw. unfold WaitForBalance. erewrite (Wait_found _ _ _ _ w w' tt tt); [done| |exact Hw].
  - intros u [] Hc (b & Hb & Hm). rewrite (check_balance_served cli addr a min b) by done.
    by rewrite (proj2 (Z.leb_le _ _) Hm).
  Unshelve.
  intros u l Hc (b & Hb & Hm). exists l. rewrite (check_balance_served cli addr a min b) by done.
  by rewrite (proj2 (Z.leb_gt _ _) Hm).
Qed.
End client_facts.

(** C27: waiting for a transaction ends, with what the node recorded. Polled
    while the context lives, a client of a node returns at the first poll at
    which the node knows the transaction, with its success and its fee and
    without an error, however often the node did not know it before (the
    client recognises that answer by the text of the error); and when the
    context ends first, it returns the context's error. *)
Theorem WaitForTransaction_returns
    `{HC : HyperConsts} {CO : Codec} {FE : Fees} {HA : HActions} {SM : SafeMath} {BC : BLSCrypto}
    {EC : ED25519Crypto} {DE : DatabaseErrors} {SP : StatePermissions}
    {S : Type} {IM : Immutable S} {MU : Mutable S} {BK : Blocks} {GO : Gorm} {KK : Keccak}
    {C : Type} {RC : RpcController C} {W : Type} {RQ : Requester W} {RQS : RequesterSpec S C W}
    {WT : Waiting W} {WTS : WaitingSpec W} (cli : JSONRPCClient) (id : ID) (w w' : W) :
  let unknown w := ctl_GetTransaction (node w) id = Ok None in
  (forall tx, polled unknown (found (fun w => ctl_GetTransaction (node w) id = Ok (Some tx))) w w' ->
     WaitForTransaction cli id w = (w', Ok (tx_success tx, tx_fee tx, None))) /\
  (forall e, polled unknown (over e) w w' ->
     WaitForTransaction cli id w = (w', Ok (false, 0, Some e))).
Proof.
  split.
  - intros tx Hw. unfold WaitForTransaction.
    by rewrite (Wait_found (check_tx cli id) _ (check_tx_pending cli id) _ w w' (false, 0) _
      (check_tx_found cli id tx) Hw).
  - intros e Hw. unfold WaitForTransaction.
    destruct (Wait_expired (check_tx cli id) _ (check_tx_pending cli id) e w w' (false, 0) Hw) as [[l1 l2] ->].
    done.
Qed.

Section reads.
Context `{HC : HyperConsts} {CO : Codec} {FE : Fees} {HA : HActions} {SM : SafeMath} {BC : BLSCrypto}.
Context {EC : ED25519Crypto} {DE : DatabaseErrors} {SP : StatePermissions}.
Context {DES : DatabaseErrorsSpec} {CS : CodecSpec} {HS : HActionsSpec}.
Context {S : Type} {IM : Immutable S} {MU : Mutable S}.
Context {BK : Blocks} {GO : Gorm} {KK : Keccak} {C : Type} {RC : RpcController C} {RS : RpcControllerSpec}.
Context {W : Type} {RQ : Requester W} {RQS : RequesterSpec S C W} {WT : Waiting W}.
Implicit Types (cli : JSONRPCClient) (w : W).

Lemma rollup_at_absent v ns : v !! RollupInfoKey ns = None -> rollup_at v ns = Ok None.
Proof.
  intros Hn. unfold rollup_at, view_get. rewrite Hn. unfold innerGetRollupInfo. cbn.
  by rewrite ErrNotFound_Is.
Qed.

Lemma Client_GetRollupInfo_served cli w ns :
  connected w ->
  match rollup_at (committed (node w)) ns with
  | Ok (Some i) => Client_GetRollupInfo cli ns w = (w, Ok (i, None))
  | Ok None => exists e, Client_GetRollupInfo cli ns w = (w, Ok (new_info, Some e))
  | Err e => Client_GetRollupInfo cli ns w = (w, Ok (new_info, Some (remote e)))
  | Panic _ => True
  end.
Proof.
  intros Hc. unfold Client_GetRollupInfo.
  pose proof (send_served cli (Q_RollupInfo {| ri_args_Namespace := ns |}) w "getRollupInfo"
    (Server_GetRollupInfo (node w) {| ri_args_Namespace := ns |}) Hc eq_refl) as Hs.
  unfold answer, Server_GetRollupInfo in Hs. cbn [ri_args_Namespace] in Hs.
  rewrite GetRollupInfo_committed in Hs.
  destruct (rollup_at (committed (node w)) ns) as [[i|]|e|p]; [| | |done];
    rewrite (bind_run _ _ _ _ _ (Hs eq_refl)); [done|by eexists|done].
Qed.

Lemma Client_RollupRegistry_served cli w nss :
  connected w -> registry_at (committed (node w)) = Ok nss ->
  Client_RollupRegistry cli w = (w, Ok (nss, None)).
Proof.
  intros Hc Hr. unfold Client_RollupRegistry.
  pose proof (send_served cli Q_RollupRegistry w "getRollupRegistry" (Server_GetRollupRegistry (node w))
    Hc eq_refl) as Hs.
  unfold answer, Server_GetRollupRegistry in Hs. rewrite GetRollupRegistry_committed, Hr in Hs.
  by rewrite (bind_run _ _ _ _ _ (Hs eq_refl)).
Qed.

Lemma Client_GetEpochExits_served cli w e i b :
  connected w -> exits_at (committed (node w)) e = Ok (i, b) ->
  Client_GetEpochExits cli e w = (w, Ok (i, None)).
Proof.
  intros Hc He. unfold Client_GetEpochExits.
  pose proof (send_served cli (Q_EpochExits {| ee_args_Epoch := e |}) w "getEpochExits"
    (Server_GetEpochExits (node w) {| ee_args_Epoch := e |}) Hc eq_refl) as Hs.
  unfold answer, Server_GetEpochExits in Hs. cbn [ee_args_Epoch] in Hs.
  rewrite GetEpochExits_committed, He in Hs. by rewrite (bind_run _ _ _ _ _ (Hs eq_refl)).
Qed.

Lemma Client_GetAllRollupInfo_served cli w nss :
  connected w -> registry_inv (committed (node w)) nss ->
  exists infos reply, Client_GetAllRollupInfo cli w = (w, Ok (reply, None)) /\
    Forall2 (fun ns i => rollup_at (committed (node w)) ns = Ok (Some i)) nss infos /\
    forall e, default [] (reply !! e) = starting e infos.
Proof.
  intros Hc Hr. destruct (registry_infos _ _ Hr) as (infos & Hf & _).
  assert (Server_GetAllRollupInfo (node w) (new_reply Q_AllRollupInfo) =
    (foldl (fun m i => add_info i m) ∅ infos, Ok tt)) as Hrun.
  { unfold Server_GetAllRollupInfo. rewrite GetRollupRegistry_committed, (ri_registry _ _ Hr).
    by rewrite bind_lift_Ok, bind_modify, (collect_infos_run _ nss infos). }
  exists infos. eexists. split_and!; [|done|].
  - unfold Client_GetAllRollupInfo. erewrite send_served; [|done|reflexivity|by rewrite Hrun].
    unfold answer. by rewrite Hrun.
  - intros e. etransitivity; [apply add_infos_lookup|]. by rewrite lookup_empty.
Qed.
End reads.

(** C25: a client sees the registry of the chain. Connected to a node whose
    committed state has a well-formed registry, the client's queries return,
    without an error: the list of the registered namespaces; for each of them
    the info the state stores for it; the infos of exactly these namespaces,
    grouped by start epoch in the order of the registry; and for every epoch the
    exits the state records. For a namespace that is not registered the query
    fails, with a blank info. *)
Theorem Client_reads_registry
    `{HC : HyperConsts} {CO : Codec} {FE : Fees} {HA : HActions} {SM : SafeMath} {BC : BLSCrypto}
    {EC : ED25519Crypto} {DE : DatabaseErrors} {SP : StatePermissions}
    {DES : DatabaseErrorsSpec} {CS : CodecSpec} {HS : HActionsSpec}
    {S : Type} {IM : Immutable S} {MU : Mutable S} {BK : Blocks} {GO : Gorm} {KK : Keccak}
    {C : Type} {RC : RpcController C} {RS : RpcControllerSpec}
    {W : Type} {RQ : Requester W} {RQS : RequesterSpec S C W}
    (cli : JSONRPCClient) (w : W) (nss : list bytes) :
  connected w -> registry_inv (committed (node w)) nss ->
  Client_RollupRegistry cli w = (w, Ok (nss, None)) /\
  (forall ns, ns ∈ nss -> exists i, rollup_at (committed (node w)) ns = Ok (Some i) /\
     RI_Namespace i = ns /\ Client_GetRollupInfo cli ns w = (w, Ok (i, None))) /\
  (forall ns, ns ∉ nss -> exists e, Client_GetRollupInfo cli ns w = (w, Ok (new_info, Some e))) /\
  (exists infos reply, Client_GetAllRollupInfo cli w = (w, Ok (reply, None)) /\
     Forall2 (fun ns i => rollup_at (committed (node w)) ns = Ok (Some i)) nss infos /\
     forall e, default [] (reply !! e) = starting e infos) /\
  (forall e, is_u64 e -> exists i b, exits_at (committed (node w)) e = Ok (i, b) /\
     Client_GetEpochExits cli e w = (w, Ok (i, None))).
Proof.
  intros Hc Hr. split_and!.
  - apply Client_RollupRegistry_served; [done|]. apply (ri_registry _ _ Hr).
  - intros ns Hin. destruct (ri_registered _ _ Hr ns Hin) as (i & Hi & Hw & _). exists i.
    pose proof (Client_GetRollupInfo_served cli w ns Hc) as Hs. rewrite Hi in Hs. by split_and!.
  - intros ns Hin. pose proof (Client_GetRollupInfo_served cli w ns Hc) as Hs.
    by rewrite (rollup_at_absent _ _ (ri_unregistered _ _ Hr ns Hin)) in Hs.
  - by apply Client_GetAllRollupInfo_served.
  - intros e He. destruct (ri_exits _ _ Hr e He) as [Hx|(i & Hx & _)];
      do 2 eexists; (split; [exact Hx|]); by eapply Client_GetEpochExits_served.
Qed.

(** ** MultiJSONRPCClient *)

(** The host's own client (hypersdk/rpc). *)
Class HostClient `{Transactions} (W : Type) := {
  HClient : Type;
  NewHClient : string -> HClient;
  H_UnitPrices : HClient -> bool -> M W Dimensions;
  H_NameSpacesPrice : HClient -> list string -> M W (list Z);
  H_SubmitTx : HClient -> bytes -> M W ID
}.

Section multi.
Context `{HC : HyperConsts} {CO : Codec} {FE : Fees} {BC : BLSCrypto} {EC : ED25519Crypto}.
Context {TP : TypeParsers} {TX : Transactions} {W : Type} {RQ : Requester W} {HW : HostClient W}.
Variables (ar : TypeParser (M Packer Action)) (au : TypeParser (M Packer Auth)).

(** The SEQ client is in the state, next to the world. *)
Record MultiJSONRPCClient := {
  SeqCli : JSONRPCClient;
  HCli : HClient;
  AuthFac : AuthFactory
}.

Definition NewMultiJSONRPCClientWithED25519Factory (uri : string) (networkID : Z) (chainID : ID)
    (privBytes : bytes) : MultiJSONRPCClient :=
  {| SeqCli := NewJSONRPCClient uri networkID chainID; HCli := NewHClient uri;
     AuthFac := Factory_ED25519 (ed25519_PrivateKeyOf privBytes) |}.

(** The error of the key is dropped. *)
Definition NewMultiJSONRPCClientWithBLSFactory (uri : string) (networkID : Z) (chainID : ID)
    (privBytes : bytes) : MultiJSONRPCClient :=
  let '(priv, _) := bls_PrivateKeyFromBytes privBytes in
  {| SeqCli := NewJSONRPCClient uri networkID chainID; HCli := NewHClient uri;
     AuthFac := Factory_BLS priv |}.

Definition on_SeqCli {A} (m : M (JSONRPCClient * W) A) : M (MultiJSONRPCClient * W) A := fun '(multi, w) =>
  let '((cli, w), r) := m (SeqCli multi, w) in
  (({| SeqCli := cli; HCli := HCli multi; AuthFac := AuthFac multi |}, w), r).

(** [return ids.Empty, err] when [err] is not nil *)
Definition check_err {S A} (r : A * option error) : M S A :=
  match r with
  | (a, None) => mret a
  | (_, Some err) => throw err
  end.

(** generates and submits a transaction with the given actions and priority
    fee. *)
Definition GenerateAndSubmitTx (o : Outside) (actions : list Action) (priorityFee : Z)
    : M (MultiJSONRPCClient * W) ID :=
  r ← on_SeqCli Client_parser;
  parser ← check_err r;
  parser ← lift (match parser with Some p => Ok p | None => Panic PNil end);
  '(multi, _) ← get;
  unitPrices ← on_world (H_UnitPrices (HCli multi) true);
  rules ← lift (Client_Parser_Rules parser (o_now1 o));
  '(units, feeMarketUnits) ← lift (EstimateUnits rules actions (AuthFac multi));
  fee ← lift (MulSum unitPrices units);
  let nss := o_range o feeMarketUnits in
  nsPrices ← on_world (H_NameSpacesPrice (HCli multi) nss);
  fee ← lift (add_ns_fees nsPrices feeMarketUnits 0 nss fee);
  (* add priority fee(if any) into the max Fee. *)
  let fee := u64 (fee + priorityFee) in
  (* set max fee 20% higher than the pessimistic estimation. *)
  let fee := add_margin fee in
  rules ← lift (Client_Parser_Rules parser (o_now2 o));
  let base := {| b_Timestamp := UnixRMilli (o_now2 o) (GetValidityWindow rules);
                 b_ChainID := cli_chainID (SeqCli multi); b_PriorityFee := priorityFee; b_MaxFee := fee |} in
  (* Build transaction *)
  tx ← lift (map_err (ErrWrap "%w: failed to sign transaction" [])
               (Tx_Sign (NewTx base actions) (AuthFac multi) ar au));
  on_world (H_SubmitTx (HCli multi) (Tx_Bytes tx)).
End multi.

(** ** What a client submits *)

Section multi_facts.
Context `{HC : HyperConsts} {CO : Codec} {FE : Fees} {BC : BLSCrypto} {EC : ED25519Crypto}.
Context {TP : TypeParsers} {TX : Transactions} {TXS : TransactionsSpec}.
Context {W : Type} {RQ : Requester W} {HW : HostClient W}.

Lemma Client_Genesis_keeps cli w cli' w' r :
  Client_Genesis (cli, w) = ((cli', w'), r) -> cli_chainID cli' = cli_chainID cli.
Proof.
  unfold Client_Genesis. rewrite bind_get. destruct (cli_g cli); [by intros [= <- _ _]|].
  unfold on_world, mbind, M_bind. destruct (send cli "genesis" Q_Genesis w) as [w1 [[resp [e|]]|e|p]];
    by intros [= <- _ _].
Qed.

Lemma Client_parser_keeps cli w cli' w' r :
  Client_parser (cli, w) = ((cli', w'), r) -> cli_chainID cli' = cli_chainID cli.
Proof.
  unfold Client_parser, mbind, M_bind. destruct (Client_Genesis (cli, w)) as [[c1 w1] [[g [e|]]|e|p]] eqn:E;
    apply Client_Genesis_keeps in E; by intros [= <- _ _].
Qed.

Lemma lift_inv {S A} (r : res A) (s s' : S) a : lift r s = (s', Ok a) -> s' = s /\ r = Ok a.
Proof. by intros [= -> ->]. Qed.

Lemma on_world_inv {X A} (m : M W A) (x : X) w s' a :
  on_world m (x, w) = (s', Ok a) -> exists w', s' = (x, w') /\ m w = (w', Ok a).
Proof. unfold on_world. destruct (m w) as [w1 r]. intros [= <- ->]. eauto. Qed.

Lemma on_SeqCli_inv {A} (m : M (JSONRPCClient * W) A) multi w s' a :
  on_SeqCli m (multi, w) = (s', Ok a) -> exists cli w',
    m (SeqCli multi, w) = ((cli, w'), Ok a) /\
    s' = ({| SeqCli := cli; HCli := HCli multi; AuthFac := AuthFac multi |}, w').
Proof. unfold on_SeqCli. destruct (m (SeqCli multi, w)) as [[c1 w1] r]. intros [= <- ->]. eauto. Qed.

Lemma check_err_inv {S A} (r : A * option error) (s s' : S) a :
  check_err r s = (s', Ok a) -> s' = s /\ r = (a, None).
Proof. destruct r as [b [e|]]; [done|]. by intros [= -> ->]. Qed.

(** A submitted transaction offers the estimate, the priority fee and a fifth
    more, when that fits 64 bits. *)
Theorem GenerateAndSubmitTx_fee ar au o actions priorityFee (price : string -> Z)
    (multi multi' : MultiJSONRPCClient) (w w' : W) id :
  ranges o -> (forall hc nss w w' l, H_NameSpacesPrice hc nss w = (w', Ok l) -> l = price <$> nss) ->
  GenerateAndSubmitTx ar au o actions priorityFee (multi, w) = ((multi', w'), Ok id) ->
  exists tx rules units market prices fee w1,
    H_SubmitTx (HCli multi) (Tx_Bytes tx) w1 = (w', Ok id) /\ Tx_acts tx = actions /\
    b_PriorityFee (Tx_Base tx) = priorityFee /\ b_ChainID (Tx_Base tx) = cli_chainID (SeqCli multi) /\
    EstimateUnits rules actions (AuthFac multi) = Ok (units, market) /\ MulSum prices units = Ok fee /\
    let total := fee + market_fees price (map_to_list market) + priorityFee in
    b_MaxFee (Tx_Base tx) = add_margin (u64 total) /\
    (0 <= total -> total + total / 5 < u64_mod -> b_MaxFee (Tx_Base tx) = total + total / 5).
Proof.
  intros Hr Hp Hrun. unfold GenerateAndSubmitTx in Hrun.
  apply bind_Ok_inv in Hrun as (s1 & r & H1 & Hrun). apply on_SeqCli_inv in H1 as (cli & w1 & H1 & ->).
  apply Client_parser_keeps in H1.
  apply bind_Ok_inv in Hrun as (s1 & p & H2 & Hrun). apply check_err_inv in H2 as [-> ->].
  apply bind_Ok_inv in Hrun as (s1 & parser & H2 & Hrun). apply lift_inv in H2 as [-> _].
  rewrite bind_get in Hrun. cbn [HCli AuthFac SeqCli] in Hrun.
  apply bind_Ok_inv in Hrun as (s1 & prices & H2 & Hrun). apply on_world_inv in H2 as (w2 & -> & _).
  apply bind_Ok_inv in Hrun as (s1 & rules & H2 & Hrun). apply lift_inv in H2 as [-> _].
  apply bind_Ok_inv in Hrun as (s1 & [units market] & H2 & Hrun). apply lift_inv in H2 as [-> He].
  apply bind_Ok_inv in Hrun as (s1 & fee & H2 & Hrun). apply lift_inv in H2 as [-> Hf]. cbv zeta in Hrun.
  apply bind_Ok_inv in Hrun as (s1 & nsp & H2 & Hrun). apply on_world_inv in H2 as (w3 & -> & Hn).
  apply Hp in Hn as ->.
  apply bind_Ok_inv in Hrun as (s1 & f & H2 & Hrun). apply lift_inv in H2 as [-> Ha].
  rewrite <- (u64_small fee (MulSum_u64 _ _ _ Hf)), (add_ns_fees_spec price) in Ha by apply Hr.
  injection Ha as <-.
  apply bind_Ok_inv in Hrun as (s1 & rules2 & H2 & Hrun). apply lift_inv in H2 as [-> _].
  apply bind_Ok_inv in Hrun as (s1 & tx & H2 & Hrun). apply lift_inv in H2 as [-> Htx].
  apply on_world_inv in Hrun as (w4 & Hs & Hsub). injection Hs as _ <-.
  destruct (Tx_Sign _ _ _ _) as [tx'|e|q] eqn:Hsign; cbn in Htx; [|done..]. injection Htx as ->.
  apply Sign_keeps in Hsign as [Hb Hacts].
  exists tx, rules, units, market, prices, fee, w3. rewrite Hb. cbn -[add_margin]. rewrite u64_add_l.
  split_and!; try done. intros. by apply add_margin_exact.
Qed.
End multi_facts.
