(* ===== verification/Cli.v ===== *)
(** * Cli: the commands of seq-cli that submit actions

    [src/cmd/seq-cli/cmd/action.go], with [sendAndWait] of [resolutions.go] and
    [DefaultActor] and [GetBalance] of [handler.go]. Prompts, keys and
    connections are the host's; output is left out. *)

From stdpp Require Import base numbers countable gmap list strings.
From Stdlib Require Import ZArith Lia Strings.Byte Strings.Ascii.
From S2P Require Import Prelude HyperSDK State Wire Sample Storage Ledger Genesis Auth Actions.
From S2P Require Import ChainInv Transfer SequencerMsg Sha256 Auction EpochExit RollupRegister Registry.
From S2P Require Import RollupRegistry Block Commit Archiver Controller Server TxFee Client.

Local Open Scope Z_scope.

(** What hypersdk's command line and its clients provide. *)
Class HostCli `{HC : HyperConsts, HostClient} := {
  PromptAddress : string -> M W Address;
  PromptAmount : string -> Z -> Z -> M W Z;
  PromptContinue : M W bool;
  PromptString : string -> Z -> Z -> M W string;
  PromptChoice : string -> Z -> M W Z;
  GetDefaultKey : M W (Address * bytes);
  GetDefaultChain : M W (ID * list string);
  H_Network : HClient -> M W Z;
  H_Accepted : HClient -> M W (ID * Z * Z);
  H_GetCurrentEpoch : HClient -> M W (Z * option error);
  bls_GeneratePrivateKey : M W bls_PrivateKey;
  GenerateTransaction : HClient -> Client_Parser -> list Action -> AuthFactory -> Z -> M W Tx;
  WebSocketClient : Type;
  NewWebSocketClient : string -> M W WebSocketClient;
  RegisterTx : WebSocketClient -> Tx -> M W unit;
  (** the transaction, its error at the node, its result *)
  ListenTx : WebSocketClient -> M W (ID * option error * option Result);
  AddressBech32 : string -> Address -> res string
}.

Section cli.
Context `{HC : HyperConsts} {CO : Codec} {FE : Fees} {HA : HActions} {BC : BLSCrypto} {EC : ED25519Crypto}.
Context {TP : TypeParsers} {TX : Transactions} {W : Type} {RQ : Requester W} {HW : HostClient W} {HK : HostCli}.

(** What [DefaultActor] returns. *)
Record Actor := {
  actor_chainID : ID;
  actor_Address : Address;
  actor_factory : AuthFactory;
  actor_cli : HClient;
  actor_scli : WebSocketClient;
  actor_tcli : JSONRPCClient
}.

Definition DefaultActor : M W Actor :=
  '(addr, priv) ← GetDefaultKey;
  '(chainID, uris) ← GetDefaultChain;
  (* For [defaultActor], we always send requests to the first returned URI. *)
  uri ← lift (match uris with uri :: _ => Ok uri | [] => Panic PIndex end);
  let jcli := NewHClient uri in
  networkID ← H_Network jcli;
  scli ← NewWebSocketClient uri;
  mret {| actor_chainID := chainID; actor_Address := addr;
          actor_factory := Factory_ED25519 (ed25519_PrivateKeyOf priv);
          actor_cli := jcli; actor_scli := scli;
          actor_tcli := NewJSONRPCClient uri networkID chainID |}.

Definition Handler_GetBalance (cli : JSONRPCClient) (addr : Address) : M W Z :=
  saddr ← lift (AddressBech32 HRP addr);
  r ← Client_Balance cli saddr;
  check_err r.

(** The loop of [sendAndWait]: results of other transactions are skipped.
    [None] when [fuel] results were all of other transactions. *)
Fixpoint listen (fuel : nat) (scli : WebSocketClient) (id : ID) : M W (option (option Result)) :=
  match fuel with
  | O => mret None
  | S fuel =>
      '(txID, dErr, result) ← ListenTx scli;
      match dErr with
      | Some e => throw e
      | None => if bool_decide (txID = id) then mret (Some result) else listen fuel scli id
      end
  end.

(** [PrintStatus] dereferences the result. *)
Definition sendAndWait (fuel : nat) (action : list Action) (a : Actor) (priorityFee : Z) (printStatus : bool)
    : M W (option ID) := fun w =>
  let '((_, w), r) := (Client_parser (W := W)) (actor_tcli a, w) in
  (r ← lift r;
   parser ← check_err r;
   parser ← lift (match parser with Some p => Ok p | None => Panic PNil end);
   tx ← GenerateTransaction (actor_cli a) parser action (actor_factory a) priorityFee;
   RegisterTx (actor_scli a) tx;;
   res ← listen fuel (actor_scli a) (Tx_TxID tx);
   match res with
   | None => mret None
   | Some res =>
       (if printStatus then lift (match res with Some _ => Ok tt | None => Panic PNil end) else mret tt);;
       mret (Some (Tx_TxID tx))
   end) w.

(** [var priorityFee uint64 = 0] *)
Definition priorityFee : Z := 0.

(** *** The commands: [None] when there is nothing to submit *)

Definition transfer_actions (a : Actor) : M W (option (list Action)) :=
  balance ← Handler_GetBalance (actor_tcli a) (actor_Address a);
  if balance =? 0 then mret None else
  recipient ← PromptAddress "recipient";
  amount ← PromptAmount "amount" Decimals balance;
  cont ← PromptContinue;
  if negb cont then mret None else
  mret (Some [Act_Transfer {| To := recipient; Value := amount; Memo := [] |}]).

Definition sequencerMsg_actions : M W (option (list Action)) :=
  recipient ← PromptAddress "recipient";
  cont ← PromptContinue;
  if negb cont then mret None else
  mret (Some [Act_SequencerMsg {| Data := [x00; x01; x02]; ChainID := String.list_byte_of_string "nkit";
                                  FromAddress := recipient; RelayerID := 0 |}]).

Definition rollup_actions (a : Actor) : M W (list Action) :=
  namespaceStr ← PromptString "namespace" 0 8;
  let namespace := String.list_byte_of_string namespaceStr in
  feeRecipient ← PromptAddress "feeRecipient";
  op ← PromptChoice "(0)create (1)exit (2)update" 3;
  '(e, _) ← H_GetCurrentEpoch (actor_cli a);
  let info := {| FeeRecipient := feeRecipient; RI_Namespace := namespace;
                 AuthoritySEQAddress := feeRecipient; SequencerPublicKey := arr_list feeRecipient;
                 StartEpoch := u64 (e + 10); ExitEpoch := 0 |} in
  mret [Act_RollupRegistration {| rr_Namespace := namespace; rr_Info := info; rr_OpCode := op |}].

(** [builderMsg]: the epoch and the price, then the key. *)
Definition builder_msg (epochNumber bidPrice : Z) (pubKeyBytes : bytes) : res bytes :=
  let builderMsg := zeros 16 in
  lo ← PutUint64 epochNumber (take 8 builderMsg);
  let builderMsg := lo ++ drop 8 builderMsg in
  builderMsg ← update_from builderMsg 8 (PutUint64 bidPrice);
  Ok (builderMsg ++ pubKeyBytes).

Definition auction_actions (a : Actor) : M W (list Action) :=
  bidPrice ← PromptAmount "bid price" Decimals 0;
  '(_, hght, _) ← H_Accepted (actor_cli a);
  let epochNumber := u64 (u64 (hght / 12 * MillisecondsPerSecond) + 1) in
  p ← bls_GeneratePrivateKey;
  let builderSEQAddress := NewBLSAddress (bls_PublicFromPrivateKey p) in
  let pubKeyBytes := bls_PublicKeyToBytes (bls_PublicFromPrivateKey p) in
  builderMsg ← lift (builder_msg epochNumber bidPrice pubKeyBytes);
  let sig := bls_Sign builderMsg p in
  mret [Act_Transfer {| To := builderSEQAddress; Value := u64 (bidPrice * 2); Memo := [] |};
        Act_Auction {| auction_Info := {| EpochNumber := epochNumber; BidPrice := bidPrice;
                                          BuilderSEQAddress := builderSEQAddress |};
                       BuilderPublicKey := pubKeyBytes;
                       BuilderSignature := bls_SignatureToBytes sig |}].

Definition transferCmd (fuel : nat) : M W unit :=
  a ← DefaultActor;
  acts ← transfer_actions a;
  match acts with
  | None => mret tt
  | Some acts => sendAndWait fuel acts a priorityFee true;; mret tt
  end.

Definition sequencerMsgCmd (fuel : nat) : M W unit :=
  a ← DefaultActor;
  acts ← sequencerMsg_actions;
  match acts with
  | None => mret tt
  | Some acts => sendAndWait fuel acts a priorityFee true;; mret tt
  end.

Definition rollupCmd (fuel : nat) : M W unit :=
  a ← DefaultActor;
  acts ← rollup_actions a;
  sendAndWait fuel acts a 0 true;; mret tt.

Definition auctionCmd (fuel : nat) : M W unit :=
  a ← DefaultActor;
  acts ← auction_actions a;
  sendAndWait fuel acts a 0 true;; mret tt.
End cli.

(** ** What the commands submit *)

Section cli_facts.
Context `{HC : HyperConsts} {CO : Codec} {FE : Fees} {HA : HActions} {BC : BLSCrypto} {EC : ED25519Crypto}.
Context {BS : BLSCryptoSpec} {SM : SafeMath} {DE : DatabaseErrors} {SP : StatePermissions}.
Context {TP : TypeParsers} {TX : Transactions} {W : Type} {RQ : Requester W} {HW : HostClient W} {HK : HostCli}.
Context {S : Type} {IM : Immutable S} {MU : Mutable S}.

(** What the auction command signs: the epoch, the price and the key. *)
Definition signed_message (info : AuctionInfo) (k : bls_PrivateKey) : bytes :=
  be_enc 8 (EpochNumber info) ++ be_enc 8 (BidPrice info) ++
  bls_PublicKeyToBytes (bls_PublicFromPrivateKey k).

Lemma builder_msg_eq e p k : builder_msg e p k = Ok (be_enc 8 e ++ be_enc 8 p ++ k).
Proof.
  assert (forall v, PutUint64 v (zeros 8) = Ok (be_enc 8 v)) as Hp.
  { intros v. unfold PutUint64, put_be. cbn [zeros replicate length Nat.leb drop]. by rewrite app_nil_r. }
  unfold builder_msg. change (take 8 (zeros 16)) with (zeros 8). change (drop 8 (zeros 16)) with (zeros 8).
  rewrite Hp, bind_Ok. unfold update_from. rewrite length_app, length_be_enc.
  change (8 <=? 8 + length (zeros 8))%nat with true. cbv iota.
  rewrite drop_app_length', take_app_length' by (by rewrite length_be_enc). rewrite Hp, bind_Ok.
  by rewrite <- app_assoc.
Qed.

Lemma run_not_ok {T A} (m : M T A) t : (forall t' a, m t = (t', Ok a) -> False) -> is_ok (snd (m t)) = false.
Proof. destruct (m t) as [t' [a|e|p]] eqn:E; [|done..]. intros Hf. by destruct (Hf t' a). Qed.

(** It is not the hash that the action verifies: it has twice the length. *)
Lemma signed_message_not_digest info k : signed_message info k <> bid_digest info.
Proof using BS.
  intros He. apply (f_equal length) in He. revert He. unfold signed_message, bid_digest.
  rewrite !length_app, !length_be_enc, length_PublicKeyToBytes, bls_PublicKeyLen_48, length_arr. lia.
Qed.

(** A bid that executes has a signature that verifies for the hash of its info. *)
Lemma Auction_Execute_verifies k m info rules t h actor id (s : S) :
  is_ok (snd (Auction_Execute {| auction_Info := info;
      BuilderPublicKey := bls_PublicKeyToBytes (bls_PublicFromPrivateKey k);
      BuilderSignature := bls_SignatureToBytes (bls_Sign m k) |} rules t h actor id s)) = true ->
  bls_Verify (bid_digest info) (bls_PublicFromPrivateKey k) (bls_Sign m k) = true.
Proof using BS.
  intros Hok. match type of Hok with context [Auction_Execute ?a] =>
    destruct (Auction_Execute_cases a rules t h actor id s) as [(Hb & _)|[[_ [e E]]|[_ E]]] end;
    [|by rewrite E in Hok..].
  destruct (bv_signed _ _ _ _ Hb) as (pk & sig & Hpk & Hsig & Hv). cbn [BuilderPublicKey BuilderSignature] in Hpk, Hsig.
  rewrite PublicKeyFromBytes_To in Hpk. rewrite SignatureFromBytes_To in Hsig. by simplify_eq.
Qed.

(** A request to exit without an exit epoch. *)
Lemma RollupRegistration_Execute_no_epoch r rules t h actor id (s : S) :
  rr_OpCode r = ExitRollup -> ExitEpoch (rr_Info r) = 0 -> 0 <= h < u64_mod - 2 ->
  is_ok (snd (RollupRegistration_Execute rules t h actor id (s, r))) = false.
Proof.
  intros Hop He Hh. apply run_not_ok. intros s' out Hr. unfold RollupRegistration_Execute in Hr.
  rewrite bind_get in Hr. do 2 (case_match; [done|]).
  apply bind_Ok_inv in Hr as (s1 & nss & H1 & Hr). injection H1 as <- _.
  rewrite Hop in Hr. cbn [Z.eqb Pos.eqb CreateRollup UpdateRollup ExitRollup] in Hr.
  apply bind_Ok_inv in Hr as (s2 & nss' & H2 & _). unfold register_exit in H2. rewrite bind_get in H2.
  apply bind_Ok_inv in H2 as (s3 & [] & H3 & H2). injection H3 as <- _.
  apply bind_Ok_inv in H2 as (s3 & old & H3 & H2). injection H3 as <- _.
  apply bind_Ok_inv in H2 as (s3 & o & H3 & H2). injection H3 as <- _.
  apply bind_Ok_inv in H2 as (s3 & ep & H3 & H2). injection H3 as <- Hep.
  destruct (Z.ltb_spec (ExitEpoch (rr_Info r)) (u64 (ep + 2))) as [_|Hlt].
  { by rewrite orb_true_r in H2. }
  rewrite He in Hlt. unfold Epoch in Hep. destruct (u64 (GetEpochLength rules) =? 0) eqn:Hz; [done|]. injection Hep as <-.
  apply Z.eqb_neq in Hz. pose proof (u64_is_u64 (GetEpochLength rules)) as Hu. unfold is_u64 in Hu.
  assert (0 <= h / u64 (GetEpochLength rules) <= h) as Hq.
  { split; [apply Z.div_pos; lia|]. apply Z.div_le_upper_bound; nia. }
  rewrite u64_small in Hlt by (unfold is_u64; lia). lia.
Qed.
End cli_facts.

(** ** Waiting for the result *)

Section listening.
Context `{HC : HyperConsts} {CO : Codec} {FE : Fees} {BC : BLSCrypto} {EC : ED25519Crypto}.
Context {TP : TypeParsers} {TX : Transactions} {W : Type} {RQ : Requester W} {HW : HostClient W} {HK : HostCli}.

(** The connection reports a transaction, after any number of others. *)
Inductive heard (scli : WebSocketClient) (id : ID) : W -> W -> option Result -> Prop :=
  | heard_now w w' res : ListenTx scli w = (w', Ok (id, None, res)) -> heard scli id w w' res
  | heard_skip w w1 w' other r res :
      other <> id -> ListenTx scli w = (w1, Ok (other, None, r)) -> heard scli id w1 w' res ->
      heard scli id w w' res.

(** The loop ends with the transaction's result once it is reported: there is
    fuel that is enough, and more does not change the outcome. *)
Lemma listen_returns scli id w w' res :
  heard scli id w w' res ->
  exists n, forall fuel, (n <= fuel)%nat -> listen fuel scli id w = (w', Ok (Some res)).
Proof.
  induction 1 as [w w' res Hl|w w1 w' other r res Hne Hl _ [n IH]].
  - exists 1%nat. intros [|fuel] Hf; [lia|]. cbn [listen].
    rewrite (bind_run _ _ _ _ _ Hl). by rewrite bool_decide_eq_true_2.
  - exists (S n). intros [|fuel] Hf; [lia|]. cbn [listen].
    rewrite (bind_run _ _ _ _ _ Hl), bool_decide_eq_false_2 by done. apply IH. lia.
Qed.
End listening.

(** C32: the command line stops waiting once the result is in. When the client
    gets its parser, the transaction is generated and registered, and the
    connection reports its result after any number of results of other
    transactions, [sendAndWait] returns the transaction's identifier, in the
    world the report left: some fuel is enough for the loop, and any more gives
    the same. *)
Theorem sendAndWait_returns
    `{HC : HyperConsts} {CO : Codec} {FE : Fees} {BC : BLSCrypto} {EC : ED25519Crypto}
    {TP : TypeParsers} {TX : Transactions} {W : Type} {RQ : Requester W} {HW : HostClient W} {HK : HostCli}
    (action : list Action) (a : Actor) (fee : Z) (printStatus : bool) w w1 w2 w3 w4 cli p tx res :
  Client_parser (W := W) (actor_tcli a, w) = ((cli, w1), Ok (Some p, None)) ->
  GenerateTransaction (actor_cli a) p action (actor_factory a) fee w1 = (w2, Ok tx) ->
  RegisterTx (actor_scli a) tx w2 = (w3, Ok tt) ->
  heard (actor_scli a) (Tx_TxID tx) w3 w4 (Some res) ->
  exists n, forall fuel, (n <= fuel)%nat ->
    sendAndWait fuel action a fee printStatus w = (w4, Ok (Some (Tx_TxID tx))).
Proof.
  intros Hp Hg Hr Hh. destruct (listen_returns _ _ _ _ _ Hh) as [n Hn]. exists n. intros fuel Hf.
  unfold sendAndWait. rewrite Hp, bind_lift_Ok. cbn [check_err]. rewrite bind_ret, bind_lift_Ok.
  rewrite (bind_run _ _ _ _ _ Hg), (bind_run _ _ _ _ _ Hr), (bind_run _ _ _ _ _ (Hn fuel Hf)).
  by destruct printStatus.
Qed.

(** C31: two commands submit what the chain refuses. Whatever is prompted, the
    transaction of the auction command is a transfer and a bid of one fresh
    builder. The bid carries the builder's signature of the epoch, the price and
    the key, which is never the hash of the bid's info that the action verifies
    (it has 64 bytes, not 32): on any state, at any height and for any sender,
    it executes only if that signature of one message verifies for the other, a
    forgery. A request of the rollup command is for the namespace and the
    authority that were entered, and when it is a request to exit it never
    executes: the command leaves the exit epoch at zero. *)
Theorem cli_refused
    `{HC : HyperConsts} {CO : Codec} {FE : Fees} {HA : HActions} {BC : BLSCrypto} {EC : ED25519Crypto}
    {BS : BLSCryptoSpec} {SM : SafeMath} {DE : DatabaseErrors} {SP : StatePermissions}
    {TP : TypeParsers} {TX : Transactions} {W : Type} {RQ : Requester W} {HW : HostClient W} {HK : HostCli}
    {S : Type} {IM : Immutable S} {MU : Mutable S} (a : Actor) (w : W) :
  wp (auction_actions a) w (fun _ o => forall acts, o = Ok acts -> exists k price bid,
    acts = [Act_Transfer {| To := NewBLSAddress (bls_PublicFromPrivateKey k);
                            Value := u64 (price * 2); Memo := [] |}; Act_Auction bid] /\
    BidPrice (auction_Info bid) = price /\
    BuilderSEQAddress (auction_Info bid) = NewBLSAddress (bls_PublicFromPrivateKey k) /\
    let msg := signed_message (auction_Info bid) k in
    BuilderSignature bid = bls_SignatureToBytes (bls_Sign msg k) /\ msg <> bid_digest (auction_Info bid) /\
    forall rules t h actor id (s : S), is_ok (snd (Auction_Execute bid rules t h actor id s)) = true ->
      bls_Verify (bid_digest (auction_Info bid)) (bls_PublicFromPrivateKey k) (bls_Sign msg k) = true) /\
  wp (rollup_actions a) w (fun _ o => forall acts, o = Ok acts -> exists r,
    acts = [Act_RollupRegistration r] /\ rr_Namespace r = RI_Namespace (rr_Info r) /\
    AuthoritySEQAddress (rr_Info r) = FeeRecipient (rr_Info r) /\
    (rr_OpCode r = ExitRollup -> forall rules t h actor id (s : S), 0 <= h < u64_mod - 2 ->
       is_ok (snd (RollupRegistration_Execute rules t h actor id (s, r))) = false)).
Proof.
  split; unfold wp.
  - destruct (auction_actions a w) as [w' o] eqn:Hr. cbn. intros acts ->. unfold auction_actions in Hr.
    apply bind_Ok_inv in Hr as (w1 & price & _ & Hr).
    apply bind_Ok_inv in Hr as (w2 & [[blk hght] tm] & _ & Hr).
    apply bind_Ok_inv in Hr as (w3 & k & _ & Hr). cbv zeta in Hr. rewrite builder_msg_eq, bind_lift_Ok in Hr.
    injection Hr as _ <-. do 3 eexists.
    split_and!; [done|done|done|reflexivity|apply signed_message_not_digest|].
    intros ? ? ? ? ? ? Hok. by apply Auction_Execute_verifies in Hok.
  - destruct (rollup_actions a w) as [w' o] eqn:Hr. cbn. intros acts ->. unfold rollup_actions in Hr.
    apply bind_Ok_inv in Hr as (w1 & ns & _ & Hr). cbv zeta in Hr.
    apply bind_Ok_inv in Hr as (w2 & rcp & _ & Hr). apply bind_Ok_inv in Hr as (w3 & op & _ & Hr).
    apply bind_Ok_inv in Hr as (w4 & [e err] & _ & Hr). injection Hr as _ <-.
    eexists. split_and!; [done|done|done|]. intros Hop rules t h actor id s Hh.
    by apply RollupRegistration_Execute_no_epoch.
Qed.
