(* ===== verification/CliHost.v ===== *)
(** * CliHost: the commands of seq-cli that set a chain up and watch it

    [src/cmd/seq-cli/cmd]: the flags and their defaults ([root.go]), the genesis
    file ([genesis.go]), the keys ([key.go]), the chain ([chain.go]), the load
    test ([spam.go]), the controller of the host's command line ([handler.go]),
    the report of a transaction ([resolutions.go]) and the arcadia URL
    ([action.go]). Files, prompts, key store and the loops that drive the
    callbacks are the host's. *)

From stdpp Require Import base numbers countable gmap list strings.
From Stdlib Require Import ZArith Lia Strings.Byte Strings.Ascii.
From S2P Require Import Prelude HyperSDK State Wire Sample Storage Ledger Genesis Auth Actions.
From S2P Require Import ChainInv Transfer SequencerMsg Sha256 Auction EpochExit RollupRegister Registry.
From S2P Require Import RollupRegistry Block Commit Archiver Controller Server TxFee Client Cli.

Local Open Scope Z_scope.

(** [cli.PrivateKey] *)
Record PrivateKey `{HyperConsts} := { pk_Address : Address; pk_Bytes : bytes }.

(** The functions [Spam] is given; [L] holds the variables they capture. *)
Record SpamCallbacks `{HC : HyperConsts, HK : HostCli} (W' L : Type) := {
  createClient : string -> Z -> ID -> M (W' * L) unit;
  getFactory : PrivateKey -> M (W' * L) AuthFactory;
  createAccount : M (W' * L) PrivateKey;
  lookupBalance : Z -> string -> M (W' * L) Z;
  getParser : ID -> M (W' * L) Client_Parser;
  getTransfer : Address -> Z -> list Action;
  submitDummy : HClient -> PrivateKey -> Z -> M (W' * L) unit
}.

(** What the commands use of the host's command line and of the operating
    system, next to [HostCli]. *)
Class HostShell `{HC : HyperConsts, HK : HostCli} := {
  ReadFile : string -> M W bytes;
  WriteFile : string -> bytes -> Z -> M W unit;
  ParseDimensions : list string -> res Dimensions;
  FormatBalance : Z -> Z -> string;
  ed25519_GeneratePrivateKey : M W ed25519_PrivateKey;
  ed25519_PrivateKey_bytes : ed25519_PrivateKey -> bytes;
  LoadBytes : string -> Z -> M W bytes;
  StoreKey : PrivateKey -> M W unit;
  StoreDefaultKey : Address -> M W unit;
  SetKey : (Z -> string -> string -> Z -> ID -> M W unit) -> M W unit;
  Root_Balance : bool -> bool -> (Address -> string -> Z -> ID -> ID -> M W unit) -> M W unit;
  PromptBool : string -> M W bool;
  PromptUint64 : string -> M W Z;
  (** the variables the callbacks capture are threaded next to the world *)
  WatchChain {L : Type} : bool -> bool -> Z -> (string -> Z -> ID -> M (W * L) Client_Parser) ->
    (Tx -> Result -> M (W * L) unit) -> M (W * L) unit;
  Spam {L : Type} : Z -> option Z -> bool -> SpamCallbacks W L -> M (W * L) unit;
  Tx_MaxFee : Tx -> Z;
  Tx_Actions : Tx -> list Action;
  Result_Error : Result -> bytes;
  UpdateArcadiaURL : string -> string -> M W unit;
  (** [cli.New], with the path of the database of the controller *)
  cli_New : string -> M W unit;
  CloseDatabase : M W unit;
  ImportChain : M W unit;
  ImportANR : M W unit;
  ImportOps : string -> M W unit;
  SetDefaultChain : M W unit;
  PrintChainInfo : M W unit
}.

(** errors.go *)
Definition ErrInputEmpty : error := ErrNew "input is empty".
Definition ErrInvalidArgs : error := ErrNew "invalid args".
Definition ErrMissingSubcommand : error := ErrNew "must specify a subcommand".
Definition ErrIndexOutOfRange : error := ErrNew "index out-of-range".
Definition ErrInsufficientBalance : error := ErrNew "insufficient balance".
Definition ErrInvalidChoice : error := ErrNew "invalid choice".
Definition ErrNotMultiple : error := ErrNew "must be a multiple".
Definition ErrInsufficientSupply : error := ErrNew "insufficient supply".
Definition ErrMustFill : error := ErrNew "must fill".
Definition ErrExpiredTx : error := ErrNew "expireed tx".
Definition ErrDuplicate : error := ErrNew "duplicate".
Definition ErrNoKeys : error := ErrNew "no available keys".
Definition ErrNoChains : error := ErrNew "no available chains".
Definition Cmd_ErrTxFailed : error := ErrNew "tx failed".

(** ** root.go: the variables the flags set *)

Record Flags := {
  dbPath : string;
  genesisFile : string;
  minBlockGap : Z;
  minEmptyBlockGap : Z;
  epochLength : Z;
  minUnitPrice : list string;
  maxBlockUnits : list string;
  windowTargetUnits : list string;
  hideTxs : bool;
  randomRecipient : bool;
  maxTxBacklog : Z;
  checkAllChains : bool;
  prometheusBaseURI : string;
  prometheusOpenBrowser : bool;
  prometheusFile : string;
  prometheusData : string;
  startPrometheus : bool;
  maxFee : Z
}.

Definition fsModeWrite : Z := 384. (* 0o600 *)
Definition defaultDatabase : string := ".seq-cli".
Definition defaultGenesis : string := "genesis.json".

(** The defaults [init] gives the flags; [unix] is the time it runs at. *)
Definition default_flags (unix : string) : Flags := {|
  dbPath := defaultDatabase;
  genesisFile := defaultGenesis;
  minUnitPrice := [];
  maxBlockUnits := [];
  windowTargetUnits := [];
  minBlockGap := -1;
  minEmptyBlockGap := -1;
  epochLength := 6;
  checkAllChains := false;
  hideTxs := false;
  randomRecipient := false;
  maxTxBacklog := 72000;
  maxFee := -1;
  prometheusBaseURI := "http://localhost:9090";
  prometheusOpenBrowser := true;
  prometheusFile := "/tmp/prometheus.yaml";
  prometheusData := String.append "/tmp/prometheus-" unix;
  startPrometheus := true
|}.

(** The command tree [init] builds: the commands and their sub-commands. *)
Definition command_tree : list (string * list string) :=
  [("genesis", ["generate"]);
   ("key", ["generate"; "import"; "set"; "balance"]);
   ("chain", ["import"; "import-anr"; "import-ops"; "set"; "info"; "watch"; "test-header"; "rollups"]);
   ("action", ["transfer"; "sequencer-msg"; "rollup-register"; "auction"; "updateArcadiaURL"]);
   ("spam", ["run"]);
   ("prometheus", ["generate"])]%string.

Section shell.
Context `{HC : HyperConsts} {CO : Codec} {FE : Fees} {HA : HActions} {BC : BLSCrypto} {EC : ED25519Crypto}.
Context {TP : TypeParsers} {TX : Transactions} {W : Type} {RQ : Requester W} {HW : HostClient W}.
Context {HK : HostCli} {HSH : HostShell}.
Implicit Types (f : Flags).

(** [if len(args) != 1 { return ErrInvalidArgs }] *)
Definition one_arg (args : list string) : res string :=
  match args with [a] => Ok a | _ => Err ErrInvalidArgs end.

(** ** Running a command *)

(** A command that only groups others. *)
Definition group_cmd : M W unit := throw ErrMissingSubcommand.

(** The database is opened before a command and closed after one that
    succeeded. *)
Definition run_command f (cmd : M W unit) : M W unit :=
  cli_New (dbPath f);;
  cmd;;
  CloseDatabase.

(** ** genesis.go *)

(** [if len(flag) > 0 { d, err := fees.ParseDimensions(flag) ... }] *)
Definition flag_dimensions (flag : list string) (d : Dimensions) : res Dimensions :=
  match flag with [] => Ok d | _ :: _ => ParseDimensions flag end.

Definition set_fields (g : Genesis) (min_price max_units target : Dimensions) (gap empty_gap length : Z)
    (allocs : list (option CustomAllocation)) : Genesis := {|
  StateBranchFactor := StateBranchFactor g;
  MinBlockGap := gap;
  MinEmptyBlockGap := empty_gap;
  EpochLength := length;
  MinUnitPrice := min_price;
  UnitPriceChangeDenominator := UnitPriceChangeDenominator g;
  WindowTargetUnits := target;
  MaxBlockUnits := max_units;
  FeeMarketMinUnits := FeeMarketMinUnits g;
  FeeMarketWindowTargetUnits := FeeMarketWindowTargetUnits g;
  FeeMarketPriceChangeDenominator := FeeMarketPriceChangeDenominator g;
  ValidityWindow := ValidityWindow g;
  MaxActionsPerTx := MaxActionsPerTx g;
  MaxOutputsPerAction := MaxOutputsPerAction g;
  BaseComputeUnits := BaseComputeUnits g;
  StorageKeyReadUnits := StorageKeyReadUnits g;
  StorageValueReadUnits := StorageValueReadUnits g;
  StorageKeyAllocateUnits := StorageKeyAllocateUnits g;
  StorageValueAllocateUnits := StorageValueAllocateUnits g;
  StorageKeyWriteUnits := StorageKeyWriteUnits g;
  StorageValueWriteUnits := StorageValueWriteUnits g;
  CustomAllocations := allocs
|}.

(** [json.Unmarshal] of the allocations and [json.Marshal] of a genesis are
    arguments. *)
Definition genGenesisCmd (allocs_Unmarshal : bytes -> res (list (option CustomAllocation)))
    (genesis_Marshal : Genesis -> res bytes) (branchFactor16 : Z) f (args : list string) : M W unit :=
  arg ← lift (one_arg args);
  let g := Default branchFactor16 in
  min_price ← lift (flag_dimensions (minUnitPrice f) (MinUnitPrice g));
  max_units ← lift (flag_dimensions (maxBlockUnits f) (MaxBlockUnits g));
  target ← lift (flag_dimensions (windowTargetUnits f) (WindowTargetUnits g));
  let gap := if 0 <=? minBlockGap f then minBlockGap f else MinBlockGap g in
  let empty_gap := if 0 <=? minEmptyBlockGap f then minEmptyBlockGap f else MinEmptyBlockGap g in
  let length := if 0 <? epochLength f then epochLength f else EpochLength g in
  a ← ReadFile arg;
  allocs ← lift (allocs_Unmarshal a);
  b ← lift (genesis_Marshal (set_fields g min_price max_units target gap empty_gap length allocs));
  WriteFile (genesisFile f) b fsModeWrite.

(** ** key.go *)

Definition MustAddressBech32 (addr : Address) : res string :=
  match AddressBech32 HRP addr with
  | Ok s => Ok s
  | Err e => Panic (PMessage "MustAddressBech32")
  | Panic p => Panic p
  end.

(** The key of an address derived from it. *)
Definition key_of (p : ed25519_PrivateKey) (b : bytes) : PrivateKey :=
  {| pk_Address := NewED25519Address (ed25519_PublicKeyOf p); pk_Bytes := b |}.

Definition store_default (priv : PrivateKey) : M W unit :=
  StoreKey priv;;
  StoreDefaultKey (pk_Address priv);;
  lift (MustAddressBech32 (pk_Address priv));;
  mret tt.

Definition genKeyCmd : M W unit :=
  p ← ed25519_GeneratePrivateKey;
  store_default (key_of p (ed25519_PrivateKey_bytes p)).

Definition importKeyCmd (args : list string) : M W unit :=
  arg ← lift (one_arg args);
  p ← LoadBytes arg ed25519_PrivateKeyLen;
  store_default (key_of (ed25519_PrivateKeyOf p) p).

Definition lookupSetKeyBalance (choice : Z) (address uri : string) (networkID : Z) (chainID : ID) : M W unit :=
  r ← Client_Balance (NewJSONRPCClient uri networkID chainID) address;
  balance ← check_err r;
  mret tt.

Definition setKeyCmd : M W unit := SetKey lookupSetKeyBalance.

Definition lookupKeyBalance (addr : Address) (uri : string) (networkID : Z) (chainID _ : ID) : M W unit :=
  _ ← Handler_GetBalance (NewJSONRPCClient uri networkID chainID) addr;
  mret tt.

Definition balanceKeyCmd f : M W unit := Root_Balance (checkAllChains f) true lookupKeyBalance.

(** ** chain.go *)

Definition importChainCmd : M W unit := ImportChain.
Definition importANRChainCmd : M W unit := ImportANR.
Definition importAvalancheOpsChainCmd (args : list string) : M W unit :=
  arg ← lift (one_arg args);
  ImportOps arg.
Definition setChainCmd : M W unit := SetDefaultChain.
Definition chainInfoCmd : M W unit := PrintChainInfo.

(** [lastAccepted > window && lastAccepted-window > startBlock], on [uint64]. *)
Definition too_old (lastAccepted acceptedWindow startBlock : Z) : bool :=
  (u64 acceptedWindow <? lastAccepted) && (startBlock <? u64 (lastAccepted - u64 acceptedWindow)).

(** Where to start from, when past blocks are asked for. *)
Definition watch_start (pastBlocks : bool) : M W Z :=
  if negb pastBlocks then mret 0 else
  startBlock ← PromptUint64 "start block";
  a ← DefaultActor;
  '(_, lastAccepted, _) ← H_Accepted (actor_cli a);
  r ← Client_GetAcceptedBlockWindow (actor_tcli a);
  acceptedWindow ← check_err r;
  if too_old lastAccepted acceptedWindow startBlock then throw (Errorf "start block is too old" [])
  else mret startBlock.

(** On the world, next to captured variables. *)
Definition in_world {L A} (m : M W A) : M (W * L) A := fun '(w, l) =>
  let '(w', r) := m w in ((w', l), r).
Definition set_captured {L} (l : L) : M (W * L) unit := modify (fun '(w, _) => (w, l)).

(** A loop of the host, from initial values of the captured variables. *)
Definition with_captured {L A} (l : L) (m : M (W * L) A) : M W A := fun w =>
  let '((w', _), r) := m (w, l) in (w', r).

(** [cli.Parser(ctx)] on the client [cli] points to, which keeps the genesis it
    fetched. *)
Definition client_Parser {L} (cli : JSONRPCClient) : M (W * L) (JSONRPCClient * Client_Parser) := fun '(w, l) =>
  let '((cli', w'), r) := Client_parser (W := W) (cli, w) in
  ((w', l), r ← r; match r with
                   | (Some p, None) => Ok (cli', p)
                   | (_, Some err) => Err err
                   | (None, None) => Panic PNil
                   end).

(** What a line of output says. *)
Inductive Line :=
  | tx_failed (id : ID) (actor : string) (error : bytes) (fee maxFee : Z) (amount : string) (units : Dimensions)
  | tx_action (id : ID) (actor summary : string) (fee maxFee : Z) (amount : string) (units : Dimensions).

(** [fmt.Sprintf] of a byte slice with [%s]. *)
Definition Sprint_bytes (b : bytes) : string := String.string_of_list_byte b.

Definition transfer_summary (t : Transfer) : res string :=
  addr ← MustAddressBech32 (To t);
  let summary := String.append (FormatBalance (Value t) Decimals)
                   (String.append " " (String.append Symbol (String.append " -> " addr))) in
  Ok (if (0 <? length (Memo t))%nat
      then String.append summary (String.append " (memo: " (String.append (Sprint_bytes (Memo t)) ")"))
      else summary).

Definition action_summary (a : Action) : res string :=
  match a with
  | Act_Transfer t => transfer_summary t
  | _ => Ok ""%string
  end.

Definition Auth_actor (a : Auth) : Address :=
  match a with
  | Auth_BLS b => match BLS_Actor b with (_, Ok x) => x | _ => EmptyAddress end
  | Auth_ED25519 d => match ED25519_Actor d with (_, Ok x) => x | _ => EmptyAddress end
  end.

Fixpoint action_lines (tx : Tx) (result : Result) (actor : Address) (l : list Action) : res (list Line) :=
  match l with
  | [] => Ok []
  | act :: l =>
      summaryStr ← action_summary act;
      addr ← MustAddressBech32 actor;
      lines ← action_lines tx result actor l;
      Ok (tx_action (Tx_TxID tx) addr summaryStr (r_Fee result) (Tx_MaxFee tx)
            (FormatBalance (r_Fee result) Decimals) (r_Units result) :: lines)
  end.

Definition handleTx (tx : Tx) (result : Result) : res (list Line) :=
  let actor := Auth_actor (Tx_Auth tx) in
  if negb (r_Success result) then
    addr ← MustAddressBech32 actor;
    Ok [tx_failed (Tx_TxID tx) addr (Result_Error result) (r_Fee result) (Tx_MaxFee tx)
          (FormatBalance (r_Fee result) Decimals) (r_Units result)]
  else action_lines tx result actor (Tx_Actions tx).

(** The two callbacks share the variable [cli]; output is left out. *)
Definition watch_parser (uri : string) (networkID : Z) (chainID : ID)
    : M (W * option JSONRPCClient) Client_Parser :=
  let cli := NewJSONRPCClient uri networkID chainID in
  set_captured (Some cli);;
  '(cli, p) ← client_Parser cli;
  set_captured (Some cli);;
  mret p.

Definition watch_tx (tx : Tx) (result : Result) : M (W * option JSONRPCClient) unit :=
  '(_, cli) ← get;
  match cli with
  | None => mret tt
  | Some _ => lift (handleTx tx result);; mret tt
  end.

Definition watchChainCmd f : M W unit :=
  pastBlocks ← PromptBool "streaming from past blocks?";
  startBlock ← watch_start pastBlocks;
  with_captured None (WatchChain (hideTxs f) pastBlocks startBlock watch_parser watch_tx).

Definition testHeaderCmd : M W BlockHeadersResponse :=
  a ← DefaultActor;
  let start := 1702502928 in
  let end_ := 1702502930 in
  r ← Client_GetBlockHeadersByStartTimeStamp (actor_tcli a) (start * 1000) (end_ * 1000);
  check_err r.

(** The number of rollups that is printed. *)
Definition rollupsCmd : M W Z :=
  a ← DefaultActor;
  r ← Client_RollupRegistry (actor_tcli a);
  namespaces ← check_err r;
  mret (Z.of_nat (length namespaces)).

(** [updateArcadiaURL] of action.go *)
Definition updateArcadiaURLCmd : M W unit :=
  str ← PromptString "val rpc url" 1 100;
  str' ← PromptString "new arcadia url" 1 150;
  UpdateArcadiaURL str str'.

(** ** spam.go *)

(** [sclient] and [tclient] *)
Abbreviation SpamVars := (option WebSocketClient * option JSONRPCClient)%type.

Definition tclient : M (W * SpamVars) JSONRPCClient :=
  '(_, (_, tcli)) ← get;
  lift (match tcli with Some cli => Ok cli | None => Panic PNil end).

Definition spam_callbacks (fuel : nat) (priorityFee : Z) : SpamCallbacks W SpamVars := {|
  createClient uri networkID chainID :=
    modify (fun '(w, (scli, _)) => (w, (scli, Some (NewJSONRPCClient uri networkID chainID))));;
    sc ← in_world (NewWebSocketClient uri);
    modify (fun '(w, (_, tcli)) => (w, (Some sc, tcli)));
  getFactory priv := mret (Factory_ED25519 (ed25519_PrivateKeyOf (pk_Bytes priv)));
  createAccount :=
    p ← in_world ed25519_GeneratePrivateKey;
    mret (key_of p (ed25519_PrivateKey_bytes p));
  lookupBalance choice address :=
    cli ← tclient;
    r ← in_world (Client_Balance cli address);
    check_err r;
  getParser chainID :=
    cli ← tclient;
    '(cli, p) ← client_Parser cli;
    modify (fun '(w, (scli, _)) => (w, (scli, Some cli)));;
    mret p;
  getTransfer addr amount := [Act_Transfer {| To := addr; Value := amount; Memo := [] |}];
  (* the genesis [sendAndWait] fetches is not kept for the next call *)
  submitDummy cli priv count :=
    tcli ← tclient;
    '(_, (scli, _)) ← get;
    scli ← lift (match scli with Some s => Ok s | None => Panic PNil end);
    in_world (sendAndWait fuel [Act_Transfer {| To := pk_Address priv; Value := count; Memo := [] |}]
      {| actor_chainID := cli_chainID tcli; actor_Address := pk_Address priv;
         actor_factory := Factory_ED25519 (ed25519_PrivateKeyOf (pk_Bytes priv));
         actor_cli := cli; actor_scli := scli; actor_tcli := tcli |} priorityFee false);;
    mret tt
|}.

Definition runSpamCmd (fuel : nat) f : M W unit :=
  let maxFeeParsed := if 0 <=? maxFee f then Some (u64 (maxFee f)) else None in
  with_captured (None, None)
    (Spam (maxTxBacklog f) maxFeeParsed (randomRecipient f) (spam_callbacks fuel priorityFee)).

(** ** handler.go: what the host's command line asks of this chain *)

Record CliController := { databasePath : string }.
Definition NewController (path : string) : CliController := {| databasePath := path |}.
Definition CliController_DatabasePath (c : CliController) : string := databasePath c.
Definition CliController_Symbol (_ : CliController) : string := Symbol.
Definition CliController_Decimals (_ : CliController) : Z := Decimals.
Definition CliController_Address (_ : CliController) (addr : Address) : res string := MustAddressBech32 addr.
Definition CliController_ParseAddress (_ : CliController) (address : string) : res Address :=
  ParseAddressBech32 HRP address.
End shell.

(** ** The genesis file *)

(** A file read or written by name. *)
Class FilesSpec `{HostShell} := {
  files : W -> gmap string bytes;
  ReadFile_Ok p w w' b : ReadFile p w = (w', Ok b) -> files w !! p = Some b /\ files w' = files w;
  WriteFile_Ok p b m w w' : WriteFile p b m w = (w', Ok tt) -> files w' = <[p := b]> (files w)
}.

(** JSON without omitted fields: what is marshalled sets every field. *)
Definition json_sets_all (genesis_Marshal : Genesis -> res bytes) (json_Unmarshal : bytes -> Genesis -> res Genesis)
    : Prop :=
  forall g b, genesis_Marshal g = Ok b -> b <> [] /\ forall g0, json_Unmarshal b g0 = Ok g.

Lemma epoch_length_positive n : is_i64 n -> 0 < n -> u64 n <> 0.
Proof. unfold is_i64, u64. intros Hn Hp. rewrite Z.mod_small by (unfold u64_mod; lia). lia. Qed.

(** ** The key store *)

Class KeyStoreSpec `{HostShell} := {
  stored_key : W -> Address -> option bytes;
  default_key : W -> option Address;
  StoreKey_Ok k w w' : StoreKey k w = (w', Ok tt) -> stored_key w' (pk_Address k) = Some (pk_Bytes k);
  StoreDefaultKey_Ok a w w' : StoreDefaultKey a w = (w', Ok tt) ->
    default_key w' = Some a /\ forall a', stored_key w' a' = stored_key w a';
  GetDefaultKey_Ok w w' a b : GetDefaultKey w = (w', Ok (a, b)) ->
    default_key w = Some a /\ stored_key w a = Some b;
  PrivateKeyOf_bytes p : ed25519_PrivateKeyOf (ed25519_PrivateKey_bytes p) = p
}.

Section shell_facts.
Context `{HC : HyperConsts} {CO : Codec} {FE : Fees} {HA : HActions} {BC : BLSCrypto} {EC : ED25519Crypto}.
Context {TP : TypeParsers} {TX : Transactions} {W : Type} {RQ : Requester W} {HW : HostClient W}.
Context {HK : HostCli} {HSH : HostShell} {KSS : KeyStoreSpec}.

(** The default key of the store is a key of its address. *)
Definition default_key_ok (w : W) : Prop := exists p b,
  ed25519_PrivateKeyOf b = p /\ default_key w = Some (NewED25519Address (ed25519_PublicKeyOf p)) /\
  stored_key w (NewED25519Address (ed25519_PublicKeyOf p)) = Some b.

Lemma store_default_Ok p b w w' :
  ed25519_PrivateKeyOf b = p -> store_default (key_of p b) w = (w', Ok tt) -> default_key_ok w'.
Proof.
  intros Hb Hr. unfold store_default in Hr.
  apply bind_Ok_inv in Hr as (w1 & [] & H1 & Hr). apply bind_Ok_inv in Hr as (w2 & [] & H2 & Hr).
  apply bind_Ok_inv in Hr as (w3 & s & H3 & [= <-]). injection H3 as <- _.
  apply StoreKey_Ok in H1. apply StoreDefaultKey_Ok in H2 as [H2 H2'].
  exists p, b. split; [done|]. split; [done|]. by rewrite H2'.
Qed.

Lemma DefaultActor_key w w' (a : Actor) :
  default_key_ok w -> DefaultActor w = (w', Ok a) ->
  exists p, actor_factory a = Factory_ED25519 p /\ actor_Address a = ED25519Factory_Address p.
Proof.
  intros (p & b & Hb & Hd & Hs) Hr. unfold DefaultActor in Hr.
  apply bind_Ok_inv in Hr as (w1 & [addr priv] & H1 & Hr). apply GetDefaultKey_Ok in H1 as [H1 H2].
  apply bind_Ok_inv in Hr as (w2 & [ch uris] & _ & Hr). apply bind_Ok_inv in Hr as (w3 & uri & _ & Hr).
  cbv zeta in Hr. apply bind_Ok_inv in Hr as (w4 & net & _ & Hr).
  apply bind_Ok_inv in Hr as (w5 & scli & _ & [= _ <-]). exists p. cbn [actor_factory actor_Address].
  rewrite Hd in H1. injection H1 as <-. rewrite Hs in H2. injection H2 as <-. by rewrite Hb.
Qed.

Lemma ED25519_Sign_actor {CE : CryptoErrors} {ECS : ED25519CryptoSpec} p msg d :
  ED25519Factory_Sign p msg = Ok d ->
  snd (ED25519_Actor d) = Ok (ED25519Factory_Address p) /\ ED25519_Verify d msg = Ok tt.
Proof.
  intros [= <-]. split.
  - unfold ED25519_Actor, ED25519_address, cached_address. rewrite bind_get. cbn [ED_addr].
    by rewrite bool_decide_eq_true_2, bind_modify, bind_get by done.
  - unfold ED25519_Verify. cbn [ED_Signer ED_Signature]. by rewrite ed25519_Verify_Sign.
Qed.

(** A report has a line for a failure, or one for each action. *)
Lemma handleTx_lines tx result lines :
  handleTx tx result = Ok lines ->
  length lines = if r_Success result then length (Tx_Actions tx) else 1%nat.
Proof.
  unfold handleTx. destruct (r_Success result); cbn [negb].
  - generalize (Tx_Actions tx). intros l. revert lines. induction l as [|a l IH]; intros lines Hr.
    + by injection Hr as <-.
    + cbn [action_lines] in Hr. inv_ok Hr. inv_ok Hr. inv_ok Hr. injection Hr as <-. cbn [length]. f_equal. by apply IH.
  - intros Hr. inv_ok Hr. by injection Hr as <-.
Qed.
End shell_facts.

(** ** Properties *)

(** C23: A generated genesis is the one that was asked for. When [genesis generate]
    succeeds, a node started on the file it wrote reads back a genesis with the
    allocations of the file named in the arguments and the parameters of the
    flags, and the defaults for the rest; with the flags as they are by default,
    nothing but the allocations differs from the default genesis. Its epoch
    length is never zero as a [uint64], so no epoch of the chain divides by
    zero. *)
Theorem genGenesis_spec
    `{HC : HyperConsts} {CO : Codec} {FE : Fees} {BC : BLSCrypto} {EC : ED25519Crypto}
    {TP : TypeParsers} {TX : Transactions} {W : Type} {RQ : Requester W} {HW : HostClient W}
    {HK : HostCli} {HSH : HostShell} {FS : FilesSpec}
    allocs_Unmarshal genesis_Marshal json_Unmarshal (bf : Z) (f : Flags) (args : list string) (w : W) :
  json_sets_all genesis_Marshal json_Unmarshal -> is_i64 (epochLength f) ->
  wp (genGenesisCmd allocs_Unmarshal genesis_Marshal bf f args) w (fun w' o => o = Ok tt ->
    exists arg a raw g, args = [arg] /\ files w !! arg = Some a /\
      files w' !! genesisFile f = Some raw /\ New json_Unmarshal bf raw = Ok g /\
      allocs_Unmarshal a = Ok (CustomAllocations g) /\
      flag_dimensions (minUnitPrice f) (MinUnitPrice (Default bf)) = Ok (MinUnitPrice g) /\
      flag_dimensions (maxBlockUnits f) (MaxBlockUnits (Default bf)) = Ok (MaxBlockUnits g) /\
      flag_dimensions (windowTargetUnits f) (WindowTargetUnits (Default bf)) = Ok (WindowTargetUnits g) /\
      MinBlockGap g = (if 0 <=? minBlockGap f then minBlockGap f else 1000) /\
      MinEmptyBlockGap g = (if 0 <=? minEmptyBlockGap f then minEmptyBlockGap f else 1000) /\
      EpochLength g = (if 0 <? epochLength f then epochLength f else 6) /\
      (forall t network chain wl, epoch_length_ok (Genesis_Rules g t network chain wl)) /\
      (exists mp mu tu gap egap len, g = set_fields (Default bf) mp mu tu gap egap len (CustomAllocations g)) /\
      (forall unix, f = default_flags unix ->
         let d := Default bf in
         g = set_fields d (MinUnitPrice d) (MaxBlockUnits d) (WindowTargetUnits d) (MinBlockGap d)
               (MinEmptyBlockGap d) (EpochLength d) (CustomAllocations g))).
Proof.
  intros Hj Hi. apply wp_intro. intros w' o Hr ->. unfold genGenesisCmd in Hr.
  apply bind_Ok_inv in Hr as (w1 & arg & H1 & Hr). injection H1 as <- Harg. cbv zeta in Hr.
  apply bind_Ok_inv in Hr as (w1 & mp & H1 & Hr). injection H1 as <- Hmp.
  apply bind_Ok_inv in Hr as (w1 & mu & H1 & Hr). injection H1 as <- Hmu.
  apply bind_Ok_inv in Hr as (w1 & tu & H1 & Hr). injection H1 as <- Htu.
  apply bind_Ok_inv in Hr as (w1 & a & H1 & Hr). apply ReadFile_Ok in H1 as [Ha Hw1].
  apply bind_Ok_inv in Hr as (w2 & allocs & H2 & Hr). injection H2 as <- Hal.
  apply bind_Ok_inv in Hr as (w2 & raw & H2 & Hr). injection H2 as <- Hraw.
  apply WriteFile_Ok in Hr. destruct (Hj _ _ Hraw) as [Hne Hun].
  set (g := set_fields _ _ _ _ _ _ _ _) in *.
  assert (EpochLength g = if 0 <? epochLength f then epochLength f else 6) as Hlen by done.
  exists arg, a, raw, g. split_and!; try done.
  - destruct args as [|x [|y args]]; [done| |done]. by injection Harg as ->.
  - by rewrite Hr, lookup_insert_eq.
  - unfold New. destruct raw as [|x raw]; [done|]. cbn [length Nat.ltb Nat.leb]. by rewrite Hun.
  - intros t network chain wl. change (u64 (EpochLength g) <> 0). rewrite Hlen.
    destruct (Z.ltb_spec 0 (epochLength f)); [by apply epoch_length_positive|done].
  - by exists mp, mu, tu, (MinBlockGap g), (MinEmptyBlockGap g), (EpochLength g).
  - intros unix -> d. unfold g. injection Hmp as <-. injection Hmu as <-. by injection Htu as <-.
Qed.

(** C24: The actor of the command line is the owner of its key. After a key was
    generated or imported with success, the commands act with a factory and an
    address that belong together: every signature of the factory verifies, and
    the actor the chain takes from it, who pays and whose authority is checked,
    is the address the commands show and ask the balance of. *)
Theorem default_actor_owns_key
    `{HC : HyperConsts} {CO : Codec} {FE : Fees} {BC : BLSCrypto} {EC : ED25519Crypto}
    {ECS : ED25519CryptoSpec} {CE : CryptoErrors}
    {TP : TypeParsers} {TX : Transactions} {W : Type} {RQ : Requester W} {HW : HostClient W}
    {HK : HostCli} {HSH : HostShell} {KSS : KeyStoreSpec}
    (args : list string) (w w1 w2 : W) (a : Actor) :
  genKeyCmd w = (w1, Ok tt) \/ importKeyCmd args w = (w1, Ok tt) ->
  DefaultActor w1 = (w2, Ok a) ->
  exists p, actor_factory a = Factory_ED25519 p /\
    forall msg d, ED25519Factory_Sign p msg = Ok d ->
      snd (ED25519_Actor d) = Ok (actor_Address a) /\ ED25519_Verify d msg = Ok tt.
Proof.
  intros Hk Ha. assert (default_key_ok w1) as Hd.
  { destruct Hk as [Hk|Hk].
    - unfold genKeyCmd in Hk. apply bind_Ok_inv in Hk as (w' & p & _ & Hk).
      eapply store_default_Ok; [|exact Hk]. apply PrivateKeyOf_bytes.
    - unfold importKeyCmd in Hk. apply bind_Ok_inv in Hk as (w' & arg & _ & Hk).
      apply bind_Ok_inv in Hk as (w'' & b & _ & Hk). by eapply store_default_Ok. }
  destruct (DefaultActor_key _ _ _ Hd Ha) as (p & Hf & ->). exists p. split; [done|].
  intros msg d Hs. by apply ED25519_Sign_actor.
Qed.

(** When [watch] refuses a start block: exactly when it is older than the window
    the node keeps before its last block. *)
Theorem too_old_spec (lastAccepted acceptedWindow startBlock : Z) :
  is_u64 lastAccepted -> 0 <= acceptedWindow < 9223372036854775808 -> 0 <= startBlock ->
  too_old lastAccepted acceptedWindow startBlock = true <-> startBlock + acceptedWindow < lastAccepted.
Proof.
  unfold is_u64, too_old. intros Hl Hw Hs. rewrite (u64_small acceptedWindow) by (unfold is_u64, u64_mod; lia).
  rewrite andb_true_iff, !Z.ltb_lt. destruct (Z.lt_ge_cases acceptedWindow lastAccepted).
  - rewrite u64_small by (unfold is_u64; lia). lia.
  - lia.
Qed.
