(* ===== verification/Panels.v ===== *)
(** * Panels: the dashboard of a chain

    [src/cmd/seq-cli/cmd/prometheus.go]: the queries [prometheus generate] gives
    the host, one for each panel. *)

From stdpp Require Import base numbers countable gmap list strings.
From Stdlib Require Import ZArith Lia Strings.Byte Strings.Ascii.
From S2P Require Import Prelude HyperSDK State Wire Sample Storage Ledger Genesis Auth Actions.
From S2P Require Import ChainInv Transfer SequencerMsg Sha256 Auction EpochExit RollupRegister Registry.
From S2P Require Import RollupRegistry Block Commit Archiver Controller Server TxFee Client Cli CliHost.

Local Open Scope string_scope.

(** The queries of the host's command line and its generator. *)
Class HostPrometheus `{HC : HyperConsts, HK : HostCli} := {
  InboundBandwidth : string;
  InboundCompressionSavingsPercent : string;
  DecompressionTime : string;
  OutboundBandwidth : string;
  OutboundCompressionSavingsPercent : string;
  CompressionTime : string;
  OutboundFailed : string;
  GeneratePrometheus : string -> bool -> bool -> string -> string -> (ID -> list string) -> M W unit
}.

(** [fmt.Sprintf] of a format whose only verb is [%s]: each takes the next
    argument. *)
Fixpoint Sprintf (fmt : string) (args : list string) : string :=
  match fmt with
  | EmptyString => ""
  | String c rest =>
      if Ascii.eqb c "%" then
        match rest with
        | String s rest' =>
            if Ascii.eqb s "s" then
              match args with
              | a :: args => String.append a (Sprintf rest' args)
              | [] => String.append "%!s(MISSING)" (Sprintf rest' [])
              end
            else String c (Sprintf rest args)
        | EmptyString => String c ""
        end
      else String c (Sprintf rest args)
  end.

(** [fmt.Sprintf(format, chainID, ..., chainID)], [n] times *)
Definition chain_panel (fmt chainID : string) (n : nat) : string := Sprintf fmt (replicate n chainID).

Section panels.
Context `{HC : HyperConsts} {CO : Codec} {FE : Fees} {HA : HActions} {BC : BLSCrypto} {EC : ED25519Crypto}.
Context {TP : TypeParsers} {TX : Transactions} {W : Type} {RQ : Requester W} {HW : HostClient W}.
Context {BK : Blocks} {HK : HostCli} {HPR : HostPrometheus}.

Definition panels (id : ID) : list string :=
  let chainID := ID_String id in
  [chain_panel "increase(avalanche_%s_vm_hypersdk_chain_empty_block_built[5s])" chainID 1;
   chain_panel "increase(avalanche_%s_vm_hypersdk_chain_build_capped[5s])" chainID 1;
   chain_panel "increase(avalanche_%s_blks_accepted_count[5s])/5" chainID 1;
   chain_panel "increase(avalanche_%s_blks_rejected_count[5s])/5" chainID 1;
   chain_panel "avalanche_%s_vm_hypersdk_chain_bandwidth_price" chainID 1;
   chain_panel "avalanche_%s_vm_hypersdk_chain_compute_price" chainID 1;
   chain_panel "avalanche_%s_vm_hypersdk_chain_storage_read_price" chainID 1;
   chain_panel "avalanche_%s_vm_hypersdk_chain_storage_create_price" chainID 1;
   chain_panel "avalanche_%s_vm_hypersdk_chain_storage_modify_price" chainID 1;
   chain_panel "increase(avalanche_%s_vm_hypersdk_chain_build_capped[5s])/5" chainID 1;
   chain_panel "increase(avalanche_%s_vm_hypersdk_vm_txs_submitted[5s])/5" chainID 1;
   chain_panel "increase(avalanche_%s_vm_hypersdk_vm_txs_gossiped[5s])/5" chainID 1;
   chain_panel "increase(avalanche_%s_vm_hypersdk_vm_txs_received[5s])/5" chainID 1;
   chain_panel "increase(avalanche_%s_vm_hypersdk_vm_seen_txs_received[5s])/5" chainID 1;
   chain_panel "increase(avalanche_%s_vm_hypersdk_vm_txs_verified[5s])/5" chainID 1;
   chain_panel "increase(avalanche_%s_vm_hypersdk_vm_txs_accepted[5s])/5" chainID 1;
   chain_panel "increase(avalanche_%s_vm_hypersdk_chain_state_operations[5s])/5" chainID 1;
   chain_panel "increase(avalanche_%s_vm_hypersdk_chain_state_changes[5s])/5" chainID 1;
   chain_panel "increase(avalanche_%s_vm_hypersdk_chain_root_calculated_sum[5s])/1000000/5" chainID 1;
   chain_panel "increase(avalanche_%s_vm_hypersdk_chain_wait_root_sum[5s])/1000000/5" chainID 1;
   chain_panel "increase(avalanche_%s_vm_hypersdk_chain_wait_signatures_sum[5s])/1000000/5" chainID 1;
   chain_panel "avalanche_%s_vm_hypersdk_chain_mempool_size" chainID 1;
   "avalanche_resource_tracker_cpu_usage";
   "avalanche_go_memstats_alloc_bytes";
   chain_panel "avalanche_%s_vm_go_memstats_alloc_bytes" chainID 1;
   chain_panel "increase(avalanche_%s_handler_chits_sum[5s])/1000000/5 + increase(avalanche_%s_handler_notify_sum[5s])/1000000/5 + increase(avalanche_%s_handler_get_sum[5s])/1000000/5 + increase(avalanche_%s_handler_push_query_sum[5s])/1000000/5 + increase(avalanche_%s_handler_put_sum[5s])/1000000/5 + increase(avalanche_%s_handler_pull_query_sum[5s])/1000000/5 + increase(avalanche_%s_handler_query_failed_sum[5s])/1000000/5" chainID 7;
   InboundBandwidth;
   InboundCompressionSavingsPercent;
   DecompressionTime;
   OutboundBandwidth;
   OutboundCompressionSavingsPercent;
   CompressionTime;
   OutboundFailed;
   chain_panel "increase(avalanche_%s_vm_hypersdk_chain_block_build_sum[5s])/1000000/5" chainID 1;
   chain_panel "increase(avalanche_%s_vm_hypersdk_chain_block_parse_sum[5s])/1000000/5" chainID 1;
   chain_panel "increase(avalanche_%s_vm_hypersdk_chain_block_verify_sum[5s])/1000000/5" chainID 1;
   chain_panel "increase(avalanche_%s_vm_hypersdk_chain_block_accept_sum[5s])/1000000/5" chainID 1;
   chain_panel "increase(avalanche_%s_vm_hypersdk_chain_block_process_sum[5s])/1000000/5" chainID 1;
   chain_panel "increase(avalanche_%s_vm_state_merkleDB_intermediate_node_cache_hit[5s])/(increase(avalanche_%s_vm_state_merkleDB_intermediate_node_cache_miss[5s]) + increase(avalanche_%s_vm_state_merkleDB_intermediate_node_cache_hit[5s]))" chainID 3;
   chain_panel "increase(avalanche_%s_vm_state_merkleDB_value_node_cache_hit[5s])/(increase(avalanche_%s_vm_state_merkleDB_value_node_cache_miss[5s]) + increase(avalanche_%s_vm_state_merkleDB_value_node_cache_hit[5s]))" chainID 3].

Definition generatePrometheusCmd (f : Flags) : M W unit :=
  GeneratePrometheus (prometheusBaseURI f) (prometheusOpenBrowser f) (startPrometheus f)
    (prometheusFile f) (prometheusData f) panels.

(** ** Every verb has its argument *)

Fixpoint no_percent (s : string) : bool :=
  match s with
  | EmptyString => true
  | String c s => negb (Ascii.eqb c "%") && no_percent s
  end.

(** The format has [n] verbs and no other percent sign. *)
Fixpoint verbs (fmt : string) (n : nat) : bool :=
  match fmt with
  | EmptyString => (n =? 0)%nat
  | String c rest =>
      if Ascii.eqb c "%" then
        match rest with
        | String s rest' => Ascii.eqb s "s" && match n with O => false | S n => verbs rest' n end
        | EmptyString => false
        end
      else verbs rest n
  end.

Lemma no_percent_app a b : no_percent (String.append a b) = no_percent a && no_percent b.
Proof. induction a as [|c a IH]; simpl; [done|]. by rewrite IH, andb_assoc. Qed.

Lemma Sprintf_no_percent fmt args :
  verbs fmt (length args) = true -> Forall (fun a => no_percent a = true) args ->
  no_percent (Sprintf fmt args) = true.
Proof.
  cut (forall c, (forall args, verbs fmt (length args) = true -> Forall (fun a => no_percent a = true) args ->
        no_percent (Sprintf fmt args) = true) /\
      (forall args, verbs (String c fmt) (length args) = true -> Forall (fun a => no_percent a = true) args ->
        no_percent (Sprintf (String c fmt) args) = true)).
  { intros Hc. apply (Hc "a"%char). }
  induction fmt as [|d fmt IH]; intros c.
  - split; [done|]. intros l. cbn. by destruct (Ascii.eqb c "%") eqn:E; cbn; rewrite ?E.
  - split; [apply (IH d)|]. intros l Hv Hl. cbn [verbs Sprintf] in Hv |- *.
    destruct (Ascii.eqb c "%") eqn:Ec.
    + apply andb_true_iff in Hv as [Hs Hv]. rewrite Hs. destruct l as [|x l]; [done|].
      apply Forall_cons in Hl as [Hx Hl]. rewrite no_percent_app, Hx. by apply (IH d).
    + cbn [no_percent]. rewrite Ec. cbn [negb andb]. by apply (IH d).
Qed.

Lemma chain_panel_no_percent fmt chainID n :
  verbs fmt n = true -> no_percent chainID = true -> no_percent (chain_panel fmt chainID n) = true.
Proof.
  intros Hv Hc. apply Sprintf_no_percent; [by rewrite length_replicate|].
  apply Forall_forall. intros x Hx. by apply elem_of_replicate in Hx as [-> _].
Qed.

(** Every panel is a complete query: each verb of its format has an argument, so
    no query is left with a verb, or with the text that reports a missing
    one. *)
Theorem panels_complete (id : ID) :
  no_percent (ID_String id) = true ->
  Forall (fun h => no_percent h = true)
    [InboundBandwidth; InboundCompressionSavingsPercent; DecompressionTime; OutboundBandwidth;
     OutboundCompressionSavingsPercent; CompressionTime; OutboundFailed] ->
  Forall (fun p => no_percent p = true) (panels id) /\ length (panels id) = 40%nat.
Proof.
  intros Hid Hh. split; [|done]. rewrite Forall_forall in Hh. unfold panels.
  repeat (apply Forall_cons; split; [first
    [ apply chain_panel_no_percent; [vm_compute; reflexivity|exact Hid]
    | vm_compute; reflexivity
    | apply Hh; set_solver ]|]).
  apply Forall_nil. done.
Qed.
End panels.
