(* ===== verification/Initialize.v ===== *)
(** * Initialize: how a node is put together

    [Initialize] of [src/controller/controller.go], with [newMetrics] of
    [metrics.go]: the configuration, the genesis, the databases, the archive,
    the API and the block builder of a node, from the bytes it is started with.
    The host's constructors are parameters. *)

From stdpp Require Import base numbers countable gmap list strings.
From Stdlib Require Import ZArith Lia Strings.Byte.
From S2P Require Import Prelude HyperSDK State Wire Sample Storage Ledger Genesis Auth Actions.
From S2P Require Import ChainInv Transfer SequencerMsg Auction EpochExit RollupRegister Registry.
From S2P Require Import RollupRegistry Block Commit Archiver Config Controller Client.

Local Open Scope Z_scope.

(** [gossiper.ProposerConfig], as far as the repository sets it. *)
Record ProposerConfig := {
  pc_GossipMaxSize : Z;
  pc_GossipProposerDiff : Z;
  pc_GossipProposerDepth : Z;
  pc_NoGossipBuilderDiff : Z;
  pc_VerifyTimeout : Z
}.

(** What the host's virtual machine provides. A handler serves a controller,
    which it reaches through a pointer. *)
Class HostVM `{HostConfig} (D : Type) := {
  Gatherer : Type;
  prometheus_Register : string -> string -> option error;
  gatherer_Register : Gatherer -> string -> option error;
  BlockDB : Type;
  StateDB : Type;
  hstorage_New : string -> Gatherer -> res (BlockDB * StateDB * D);
  Handler : Type;
  NewJSONRPCHandler : string -> res Handler;
  Builder : Type;
  builder_NewManual : Builder;
  builder_NewTime : Builder;
  Gossiper : Type;
  gossiper_NewManual : Gossiper;
  gossiper_NewProposer : ProposerConfig -> res Gossiper
}.

(** [snow.Context], as far as the repository reads it. *)
Record snow_Context `{HyperConsts, HostConfig} := {
  snow_NodeID : NodeID;
  snow_NetworkID : Z;
  snow_ChainID : ID;
  snow_ChainDataDir : string
}.

Section initialize.
Context `{HC : HyperConsts} {CO : Codec} {HA : HActions} {SM : SafeMath} {BC : BLSCrypto} {EC : ED25519Crypto}.
Context {DE : DatabaseErrors} {SP : StatePermissions} {TP : TypeParsers} {GO : Gorm} {HO : HostConfig}.
Context {S : Type} {IM : Immutable S} {MU : Mutable S}.
Context {D : Type} {DR : KeyValueReader D} {VM : HostVM D}.

(** [errs.Err] after [errs.Add]: the first error. *)
Definition errs_Err (l : list (option error)) : option error := head (omap (fun e => e) l).

Definition metric_names : list string :=
  ["transfer"; "sequencer_msg"; "auction"; "rollup_register"; "epoch_exit"]%string.

Definition newMetrics_registered (gatherer : Gatherer) : res metrics :=
  let m := newMetrics in
  match errs_Err (map (prometheus_Register "actions") metric_names ++ [gatherer_Register gatherer Name]) with
  | Some e => Err e
  | None => Ok m
  end.

(** What [Initialize] leaves in the controller and returns. *)
Record Initialized := {
  i_controller : Controller (D := D);
  i_config : Config;
  i_archiver : DB;
  i_builder : Builder;
  i_gossiper : Gossiper;
  i_blockDB : BlockDB;
  i_stateDB : StateDB;
  i_apis : gmap string Handler;
  i_actionRegistry : TypeParser (M Packer Action);
  i_authRegistry : TypeParser (M Packer Auth);
  i_engines : gmap Z AuthEngine
}.

Definition set_archiver_DSN (dsn : string) (c : Settings) : Settings := {|
  AuthVerificationCores := AuthVerificationCores c;
  RootGenerationCores := RootGenerationCores c;
  TransactionExecutionCores := TransactionExecutionCores c;
  StateFetchConcurrency := StateFetchConcurrency c;
  GossipMaxSize := GossipMaxSize c;
  GossipProposerDiff := GossipProposerDiff c;
  GossipProposerDepth := GossipProposerDepth c;
  NoGossipBuilderDiff := NoGossipBuilderDiff c;
  VerifyTimeout := VerifyTimeout c;
  TraceEnabled := TraceEnabled c;
  TraceSampleRate := TraceSampleRate c;
  ContinuousProfilerDir := ContinuousProfilerDir c;
  StreamingBacklogSize := StreamingBacklogSize c;
  StoreBlockResultsOnDisk := StoreBlockResultsOnDisk c;
  MempoolSize := MempoolSize c;
  MempoolSponsorSize := MempoolSponsorSize c;
  MempoolExemptSponsors := MempoolExemptSponsors c;
  WhitelistedAddresses := WhitelistedAddresses c;
  VerifyAuth := VerifyAuth c;
  StoreTransactions := StoreTransactions c;
  TestMode := TestMode c;
  LogLevel := LogLevel c;
  StateSyncServerDelay := StateSyncServerDelay c;
  ETHRPCAddr := ETHRPCAddr c;
  ETHWSAddr := ETHWSAddr c;
  ArchiverConfig := {| ac_Enabled := ac_Enabled (ArchiverConfig c);
                       ArchiverType := ArchiverType (ArchiverConfig c); DSN := dsn |};
  ArcadiaURL := ArcadiaURL c;
  ValRPCConfig := ValRPCConfig c |}.

Definition with_settings (s : Settings) (c : Config) : Config := {|
  settings := s; loaded := loaded c; nodeID := nodeID c;
  parsedExemptSponsors := parsedExemptSponsors c;
  parsedWhiteListedAddresses := parsedWhiteListedAddresses c
|}.

(** [if c.config.ArchiverConfig.ArchiverType == "sqlite"] *)
Definition place_archive (ctx : snow_Context) (c : Config) : Config :=
  if bool_decide (ArchiverType (ArchiverConfig c) = "sqlite"%string)
  then with_settings (set_archiver_DSN
         (String.append "/tmp/sqlite." (String.append (NodeID_String (snow_NodeID ctx)) ".db")) (settings c)) c
  else c.

Definition proposer_config (c : Config) : ProposerConfig := {|
  pc_GossipMaxSize := GossipMaxSize c;
  pc_GossipProposerDiff := GossipProposerDiff c;
  pc_GossipProposerDepth := GossipProposerDepth c;
  pc_NoGossipBuilderDiff := NoGossipBuilderDiff c;
  pc_VerifyTimeout := VerifyTimeout c
|}.

(** The builder and the gossiper. *)
Definition builder_and_gossiper (c : Config) : res (Builder * Gossiper) :=
  if TestMode c then Ok (builder_NewManual, gossiper_NewManual)
  else
    gossip ← gossiper_NewProposer (proposer_config c);
    Ok (builder_NewTime, gossip).

(** [config_Unmarshal], [genesis_Unmarshal] and [branchFactor16] are what
    [config.New] and [genesis.New] take from elsewhere; the registries are the
    global ones, set by [init] before. *)
Definition Initialize (config_Unmarshal : bytes -> Settings -> res Settings)
    (genesis_Unmarshal : bytes -> Genesis -> res Genesis) (branchFactor16 : Z)
    (ctx : snow_Context) (gatherer : Gatherer) (genesisBytes upgradeBytes configBytes : bytes)
    : res Initialized :=
  '(actionRegistry, authRegistry) ← init;
  (* Instantiate metrics *)
  m ← newMetrics_registered gatherer;
  (* Load config and genesis *)
  config ← Config_New config_Unmarshal (snow_NodeID ctx) configBytes;
  genesis ← map_err (ErrWrap "unable to read genesis: %w" []) (New genesis_Unmarshal branchFactor16 genesisBytes);
  (* Create DBs *)
  '(blockDB, stateDB, metaDB) ← hstorage_New (snow_ChainDataDir ctx) gatherer;
  (* Create handlers *)
  jsonRPCHandler ← NewJSONRPCHandler Name;
  let config := place_archive ctx config in
  archiver ← NewORMArchiverFromConfig (ArchiverConfig config);
  (* Create builder and gossiper *)
  '(build, gossip) ← builder_and_gossiper config;
  Ok {| i_controller := {|
          c_genesis := genesis; c_networkID := snow_NetworkID ctx; c_chainID := snow_ChainID ctx;
          c_storeTransactions := GetStoreTransactions config;
          c_whiteListed := GetParsedWhiteListedAddress config;
          c_metaDB := metaDB; c_metrics := m; c_rollupRegistry := NewRollupRegistr; c_archive := [] |};
        i_config := config; i_archiver := archiver; i_builder := build; i_gossiper := gossip;
        i_blockDB := blockDB; i_stateDB := stateDB;
        i_apis := {[ JSONRPCEndpoint := jsonRPCHandler ]};
        i_actionRegistry := actionRegistry; i_authRegistry := authRegistry; i_engines := Engines |}.
End initialize.

(** ** What the controller starts from *)

Section placing.
Context `{HC : HyperConsts} {CO : Codec} {HO : HostConfig}.
Implicit Types (c : Config).

Lemma place_archive_opens ctx c :
  dialector_of (ArchiverConfig (place_archive ctx c)) =
  if bool_decide (ArchiverType (ArchiverConfig c) = "sqlite"%string)
  then sqlite_Open (String.append "/tmp/sqlite." (String.append (NodeID_String (snow_NodeID ctx)) ".db"))
  else dialector_of (ArchiverConfig c).
Proof.
  unfold place_archive. case_bool_decide as Ht; [|done].
  unfold dialector_of, with_settings, set_archiver_DSN. cbn [settings ArchiverConfig ArchiverType DSN].
  by rewrite Ht.
Qed.

Lemma place_archive_TestMode ctx c : TestMode (place_archive ctx c) = TestMode c.
Proof. unfold place_archive. by case_bool_decide. Qed.
Lemma place_archive_proposer ctx c : proposer_config (place_archive ctx c) = proposer_config c.
Proof. unfold place_archive. by case_bool_decide. Qed.
Lemma place_archive_white ctx c :
  GetParsedWhiteListedAddress (place_archive ctx c) = GetParsedWhiteListedAddress c.
Proof. unfold place_archive. by case_bool_decide. Qed.
End placing.

(** ** What the white list of the configuration decides *)

Section white_list.
Context `{HC : HyperConsts} {CO : Codec} {HA : HActions} {BC : BLSCrypto} {BS : BLSCryptoSpec} {HO : HostConfig}.
Context {SM : SafeMath} {DE : DatabaseErrors} {SP : StatePermissions}.
Context {S : Type} {IM : Immutable S} {MU : Mutable S}.

(** An address the configuration lists, as text. *)
Definition listed (conf : Config) (a : Address) : Prop :=
  exists x, x ∈ WhitelistedAddresses conf /\ ParseAddressBech32 HRP x = Ok a.

Lemma listed_parsed json_Unmarshal id b conf a :
  Config_New json_Unmarshal id b = Ok conf ->
  listed conf a <-> a ∈ GetParsedWhiteListedAddress conf.
Proof.
  intros (_ & _ & _ & Hf)%Config_New_spec. split.
  - intros (x & (i & Hi)%list_elem_of_lookup & Hp). destruct (Forall2_lookup_l _ _ _ _ _ Hf Hi) as (a' & Ha & Hp').
    rewrite Hp in Hp'. injection Hp' as <-. by eapply list_elem_of_lookup_2.
  - intros (i & Hi)%list_elem_of_lookup. destruct (Forall2_lookup_r _ _ _ _ _ Hf Hi) as (x & Hx & Hp).
    exists x. split; [by eapply list_elem_of_lookup_2|done].
Qed.

Lemma bid_needs_listing (rules : Rules) bid t h actor id (s : S) :
  is_ok (snd (Auction_Execute bid rules t h actor id s)) = true -> actor ∈ parsedWhiteListedAddress rules.
Proof using BS.
  destruct (Auction_Execute_cases bid rules t h actor id s) as [(Hb & _)|[[_ [e E]]|[_ E]]];
    [intros _; by destruct Hb|by rewrite E..].
Qed.
End white_list.

(** C30: a node starts as its configuration and genesis say. When [Initialize]
    succeeds, the configuration and the genesis parsed, and
    - the five action identifiers differ, and every action and signature type
      is read by the unmarshaller registered under its identifier;
    - at any time the rules are those of the genesis for this network and
      chain, the white list they carry passes exactly the addresses that the
      configuration lists as text, and so a bid executes under them only for an
      actor the configuration lists;
    - the databases are those the host opens in the chain's data directory, with
      what they hold; the archive is opened and migrated where the configuration
      says (for [sqlite], in the file named after the node);
    - blocks are built and gossiped by hand exactly in test mode, and otherwise
      gossiped with the configured limits; the API is served under its endpoint;
    - no rollup is served before a block is accepted. *)
Theorem Initialize_spec
    `{HC : HyperConsts} {CO : Codec} {HA : HActions} {BC : BLSCrypto} {BS : BLSCryptoSpec} {EC : ED25519Crypto}
    {SM : SafeMath} {DE : DatabaseErrors} {SP : StatePermissions}
    {TP : TypeParsers} {TPS : TypeParsersSpec} {GO : Gorm} {HO : HostConfig}
    {S : Type} {IM : Immutable S} {MU : Mutable S}
    {D : Type} {DR : KeyValueReader D} {VM : HostVM D}
    config_Unmarshal genesis_Unmarshal branchFactor16 (ctx : snow_Context) (gatherer : Gatherer)
    (genesisBytes upgradeBytes configBytes : bytes) (i : Initialized) :
  Initialize config_Unmarshal genesis_Unmarshal branchFactor16 ctx gatherer
    genesisBytes upgradeBytes configBytes = Ok i ->
  let rules := Controller_Rules (i_controller i) in
  exists conf g db,
    Config_New config_Unmarshal (snow_NodeID ctx) configBytes = Ok conf /\
    New genesis_Unmarshal branchFactor16 genesisBytes = Ok g /\
    (NoDup [TransferID; MsgID; RollupRegisterID; EpochExitID; AuctionID] /\
     (forall j u, (j, u) ∈ action_registrations -> LookupIndex (i_actionRegistry i) j = Some u) /\
     (forall j u, (j, u) ∈ auth_registrations -> LookupIndex (i_authRegistry i) j = Some u)) /\
    (forall t, rules_g (rules t) = g /\ networkID (rules t) = snow_NetworkID ctx /\
       chainID (rules t) = snow_ChainID ctx /\
       (forall a, isWhiteListed (rules t) a = Ok true <-> listed conf a) /\
       (forall bid ts h actor id (s : S),
          is_ok (snd (Auction_Execute bid (rules t) ts h actor id s)) = true -> listed conf actor)) /\
    hstorage_New (snow_ChainDataDir ctx) gatherer =
      Ok (i_blockDB i, i_stateDB i, c_metaDB (i_controller i)) /\
    gorm_Open
      (if bool_decide (ArchiverType (ArchiverConfig conf) = "sqlite"%string)
       then sqlite_Open (String.append "/tmp/sqlite."
              (String.append (NodeID_String (snow_NodeID ctx)) ".db"))
       else dialector_of (ArchiverConfig conf)) = Ok db /\
    NewORMArchiver db = Ok (i_archiver i) /\
    (if TestMode conf then i_builder i = builder_NewManual /\ i_gossiper i = gossiper_NewManual
     else i_builder i = builder_NewTime /\ gossiper_NewProposer (proposer_config conf) = Ok (i_gossiper i)) /\
    (exists h, NewJSONRPCHandler Name = Ok h /\ i_apis i = {[ JSONRPCEndpoint := h ]}) /\
    (forall e, RollupsValidAtEpoch (c_rollupRegistry (i_controller i)) e = []).
Proof.
  unfold Initialize. intros Hr.
  apply res_bind_Ok_inv in Hr as ([ar au] & Hi & Hr). apply res_bind_Ok_inv in Hr as (m & _ & Hr).
  apply res_bind_Ok_inv in Hr as (conf & Hc & Hr). apply res_bind_Ok_inv in Hr as (g & Hg & Hr).
  apply res_bind_Ok_inv in Hr as ([[b s] d] & Hd & Hr). apply res_bind_Ok_inv in Hr as (h & Hh & Hr). cbv zeta in Hr.
  apply res_bind_Ok_inv in Hr as (a & Ha & Hr). apply res_bind_Ok_inv in Hr as ([bu go] & Hb & Hr).
  injection Hr as <-. cbv zeta.
  destruct (New _ _ _) as [g'|e|p]; [|done..]. injection Hg as ->.
  unfold NewORMArchiverFromConfig in Ha. apply res_bind_Ok_inv in Ha as (db & Ho & Ha).
  exists conf, g, db. rewrite place_archive_opens in Ho. unfold builder_and_gossiper in Hb.
  rewrite place_archive_TestMode, place_archive_proposer in Hb.
  destruct init_spec as [Hids Htab].
  assert (forall x, x ∈ GetParsedWhiteListedAddress (place_archive ctx conf) <-> listed conf x) as Hl.
  { intros x. rewrite place_archive_white. symmetry. by eapply listed_parsed. }
  split_and!; try done.
  - apply Hids. by exists (ar, au).
  - by apply (Htab ar au).
  - by apply (Htab ar au).
  - intros t. split_and!; [done..| |].
    + intros x. rewrite isWhiteListed_eq, <- Hl, <- containsAddress_spec. cbn. split; [by intros [= ->]|by intros ->].
    + intros bid ts ht actor id u Hok. by apply Hl, (bid_needs_listing _ _ _ _ _ _ _ Hok).
  - destruct (TestMode conf); [by injection Hb as <- <-|].
    apply res_bind_Ok_inv in Hb as (go' & Hgo & Hb). by injection Hb as <- <-.
  - by exists h.
Qed.
