(* ===== verification/Binding.v ===== *)
(** * Binding: the Go binding of the sequencer contract

    [src/sequencer/sequencer.go], generated by abigen from the interface of the
    contract on Ethereum that verifies the chain's blocks. The generic contract
    of go-ethereum, which packs and sends the calls, is a parameter. Go's
    [select] takes any branch that is ready, so the iterators over logs and the
    watchers are step relations, with the steps of the subscription in between. *)

From stdpp Require Import base numbers countable gmap list strings.
From Stdlib Require Import ZArith Lia Strings.Byte.
From S2P Require Import Prelude.

Local Open Scope Z_scope.

(** ** The interface of the contract *)

Inductive abi_type :=
  | Uint256
  | UintTuple (fields : list string)    (** a struct of [uint256] fields *)
  | SliceOf (t : abi_type).

Inductive abi_entry :=
  | AbiError (name : string) (inputs : list (string * abi_type))
  | AbiEvent (name : string) (inputs : list (string * abi_type))
  | AbiFunction (name : string) (inputs outputs : list (string * abi_type)) (view : bool).

Definition WarpBlock_abi : abi_type :=
  UintTuple ["height"; "blockRoot"; "parentRoot"]%string.

(** The ABI, in the source a JSON text. *)
Definition SequencerMetaData : list abi_entry :=
  [AbiError "IncorrectBlockNumber" [("blockNumber", Uint256); ("expectedBlockNumber", Uint256)];
   AbiError "NoKeySelected" [];
   AbiError "NotEnoughStake" [];
   AbiError "TooManyBlocks" [("numBlocks", Uint256)];
   AbiEvent "NewBlock" [("blockNumber", Uint256)];
   AbiEvent "NewBlocks" [("firstBlockNumber", Uint256); ("numBlocks", Uint256)];
   AbiFunction "MAX_BLOCKS" [] [("", Uint256)] true;
   AbiFunction "addBlock" [("warp", WarpBlock_abi)] [] false;
   AbiFunction "blockHeight" [] [("", Uint256)] true;
   AbiFunction "commitments" [("blockHeight", Uint256)] [("commitment", Uint256)] true;
   AbiFunction "newBlocks" [("blocks", SliceOf WarpBlock_abi)] [] false]%string.

Record BoundWarpBlock := {
  wb_Height : Z;
  wb_BlockRoot : Z;
  wb_ParentRoot : Z
}.

(** The Go values that are passed as [interface{}]. *)
Inductive Val :=
  | VBig (n : Z)
  | VWarp (b : BoundWarpBlock)
  | VWarps (l : list BoundWarpBlock).

Definition val_has_type (v : Val) (t : abi_type) : bool :=
  match v, t with
  | VBig _, Uint256 => true
  | VWarp _, UintTuple [_; _; _] => true
  | VWarps _, SliceOf (UintTuple [_; _; _]) => true
  | _, _ => false
  end.

Fixpoint vals_have_types (vs : list Val) (ts : list (string * abi_type)) : bool :=
  match vs, ts with
  | [], [] => true
  | v :: vs, (_, t) :: ts => val_has_type v t && vals_have_types vs ts
  | _, _ => false
  end.

(** The function of a name, in an ABI. *)
Fixpoint abi_function (abi : list abi_entry) (name : string)
    : option (list (string * abi_type) * list (string * abi_type) * bool) :=
  match abi with
  | [] => None
  | AbiFunction n ins outs v :: abi => if String.eqb n name then Some (ins, outs, v) else abi_function abi name
  | _ :: abi => abi_function abi name
  end.

(** ** The package bind of go-ethereum *)

(** A subscription: the logs that can be received now, those it still has to
    send, and the error it ended with, once it has ended. *)
Record Feed (Log : Type) := {
  feed_ready : list Log;
  feed_pending : list Log;
  feed_ended : option (option error)
}.
Arguments feed_ready {Log}.
Arguments feed_pending {Log}.
Arguments feed_ended {Log}.

Class EthBind (W : Type) := {
  CallOpts : Type;
  TransactOpts : Type;
  FilterOpts : Type;
  WatchOpts : Type;
  EthAddress : Type;
  EthTransaction : Type;
  Log : Type;
  Log_zero : Log;
  ContractCaller : Type;
  ContractTransactor : Type;
  ContractFilterer : Type;
  ContractBackend : Type;
  as_caller : ContractBackend -> ContractCaller;
  as_transactor : ContractBackend -> ContractTransactor;
  as_filterer : ContractBackend -> ContractFilterer;
  ParsedABI : Type;
  BoundContract : Type;
  GetAbi : list abi_entry -> res (option ParsedABI);
  DeployContract : TransactOpts -> ParsedABI -> bytes -> ContractBackend ->
    M W (EthAddress * EthTransaction * BoundContract);
  NewBoundContract : EthAddress -> ParsedABI -> option ContractCaller -> option ContractTransactor ->
    option ContractFilterer -> BoundContract;
  bc_Call : BoundContract -> CallOpts -> string -> list Val -> M W (list Val);
  bc_Transact : BoundContract -> TransactOpts -> string -> list Val -> M W EthTransaction;
  bc_Transfer : BoundContract -> TransactOpts -> M W EthTransaction;
  bc_FilterLogs : BoundContract -> FilterOpts -> string -> M W (Feed Log);
  bc_WatchLogs : BoundContract -> WatchOpts -> string -> M W (Feed Log);
  (** the arguments of the event, by name, or an error *)
  bc_UnpackLog : BoundContract -> string -> Log -> error + list (string * Z)
}.

(** ** The bindings *)

Section binding.
Context {W : Type} {EB : EthBind W}.

Record SequencerCaller := { sc_contract : BoundContract }.
Record SequencerTransactor := { st_contract : BoundContract }.
Record SequencerFilterer := { sf_contract : BoundContract }.

Record Sequencer := {
  seq_Caller : SequencerCaller;
  seq_Transactor : SequencerTransactor;
  seq_Filterer : SequencerFilterer
}.

Definition Sequencer_of (c : BoundContract) : Sequencer := {|
  seq_Caller := {| sc_contract := c |};
  seq_Transactor := {| st_contract := c |};
  seq_Filterer := {| sf_contract := c |} |}.

Definition DeploySequencerContract (auth : TransactOpts) (backend : ContractBackend)
    : M W (EthAddress * EthTransaction * Sequencer) :=
  parsed ← lift (GetAbi SequencerMetaData);
  match parsed with
  | None => throw (ErrNew "GetABI returned nil")
  | Some parsed =>
      '(address, tx, contract) ← DeployContract auth parsed [] backend;
      mret (address, tx, Sequencer_of contract)
  end.

(** [*parsed] is not checked here. *)
Definition bindSequencer (address : EthAddress) (caller : option ContractCaller)
    (transactor : option ContractTransactor) (filterer : option ContractFilterer) : res BoundContract :=
  parsed ← GetAbi SequencerMetaData;
  match parsed with
  | None => Panic PNil
  | Some parsed => Ok (NewBoundContract address parsed caller transactor filterer)
  end.

Definition NewSequencer (address : EthAddress) (backend : ContractBackend) : res Sequencer :=
  contract ← bindSequencer address (Some (as_caller backend)) (Some (as_transactor backend))
               (Some (as_filterer backend));
  Ok (Sequencer_of contract).

Definition NewSequencerCaller (address : EthAddress) (caller : ContractCaller) : res SequencerCaller :=
  contract ← bindSequencer address (Some caller) None None;
  Ok {| sc_contract := contract |}.

Definition NewSequencerTransactor (address : EthAddress) (transactor : ContractTransactor)
    : res SequencerTransactor :=
  contract ← bindSequencer address None (Some transactor) None;
  Ok {| st_contract := contract |}.

Definition NewSequencerFilterer (address : EthAddress) (filterer : ContractFilterer)
    : res SequencerFilterer :=
  contract ← bindSequencer address None None (Some filterer);
  Ok {| sf_contract := contract |}.

(** *** Raw bindings *)

Record SequencerRaw := { raw_Contract : Sequencer }.
Record SequencerCallerRaw := { craw_Contract : SequencerCaller }.
Record SequencerTransactorRaw := { traw_Contract : SequencerTransactor }.

Definition Raw_Call (r : SequencerRaw) (opts : CallOpts) (method : string) (params : list Val)
    : M W (list Val) :=
  bc_Call (sc_contract (seq_Caller (raw_Contract r))) opts method params.
Definition Raw_Transfer (r : SequencerRaw) (opts : TransactOpts) : M W EthTransaction :=
  bc_Transfer (st_contract (seq_Transactor (raw_Contract r))) opts.
Definition Raw_Transact (r : SequencerRaw) (opts : TransactOpts) (method : string) (params : list Val)
    : M W EthTransaction :=
  bc_Transact (st_contract (seq_Transactor (raw_Contract r))) opts method params.
Definition CallerRaw_Call (r : SequencerCallerRaw) (opts : CallOpts) (method : string)
    (params : list Val) : M W (list Val) :=
  bc_Call (sc_contract (craw_Contract r)) opts method params.
Definition TransactorRaw_Transfer (r : SequencerTransactorRaw) (opts : TransactOpts) : M W EthTransaction :=
  bc_Transfer (st_contract (traw_Contract r)) opts.
Definition TransactorRaw_Transact (r : SequencerTransactorRaw) (opts : TransactOpts)
    (method : string) (params : list Val) : M W EthTransaction :=
  bc_Transact (st_contract (traw_Contract r)) opts method params.

(** *** Reading the contract *)

(** [*abi.ConvertType(out[0], new( *big.Int)).( **big.Int)] *)
Definition out_big (out : list Val) : res Z :=
  match out with
  | [] => Panic PIndex
  | VBig n :: _ => Ok n
  | _ :: _ => Panic PTypeAssert
  end.

Definition MAXBLOCKS (c : SequencerCaller) (opts : CallOpts) : M W Z :=
  out ← bc_Call (sc_contract c) opts "MAX_BLOCKS" [];
  lift (out_big out).

Definition BlockHeight (c : SequencerCaller) (opts : CallOpts) : M W Z :=
  out ← bc_Call (sc_contract c) opts "blockHeight" [];
  lift (out_big out).

Definition Commitments (c : SequencerCaller) (opts : CallOpts) (blockHeight : Z) : M W Z :=
  out ← bc_Call (sc_contract c) opts "commitments" [VBig blockHeight];
  lift (out_big out).

(** *** Writing to it *)

Definition AddBlock (t : SequencerTransactor) (opts : TransactOpts) (warp : BoundWarpBlock)
    : M W EthTransaction :=
  bc_Transact (st_contract t) opts "addBlock" [VWarp warp].

Definition NewBlocks (t : SequencerTransactor) (opts : TransactOpts) (blocks : list BoundWarpBlock)
    : M W EthTransaction :=
  bc_Transact (st_contract t) opts "newBlocks" [VWarps blocks].

(** *** Sessions: a binding with its options *)

Record SequencerSession := {
  ss_Contract : Sequencer;
  ss_CallOpts : CallOpts;
  ss_TransactOpts : TransactOpts
}.
Record SequencerCallerSession := { cs_Contract : SequencerCaller; cs_CallOpts : CallOpts }.
Record SequencerTransactorSession := { ts_Contract : SequencerTransactor; ts_TransactOpts : TransactOpts }.

Definition Session_MAXBLOCKS (s : SequencerSession) : M W Z :=
  MAXBLOCKS (seq_Caller (ss_Contract s)) (ss_CallOpts s).
Definition Session_BlockHeight (s : SequencerSession) : M W Z :=
  BlockHeight (seq_Caller (ss_Contract s)) (ss_CallOpts s).
Definition Session_Commitments (s : SequencerSession) (blockHeight : Z) : M W Z :=
  Commitments (seq_Caller (ss_Contract s)) (ss_CallOpts s) blockHeight.
Definition Session_AddBlock (s : SequencerSession) (warp : BoundWarpBlock) : M W EthTransaction :=
  AddBlock (seq_Transactor (ss_Contract s)) (ss_TransactOpts s) warp.
Definition Session_NewBlocks (s : SequencerSession) (blocks : list BoundWarpBlock) : M W EthTransaction :=
  NewBlocks (seq_Transactor (ss_Contract s)) (ss_TransactOpts s) blocks.
Definition CallerSession_MAXBLOCKS (s : SequencerCallerSession) : M W Z :=
  MAXBLOCKS (cs_Contract s) (cs_CallOpts s).
Definition CallerSession_BlockHeight (s : SequencerCallerSession) : M W Z :=
  BlockHeight (cs_Contract s) (cs_CallOpts s).
Definition CallerSession_Commitments (s : SequencerCallerSession) (blockHeight : Z) : M W Z :=
  Commitments (cs_Contract s) (cs_CallOpts s) blockHeight.
Definition TransactorSession_AddBlock (s : SequencerTransactorSession) (warp : BoundWarpBlock)
    : M W EthTransaction := AddBlock (ts_Contract s) (ts_TransactOpts s) warp.
Definition TransactorSession_NewBlocks (s : SequencerTransactorSession) (blocks : list BoundWarpBlock)
    : M W EthTransaction := NewBlocks (ts_Contract s) (ts_TransactOpts s) blocks.
End binding.

(** ** Events *)

Section events.
Context {W : Type} {EB : EthBind W}.

(** The argument of a name; a field no argument has is a nil pointer. *)
Fixpoint event_arg (name : string) (args : list (string * Z)) : option Z :=
  match args with
  | [] => None
  | (n, z) :: args => if String.eqb n name then Some z else event_arg name args
  end.

Record SequencerNewBlock := { nb_BlockNumber : option Z; nb_Raw : Log }.

Record SequencerNewBlocks := {
  nbs_FirstBlockNumber : option Z;
  nbs_NumBlocks : option Z;
  nbs_Raw : Log
}.

(** The code of the two events differs in the type of the event and its name. *)
Class EthEvent (Ev : Type) := {
  event_name : string;
  event_new : Ev;                                 (** [new(T)] *)
  event_of : list (string * Z) -> Log -> Ev       (** filled by [UnpackLog], with its [Raw] *)
}.

#[export] Instance NewBlock_event : EthEvent SequencerNewBlock := {|
  event_name := "NewBlock";
  event_new := {| nb_BlockNumber := None; nb_Raw := Log_zero |};
  event_of args log := {| nb_BlockNumber := event_arg "blockNumber" args; nb_Raw := log |}
|}.

#[export] Instance NewBlocks_event : EthEvent SequencerNewBlocks := {|
  event_name := "NewBlocks";
  event_new := {| nbs_FirstBlockNumber := None; nbs_NumBlocks := None; nbs_Raw := Log_zero |};
  event_of args log := {| nbs_FirstBlockNumber := event_arg "firstBlockNumber" args;
                          nbs_NumBlocks := event_arg "numBlocks" args; nbs_Raw := log |}
|}.

End events.

Section generic_events.
Context {W : Type} {EB : EthBind W} {Ev : Type} {EE : EthEvent Ev}.
Implicit Types (f : Feed Log).

(** [event := new(T)], [UnpackLog(event, ...)], [event.Raw = log] *)
Definition ParseEvent (c : SequencerFilterer) (log : Log) : res Ev :=
  match bc_UnpackLog (sf_contract c) event_name log with
  | inl e => Err e
  | inr args => Ok (event_of args log)
  end.

(** *** Subscriptions *)

(** What the goroutine of a subscription does: it sends a log, or it ends,
    without an error only when it has sent everything. *)
Inductive feed_step : Feed Log -> Feed Log -> Prop :=
  | feed_send l log p :
      feed_step {| feed_ready := l; feed_pending := log :: p; feed_ended := None |}
                {| feed_ready := l ++ [log]; feed_pending := p; feed_ended := None |}
  | feed_end l p e :
      (e = None -> p = []) ->
      feed_step {| feed_ready := l; feed_pending := p; feed_ended := None |}
                {| feed_ready := l; feed_pending := p; feed_ended := Some e |}.

(** [<-logs] *)
Definition feed_pop f : Feed Log :=
  {| feed_ready := tail (feed_ready f); feed_pending := feed_pending f; feed_ended := feed_ended f |}.

(** *** Iterators *)

Record Iterator := {
  it_Event : option Ev;
  it_contract : BoundContract;
  it_event : string;
  it_done : bool;
  it_fail : option error
}.

Definition FilterEvent (c : SequencerFilterer) (opts : FilterOpts) : M W (Iterator * Feed Log) :=
  feed ← bc_FilterLogs (sf_contract c) opts event_name;
  mret ({| it_Event := None; it_contract := sf_contract c; it_event := event_name;
           it_done := false; it_fail := None |}, feed).

(** A log was received. *)
Definition deliver (it : Iterator) (log : Log) : Iterator * bool :=
  match bc_UnpackLog (it_contract it) (it_event it) log with
  | inr args => ({| it_Event := Some (event_of args log); it_contract := it_contract it;
                    it_event := it_event it; it_done := it_done it; it_fail := it_fail it |}, true)
  | inl e => ({| it_Event := Some event_new; it_contract := it_contract it;
                 it_event := it_event it; it_done := it_done it; it_fail := Some e |}, false)
  end.

Definition it_ended (it : Iterator) (e : option error) : Iterator := {|
  it_Event := it_Event it; it_contract := it_contract it; it_event := it_event it;
  it_done := true; it_fail := e |}.

(** [Next it f it' f' b]: a call of [it.Next()] may return [b]. While it waits,
    the subscription moves. *)
Inductive Next : Iterator -> Feed Log -> Iterator -> Feed Log -> bool -> Prop :=
  | next_failed it f e : it_fail it = Some e -> Next it f it f false
  | next_drain it f log l it' b :
      it_fail it = None -> it_done it = true -> feed_ready f = log :: l ->
      deliver it log = (it', b) -> Next it f it' (feed_pop f) b
  | next_default it f :
      it_fail it = None -> it_done it = true -> feed_ready f = [] -> Next it f it f false
  | next_log it f log l it' b :
      it_fail it = None -> it_done it = false -> feed_ready f = log :: l ->
      deliver it log = (it', b) -> Next it f it' (feed_pop f) b
  | next_err it f e it' f' b :
      it_fail it = None -> it_done it = false -> feed_ended f = Some e ->
      Next (it_ended it e) f it' f' b -> Next it f it' f' b
  | next_wait it f f1 it' f' b :
      it_fail it = None -> it_done it = false -> feed_step f f1 ->
      Next it f1 it' f' b -> Next it f it' f' b.

Definition it_Error (it : Iterator) : option error := it_fail it.

(** [it.sub.Unsubscribe()]: the goroutine stops sending and ends without an error. *)
Definition it_Close f : Feed Log := {|
  feed_ready := feed_ready f; feed_pending := [];
  feed_ended := match feed_ended f with None => Some None | e => e end |}.

(** [for it.Next() { use(it.Event) }], with the events it uses. *)
Inductive iterate : Iterator -> Feed Log -> list Ev -> Iterator -> Prop :=
  | iterate_stop it f it' f' : Next it f it' f' false -> iterate it f [] it'
  | iterate_more it f it1 f1 ev evs it' :
      Next it f it1 f1 true -> it_Event it1 = Some ev -> iterate it1 f1 evs it' ->
      iterate it f (ev :: evs) it'
  | iterate_feed it f f1 evs it' : feed_step f f1 -> iterate it f1 evs it' -> iterate it f evs it'.

(** *** Watchers *)

(** The goroutine of a watch: it waits for a log, or to hand over an event, or
    it has returned. *)
Inductive watch_phase :=
  | Receiving
  | Sending (ev : Ev)
  | Returned (e : option error).

Record Watch := {
  wa_contract : SequencerFilterer;
  wa_phase : watch_phase;
  wa_sink : list Ev;           (** what the user received *)
  wa_unsubscribed : bool
}.

Definition WatchEvent (c : SequencerFilterer) (opts : WatchOpts) : M W (Watch * Feed Log) :=
  feed ← bc_WatchLogs (sf_contract c) opts event_name;
  mret ({| wa_contract := c; wa_phase := Receiving; wa_sink := []; wa_unsubscribed := false |}, feed).

Definition wa_next (w : Watch) (p : watch_phase) : Watch := {|
  wa_contract := wa_contract w; wa_phase := p; wa_sink := wa_sink w;
  wa_unsubscribed := wa_unsubscribed w |}.

(** [return err], with the deferred [sub.Unsubscribe()] *)
Definition wa_return (w : Watch) (e : option error) : Watch := {|
  wa_contract := wa_contract w; wa_phase := Returned e; wa_sink := wa_sink w; wa_unsubscribed := true |}.

(** [case sink <- event] *)
Definition wa_sent (w : Watch) (ev : Ev) : Watch := {|
  wa_contract := wa_contract w; wa_phase := Receiving; wa_sink := wa_sink w ++ [ev];
  wa_unsubscribed := wa_unsubscribed w |}.

Definition returned (p : watch_phase) : bool := match p with Returned _ => true | _ => false end.

Inductive watch_step : Watch * Feed Log -> Watch * Feed Log -> Prop :=
  | watch_log w f log l :
      wa_phase w = Receiving -> feed_ready f = log :: l ->
      watch_step (w, f)
        (match ParseEvent (wa_contract w) log with
         | Ok ev => wa_next w (Sending ev)
         | Err e => wa_return w (Some e)
         | Panic _ => w
         end, feed_pop f)
  | watch_sink w f ev : wa_phase w = Sending ev -> watch_step (w, f) (wa_sent w ev, f)
  | watch_err w f e :
      returned (wa_phase w) = false -> feed_ended f = Some e -> watch_step (w, f) (wa_return w e, f)
  | watch_quit w f : returned (wa_phase w) = false -> watch_step (w, f) (wa_return w None, f)
  | watch_feed w f f' : feed_step f f' -> watch_step (w, f) (w, f').

(** Any number of steps. *)
Inductive watched : Watch * Feed Log -> Watch * Feed Log -> Prop :=
  | watched_start x : watched x x
  | watched_step x y z : watched x y -> watch_step y z -> watched x z.

End generic_events.

(** *** The two events *)

Section two_events.
Context {W : Type} {EB : EthBind W}.

Definition NewBlockIterator_Next := Next (Ev := SequencerNewBlock).
Definition NewBlockIterator_Error := it_Error (Ev := SequencerNewBlock).
Definition NewBlockIterator_Close : Feed Log -> Feed Log := it_Close.
Definition FilterNewBlock := FilterEvent (Ev := SequencerNewBlock).
Definition WatchNewBlock := WatchEvent (Ev := SequencerNewBlock).
Definition ParseNewBlock := ParseEvent (Ev := SequencerNewBlock).

Definition NewBlocksIterator_Next := Next (Ev := SequencerNewBlocks).
Definition NewBlocksIterator_Error := it_Error (Ev := SequencerNewBlocks).
Definition NewBlocksIterator_Close : Feed Log -> Feed Log := it_Close.
Definition FilterNewBlocks := FilterEvent (Ev := SequencerNewBlocks).
Definition WatchNewBlocks := WatchEvent (Ev := SequencerNewBlocks).
Definition WatchNewBlocks_step := watch_step (Ev := SequencerNewBlocks).
Definition ParseNewBlocks := ParseEvent (Ev := SequencerNewBlocks).
End two_events.

(** ** Facts *)

Section event_facts.
Context {W : Type} {EB : EthBind W} {Ev : Type} {EE : EthEvent Ev}.
Implicit Types (f : Feed Log) (it : Iterator (Ev := Ev)) (w : Watch (Ev := Ev)).

(** The logs that were not received yet. *)
Definition remaining f : list Log := feed_ready f ++ feed_pending f.

Lemma feed_step_remaining f f' : feed_step f f' -> remaining f' = remaining f.
Proof. destruct 1; unfold remaining; simpl; [by rewrite <- app_assoc|done]. Qed.

Lemma feed_pop_remaining f log l : feed_ready f = log :: l -> remaining f = log :: remaining (feed_pop f).
Proof. unfold remaining, feed_pop. simpl. by intros ->. Qed.

(** What an iterator still has to deliver of [f] when it is done. *)
Definition iter_ok (it : Iterator (Ev := Ev)) f : Prop :=
  (feed_ended f = Some None -> feed_pending f = []) /\
  (it_done it = true -> it_fail it = None -> feed_ended f = Some None).

Lemma iter_ok_pop it f : iter_ok it f -> iter_ok it (feed_pop f).
Proof. done. Qed.

(** A feed that is over does not move. *)
Lemma iter_ok_feed it f f' : iter_ok it f -> feed_step f f' -> iter_ok it f'.
Proof.
  intros [H1 H2] Hs. destruct Hs as [l log p|l p e He]; split; simpl in *; try done.
  - intros [= ->]. by apply He.
  - intros Hd Hf. by specialize (H2 Hd Hf).
Qed.

Definition parses (it : Iterator (Ev := Ev)) (log : Log) (ev : Ev) : Prop :=
  exists args, bc_UnpackLog (it_contract it) (it_event it) log = inr args /\ ev = event_of args log.

Lemma deliver_true it log it' :
  deliver it log = (it', true) ->
  (exists ev, it_Event it' = Some ev /\ parses it log ev) /\ it_contract it' = it_contract it /\
  it_event it' = it_event it /\ it_done it' = it_done it /\ it_fail it' = it_fail it.
Proof.
  unfold deliver, parses. destruct (bc_UnpackLog _ _ _) as [e|args] eqn:E; [done|].
  intros [= <-]. simpl. eauto 10.
Qed.

Lemma deliver_false it log it' : deliver it log = (it', false) -> it_fail it' <> None.
Proof. unfold deliver. destruct (bc_UnpackLog _ _ _); [|done]. by intros [= <-]. Qed.

(** What a call of [Next] may do: it received a log, or, without an error, found
    none left. *)
Definition next_ok (it : Iterator (Ev := Ev)) f (it' : Iterator (Ev := Ev)) f' (b : bool) : Prop :=
  if b then exists log ev, remaining f = log :: remaining f' /\ it_Event it' = Some ev /\
         parses it log ev /\ it_contract it' = it_contract it /\ it_event it' = it_event it /\
         iter_ok it' f'
  else it_fail it' = None -> remaining f = [].

Lemma deliver_next it f log l it' b :
  feed_ready f = log :: l -> deliver it log = (it', b) -> iter_ok it f ->
  next_ok it f it' (feed_pop f) b.
Proof.
  intros Hr Hdel [H1 H2]. destruct b; simpl.
  - apply deliver_true in Hdel as ((ev & He & Hp) & Hc & Hn & Hd & Hf).
    exists log, ev. split; [by eapply feed_pop_remaining|].
    split_and!; try done. unfold iter_ok, feed_pop. simpl. rewrite Hd, Hf. done.
  - by apply deliver_false in Hdel.
Qed.

Lemma Next_inv it f it' f' b : Next it f it' f' b -> iter_ok it f -> next_ok it f it' f' b.
Proof.
  induction 1 as [it f e Hf|it f log l it' b Hf Hd Hr Hdel|it f Hf Hd Hr|it f log l it' b Hf Hd Hr Hdel
                 |it f e it' f' b Hf Hd He _ IH|it f f1 it' f' b Hf Hd Hs _ IH]; intros Hok.
  - unfold next_ok. congruence.
  - by eapply deliver_next.
  - intros _. unfold remaining. rewrite Hr. apply Hok. by apply Hok.
  - by eapply deliver_next.
  - apply IH. split; [apply Hok|]. simpl. intros _ ->. done.
  - pose proof (IH (iter_ok_feed _ _ _ Hok Hs)) as Hn. unfold next_ok in *.
    by rewrite (feed_step_remaining _ _ Hs) in Hn.
Qed.

Lemma iterate_inv it f evs it' :
  iterate it f evs it' -> iter_ok it f ->
  exists l1 l2, remaining f = l1 ++ l2 /\ Forall2 (parses it) l1 evs /\ (it_fail it' = None -> l2 = []).
Proof.
  induction 1 as [it f it' f' Hn|it f it1 f1 ev evs it' Hn He _ IH|it f f1 evs it' Hs _ IH]; intros Hok.
  - exists [], (remaining f). split; [done|]. split; [constructor|]. exact (Next_inv _ _ _ _ _ Hn Hok).
  - destruct (Next_inv _ _ _ _ _ Hn Hok) as (log & ev' & Hr & He' & Hp & Hc & Hn' & Hok').
    rewrite He in He'. injection He' as <-.
    destruct (IH Hok') as (l1 & l2 & Hl & Hall & Hf). exists (log :: l1), l2.
    split; [by rewrite Hr, Hl|]. split; [|done]. constructor; [done|].
    eapply Forall2_impl; [exact Hall|]. intros x y (args & Ha & ->). exists args.
    by rewrite <- Hc, <- Hn'.
  - rewrite <- (feed_step_remaining _ _ Hs). apply IH. by eapply iter_ok_feed.
Qed.

(** *** An iteration that ends *)

(** Everything is sent, the subscription ends, and the iterator asks once more. *)
Lemma iterate_all it logs evs :
  it_fail it = None -> it_done it = false -> Forall2 (parses it) logs evs ->
  exists it', iterate it {| feed_ready := []; feed_pending := logs; feed_ended := None |} evs it' /\
    it_fail it' = None.
Proof.
  intros Hf Hd Hall. revert it evs Hf Hd Hall. induction logs as [|log logs IH]; intros it evs Hf Hd Hall.
  - apply Forall2_nil_inv_l in Hall as ->. exists (it_ended it None). split; [|done].
    eapply iterate_stop, next_wait; [done|done|by apply feed_end|].
    eapply next_err; [done|done|reflexivity|]. by apply next_default.
  - apply Forall2_cons_inv_l in Hall as (ev & evs' & (args & Ha & ->) & Hall & ->).
    destruct (deliver it log) as [it1 b] eqn:E. pose proof E as E'. unfold deliver in E'.
    rewrite Ha in E'. injection E' as <- <-.
    destruct (IH {| it_Event := Some (event_of args log); it_contract := it_contract it;
                    it_event := it_event it; it_done := it_done it; it_fail := it_fail it |} evs')
      as (it' & Hit & Hf'); [done|done|exact Hall|].
    exists it'. split; [|done]. eapply iterate_feed; [apply feed_send|].
    eapply iterate_more; [eapply next_log; [done|done|reflexivity|exact E]|reflexivity|exact Hit].
Qed.

(** *** Watchers *)

Definition watch_parses (w : Watch (Ev := Ev)) (log : Log) (ev : Ev) : Prop := ParseEvent (wa_contract w) log = Ok ev.

(** The log whose event is being handed over, or was when the watch returned. *)
Definition in_flight (w : Watch (Ev := Ev)) (mid : list Log) : Prop :=
  match wa_phase w with
  | Receiving => mid = []
  | Sending ev => exists log, mid = [log] /\ watch_parses w log ev
  | Returned _ => (length mid <= 1)%nat /\ wa_unsubscribed w = true
  end.

Lemma in_flight_short w mid : in_flight w mid -> (length mid <= 1)%nat.
Proof.
  unfold in_flight. destruct (wa_phase w); [intros ->|intros (log & -> & _)|by intros [? _]]; simpl; lia.
Qed.

Definition watch_ok (c : SequencerFilterer) (logs : list Log) (x : Watch (Ev := Ev) * Feed Log) : Prop :=
  wa_contract (fst x) = c /\
  exists l1 mid, logs = l1 ++ mid ++ remaining (snd x) /\
    Forall2 (watch_parses (fst x)) l1 (wa_sink (fst x)) /\ in_flight (fst x) mid.

Lemma ParseEvent_no_panic c log : is_panic (ParseEvent c log) = false.
Proof. unfold ParseEvent. by destruct (bc_UnpackLog _ _ _). Qed.

Lemma watch_step_ok c logs x y : watch_step x y -> watch_ok c logs x -> watch_ok c logs y.
Proof.
  destruct 1 as [w f log l Hp Hr|w f ev Hp|w f e Hp He|w f Hp|w f f' Hs];
    intros (Hc & l1 & mid & Hl & Hall & Hmid); cbn [fst snd] in *; unfold in_flight in Hmid.
  - rewrite Hp in Hmid. subst mid. rewrite (feed_pop_remaining _ _ _ Hr) in Hl.
    pose proof (ParseEvent_no_panic (wa_contract w) log) as Hn.
    destruct (ParseEvent (wa_contract w) log) as [ev|e|p] eqn:E; [| |done];
      (split; [done|]; exists l1, [log]; split; [exact Hl|]; split; [exact Hall|]).
    + exists log. split; [done|exact E].
    + split; [simpl; lia|done].
  - rewrite Hp in Hmid. destruct Hmid as (log & -> & Hev). split; [done|].
    exists (l1 ++ [log]), []. split; [by rewrite <- app_assoc|]. split; [|done].
    simpl. apply Forall2_app; [exact Hall|]. by repeat constructor.
  - split; [done|]. exists l1, mid. split; [done|]. split; [exact Hall|]. split; [|done].
    by apply (in_flight_short w).
  - split; [done|]. exists l1, mid. split; [done|]. split; [exact Hall|]. split; [|done].
    by apply (in_flight_short w).
  - split; [done|]. exists l1, mid. cbn [fst snd]. by rewrite (feed_step_remaining _ _ Hs).
Qed.
End event_facts.

(** ** Reading and writing the contract *)

(** The generic contract of an ABI returns, from a function that only reads,
    values of the types the ABI declares, and does not panic. *)
Class EthBindSpec (W : Type) {EB : EthBind W} : Prop := {
  bc_Call_outputs addr abi p caller transactor filterer opts name args ins outs w w' out :
    GetAbi abi = Ok (Some p) -> abi_function abi name = Some (ins, outs, true) ->
    vals_have_types args ins = true ->
    bc_Call (NewBoundContract addr p caller transactor filterer) opts name args w = (w', Ok out) ->
    vals_have_types out outs = true;
  bc_Call_no_panic c opts name args w : is_panic (snd (bc_Call c opts name args w)) = false
}.

(** The methods that read, as sessions offer them. *)
Inductive view_op :=
  | OpMaxBlocks
  | OpBlockHeight
  | OpCommitments (blockHeight : Z).

Definition op_call (op : view_op) : string * list Val :=
  match op with
  | OpMaxBlocks => ("MAX_BLOCKS", [])
  | OpBlockHeight => ("blockHeight", [])
  | OpCommitments h => ("commitments", [VBig h])
  end%string.

Section sessions.
Context {W : Type} {EB : EthBind W}.

Definition run_op (s : SequencerSession) (op : view_op) : M W Z :=
  match op with
  | OpMaxBlocks => Session_MAXBLOCKS s
  | OpBlockHeight => Session_BlockHeight s
  | OpCommitments h => Session_Commitments s h
  end.

Lemma run_op_eq s op :
  run_op s op = (out ← bc_Call (sc_contract (seq_Caller (ss_Contract s))) (ss_CallOpts s)
                         (op_call op).1 (op_call op).2;
                 lift (out_big out)).
Proof. by destruct op. Qed.

(** Each method reads: the ABI declares it with the arguments that are passed
    and a single [uint256] as its result. *)
Lemma op_in_abi op :
  exists ins n, abi_function SequencerMetaData (op_call op).1 = Some (ins, [(n, Uint256)], true) /\
    vals_have_types (op_call op).2 ins = true.
Proof. destruct op; vm_compute; eauto. Qed.

Lemma out_big_typed out n : vals_have_types out [(n, Uint256)] = true -> exists z, out = [VBig z] /\ out_big out = Ok z.
Proof.
  destruct out as [|[z|b|l] [|v out]]; simpl; try done. intros _. by exists z.
Qed.
End sessions.

(** ** Properties *)

(** C38: The binding reads what the contract says. Bound to a contract by its own
    ABI, every reading method of a session calls a function that the ABI
    declares as reading, with arguments of the declared types; it returns the
    one number the contract answers, or the contract's error, leaves the world
    the call left, and never panics, although it takes the first answer and
    asserts its type without a check. *)
Theorem session_reads_contract {W : Type} {EB : EthBind W} {ES : EthBindSpec W}
    (addr : EthAddress) (backend : ContractBackend) (seq : Sequencer) (s : SequencerSession)
    (op : view_op) (w : W) :
  NewSequencer addr backend = Ok seq -> ss_Contract s = seq ->
  let '(name, args) := op_call op in
  let call := bc_Call (sc_contract (seq_Caller seq)) (ss_CallOpts s) name args w in
  (exists ins outs, abi_function SequencerMetaData name = Some (ins, outs, true) /\
     vals_have_types args ins = true) /\
  fst (run_op s op w) = fst call /\
  match snd call with
  | Ok out => exists z, out = [VBig z] /\ snd (run_op s op w) = Ok z
  | Err e => snd (run_op s op w) = Err e
  | Panic _ => False
  end.
Proof.
  intros Hn Hs. destruct (op_call op) as [name args] eqn:Eop. cbv zeta.
  destruct (op_in_abi op) as (ins & n & Hf & Ht). rewrite Eop in Hf, Ht. cbn [fst snd] in Hf, Ht.
  split; [eauto|]. rewrite run_op_eq, Eop, Hs. cbn [fst snd].
  unfold NewSequencer, bindSequencer in Hn.
  destruct (GetAbi SequencerMetaData) as [[p|]|e|q] eqn:Eabi; try done. injection Hn as <-.
  cbn [seq_Caller Sequencer_of sc_contract]. set (c := NewBoundContract _ _ _ _ _).
  pose proof (bc_Call_no_panic c (ss_CallOpts s) name args w) as Hp.
  unfold mbind, M_bind. destruct (bc_Call c (ss_CallOpts s) name args w) as [w' [out|e|q]] eqn:Ec; try done.
  pose proof (bc_Call_outputs _ _ _ _ _ _ _ _ _ _ _ _ _ _ Eabi Hf Ht Ec) as Ho.
  apply out_big_typed in Ho as (z & -> & ->). cbn. eauto.
Qed.

(** C36: An iterator misses no event. Over the logs of a filter, however the
    subscription and the calls of [Next] interleave and whichever ready branch
    each [select] takes, the iterator uses the events of the first logs in
    order, each parsed from its log; when it ends without an error, these are
    all the logs; and if all of them parse, there is an interleaving in which
    it ends so. *)
Theorem iterator_complete {W : Type} {EB : EthBind W} {Ev : Type} {EE : EthEvent Ev}
    (c : SequencerFilterer) (opts : FilterOpts) (w w' : W) (it : Iterator (Ev := Ev))
    (f : Feed Log) (logs : list Log) :
  FilterEvent c opts w = (w', Ok (it, f)) ->
  f = {| feed_ready := []; feed_pending := logs; feed_ended := None |} ->
  (forall evs it', iterate it f evs it' ->
     exists l1 l2, logs = l1 ++ l2 /\ Forall2 (fun log ev => ParseEvent c log = Ok ev) l1 evs /\
       (it_Error it' = None -> l2 = [])) /\
  (forall evs, Forall2 (fun log ev => ParseEvent c log = Ok ev) logs evs ->
     exists it', iterate it f evs it' /\ it_Error it' = None).
Proof.
  intros Hf ->. unfold FilterEvent in Hf. apply bind_Ok_inv in Hf as (w1 & feed & _ & [= _ <- _]).
  set (it := {| it_Event := None |}).
  assert (forall log ev, parses it log ev <-> ParseEvent c log = Ok ev) as Hp.
  { intros log ev. unfold parses, ParseEvent. simpl. destruct (bc_UnpackLog _ _ _) as [e|args].
    - split; [by intros (? & ? & _)|done].
    - split; [by intros (? & [= <-] & ->)|intros [= <-]; eauto]. }
  split.
  - intros evs it' Hit. destruct (iterate_inv _ _ _ _ Hit) as (l1 & l2 & Hl & Hall & He); [by split|].
    exists l1, l2. split; [exact Hl|]. split; [|done].
    eapply Forall2_impl; [exact Hall|]. intros log ev. apply Hp.
  - intros evs Hall. apply iterate_all; [done|done|].
    eapply Forall2_impl; [exact Hall|]. intros log ev. apply Hp.
Qed.

(** C37: A watch forwards events in order. At any point of a watch, however its
    goroutine, the subscription and the user interleave, the user received the
    events of the first logs in order, none twice and none skipped; at most one
    more log is on its way; and a watch that returned has released its
    subscription. *)
Theorem watch_in_order {W : Type} {EB : EthBind W} {Ev : Type} {EE : EthEvent Ev}
    (c : SequencerFilterer) (opts : WatchOpts) (w w' : W) (x0 x : Watch (Ev := Ev) * Feed Log) :
  WatchEvent c opts w = (w', Ok x0) -> watched x0 x ->
  (exists l1 mid, remaining (snd x0) = l1 ++ mid ++ remaining (snd x) /\ (length mid <= 1)%nat /\
     Forall2 (fun log ev => ParseEvent c log = Ok ev) l1 (wa_sink (fst x))) /\
  (returned (wa_phase (fst x)) = true -> wa_unsubscribed (fst x) = true).
Proof.
  intros Hw Hs. unfold WatchEvent in Hw. apply bind_Ok_inv in Hw as (w1 & f & _ & [= _ <-]).
  assert (watch_ok c (remaining f) x) as (Hc & l1 & mid & Hl & Hall & Hm).
  { remember (_, f) as x0 eqn:Ex0. induction Hs as [x|x y z _ IH Hst]; subst.
    - split; [done|]. exists [], []. by repeat constructor.
    - eapply watch_step_ok; [exact Hst|by apply IH]. }
  split.
  - exists l1, mid. split; [exact Hl|]. split; [by eapply in_flight_short|].
    unfold watch_parses in Hall. by rewrite Hc in Hall.
  - unfold in_flight in Hm. destruct (wa_phase (fst x)); try done. by intros _; destruct Hm.
Qed.
