(* ===== verification/Main.v ===== *)
(** * Main: the two binaries

    [src/cmd/seqvm], [src/cmd/seq-cli/main.go], [src/factory.go] and
    [src/version]: what the programs start and the status they exit with. The
    command parser (cobra), the server of the virtual machine (rpcchainvm) and
    the operating system are parameters. *)

From stdpp Require Import base numbers list strings.
From Stdlib Require Import ZArith Strings.Byte.
From S2P Require Import Prelude HyperSDK Genesis.

Local Open Scope Z_scope.

(** [version.Semantic] *)
Record Semantic := { Major : Z; Minor : Z; Patch : Z }.

Definition Version : Semantic := {| Major := 0; Minor := 0; Patch := 1 |}.

Class Process `{HyperConsts} (W : Type) := {
  VM : Type;
  vm_New : Semantic -> VM;              (** [vm.New(&Controller{}, version)] *)
  SetFDLimit : M W unit;                (** [ulimit.Set(ulimit.DefaultFDLimit, logging.NoLog{})] *)
  Serve : VM -> M W unit;               (** [rpcchainvm.Serve] *)
  Printf : string -> list string -> M W unit;
  Fprintf_stderr : string -> error -> M W unit;
  process_Outf : string -> error -> M W unit;
  Semantic_String : Semantic -> string;
  process_ID_String : ID -> string;
  (** [cobra.Command.Execute]: the root command, or the sub-command the
      arguments of the process name. *)
  cobra_Execute : M W unit -> list (string * M W unit) -> M W unit
}.

Section main.
Context `{HC : HyperConsts} {W : Type} {PR : Process W}.
Variable consts_ID : ID.

(** [controller.New] *)
Definition controller_New : VM := vm_New Version.

(** [Factory.New] *)
Definition Factory_New : res VM := Ok controller_New.

(** ** seqvm *)

Definition runFunc : M W unit :=
  wrap_err (ErrWrap "%w: failed to set fd limit correctly" []) SetFDLimit;;
  Serve controller_New.

Definition versionFunc : M W unit :=
  Printf "%s@%s (%s)\n" [Name; Semantic_String Version; process_ID_String consts_ID].

(** [version.NewCommand] *)
Definition version_NewCommand : string * M W unit := ("version"%string, versionFunc).

Definition seqvm_Execute : M W unit := cobra_Execute runFunc [version_NewCommand].

(** The status of the process. *)
Definition seqvm_main : M W Z := fun w =>
  match seqvm_Execute w with
  | (w, Ok _) => (w, Ok 0)
  | (w, Err e) => (Fprintf_stderr "seqvm failed %v\n" e;; mret 1) w
  | (w, Panic p) => (w, Panic p)
  end.

(** ** seq-cli, given the command that was asked for *)

Definition seqcli_main (Execute : M W unit) : M W Z := fun w =>
  match Execute w with
  | (w, Ok _) => (w, Ok 0)
  | (w, Err e) => (process_Outf "{{red}}seq-cli exited with error:{{/}} %+v\n" e;; mret 1) w
  | (w, Panic p) => (w, Panic p)
  end.

(** A node is only served once the limit on open files was raised. *)
Lemma runFunc_serves w w' e :
  SetFDLimit w = (w', Err e) ->
  runFunc w = (w', Err (ErrWrap "%w: failed to set fd limit correctly" [] e)).
Proof. intros E. unfold runFunc, wrap_err, mbind, M_bind. by rewrite E. Qed.

Lemma seqcli_main_status Execute w w' n :
  seqcli_main Execute w = (w', Ok n) -> n = 0 <-> is_ok (snd (Execute w)) = true.
Proof.
  intros Hr. unfold seqcli_main in Hr. destruct (Execute w) as [w1 [[]|e|p]]; [|apply bind_Ok_inv in Hr|done].
  - by injection Hr as _ <-.
  - destruct Hr as (w2 & [] & _ & [= _ <-]). done.
Qed.
End main.
