(* ===== verification/Examples.v ===== *)
(** * Examples: the properties of the chain on a concrete history

    A rollup is registered on the state of a small genesis, leaves an epoch, is
    updated and exits, on the packages of [Sample]. The properties of the other
    files are applied to the states of this history. *)

From stdpp Require Import base numbers countable gmap list strings.
From Stdlib Require Import ZArith Lia Strings.Byte.
From S2P Require Import Prelude HyperSDK State Wire Sample Storage Ledger Genesis Auth Actions.
From S2P Require Import ChainInv Transfer SequencerMsg Auction EpochExit RollupRegister Registry.
From S2P Require Import StateManager WireTypes Chain Parallel RollupRegistry Block Commit Archiver Controller Server.

Local Open Scope Z_scope.

Import Sample.Instances.

Definition w_rules : Rules :=
  {| rules_g := GenesisExamples.w_genesis; networkID := 1; chainID := w_id 1;
     parsedWhiteListedAddress := [w_addr 9] |}.
Definition w_alice : Address := GenesisExamples.w_alice.
Definition w_bob : Address := GenesisExamples.w_bob.

(** *** The history *)

Definition w_s0 : store := w_store ∅.
Definition w_s1 : store := GenesisExamples.w_loaded.

Definition w_rollup (start exit_ : Z) : RollupInfo :=
  {| FeeRecipient := w_addr 5; RI_Namespace := [x72; x31]; AuthoritySEQAddress := w_alice;
     SequencerPublicKey := [x01]; StartEpoch := start; ExitEpoch := exit_ |}.

Definition w_register : RollupRegistration :=
  {| rr_Info := w_rollup 9 0; rr_Namespace := [x72; x31]; rr_OpCode := CreateRollup |}.
(** at height 14, in epoch 2 *)
Definition w_s2 : store :=
  fst (fst (Action_Execute w_rules 0 14 w_alice (w_id 0) (w_s1, Act_RollupRegistration w_register))).

Definition w_exit : EpochExit :=
  {| ee_Info := {| EI_Epoch := 20; EI_Namespace := [x72; x31] |}; ee_Epoch := 20; ee_OpCode := CreateExit |}.
Definition w_s3 : store :=
  fst (fst (Action_Execute w_rules 0 15 w_alice (w_id 0) (w_s2, Act_EpochExit w_exit))).

(** an update that asks for other epochs *)
Definition w_update : RollupRegistration :=
  {| rr_Info := w_rollup 1000 2000; rr_Namespace := [x72; x31]; rr_OpCode := UpdateRollup |}.

Definition w_transfer : Transfer := {| To := w_bob; Value := 30; Memo := [] |}.
Definition w_s4 : store :=
  fst (fst (Action_Execute w_rules 0 16 w_alice (w_id 0) (w_s3, Act_Transfer w_transfer))).

Lemma w_epoch_length : epoch_length_ok w_rules.
Proof. vm_compute. discriminate. Qed.

Lemma w_allocs : Forall alloc_u64 (CustomAllocations GenesisExamples.w_genesis).
Proof. all_in_range. Qed.

Lemma w_empty : view w_s0 = ∅.
Proof. reflexivity. Qed.

Lemma w_load : Load (fun _ => None) GenesisExamples.w_genesis w_s0 = (w_s1, Ok tt).
Proof. vm_compute. reflexivity. Qed.

Lemma w_register_wf : RollupRegistration_wf w_register.
Proof. split; [reflexivity|]. split; [reflexivity|]. split; in_range. Qed.

Lemma w_exit_wf : EpochExit_wf w_exit.
Proof. split; [in_range|]. split; [reflexivity|]. split; [reflexivity|in_range]. Qed.

Lemma w_update_wf : RollupRegistration_wf w_update.
Proof. split; [reflexivity|]. split; [reflexivity|]. split; in_range. Qed.

Lemma w_run2 : Execute (S := store) w_rules 0 14 w_alice (w_id 0) (w_s1, Act_RollupRegistration w_register)
  = ((w_s2, Act_RollupRegistration w_register), Ok []).
Proof. apply run_eq2; vm_compute; reflexivity. Qed.

Lemma w_run3 : Execute (S := store) w_rules 0 15 w_alice (w_id 0) (w_s2, Act_EpochExit w_exit)
  = ((w_s3, Act_EpochExit w_exit), Ok []).
Proof. apply run_eq2; vm_compute; reflexivity. Qed.

Lemma w_run4 : Execute (S := store) w_rules 0 16 w_alice (w_id 0) (w_s3, Act_Transfer w_transfer)
  = ((w_s4, Act_Transfer w_transfer), Ok []).
Proof. apply run_eq2; vm_compute; reflexivity. Qed.

Lemma w_transfer_wf : Action_wf (S := store) (Act_Transfer w_transfer).
Proof. split; in_range. Qed.

Definition w_reachable := reachable (S := store) (A := Action) (view w_s1).

Lemma w_reach2 : w_reachable 0 (view w_s2).
Proof.
  eapply (reach_step (S := store) (A := Action) _ 0 _ 0); [apply reach_start|].
  exact (step_action (S := store) (A := Action) (view w_s1) w_rules 0 14 w_alice (w_id 0)
    (Act_RollupRegistration w_register) (Act_RollupRegistration w_register) w_s1 w_s2 []
    eq_refl w_register_wf ltac:(in_range) w_epoch_length w_run2).
Qed.

Lemma w_reach3 : w_reachable 0 (view w_s3).
Proof.
  eapply (reach_step (S := store) (A := Action) _ 0 _ 0); [apply w_reach2|].
  exact (step_action (S := store) (A := Action) (view w_s2) w_rules 0 15 w_alice (w_id 0)
    (Act_EpochExit w_exit) (Act_EpochExit w_exit) w_s2 w_s3 []
    eq_refl w_exit_wf ltac:(in_range) w_epoch_length w_run3).
Qed.

Lemma w_reach4 : w_reachable 0 (view w_s4).
Proof.
  eapply (reach_step (S := store) (A := Action) _ 0 _ 0); [apply w_reach3|].
  exact (step_action (S := store) (A := Action) (view w_s3) w_rules 0 16 w_alice (w_id 0)
    (Act_Transfer w_transfer) (Act_Transfer w_transfer) w_s3 w_s4 []
    eq_refl w_transfer_wf ltac:(in_range) w_epoch_length w_run4).
Qed.

(** bob pays a fee of 7 *)
Definition w_s5 : store := fst (Deduct w_bob 7 w_s4).

Lemma w_reach5 : w_reachable 7 (view w_s5).
Proof.
  eapply (reach_step (S := store) (A := Action) _ 0 _ 7); [apply w_reach4|].
  assert (Deduct w_bob 7 w_s4 = (w_s5, Ok tt)) as Hd by (apply run_eq; vm_compute; reflexivity).
  exact (step_fee (S := store) (A := Action) (view w_s4) w_bob 7 w_s4 w_s5 eq_refl ltac:(in_range) Hd).
Qed.

(** *** The chain *)

Lemma chain_invariant_witness : chain_inv (view w_s5) /\ total (view w_s5) + 7 = total (view w_s1).
Proof.
  destruct (chain_invariant (fun _ => None) GenesisExamples.w_genesis w_s0 w_s1 7 (view w_s5)) as (H1 & H2 & _).
  - reflexivity.
  - exact w_allocs.
  - exact w_load.
  - exact w_reach5.
  - split; [exact H1|exact H2].
Defined.

(** Executing the registration of another authority's rollup does not panic. *)
Lemma chain_actions_safe_witness :
  is_panic (snd (Action_Execute w_rules 0 20 w_bob (w_id 0) (w_s5, Act_RollupRegistration w_update))) = false.
Proof.
  apply (chain_actions_safe (fun _ => None) GenesisExamples.w_genesis w_s0 w_s1 w_s5 7).
  - reflexivity.
  - exact w_allocs.
  - exact w_load.
  - exact w_reach5.
  - exact w_update_wf.
  - in_range.
  - exact w_epoch_length.
Defined.

Lemma actions_stay_within_StateKeys_witness :
  view w_s4 !! RollupRegistryKey = view w_s3 !! RollupRegistryKey.
Proof.
  pose proof (actions_stay_within_StateKeys w_rules 0 16 w_alice (w_id 0) (Act_Transfer w_transfer) w_s3) as H.
  assert (fst (fst (Action_Execute w_rules 0 16 w_alice (w_id 0) (w_s3, Act_Transfer w_transfer))) = w_s4)
    as E by reflexivity.
  unfold wp in H. destruct (Action_Execute w_rules 0 16 w_alice (w_id 0) (w_s3, Act_Transfer w_transfer))
    as [[s' a'] o]. cbn [fst] in E. subst s'. destruct H as [_ H]. apply H. vm_compute. reflexivity.
Defined.

Lemma w_inv2 : exists nss, registry_inv (view w_s2) nss.
Proof.
  destruct (Load_inv (fun _ => None) GenesisExamples.w_genesis w_s0 w_s1 w_empty w_allocs w_load) as [Hc _].
  destruct (reachable_inv (S := store) (A := Action) _ _ _ Hc w_reach2) as ([_ _ Hr] & _). exact Hr.
Qed.

(** *** A state with only what an action declares *)

Definition w_a : Action := Act_Transfer w_transfer.
Definition w_keys (a : Action) : Keys := StateKeys (S := store) a w_alice (w_id 0).
Definition w_do (a : Action) (s : store) : (store * Action) * res (list bytes) :=
  Action_Execute w_rules 0 16 w_alice (w_id 0) (s, a).

(** The declared rights, on the declared keys of the contents. *)
Definition w_rights (a : Action) (k : bytes) : Permissions :=
  match w_keys a !! k with Some p => p | None => (false, false, false) end.
Definition w_fetched (a : Action) (v : gmap bytes bytes) : gmap bytes bytes :=
  filter (fun kv => is_Some (w_keys a !! kv.1)) v.
Definition w_sf : store := Store (w_fetched w_a (view w_s3)) (w_rights w_a).

(** Everything is granted. *)
Lemma w_store_declares v ks : declares (w_store v) ks.
Proof. intros k p q _ _. by destruct q as [[[] []] []]. Qed.

Lemma w_sf_declares : declares w_sf (w_keys w_a).
Proof.
  intros k p q Hp Hq. unfold can, scope, w_sf. cbn. unfold w_rights. by rewrite Hp.
Qed.

Lemma w_fetched_lookup a v k : is_Some (w_keys a !! k) -> v !! k = w_fetched a v !! k.
Proof.
  intros Hk. unfold w_fetched. rewrite map_lookup_filter. destruct (v !! k); [|done]. cbn.
  by rewrite option_guard_True.
Qed.

(** With every right on the whole state as with the two keys of a transfer. *)
Lemma Execute_only_needs_StateKeys_witness :
  (size (view w_sf), size (view w_s3)) = (2%nat, 5%nat) /\ is_ok (snd (w_do w_a w_sf)) = true /\
  same_outcome (snd (w_do w_a (w_store (view w_s3)))) (snd (w_do w_a w_sf)).
Proof.
  split; [vm_compute; reflexivity|]. split; [vm_compute; reflexivity|].
  destruct (Execute_only_needs_StateKeys w_rules 0 16 w_alice (w_id 0) w_a (w_store (view w_s3)) w_sf
    w_transfer_wf (w_store_declares _ _) w_sf_declares (w_fetched_lookup w_a (view w_s3))) as [Ho _].
  exact Ho.
Defined.

(** *** Rollups *)

Lemma EpochExit_Execute_refines_witness :
  exists s' : store, exit_allowed w_exit w_alice (view w_s2) /\
  exit_step w_exit (exits_list (view w_s2) 20) = Some (exits_list (view s') 20).
Proof.
  destruct w_inv2 as [nss Hr].
  pose proof (EpochExit_Execute_refines w_exit w_rules 0 15 w_alice (w_id 0) w_s2 nss Hr w_exit_wf) as H.
  assert (is_ok (snd (EpochExit_Execute w_exit w_rules 0 15 w_alice (w_id 0) w_s2)) = true) as E
    by (vm_compute; reflexivity).
  unfold wp in H.
  destruct (EpochExit_Execute w_exit w_rules 0 15 w_alice (w_id 0) w_s2) as [s' [o|e|p]]; [|discriminate E..].
  destruct H as (H1 & H2 & _). exists s'. split; [exact H1|exact H2].
Defined.

Lemma EpochExit_Execute_accepts_witness :
  is_ok (snd (EpochExit_Execute w_exit w_rules 0 15 w_bob (w_id 0) w_s2)) <> true.
Proof.
  destruct w_inv2 as [nss Hr]. intros H.
  apply (EpochExit_Execute_accepts w_exit w_rules 0 15 w_bob (w_id 0) w_s2 nss Hr w_exit_wf) in H.
  - destruct H as [(_ & _ & i & Hi & Ha) _].
    assert (rollup_at (view w_s2) [x72; x31] = Ok (Some (w_rollup 9 0))) as E by (vm_compute; reflexivity).
    change (exit_namespace w_exit) with [x72; x31] in Hi. rewrite E in Hi. injection Hi as <-.
    apply (f_equal arr_list) in Ha. vm_compute in Ha. discriminate.
  - intros k p q _ _. by destruct q as [[[] []] []].
Defined.

(** The update keeps the epochs it asked to change. *)
Lemma RollupRegistration_Execute_refines_witness :
  info_of (view (fst (fst (RollupRegistration_Execute w_rules 0 20 w_alice (w_id 0) (w_s2, w_update)))))
    [x72; x31] = Some (w_rollup 9 0).
Proof.
  destruct w_inv2 as [nss Hr].
  pose proof (RollupRegistration_Execute_refines w_update w_rules 0 20 w_alice (w_id 0) w_s2 nss Hr
    w_update_wf w_epoch_length) as H.
  assert (snd (fst (RollupRegistration_Execute w_rules 0 20 w_alice (w_id 0) (w_s2, w_update))) =
          with_info w_update (w_rollup 9 0) /\
          is_ok (snd (RollupRegistration_Execute w_rules 0 20 w_alice (w_id 0) (w_s2, w_update))) = true) as [E1 E2]
    by (vm_compute; split; reflexivity).
  unfold wp in H.
  destruct (RollupRegistration_Execute w_rules 0 20 w_alice (w_id 0) (w_s2, w_update)) as [[s' r'] [o|e|p]];
    [|discriminate E2..].
  cbn [fst snd] in *. subst r'. destruct H as (nss' & _ & H & _). exact H.
Defined.

Definition w_after_update :=
  fst (RollupRegistration_Execute w_rules 0 20 w_alice (w_id 0) (w_s2, w_update)).

Lemma w_update_run :
  RollupRegistration_Execute w_rules 0 20 w_alice (w_id 0) (w_s2, w_update) =
  ((fst w_after_update, snd w_after_update), Ok []).
Proof.
  apply (run_eq2 (RollupRegistration_Execute w_rules 0 20 w_alice (w_id 0) (w_s2, w_update)));
    [reflexivity|vm_compute; reflexivity].
Qed.

Lemma RollupRegistration_epochs_witness :
  exists info, info_of (view (fst w_after_update)) [x72; x31] = Some info /\ RI_Namespace info = [x72; x31].
Proof.
  destruct w_inv2 as [nss Hr].
  destruct (RollupRegistration_epochs w_update (snd w_after_update) w_rules 0 20 w_alice (w_id 0) w_s2
    (fst w_after_update) [] nss Hr w_update_wf w_epoch_length) as (info & H1 & _ & H2 & _).
  - in_range.
  - exact w_update_run.
  - exists info. split; [exact H1|exact H2].
Defined.

Lemma RollupRegistration_Execute_again_witness :
  RollupRegistration_Execute w_rules 5 20 w_alice (w_id 0) (w_s2, snd w_after_update) =
  ((fst w_after_update, snd w_after_update), Ok []).
Proof.
  destruct w_inv2 as [nss Hr].
  apply (RollupRegistration_Execute_again w_update (snd w_after_update) w_rules 0 5 20 w_alice (w_id 0)
    w_s2 (fst w_after_update) [] nss Hr w_update_wf w_epoch_length).
  - intros k p q _ _. by destruct q as [[[] []] []].
  - exact w_update_run.
Defined.

Lemma UnmarshalEpochExit_drops_error_witness :
  exists p e, UnmarshalEpochExit (NewReader (enc_EpochInfo (ee_Info w_exit) ++ enc_u64 0 ++ []) 1000) = (p, Ok e) /\
    Packer_Err p <> None.
Proof. apply (UnmarshalEpochExit_drops_error (ee_Info w_exit) [] 1000). exact (proj2 w_exit_wf). Defined.

(** *** Registry, fees, blocks *)

Definition w_tables : TypeParser (M Packer Action) * TypeParser (M Packer Auth) :=
  match init with Ok t => t | _ => (NewTypeParser, NewTypeParser) end.

Lemma w_init_tables : init = Ok (w_tables.1, w_tables.2).
Proof.
  assert (is_ok (init (TP := s_parsers)) = true) as Hok by (vm_compute; reflexivity).
  unfold w_tables. by destruct init as [[ar au]| |].
Qed.

Lemma w_init : exists ar au, init = Ok (ar, au).
Proof. exists w_tables.1, w_tables.2. exact w_init_tables. Qed.

Lemma init_spec_witness : NoDup [TransferID; MsgID; RollupRegisterID; EpochExitID; AuctionID].
Proof.
  apply (proj1 init_spec). destruct w_init as (ar & au & H). exists (ar, au). exact H.
Defined.

Lemma Action_roundtrip_witness :
  exists ar au, init = Ok (ar, au) /\
  snd (ActionRegistry_Unmarshal ar (GetTypeID (S := store) (Act_RollupRegistration w_register))
    (NewReader (Packer_Bytes (fst (Marshal (S := store) (Act_RollupRegistration w_register) (NewWriter 0 1000)))) 1000)) =
  Ok (Act_RollupRegistration w_register).
Proof.
  destruct w_init as (ar & au & H). exists ar, au. split; [exact H|].
  apply (Action_roundtrip (S := store) (Act_RollupRegistration w_register) ar au 0 1000 1000).
  - split; [exact w_register_wf|]. split; [reflexivity|in_range].
  - exact H.
  - vm_compute. reflexivity.
Defined.

Definition w_wire : bytes :=
  Packer_Bytes (fst (Marshal (S := store) (Act_RollupRegistration w_register) (NewWriter 0 1000))).

(** What the bytes of a registration say is a well-formed registration; the same
    bytes under another identifier are an error. *)
Lemma Unmarshal_typed_witness :
  (exists a, snd (ActionRegistry_Unmarshal w_tables.1 RollupRegisterID (NewReader w_wire 1000)) = Ok a /\
     Action_wf (S := store) a /\ GetTypeID (S := store) a = RollupRegisterID) /\
  is_ok (snd (ActionRegistry_Unmarshal w_tables.1 TransferID (NewReader w_wire 1000))) = false.
Proof.
  assert (is_ok (snd (ActionRegistry_Unmarshal w_tables.1 RollupRegisterID (NewReader w_wire 1000))) = true) as Hok
    by (vm_compute; reflexivity).
  assert (is_ok (snd (ActionRegistry_Unmarshal w_tables.1 TransferID (NewReader w_wire 1000))) = false) as Hno
    by (vm_compute; reflexivity).
  split; [|exact Hno].
  pose proof (Unmarshal_typed (S := store) w_tables.1 w_tables.2 RollupRegisterID 1000 w_wire w_init_tables) as Ht.
  destruct (snd (ActionRegistry_Unmarshal w_tables.1 RollupRegisterID (NewReader w_wire 1000))) as [a|e|p];
    [|discriminate Hok..].
  exists a. destruct Ht as (Hw & _ & Hid & _). split; [reflexivity|]. split; [exact Hw|exact Hid].
Defined.

Lemma CanDeduct_Deduct_witness : CanDeduct w_bob w_s4 50 = Ok tt /\ CanDeduct w_bob w_s4 51 <> Ok tt.
Proof.
  assert (ledger_wf (view w_s4)) as Hw.
  { destruct (Load_inv (fun _ => None) GenesisExamples.w_genesis w_s0 w_s1 w_empty w_allocs w_load) as [Hc _].
    destruct (reachable_inv (S := store) (A := Action) _ _ _ Hc w_reach4) as ([Hw _ _] & _). exact Hw. }
  assert (bal_at (view w_s4) w_bob = 50) as Hb by (vm_compute; reflexivity).
  split.
  - apply (CanDeduct_Deduct w_s4 w_bob 50); [exact Hw|in_range| |by rewrite Hb].
    intros k p q _ _. by destruct q as [[[] []] []].
  - intros H. apply (CanDeduct_Deduct w_s4 w_bob 51) in H; [rewrite Hb in H; lia|exact Hw|in_range|].
    intros k p q _ _. by destruct q as [[[] []] []].
Defined.

Definition w_controller : Controller (D := gmap bytes bytes) :=
  {| c_genesis := GenesisExamples.w_genesis; c_networkID := 1; c_chainID := w_id 1;
     c_storeTransactions := true; c_whiteListed := []; c_metaDB := ∅; c_metrics := newMetrics;
     c_rollupRegistry := NewRollupRegistr; c_archive := [] |}.

Definition w_block : StatelessBlock :=
  {| blk_Stateful := {| sb_Prnt := w_id 0; sb_Tmstmp := 1000; sb_Hght := 14; sb_L1Head := 100;
       sb_Txs := [ {| tx_ID := w_id 1; tx_Actions := [Act_RollupRegistration w_register; Act_Transfer w_transfer] |};
                  {| tx_ID := w_id 2; tx_Actions := [Act_Transfer w_transfer] |} ] |};
     blk_ID := w_id 14;
     blk_Results := [ {| r_Success := true; r_Units := [1; 1; 1; 1; 1]; r_Fee := 10 |};
                      {| r_Success := false; r_Units := [2; 1; 1; 1; 1]; r_Fee := 20 |} ] |}.

Lemma Accepted_spec_witness :
  let c := fst (Accepted (B := list (bytes * bytes)) w_block w_controller) in
  m_transfer (c_metrics c) = 1 /\
  Controller_GetTransaction c (w_id 2) =
    Ok (Some {| tx_timestamp := 1000; tx_success := false; tx_units := [2; 1; 1; 1; 1]; tx_fee := 20 |}).
Proof.
  intros c. unfold c.
  pose proof (Accepted_spec (B := list (bytes * bytes)) w_controller w_block) as H. unfold wp in H.
  assert (is_ok (snd (Accepted (B := list (bytes * bytes)) w_block w_controller)) = true) as Hok
    by (vm_compute; reflexivity).
  destruct (Accepted (B := list (bytes * bytes)) w_block w_controller) as [c' [u|e|p]]; [|discriminate Hok..].
  cbn [fst snd] in *. destruct H as (_ & Hm & _ & _ & Htx).
  - reflexivity.
  - apply (bool_decide_unpack _). vm_compute. exact I.
  - repeat (apply Forall_cons; split; [split; [split; [done|all_in_range]|in_range]|]); by apply Forall_nil.
  - in_range.
  - vm_compute. discriminate.
  - split; [by rewrite Hm|]. exact (Htx eq_refl 1%nat _ _ eq_refl eq_refl).
Defined.

(** *** The server *)

Import Block.BlockExamples Archiver.ArchiverExamples.

Lemma w_reads (v : gmap bytes bytes) :
  reads_state (fun ks => match ks with
                         | [k] => match v !! k with
                                  | Some b => ([b], [None])
                                  | None => ([[]], [Some ErrNotFound])
                                  end
                         | _ => ([], [])
                         end) v.
Proof. intros k. reflexivity. Qed.

(** The table of one block with messages, at height 1. *)
Definition w_msg_table : DB :=
  {| db_table := fst (checked [ {| db_ID := 1; db_BlockID := "B1"; db_Parent := "B0"; db_Timestamp := 1000;
                    db_Height := 1; db_L1Head := 50; db_Bytes := [x01] |} ]
                     (db_table ArchiverExamples.w_empty)); db_conns := 0 |}.

Definition w_node : Node (D := gmap bytes bytes) := {|
  n_controller := w_controller;
  n_view := view w_s2;
  n_reads := w_reads (view w_s2);
  n_archiver := w_msg_table;
  n_UnitPrices := Ok [1; 1; 1; 1; 1];
  n_NameSpacesPrice := fun nss => Ok ((fun _ => 3) <$> nss);
  n_AcceptedBlockWindow := 10
|}.

Lemma GetAllRollupInfo_complete_witness :
  (snd (Server_GetAllRollupInfo w_node ∅)) = Ok tt.
Proof.
  destruct w_inv2 as [nss Hr].
  assert (committed w_node = view w_s2) as E by (unfold committed, node_controller_spec; reflexivity).
  apply (GetAllRollupInfo_complete w_node nss ∅). rewrite E. exact Hr.
Defined.

Lemma GetBlockTransactions_spec_witness :
  let reply := fst (Server_GetBlockTransactionsByNamespace (S := store) w_node
    {| bn_Height := 1; bn_Namespace := "0102" |} {| sr_Txs := []; sr_BlockID := "" |}) in
  st_Namespace <$> sr_Txs reply = ["0102"; "0102"]%string /\
  sr_Txs reply = filter (fun t => st_Namespace t = "0102"%string) (block_messages s_messages).
Proof.
  destruct w_init as (ar & au & H).
  destruct (GetBlockTransactions_spec (S := store) w_node ar au {| bt_ID := "B1" |}
    {| bn_Height := 1; bn_Namespace := "0102" |} {| sr_Txs := []; sr_BlockID := "" |} H eq_refl) as [_ Hw].
  unfold wp in Hw. split; [vm_compute; reflexivity|].
  set (run := Server_GetBlockTransactionsByNamespace _ _ _) in *.
  assert (is_ok (snd run) = true) as E by (vm_compute; reflexivity).
  destruct (snd run) as [x|x|x]; [|discriminate E..].
  destruct Hw as (blk & id & Hb & _ & Ht & _). rewrite Ht.
  assert (GetBlockByHeight (ctl_Archiver w_node) 1 (server_parser w_node) = Ok s_messages) as Hs
    by reflexivity.
  change (bn_Height _) with 1 in Hb. rewrite Hs in Hb. injection Hb as <-. reflexivity.
Defined.
