(* ===== verification/NodeExamples.v ===== *)
(** * NodeExamples: a node, its server and its clients on concrete inputs

    Transactions, a transport and a clock small enough to compute with, next to
    the packages of [Sample]; the properties of [TxFee] and [Client] are applied
    to them. Nothing here describes the code of hypersdk. *)

From stdpp Require Import base numbers countable gmap list strings.
From Stdlib Require Import ZArith Lia Strings.Byte Strings.Ascii.
From S2P Require Import Prelude HyperSDK State Wire Sample Storage Ledger Genesis Auth Actions.
From S2P Require Import ChainInv Transfer SequencerMsg Auction EpochExit RollupRegister Registry Sha256.
From S2P Require Import RollupRegistry Block Commit Archiver Config Controller Server.
From S2P Require Import TxFee Client Cli Initialize Examples.

Local Open Scope Z_scope.

Import Sample.Instances Block.BlockExamples Commit.CommitExamples Archiver.ArchiverExamples.
Import Config.ConfigExamples.

(** ** Transactions *)

Record s_tx := STx { stx_base : Base; stx_acts : list Action; stx_auth : Auth }.

Definition s_count (a : Action) (m : gmap string Z) : gmap string Z :=
  match a with
  | Act_SequencerMsg x =>
      let ns := EncodeToString (ChainID x) in
      <[ns := default 0 (m !! ns) + Z.of_nat (length (Data x))]> m
  | _ => m
  end.

Definition s_MulSum (p u : Dimensions) : res Z :=
  let f := foldr Z.add 0 (zip_with Z.mul p u) in
  if (0 <=? f) && (f <? u64_mod) then Ok f else Err (ErrNew "overflow").

Definition s_unsigned : Auth :=
  Auth_ED25519 {| ED_Signer := arr_of 32 []; ED_Signature := arr_of 64 []; ED_addr := EmptyAddress |}.

Definition s_sign (t : s_tx) (f : AuthFactory) : res s_tx :=
  match f with
  | Factory_BLS priv => a ← BLSFactory_Sign priv [x01]; Ok (STx (stx_base t) (stx_acts t) (Auth_BLS a))
  | Factory_ED25519 priv =>
      a ← ED25519Factory_Sign priv [x01]; Ok (STx (stx_base t) (stx_acts t) (Auth_ED25519 a))
  end.

#[export] Instance s_transactions : Transactions := {|
  EstimateUnits _ acts _ := Ok ([1; 2; 3; 4; 5], foldr s_count ∅ acts);
  MulSum := s_MulSum;
  UnixRMilli t w := t + w;
  Tx := s_tx;
  NewTx b acts := STx b acts s_unsigned;
  Tx_Sign t f _ _ := s_sign t f;
  Tx_Digest _ := Ok [x01];
  Tx_Auth := stx_auth;
  Tx_TxID t := w_id (b_MaxFee (stx_base t));
  Tx_Bytes t := be_enc 8 (b_MaxFee (stx_base t));
  ed25519_PrivateKeyLen := 64;
  LoadHex s n := Ok (be_enc 32 n);
  ed25519_PrivateKeyOf b := arr_of 32 b;
  bls_PrivateKeyFromBytes b := (arr_of 48 b, None)
|}.

#[export] Instance s_transactions_spec : TransactionsSpec.
Proof.
  refine {| Tx_Base := stx_base; Tx_acts := stx_acts |}.
  - intros b acts f ar au tx. cbn. unfold s_sign.
    destruct f; by intros [= <-].
  - intros p u f. cbn. unfold s_MulSum. destruct (_ && _) eqn:E; [|done]. intros [= <-].
    apply andb_prop in E as [E1%Z.leb_le E2%Z.ltb_lt]. by split.
Defined.

(** ** The server submits *)

Abbreviation w_Node := (Node (D := gmap bytes bytes)).

#[export] Instance s_submit : Submitter w_Node := fun _ _ txs => map (fun _ => None) txs.

Definition w_outside : Outside := {|
  o_range m := (map_to_list m).*1; o_now1 := 1000; o_now2 := 1001; o_key := Ok (arr_of 32 [])
|}.

Definition w_submit : SubmitMsgTxArgs := {|
  sm_ChainID := "I1"; sm_NetworkID := 1; sm_SecondaryChainID := [x01; x02]; sm_Data := [[x07]; [x08; x09]]
|}.

Definition w_submitted := Server_SubmitMsgTx w_tables.1 w_tables.2 w_outside w_node w_submit
  ({| sm_TxID := "" |}, []).

Lemma w_market sender : foldr s_count ∅ (msg_actions sender w_submit) = {[ "0102"%string := 3 ]}.
Proof. reflexivity. Qed.

Lemma SubmitMsgTx_spec_witness : exists tx,
  snd (fst w_submitted) = [(false, [tx])] /\ b_MaxFee (Tx_Base tx) = 24 + 24 / 5.
Proof.
  pose proof (SubmitMsgTx_spec w_tables.1 w_tables.2 w_outside w_node (fun _ => 3) w_submit {| sm_TxID := "" |})
    as Hw.
  specialize (Hw (fun _ => eq_refl) (fun _ => reflexivity _) (fun _ => eq_refl)). unfold wp in Hw.
  assert (is_ok (snd w_submitted) = true) as E by (vm_compute; reflexivity).
  change (Server_SubmitMsgTx _ _ _ _ _ _) with w_submitted in Hw.
  destruct w_submitted as [[reply sent] out]. cbn [fst snd] in *.
  destruct Hw as [(_ & _ & Hn)|Hw]; [congruence|].
  destruct Hw as (tx & chain & prices & units & market & fee & sender & factory & msg & Hs & _ & _ & _ & _ &
    _ & _ & Ha & Hp & He & Hf & Hm).
  exists tx. split; [exact Hs|]. injection Hp as <-. rewrite Ha in He.
  unfold EstimateUnits, s_transactions in He. rewrite w_market in He. injection He as <- <-.
  change (MulSum [1; 1; 1; 1; 1] [1; 2; 3; 4; 5]) with (Ok 15) in Hf. injection Hf as <-.
  rewrite map_to_list_singleton in Hm. apply Hm; reflexivity || (vm_compute; congruence).
Defined.

(** Nothing checks the sum over the namespaces: a price that the estimate of
    the other units would refuse as an overflow wraps to a small fee. *)
Example max_fee_wraps :
  let total := 15 + market_fees (fun _ => 9223372036854775808) [("0102"%string, 2)] in
  total = u64_mod + 15 /\
  add_ns_fees [9223372036854775808] {[ "0102"%string := 2 ]} 0 ["0102"%string] 15 = Ok 15 /\
  add_margin 15 = 18.
Proof. vm_compute. auto. Qed.

(** ** A transport: the nodes a client will find at its next polls *)

Fixpoint s_text (e : error) : string :=
  match e with
  | ErrNew t => t
  | Errorf f _ => f
  | ErrWrap f _ w => String.append f (s_text w)
  end.

#[export] Instance s_requester : Requester (list w_Node) := {|
  Endpoint := string;
  NewRequester uri name := String.append uri name;
  error_Error := s_text;
  SendRequest R _ method q := fun '(w, r) =>
    match head w with
    | None => ((w, r), Err (ErrNew "connection refused"))
    | Some n =>
        match served_by (S := store) n q with
        | Some (name, h) =>
            if bool_decide (method = name) then
              match h (new_reply q) with
              | (r', Ok _) => ((w, r'), Ok tt)
              | (_, Err e) => ((w, r), Err (ErrNew (s_text e)))
              | (_, Panic p) => ((w, r), Panic p)
              end
            else ((w, r), Err (ErrNew "method not found"))
        | None => ((w, r), Err (ErrNew "method not found"))
        end
    end
|}.

Lemma prefix_refl s : String.prefix s s = true.
Proof. induction s as [|c s IH]; [done|]. cbn. by destruct (Ascii.ascii_dec c c). Qed.

Lemma Contains_refl s : Contains s s = true.
Proof. destruct s; unfold Contains; fold Contains; by rewrite prefix_refl. Qed.

#[export] Instance s_requester_spec : RequesterSpec store w_Node (list w_Node).
Proof.
  refine {| node w := default w_node (head w); connected w := w <> []; remote e := ErrNew (s_text e) |}.
  - intros e. apply Contains_refl.
  - intros R q ep [|n w] r name h Hc Hs _; [done|]. cbn in *. rewrite Hs. by rewrite bool_decide_eq_true_2.
Defined.

Definition s_timeout : error := ErrNew "context deadline exceeded".

(** Poll while nodes are left. *)
Fixpoint s_wait {L} (check : M (list w_Node * L) (bool * option error)) (n : nat) (wl : list w_Node * L)
    : (list w_Node * L) * res (option error) :=
  match wl.1 with
  | [] => (wl, Ok (Some s_timeout))
  | _ :: _ =>
      match n with
      | O => (wl, Panic PIndex)
      | S n =>
          match check wl with
          | (wl', Ok (_, Some e)) => (wl', Ok (Some e))
          | (wl', Ok (true, None)) => (wl', Ok None)
          | (wl', Ok (false, None)) =>
              if (length (tail wl'.1) <? length wl.1)%nat then s_wait check n (tail wl'.1, wl'.2)
              else (wl', Panic PIndex)
          | (wl', Err e) => (wl', Err e)
          | (wl', Panic p) => (wl', Panic p)
          end
      end
  end.

#[export] Instance s_waiting : Waiting (list w_Node) := {|
  ctx_Err w := match w with [] => Some s_timeout | _ => None end;
  sleep := tail;
  Wait L check wl := s_wait check (length wl.1) wl
|}.

#[export] Instance s_waiting_spec : WaitingSpec (list w_Node).
Proof.
  constructor.
  - intros L check [|n w] l e; [|done]. by intros [= <-].
  - intros L check [|n w] l wl Ha Hc; [done|]. cbn. by rewrite Hc.
  - intros L check [|n w] l wl b e Ha Hc; [done|]. cbn. rewrite Hc. by destruct b.
  - intros L check [|n w] l l' Ha Hc; [done|]. cbn [Wait s_waiting length s_wait fst]. rewrite Hc. cbn [fst snd tail].
    by rewrite (proj2 (Nat.ltb_lt _ _) (Nat.lt_succ_diag_r _)).
Qed.

Definition w_cli : JSONRPCClient (W := list w_Node) := NewJSONRPCClient "http://localhost:9650/" 1 (w_id 1).

(** a node before and after it accepted the block of [Accepted_spec_witness] *)
Definition w_node' : w_Node := {|
  n_controller := fst (Accepted (B := list (bytes * bytes)) w_block w_controller);
  n_view := view w_s2;
  n_reads := w_reads (view w_s2);
  n_archiver := w_msg_table;
  n_UnitPrices := Ok [1; 1; 1; 1; 1];
  n_NameSpacesPrice := fun nss => Ok ((fun _ => 3) <$> nss);
  n_AcceptedBlockWindow := 10
|}.

Definition w_recorded : TxResult :=
  {| tx_timestamp := 1000; tx_success := false; tx_units := [2; 1; 1; 1; 1]; tx_fee := 20 |}.

Lemma w_unknown : ctl_GetTransaction w_node (w_id 2) = Ok None.
Proof. vm_compute. reflexivity. Qed.
Lemma w_known : ctl_GetTransaction w_node' (w_id 2) = Ok (Some w_recorded).
Proof. vm_compute. reflexivity. Qed.

Lemma WaitForTransaction_returns_witness :
  WaitForTransaction w_cli (w_id 2) [w_node; w_node; w_node'] = ([w_node'], Ok (false, 20, None)) /\
  WaitForTransaction w_cli (w_id 2) [w_node; w_node] = ([], Ok (false, 0, Some s_timeout)).
Proof.
  split.
  - apply (proj1 (WaitForTransaction_returns (S := store) w_cli (w_id 2) [w_node; w_node; w_node'] [w_node'])
      w_recorded).
    apply polled_later; [reflexivity|discriminate|exact w_unknown|].
    apply polled_later; [reflexivity|discriminate|exact w_unknown|].
    apply polled_now. split; [reflexivity|]. split; [discriminate|exact w_known].
  - apply (proj2 (WaitForTransaction_returns (S := store) w_cli (w_id 2) [w_node; w_node] []) s_timeout).
    apply polled_later; [reflexivity|discriminate|exact w_unknown|].
    apply polled_later; [reflexivity|discriminate|exact w_unknown|].
    apply polled_now. reflexivity.
Defined.

Lemma Client_reads_registry_witness :
  exists nss, Client_RollupRegistry w_cli [w_node] = ([w_node], Ok (nss, None)).
Proof.
  destruct w_inv2 as [nss Hr]. exists nss.
  assert (committed (node (S := store) [w_node]) = view w_s2) as E
    by (unfold committed, node_controller_spec; reflexivity).
  rewrite <- E in Hr.
  apply (Client_reads_registry (S := store) w_cli [w_node] nss); [discriminate|exact Hr].
Defined.

(** ** The command line *)

#[export] Instance s_hostclient : HostClient (list w_Node) := {|
  HClient := string;
  NewHClient uri := uri;
  H_UnitPrices _ _ := mret [1; 1; 1; 1; 1];
  H_NameSpacesPrice _ nss := mret ((fun _ => 3) <$> nss);
  H_SubmitTx _ _ := mret (w_id 9)
|}.

(** A user who enters 5, an address, and the choice to exit. *)
#[export] Instance s_hostcli : HostCli (W := list w_Node) := {|
  PromptAddress _ := mret w_alice;
  PromptAmount _ _ _ := mret 5;
  PromptContinue := mret true;
  PromptString _ _ _ := mret "r1"%string;
  PromptChoice _ _ := mret ExitRollup;
  GetDefaultKey := mret (w_alice, be_enc 32 7);
  GetDefaultChain := mret (w_id 1, ["http://localhost:9650"%string]);
  H_Network _ := mret 1;
  H_Accepted _ := mret (w_id 14, 14, 1000);
  H_GetCurrentEpoch _ := mret (2, None);
  bls_GeneratePrivateKey := fun w => (w, Ok (arr_of 48 [x05]));
  GenerateTransaction _ _ acts _ fee := fun w =>
    (w, Ok (STx {| b_Timestamp := 0; b_ChainID := w_id 1; b_PriorityFee := fee; b_MaxFee := 100 |} acts s_unsigned));
  WebSocketClient := unit;
  NewWebSocketClient _ := fun w => (w, Ok tt);
  RegisterTx _ _ := fun w => (w, Ok tt);
  ListenTx _ := fun w =>
    (tail w, Ok (w_id (99 + Z.of_nat (length w)), None,
                 Some {| r_Success := true; r_Units := []; r_Fee := 7 |}));
  AddressBech32 hrp a := Ok hrp
|}.

(** The signatures of the instance name the length of what they sign. *)
Lemma s_not_forged k m d :
  length m = 64%nat -> length d = 32%nat ->
  bls_Verify d (bls_PublicFromPrivateKey k) (bls_Sign m k) = false.
Proof.
  intros Hm Hd. apply bool_decide_eq_false_2. intros He. apply (f_equal arr_list) in He.
  revert He. cbn [bls_Sign s_bls]. rewrite Hm, Hd. intros He. apply (f_equal (take 8)) in He.
  vm_compute in He. discriminate He.
Qed.

Definition w_actor : Actor (W := list w_Node) := {|
  actor_chainID := w_id 1; actor_Address := w_alice; actor_factory := Factory_ED25519 (arr_of 32 []);
  actor_cli := "http://localhost:9650"%string; actor_scli := tt; actor_tcli := w_cli
|}.

Definition w_op (o : res (list Action)) : Z :=
  match o with Ok [Act_RollupRegistration r] => rr_OpCode r | _ => -1 end.

Lemma cli_refused_witness : exists t bid r,
  snd (auction_actions w_actor [w_node]) = Ok [Act_Transfer t; Act_Auction bid] /\
  snd (rollup_actions w_actor [w_node]) = Ok [Act_RollupRegistration r] /\
  is_ok (snd (Auction_Execute bid w_rules 0 14 (w_addr 9) (w_id 0) w_s2)) = false /\
  is_ok (snd (RollupRegistration_Execute w_rules 0 14 w_alice (w_id 0) (w_s2, r))) = false.
Proof.
  destruct (cli_refused (S := store) w_actor [w_node]) as [Ha Hr].
  unfold wp in Ha, Hr.
  assert (is_ok (snd (auction_actions w_actor [w_node])) = true) as Ea by (vm_compute; reflexivity).
  assert (w_op (snd (rollup_actions w_actor [w_node])) = ExitRollup) as Er by (vm_compute; reflexivity).
  destruct (auction_actions w_actor [w_node]) as [wa [acts|e|p]]; [|discriminate Ea..].
  destruct (rollup_actions w_actor [w_node]) as [wr [acts'|e|p]]; [|discriminate Er..].
  destruct (Ha acts eq_refl) as (k & price & bid & -> & _ & _ & _ & _ & Hb).
  destruct (Hr acts' eq_refl) as (r & -> & _ & _ & Hx). do 2 eexists. exists r. cbn [snd].
  split; [reflexivity|]. split; [reflexivity|]. split.
  { specialize (Hb w_rules 0 14 (w_addr 9) (w_id 0) w_s2). rewrite s_not_forged in Hb.
    - apply not_true_is_false. intros Ho. discriminate (Hb Ho).
    - unfold signed_message. by rewrite !length_app, !length_be_enc, length_PublicKeyToBytes.
    - apply length_arr. }
  apply Hx; [exact Er|]. unfold u64_mod. lia.
Defined.

(** ** Start-up *)

#[export] Instance s_vm : HostVM (gmap bytes bytes) := {|
  Gatherer := unit;
  prometheus_Register _ _ := None;
  gatherer_Register _ _ := None;
  BlockDB := unit;
  StateDB := unit;
  hstorage_New _ _ := Ok (tt, tt, ∅);
  Handler := string;
  NewJSONRPCHandler name := Ok name;
  Builder := bool;
  builder_NewManual := true;
  builder_NewTime := false;
  Gossiper := option ProposerConfig;
  gossiper_NewManual := None;
  gossiper_NewProposer c := Ok (Some c)
|}.

Definition w_context : snow_Context :=
  {| snow_NodeID := "N1"%string : NodeID; snow_NetworkID := 1; snow_ChainID := w_id 1;
     snow_ChainDataDir := "/data" |}.

Definition w_gatherer : Gatherer (D := gmap bytes bytes) := tt.

Definition w_start : res (Initialized (D := gmap bytes bytes)) :=
  Initialize (fun _ c => Ok c) (fun _ g => Ok g) 16 w_context w_gatherer [] [] [].

Lemma Initialize_spec_witness : exists i, w_start = Ok i /\
  i_builder i = (false : Builder) /\
  forall e, RollupsValidAtEpoch (c_rollupRegistry (i_controller i)) e = [].
Proof.
  assert (is_ok w_start = true) as E by (vm_compute; reflexivity).
  destruct w_start as [i|e|p] eqn:H; [|discriminate E..]. exists i. split; [reflexivity|].
  destruct (Initialize_spec (S := store) (fun _ c => Ok c) (fun _ g => Ok g) 16 w_context w_gatherer
    [] [] [] i H) as (conf & g & db & Hc & _ & _ & _ & _ & _ & _ & Hb & _ & Hr).
  injection Hc as <-. split; [exact (proj1 Hb)|exact Hr].
Defined.

(** The first result is of another transaction. *)
Lemma sendAndWait_returns_witness : exists n, forall fuel, (n <= fuel)%nat ->
  sendAndWait fuel [Act_Transfer w_transfer] w_actor 1 true [w_node; w_node] = ([], Ok (Some (w_id 100))).
Proof.
  destruct (snd (Client_parser (W := list w_Node) (w_cli, [w_node; w_node]))) as [[[p|] [e|]]|e|q] eqn:E;
    try (exfalso; revert E; vm_compute; discriminate).
  eapply (sendAndWait_returns [Act_Transfer w_transfer] w_actor 1 true [w_node; w_node] [w_node; w_node]
    [w_node; w_node] [w_node; w_node] [] _ p
    (STx {| b_Timestamp := 0; b_ChainID := w_id 1; b_PriorityFee := 1; b_MaxFee := 100 |}
       [Act_Transfer w_transfer] s_unsigned) {| r_Success := true; r_Units := []; r_Fee := 7 |}); [|reflexivity|reflexivity|].
  - rewrite <- E. reflexivity.
  - eapply heard_skip; [|reflexivity|apply heard_now; reflexivity]. discriminate.
Defined.
