(* ===== verification/SyncExamples.v ===== *)
(** * SyncExamples: the runs of a node on concrete blocks

    Two blocks after the genesis of [Examples]: the first registers a rollup
    between a fee and a failing transaction, the second updates it with an
    action that asks for other epochs, which the execution rewrites in place. *)

From stdpp Require Import base numbers countable gmap list strings relations.
From Stdlib Require Import ZArith Lia Strings.Byte Strings.Ascii.
From S2P Require Import Prelude HyperSDK State Wire Sample Storage Ledger Genesis Auth Actions.
From S2P Require Import ChainInv Transfer SequencerMsg Auction EpochExit RollupRegister Registry.
From S2P Require Import StateManager Chain RollupRegistry Block Commit Archiver Controller Server BlockRun.
From S2P Require Import NodeSync ArchiveRun Examples.

Local Open Scope Z_scope.

Import Sample.Instances Block.BlockExamples Commit.CommitExamples Archiver.ArchiverExamples.

Abbreviation y_Controller := (Controller (D := gmap bytes bytes)).
Abbreviation y_run := (node_run (S := store) (D := gmap bytes bytes) (B := list (bytes * bytes))).

(** A fee, the registration, and a transfer that fails. *)
Definition y_v0 : gmap bytes bytes := view w_s1.
Definition y_paid : store := fst (Deduct w_bob 1 w_s1).
Definition y_rules : Rules := Controller_Rules w_controller 1000.
Definition y_done1 : store :=
  fst (fst (Action_Execute y_rules 1000 14 w_alice (w_id 0) (y_paid, Act_RollupRegistration w_register))).

Definition y_block (h : Z) (txs : list Transaction) (ok : list bool) : StatelessBlock :=
  {| blk_Stateful := {| sb_Prnt := w_id 0; sb_Tmstmp := 1000; sb_Hght := h; sb_L1Head := 100; sb_Txs := txs |};
     blk_ID := w_id h;
     blk_Results := (fun b => {| r_Success := b; r_Units := [1; 1; 1; 1; 1]; r_Fee := 1 |}) <$> ok |}.

Definition y_block1 : StatelessBlock := y_block 14
  [ {| tx_ID := w_id 1; tx_Actions := [Act_RollupRegistration w_register] |};
    {| tx_ID := w_id 2; tx_Actions := [Act_Transfer w_transfer] |} ] [true; false].
Definition y_ctl1 : y_Controller := fst (Accepted (B := list (bytes * bytes)) y_block1 w_controller).

(** The update, and what the execution makes of it. *)
Definition y_updated : RollupRegistration :=
  {| rr_Info := w_rollup 9 0; rr_Namespace := [x72; x31]; rr_OpCode := UpdateRollup |}.
Definition y_done2 : store :=
  fst (fst (Action_Execute (Controller_Rules y_ctl1 1000) 1000 20 w_alice (w_id 0)
    (y_done1, Act_RollupRegistration w_update))).
Definition y_block2 : StatelessBlock := y_block 20
  [ {| tx_ID := w_id 3; tx_Actions := [Act_RollupRegistration y_updated] |} ] [true].
Definition y_ctl2 : y_Controller := fst (Accepted (B := list (bytes * bytes)) y_block2 y_ctl1).

Lemma y_exec1 : Action_Execute y_rules 1000 14 w_alice (w_id 0) (y_paid, Act_RollupRegistration w_register)
  = ((y_done1, Act_RollupRegistration w_register), Ok []).
Proof. unfold y_done1, y_done2. apply run_eq2; vm_compute; reflexivity. Qed.
Lemma y_exec2 : Action_Execute (Controller_Rules y_ctl1 1000) 1000 20 w_alice (w_id 0)
    (y_done1, Act_RollupRegistration w_update)
  = ((y_done2, Act_RollupRegistration y_updated), Ok []).
Proof. unfold y_done1, y_done2. apply run_eq2; vm_compute; reflexivity. Qed.

Lemma y_accepted1 : Accepted (B := list (bytes * bytes)) y_block1 w_controller = (y_ctl1, Ok tt).
Proof. unfold y_ctl1, y_ctl2. apply run_eq. vm_compute. reflexivity. Qed.
Lemma y_accepted2 : Accepted (B := list (bytes * bytes)) y_block2 y_ctl1 = (y_ctl2, Ok tt).
Proof. unfold y_ctl1, y_ctl2. apply run_eq. vm_compute. reflexivity. Qed.

Lemma y_block_run1 : block_run (S := store) y_rules 1000 14 y_v0
  (blk_Txs y_block1) (blk_Results y_block1) (view y_done1).
Proof.
  apply (block_fee (S := store) _ _ _ y_v0 w_bob 1 w_s1 y_paid);
    [reflexivity|in_range|apply run_eq; vm_compute; reflexivity|].
  apply (block_success (S := store) _ _ _ (view y_paid) [Act_RollupRegistration w_register] _ _ (view y_done1));
    [reflexivity| |].
  - exact (actions_next (S := store) _ _ _ (view y_paid) (Act_RollupRegistration w_register)
      (Act_RollupRegistration w_register) w_alice (w_id 0) y_paid y_done1 [] [] [] _
      eq_refl w_register_wf y_exec1 (actions_done (S := store) _ _ _ _)).
  - apply block_failure; [reflexivity|]. apply block_done.
Qed.

Lemma y_block_run2 : block_run (S := store) (Controller_Rules y_ctl1 1000) 1000 20 (view y_done1)
  (blk_Txs y_block2) (blk_Results y_block2) (view y_done2).
Proof.
  apply (block_success (S := store) _ _ _ (view y_done1) [Act_RollupRegistration w_update] _ _ (view y_done2));
    [reflexivity| |apply block_done].
  exact (actions_next (S := store) _ _ _ (view y_done1) (Act_RollupRegistration w_update)
    (Act_RollupRegistration y_updated) w_alice (w_id 0) y_done1 y_done2 [] [] [] _
    eq_refl w_update_wf y_exec2 (actions_done (S := store) _ _ _ _)).
Qed.

Lemma y_results_wf ok : Forall (result_wf (FES := s_fees_spec))
  ((fun b : bool => {| r_Success := b; r_Units := [1; 1; 1; 1; 1]; r_Fee := 1 |}) <$> ok).
Proof.
  apply Forall_fmap, Forall_forall. intros b _. unfold compose, result_wf. split; [done|all_in_range].
Qed.

(** The node that saw both blocks, and one that started between them. *)
Lemma y_run1 : y_run y_v0 w_controller 0 [y_block1] 14 (view y_done1) y_ctl1.
Proof.
  apply (run_block (S := store) _ _ _ [] 0 y_v0 w_controller y_block1); [apply run_start|..];
    [done|in_range|apply y_results_wf|exact y_block_run1|exact y_accepted1].
Qed.
Lemma y_run2 : y_run y_v0 w_controller 0 [y_block1; y_block2] 20 (view y_done2) y_ctl2.
Proof.
  apply (run_block (S := store) _ _ _ [y_block1] 14 (view y_done1) y_ctl1 y_block2); [apply y_run1|..];
    [done|in_range|apply y_results_wf|exact y_block_run2|exact y_accepted2].
Qed.

Definition y_node (v : gmap bytes bytes) (c : y_Controller) : Node (D := gmap bytes bytes) := {|
  n_controller := c;
  n_view := v;
  n_reads := w_reads v;
  n_archiver := w_msg_table;
  n_UnitPrices := Ok [1; 1; 1; 1; 1];
  n_NameSpacesPrice := fun nss => Ok ((fun _ => 3) <$> nss);
  n_AcceptedBlockWindow := 10
|}.

Lemma one_namespace_collision_free (nss : list bytes) ns :
  Forall (fun x => x = ns) nss -> collision_free nss.
Proof. rewrite Forall_forall. intros Hn a b Ha%Hn Hb%Hn _. congruence. Qed.

(** The rollup is served for epoch 9, as the state has it. *)
Lemma rollups_served_are_on_chain_witness :
  w_rollup 9 0 ∈ ra_Rollups (fst (Server_GetValidRollupsAtEpoch (y_node (view y_done2) y_ctl2)
    {| ra_Epoch := 9 |} {| ra_Rollups := [] |})).
Proof.
  destruct (rollups_served_are_on_chain (S := store) (B := list (bytes * bytes)) (fun _ => None) w_s0 w_s1
    w_controller [y_block1; y_block2] 20 (y_node (view y_done2) y_ctl2) 9 {| ra_Rollups := [] |})
    as (_ & _ & Hr).
  - reflexivity.
  - exact w_allocs.
  - vm_compute. discriminate.
  - exact w_load.
  - reflexivity.
  - exact y_run2.
  - apply (one_namespace_collision_free _ [x72; x31]). repeat (apply Forall_cons; split; [done|]). by apply Forall_nil.
  - apply Hr. split; [vm_compute; reflexivity|]. split; reflexivity.
Defined.

Lemma y_inv0 : chain_inv y_v0.
Proof.
  exact (proj1 (Load_inv (fun _ => None) GenesisExamples.w_genesis w_s0 w_s1 Examples.w_empty w_allocs w_load)).
Qed.
Lemma y_inv1 : chain_inv (view y_done1).
Proof.
  destruct (node_run_state (S := store) (B := list (bytes * bytes)) y_v0 w_controller 0 [y_block1] 14
    (view y_done1) y_ctl1 y_inv0) as (_ & Hc & _); [vm_compute; discriminate|exact y_run1|exact Hc].
Qed.

(** A node that starts after the first block with a fresh registry serves
    nothing, though the state has the rollup, valid at the epoch asked for. *)
Lemma rollups_served_after_restart_witness :
  rollup_at (view y_done1) [x72; x31] = Ok (Some (w_rollup 9 0)) /\
  RollupInfo_ValidAtEpoch (w_rollup 9 0) 9 = true /\
  w_rollup 9 0 ∉ ra_Rollups (fst (Server_GetValidRollupsAtEpoch (y_node (view y_done1) w_controller)
    {| ra_Epoch := 9 |} {| ra_Rollups := [] |})).
Proof.
  split; [vm_compute; reflexivity|]. split; [reflexivity|].
  destruct (rollups_served_after_restart (S := store) (B := list (bytes * bytes)) (view y_done1)
    w_controller 14 [] 14 (y_node (view y_done1) w_controller) 9 {| ra_Rollups := [] |})
    as (_ & Hr).
  - exact y_inv1.
  - vm_compute. discriminate.
  - reflexivity.
  - apply run_start.
  - intros a b Ha. by apply not_elem_of_nil in Ha.
  - intros (_ & Hin & _)%Hr. by apply not_elem_of_nil in Hin.
Defined.

(** ** The archive: two blocks are accepted, the second commits first *)

Definition z_ctl (n : nat) : y_Controller :=
  foldl (fun c h => fst (Accepted (B := list (bytes * bytes)) (w_blk h) c)) w_controller (take n [5; 6]).
(** Two connections: both insertions begin before the second one commits. *)
Definition z_tx (h : Z) : DBTx :=
  match snd (start_insert (w_blk h) w_table) with inl tx => tx | inr _ => snd (Begin w_table) end.
Definition z_b1 : DB := fst (start_insert (w_blk 5) w_table).
Definition z_b2 : DB := fst (start_insert (w_blk 6) z_b1).
Definition z_d1 : DB := fst (tx_Commit (z_tx 6) z_b2).
Definition z_d2 : DB := fst (tx_Commit (z_tx 5) z_d1).

Abbreviation z_step := (arch_step (D := gmap bytes bytes) (B := list (bytes * bytes))).

Lemma z_accept : rtc z_step (w_controller, w_table, []) (z_ctl 2, w_table, [Spawned (w_blk 5); Spawned (w_blk 6)]).
Proof.
  eapply rtc_l; [apply (arch_accept w_controller (z_ctl 1) w_table [] (w_blk 5) (Ok tt))|].
  1: reflexivity. 1: apply Forall_nil_2. 1: unfold z_ctl; cbn [take foldl]; apply run_eq; vm_compute; reflexivity.
  eapply rtc_l; [apply (arch_accept (z_ctl 1) (z_ctl 2) w_table _ (w_blk 6) (Ok tt))|].
  1: reflexivity. 1: apply Forall_nil_2. 1: unfold z_ctl; cbn [take foldl]; apply run_eq; vm_compute; reflexivity.
  apply rtc_refl.
Qed.

Lemma z_run : rtc z_step (w_controller, w_table, [])
  (z_ctl 2, z_d2, [Finished (w_blk 5) (Ok tt); Finished (w_blk 6) (Ok tt)]).
Proof.
  eapply rtc_trans; [exact z_accept|].
  eapply rtc_l; [apply arch_insert, (insert_create w_table z_b1 _ 0 (w_blk 5) (inl (z_tx 5)))|].
  1-3: reflexivity.
  eapply rtc_l; [apply arch_insert, (insert_create z_b1 z_b2 _ 1 (w_blk 6) (inl (z_tx 6)))|].
  1-3: reflexivity.
  eapply rtc_l; [apply arch_insert, (insert_commit z_b2 z_d1 _ 1 (w_blk 6) (z_tx 6) (Ok tt))|].
  1: reflexivity. 1: unfold z_d1; apply run_eq; vm_compute; reflexivity.
  eapply rtc_l; [apply arch_insert, (insert_commit z_d1 z_d2 _ 0 (w_blk 5) (z_tx 5) (Ok tt))|].
  1: reflexivity. 1: unfold z_d2; apply run_eq; vm_compute; reflexivity.
  apply rtc_refl.
Qed.

Lemma archive_run_spec_witness :
  GetBlockByHeight z_d2 5 w_parser = Ok (blk_Stateful (w_blk 5)) /\
  db_Height <$> rows z_d2 = [1; 2; 3; 4; 6; 5].
Proof.
  split; [|vm_compute; reflexivity].
  destruct (archive_run_spec (B := list (bytes * bytes)) w_controller (z_ctl 2) w_table z_d2 _ w_parser
    ltac:(vm_compute; discriminate) z_run) as (_ & _ & _ & Hs).
  destruct (Hs (w_blk 5)) as [_ [Hh|[e He]]]; [by left|exact Hh|discriminate He].
Defined.

(** With both connections taken, a third insertion waits; the two can go on. *)
Example third_waits : can_start (w_blk 7) z_b2 = false.
Proof. vm_compute. reflexivity. Qed.

Lemma z_begun : nsteps insert_step 2 (w_table, [Spawned (w_blk 5); Spawned (w_blk 6)])
  (z_b2, [Creating (w_blk 5) (z_tx 5); Creating (w_blk 6) (z_tx 6)]).
Proof.
  eapply nsteps_l; [apply (insert_create w_table z_b1 _ 0 (w_blk 5) (inl (z_tx 5)))|]. 1-3: reflexivity.
  eapply nsteps_l; [apply (insert_create z_b1 z_b2 _ 1 (w_blk 6) (inl (z_tx 6)))|]. 1-3: reflexivity.
  apply nsteps_O.
Qed.

Lemma archive_run_completes_witness :
  exists k, insert_step (z_b2, [Creating (w_blk 5) (z_tx 5); Creating (w_blk 6) (z_tx 6)]) k.
Proof.
  destruct (archive_run_completes (B := list (bytes * bytes)) w_controller (z_ctl 2) w_table w_table _ _ _ _
    ltac:(vm_compute; discriminate) eq_refl z_accept z_begun) as (_ & _ & [Hk|[Hd _]]); [exact Hk|].
  vm_compute in Hd. discriminate Hd.
Defined.

(** Before the first commits, the range with both is refused. *)
Example gap_while_inserting :
  GetBlockHeadersByHeight z_d1 {| hh_Height := 4; hh_EndTimeStamp := 9000 |} =
  Err (consecutive_error 6 4).
Proof. vm_compute. reflexivity. Qed.
