(* ===== verification/CliExamples.v ===== *)
(** * CliExamples: the commands of seq-cli on a small shell

    A shell with files and a key store, no network; the properties of [CliHost]
    are applied to it. Nothing here describes the code of hypersdk. *)

From stdpp Require Import base numbers countable gmap list strings.
From Stdlib Require Import ZArith Lia Strings.Byte Strings.Ascii.
From S2P Require Import Prelude HyperSDK State Wire Sample Storage Ledger Genesis Auth Actions.
From S2P Require Import ChainInv Transfer SequencerMsg Sha256 Auction EpochExit RollupRegister Registry.
From S2P Require Import RollupRegistry Block Commit Archiver Controller Server TxFee Client Cli CliHost.
From S2P Require Import Examples NodeExamples.

Local Open Scope Z_scope.

Import Sample.Instances Block.BlockExamples Commit.CommitExamples Archiver.ArchiverExamples.

Record shell := Shell {
  sh_files : gmap string bytes;
  sh_keys : list (Address * bytes);
  sh_default : option Address
}.

Definition sh_key (w : shell) (a : Address) : option bytes :=
  snd <$> head (filter (fun kb => kb.1 = a) (sh_keys w)).

Definition no_network : error := ErrNew "connection refused".

#[export] Instance x_requester : Requester shell := {|
  Endpoint := string;
  NewRequester uri name := String.append uri name;
  SendRequest R _ method q := fun st => (st, Err no_network);
  error_Error := s_text
|}.

#[export] Instance x_hostclient : HostClient shell := {|
  HClient := string;
  NewHClient uri := uri;
  H_UnitPrices _ _ := throw no_network;
  H_NameSpacesPrice _ nss := throw no_network;
  H_SubmitTx _ _ := throw no_network
|}.

#[export] Instance x_hostcli : HostCli (W := shell) := {|
  PromptAddress _ := mret w_alice;
  PromptAmount _ _ _ := mret 5;
  PromptContinue := mret true;
  PromptString _ _ _ := mret "r1"%string;
  PromptChoice _ _ := mret 0;
  GetDefaultKey := fun w =>
    (w, match sh_default w with
        | Some a => match sh_key w a with Some b => Ok (a, b) | None => Err ErrNoKeys end
        | None => Err ErrNoKeys
        end);
  GetDefaultChain := mret (w_id 1, ["http://localhost:9650"%string]);
  H_Network _ := mret 1;
  H_Accepted _ := mret (w_id 14, 14, 1000);
  H_GetCurrentEpoch _ := mret (2, None);
  bls_GeneratePrivateKey := fun w => (w, Ok (arr_of 48 [x05]));
  GenerateTransaction _ _ acts _ fee := throw no_network;
  WebSocketClient := unit;
  NewWebSocketClient _ := fun w => (w, Ok tt);
  RegisterTx _ _ := throw no_network;
  ListenTx _ := throw no_network;
  AddressBech32 hrp a := Ok hrp
|}.

#[export] Instance x_shell : HostShell (W := shell) := {|
  ReadFile p := fun w => (w, match sh_files w !! p with Some b => Ok b | None => Err (ErrNew "no such file") end);
  WriteFile p b _ := fun w => (Shell (<[p := b]> (sh_files w)) (sh_keys w) (sh_default w), Ok tt);
  ParseDimensions l := if (length l =? 5)%nat then Ok [1; 1; 1; 1; 1] else Err (ErrNew "dimensions");
  FormatBalance n d := "0"%string;
  ed25519_GeneratePrivateKey := fun w => (w, Ok (arr_of 32 [x07]));
  ed25519_PrivateKey_bytes p := arr_list p;
  LoadBytes p n := fun w => (w, match sh_files w !! p with Some b => Ok b | None => Err (ErrNew "no such file") end);
  StoreKey k := fun w => (Shell (sh_files w) ((pk_Address k, pk_Bytes k) :: sh_keys w) (sh_default w), Ok tt);
  StoreDefaultKey a := fun w => (Shell (sh_files w) (sh_keys w) (Some a), Ok tt);
  SetKey _ := throw no_network;
  Root_Balance _ _ _ := throw no_network;
  PromptBool _ := fun w => (w, Ok false);
  PromptUint64 _ := fun w => (w, Ok 0);
  WatchChain L _ _ _ _ _ := throw no_network;
  Spam L _ _ _ _ := throw no_network;
  Tx_MaxFee t := b_MaxFee (stx_base t);
  Tx_Actions := stx_acts;
  Result_Error _ := [];
  UpdateArcadiaURL _ _ := throw no_network;
  cli_New _ := mret tt;
  CloseDatabase := mret tt;
  ImportChain := throw no_network;
  ImportANR := throw no_network;
  ImportOps _ := throw no_network;
  SetDefaultChain := throw no_network;
  PrintChainInfo := throw no_network
|}.

#[export] Instance x_files : FilesSpec.
Proof.
  refine {| files := sh_files |}.
  - intros p w w' b. cbn. destruct (sh_files w !! p) eqn:E; [|done]. by intros [= <- <-].
  - by intros p b m w w' [= <-].
Defined.

#[export] Instance x_keys : KeyStoreSpec.
Proof.
  refine {| stored_key := sh_key; default_key := sh_default |}.
  - intros k w w' [= <-]. unfold sh_key. cbn [sh_keys]. by rewrite filter_cons, decide_True.
  - by intros a w w' [= <-].
  - intros w w' a b. cbn. destruct (sh_default w) as [a'|]; [|done].
    destruct (sh_key w a') eqn:E; [|done]. by intros [= _ <- <-].
  - intros p. apply (@arr_of_arr 32).
Defined.

#[export] Instance CustomAllocation_eq_dec : EqDecision CustomAllocation.
Proof. solve_decision. Defined.
#[export] Instance Genesis_eq_dec : EqDecision Genesis.
Proof. solve_decision. Defined.

(** This JSON has room for an epoch length only, after a mark. *)
Definition x_Marshal (g : Genesis) : res bytes :=
  if bool_decide (g = set_fields (Default 16) (MinUnitPrice (Default 16)) (MaxBlockUnits (Default 16))
       (WindowTargetUnits (Default 16)) 1000 1000 (EpochLength g) [])
     && (0 <=? EpochLength g) && (EpochLength g <? u64_mod)
  then Ok (x01 :: be_enc 8 (EpochLength g)) else Err (ErrNew "json").
Definition x_Unmarshal (b : bytes) (_ : Genesis) : res Genesis :=
  Ok (set_fields (Default 16) (MinUnitPrice (Default 16)) (MaxBlockUnits (Default 16))
       (WindowTargetUnits (Default 16)) 1000 1000 (be_dec (tail b)) []).

Lemma x_json : json_sets_all x_Marshal x_Unmarshal.
Proof.
  intros g b. unfold x_Marshal. destruct (_ && _ && _) eqn:E; [|done]. intros [= <-]. split; [done|].
  intros g0. apply andb_true_iff in E as [[E Hl%Z.leb_le]%andb_true_iff Hu%Z.ltb_lt].
  apply bool_decide_eq_true in E. unfold x_Unmarshal. cbn [tail].
  rewrite is_u64_be by (unfold is_u64; lia). by rewrite <- E.
Qed.

Definition x_start : shell := Shell {[ "allocs.json"%string := [x00] ]} [] None.
Definition x_flags : Flags := default_flags "0".
Definition x_gen := genGenesisCmd (W := shell) (fun _ => Ok []) x_Marshal 16 x_flags.

(** The file is written, and a genesis with the default epoch length is read. *)
Lemma genGenesis_spec_witness : exists raw g,
  files (fst (x_gen ["allocs.json"%string] x_start)) !! "genesis.json"%string = Some raw /\
  New x_Unmarshal 16 raw = Ok g /\ EpochLength g = 6.
Proof.
  pose proof (genGenesis_spec (W := shell) (fun _ => Ok []) x_Marshal x_Unmarshal 16 x_flags
    ["allocs.json"%string] x_start x_json) as Hw.
  assert (is_ok (snd (x_gen ["allocs.json"%string] x_start)) = true) as Hok by (vm_compute; reflexivity).
  change (genGenesisCmd _ _ _ _) with x_gen in Hw. unfold wp in Hw.
  destruct (x_gen ["allocs.json"%string] x_start) as [w' [[]|e|p]]; [|discriminate Hok..]. cbn [fst snd] in *.
  destruct Hw as (arg & a & raw & g & _ & _ & Hf & Hn & _ & _ & _ & _ & _ & _ & He & _);
    [split; reflexivity || (vm_compute; intros ?; discriminate)|reflexivity|].
  exists raw, g. split; [exact Hf|]. split; [exact Hn|exact He].
Defined.

(** The actor of a generated key signs for its own address. *)
Lemma default_actor_owns_key_witness : exists w1 w2 a p,
  DefaultActor (W := shell) w1 = (w2, Ok a) /\ actor_factory a = Factory_ED25519 p /\
  forall msg d, ED25519Factory_Sign p msg = Ok d -> snd (ED25519_Actor d) = Ok (actor_Address a).
Proof.
  assert (is_ok (snd (genKeyCmd (W := shell) x_start)) = true) as H1 by (vm_compute; reflexivity).
  destruct (genKeyCmd (W := shell) x_start) as [w1 [[]|e|q]] eqn:E1; [|discriminate H1..].
  assert (is_ok (snd (DefaultActor (W := shell) w1)) = true) as H2.
  { replace w1 with (fst (genKeyCmd (W := shell) x_start)) by (by rewrite E1). vm_compute. reflexivity. }
  destruct (DefaultActor (W := shell) w1) as [w2 [a|e|q]] eqn:E2; [|discriminate H2..].
  destruct (default_actor_owns_key (W := shell) [] x_start w1 w2 a (or_introl E1) E2) as (p & Hf & Hs).
  exists w1, w2, a, p. split; [exact E2|]. split; [exact Hf|]. intros msg d Hd. apply (Hs msg d Hd).
Defined.
