(* ===== verification/ChainExamples.v ===== *)
(** * ChainExamples: the abstract machine and its consequences at work

    The history of [Examples] goes on: funds are moved to a builder, who wins
    the auction for epoch 3. The properties of [ChainSpec], [Ownership] and
    [Schedule] are applied to it. *)

From stdpp Require Import base functions numbers countable gmap list strings.
From Stdlib Require Import ZArith Lia Strings.Byte.
From S2P Require Import Prelude HyperSDK State Wire Sample Storage Ledger Genesis Auth Actions.
From S2P Require Import ChainInv Transfer SequencerMsg Auction EpochExit RollupRegister Registry.
From S2P Require Import StateManager Chain Parallel Schedule ChainSpec Ownership Examples.

Local Open Scope Z_scope.

Import Sample.Instances.

(** *** The history *)

Definition x_builder : Address := AuctionExamples.w_builder.
Definition x_fund : Transfer := {| To := x_builder; Value := 45; Memo := [] |}.
Definition x_bid : Auction := AuctionExamples.w_auction.

Definition x_s6 : store :=
  fst (fst (Action_Execute w_rules 0 16 w_alice (w_id 0) (w_s5, Act_Transfer x_fund))).
Definition x_s7 : store :=
  fst (fst (Action_Execute w_rules 0 17 (w_addr 9) (w_id 0) (x_s6, Act_Auction x_bid))).

Lemma x_run6 : Execute (S := store) w_rules 0 16 w_alice (w_id 0) (w_s5, Act_Transfer x_fund)
  = ((x_s6, Act_Transfer x_fund), Ok []).
Proof. apply run_eq2; vm_compute; reflexivity. Qed.

Lemma x_run7 : Execute (S := store) w_rules 0 17 (w_addr 9) (w_id 0) (x_s6, Act_Auction x_bid)
  = ((x_s7, Act_Auction x_bid), Ok []).
Proof. apply run_eq2; vm_compute; reflexivity. Qed.

Definition x_ev (h : Z) (actor : Address) (a : Action) : event := EvAction w_rules h actor a.

Definition x_before : list event :=
  [x_ev 14 w_alice (Act_RollupRegistration w_register); x_ev 15 w_alice (Act_EpochExit w_exit)].
Definition x_after : list event :=
  [x_ev 16 w_alice (Act_Transfer w_transfer); EvFee w_bob 7;
   x_ev 16 w_alice (Act_Transfer x_fund); x_ev 17 (w_addr 9) (Act_Auction x_bid)].

Lemma x_happens h actor a a' (s s' : store) :
  Action_wf (S := store) a -> is_u64 h ->
  Execute (S := store) w_rules 0 h actor (w_id 0) (s, a) = ((s', a'), Ok []) ->
  happens (S := store) (view s) (x_ev h actor a) (view s').
Proof.
  intros Hwf Hh Hr. exact (happens_action (view s) w_rules 0 h actor (w_id 0) a a' s s' []
    eq_refl Hwf Hh w_epoch_length Hr).
Qed.

Lemma x_history_before : history (S := store) (view w_s1) x_before (view w_s3).
Proof.
  eapply history_next; [apply (x_happens 14 w_alice (Act_RollupRegistration w_register) _ w_s1 w_s2 w_register_wf ltac:(in_range) w_run2)|].
  eapply history_next; [apply (x_happens 15 w_alice (Act_EpochExit w_exit) _ w_s2 w_s3 w_exit_wf ltac:(in_range) w_run3)|].
  apply history_done.
Qed.

Lemma x_history_after : history (S := store) (view w_s3) x_after (view x_s7).
Proof.
  eapply history_next; [apply (x_happens 16 w_alice (Act_Transfer w_transfer) _ w_s3 w_s4 w_transfer_wf ltac:(in_range) w_run4)|].
  eapply history_next.
  { assert (Deduct w_bob 7 w_s4 = (w_s5, Ok tt)) as Hd by (apply run_eq; vm_compute; reflexivity).
    exact (happens_fee (view w_s4) w_bob 7 w_s4 w_s5 eq_refl ltac:(in_range) Hd). }
  eapply history_next.
  { apply (x_happens 16 w_alice (Act_Transfer x_fund) (Act_Transfer x_fund) w_s5 x_s6); [split; in_range|in_range|exact x_run6]. }
  eapply history_next.
  { apply (x_happens 17 (w_addr 9) (Act_Auction x_bid) (Act_Auction x_bid) x_s6 x_s7); [split; in_range|in_range|exact x_run7]. }
  apply history_done.
Qed.

Lemma x_history : history (S := store) (view w_s1) (x_before ++ x_after) (view x_s7).
Proof. eapply history_app; [apply x_history_before|apply x_history_after]. Qed.

Lemma x_inv1 : chain_inv (view w_s1).
Proof. exact (proj1 (Load_inv (fun _ => None) GenesisExamples.w_genesis w_s0 w_s1 w_empty w_allocs w_load)). Qed.

Lemma x_inv3 : chain_inv (view w_s3).
Proof. exact (history_inv _ _ _ x_history_before x_inv1). Qed.

(** *** The abstract machine *)

(** The abstract machine accepts the history; the state of the code has the
    balances it computes. *)
Lemma chain_refines_witness :
  exists pl σ, parsed (CustomAllocations GenesisExamples.w_genesis) pl /\
    run_events (x_before ++ x_after) (genesis_chain pl) = Some σ /\ abs (view x_s7) ≡ σ.
Proof.
  apply (chain_refines (fun _ => None) GenesisExamples.w_genesis w_s0 w_s1).
  - reflexivity.
  - exact w_allocs.
  - exact w_load.
  - exact x_history.
Defined.

(** The machine runs on its own: it gives alice 25, and refuses a second bid
    for an epoch that has started. *)
Example abstract_run :
  let σ0 := genesis_chain [(w_alice, 70); (w_bob, 20); (w_alice, 100)] in
  (σ ← run_events (x_before ++ x_after) σ0; Some (c_balance σ w_alice, c_balance σ w_bob,
     c_balance σ fund_address, c_registry σ, length (c_exits σ 20), bid_price <$> c_bid σ 3)) =
    Some (25, 43, 40, [[x72; x31]], 1%nat, Some 40) /\
  run_events (x_before ++ x_after ++ [x_ev 18 (w_addr 9) (Act_Auction x_bid)]) σ0 = None.
Proof. split; vm_compute; reflexivity. Qed.

(** *** Whose property is whose *)

(** alice's balance over the second part of the history: 30 and 45 go out. *)
Lemma balances_accounted_witness :
  bal_at (view x_s7) w_alice = bal_at (view w_s3) w_alice - 75 + 0 /\ consents w_alice (x_ev 16 w_alice (Act_Transfer x_fund)).
Proof.
  destruct (balances_accounted (view w_s3) x_after (view x_s7) w_alice x_inv3 x_history_after) as [Hb Hc].
  split.
  - assert (sum_of (spent w_alice) x_after = 75) as Hs by (vm_compute; reflexivity).
    assert (sum_of (received w_alice) x_after = 0) as Hr by (vm_compute; reflexivity).
    rewrite Hs, Hr in Hb. exact Hb.
  - apply (proj1 (Forall_forall _ _) Hc); [right; right; left|]. vm_compute. discriminate.
Defined.

(** nobody but alice made requests about her rollup before, and nobody after *)
Lemma rollup_ownership_witness :
  info_of (view x_s7) [x72; x31] = Some (w_rollup 9 0) /\
  exits_of [x72; x31] (exits_list (view x_s7) 20) = exits_of [x72; x31] (exits_list (view w_s3) 20).
Proof.
  destruct (rollup_ownership (view w_s3) x_after (view x_s7) x_inv3 x_history_after) as [_ Ho].
  destruct (Ho [x72; x31] (w_rollup 9 0)) as [Hi He].
  - vm_compute. reflexivity.
  - repeat constructor; by intros [].
  - split; [exact Hi|]. apply He. in_range.
Defined.

(** the bid for epoch 3, and no bid for epoch 2, in epoch 2 *)
Lemma winning_bid_witness :
  (read_bid <$> view x_s7 !! ArcadiaBidKey 3) = Some (bid_of x_bid) /\
  (read_bid <$> view x_s7 !! ArcadiaBidKey 2) = (read_bid <$> view w_s3 !! ArcadiaBidKey 2).
Proof.
  destruct (winning_bid (view w_s3) x_after (view x_s7) 3 x_inv3 x_history_after) as (Hb & _); [in_range|].
  destruct (winning_bid (view w_s3) x_after (view x_s7) 2 x_inv3 x_history_after) as (_ & _ & _ & Hn); [in_range|].
  split; [exact Hb|]. apply Hn; [lia|].
  repeat constructor; try (vm_compute; discriminate).
Defined.

(** *** A schedule *)

Definition x_job (actor : Address) (a : Action) : Job :=
  {| j_actor := actor; j_actions := [(w_id 0, a)] |}.

Definition x_back : Transfer := {| To := w_alice; Value := 5; Memo := [] |}.
Definition x_job0 : Job := x_job w_alice (Act_Transfer w_transfer).
Definition x_job1 : Job := x_job w_alice (Act_RollupRegistration w_update).
Definition x_job2 : Job := x_job w_bob (Act_Transfer x_back).

Lemma x_job_ok v actor a : Action_wf (S := store) a -> job_ok (w_store v) (x_job actor a).
Proof. intros Hwf. constructor; [|constructor]. split; [exact Hwf|apply w_store_declares]. Qed.

Lemma x_sees actor a k :
  job_sees (S := store) (x_job actor a) k = true -> is_Some (StateKeys (S := store) a actor (w_id 0) !! k).
Proof.
  unfold job_sees, x_job. cbn [j_actions existsb]. rewrite orb_false_r. apply bool_decide_eq_true.
Qed.

(** Keys are compared one by one. *)
Definition x_apart (j : Job) (actor : Address) (a : Action) : bool :=
  forallb (fun kp => negb (job_writes (S := store) j kp.1))
    (map_to_list (StateKeys (S := store) a actor (w_id 0))).

Lemma x_apart_spec j actor a :
  x_apart j actor a = true ->
  forall k, job_writes (S := store) j k = true -> job_sees (S := store) (x_job actor a) k = false.
Proof.
  intros Hf k Hk. destruct (job_sees (x_job actor a) k) eqn:E; [|done].
  apply x_sees in E as [p Hp]. apply elem_of_map_to_list in Hp.
  unfold x_apart in Hf. rewrite forallb_forall in Hf. specialize (Hf (k, p)). cbn [fst] in Hf.
  rewrite Hk in Hf. discriminate Hf. by apply list_elem_of_In.
Qed.

(** The update runs before the transfers, whose order stays. *)
Lemma schedules_agree_witness :
  view (fst (run_all (run_transaction (S := store) w_rules 0 16)
    [(1%nat, x_job1); (0%nat, x_job0); (2%nat, x_job2)] (w_store (view w_s3)))) =
  view (fst (run_all (run_transaction (S := store) w_rules 0 16)
    [(0%nat, x_job0); (1%nat, x_job1); (2%nat, x_job2)] (w_store (view w_s3)))).
Proof.
  apply (schedules_agree (S := store) w_rules 0 16).
  - apply (NoDup_fmap_1 fst). cbn. rewrite !NoDup_cons, !not_elem_of_cons. split_and!; try done; try apply not_elem_of_nil. constructor.
  - constructor; [apply x_job_ok, w_transfer_wf|]. constructor; [apply x_job_ok, w_update_wf|].
    constructor; [apply x_job_ok; split; in_range|constructor].
  - split; [apply Permutation_swap|]. intros x y Hxy.
    assert (independent (job_writes (S := store)) (job_sees (S := store)) x_job0 x_job1) as Hi
      by (split; apply x_apart_spec; vm_compute; reflexivity).
    apply sublist_cons_r in Hxy as [Hxy|(k & Hk & Hxy)]; [right|].
    + apply sublist_cons_r in Hxy as [Hxy|(k' & Hk' & Hxy)].
      * apply sublist_length in Hxy. cbn in Hxy. lia.
      * injection Hk' as -> <-. apply sublist_skip. by apply sublist_cons.
    + injection Hk as -> <-. apply sublist_cons_r in Hxy as [Hxy|(k' & Hk' & Hxy)].
      * right. apply sublist_cons. apply sublist_skip. exact Hxy.
      * injection Hk' as ->. left. exact Hi.
Defined.

Example schedule_moves_funds :
  bal_at (view (fst (run_all (run_transaction (S := store) w_rules 0 16)
    [(1%nat, x_job1); (0%nat, x_job0); (2%nat, x_job2)] (w_store (view w_s3))))) w_alice = 75.
Proof. vm_compute. reflexivity. Qed.
