(* ===== verification/BindingExamples.v ===== *)
(** * BindingExamples: the binding on a small contract

    A contract that answers 7 to every function that reads, and whose logs are
    numbers: the properties of [Binding] at work. *)

From stdpp Require Import base numbers countable gmap list strings.
From Stdlib Require Import ZArith Lia Strings.Byte.
From S2P Require Import Prelude Binding.

Local Open Scope Z_scope.

Definition b_val (t : abi_type) : Val :=
  match t with
  | Uint256 => VBig 7
  | UintTuple _ => VWarp {| wb_Height := 1; wb_BlockRoot := 2; wb_ParentRoot := 3 |}
  | SliceOf _ => VWarps []
  end.

(** An answer the binding could not represent is an error. *)
Definition b_call (abi : list abi_entry) (name : string) (args : list Val) : res (list Val) :=
  match abi_function abi name with
  | Some (ins, outs, _) =>
      let out := map (fun o => b_val (snd o)) outs in
      if vals_have_types args ins && vals_have_types out outs then Ok out
      else Err (ErrNew "abi: cannot use the arguments")
  | None => Err (ErrNew "method not found")
  end.

(** The world counts the calls; a negative log is not an event. *)
#[local] Instance b_bind : EthBind nat := {|
  CallOpts := unit; TransactOpts := unit; FilterOpts := list Z; WatchOpts := list Z;
  EthAddress := Z; EthTransaction := string * list Val;
  Log := Z; Log_zero := 0;
  ContractCaller := unit; ContractTransactor := unit; ContractFilterer := unit; ContractBackend := unit;
  as_caller := id; as_transactor := id; as_filterer := id;
  ParsedABI := list abi_entry; BoundContract := list abi_entry;
  GetAbi abi := Ok (Some abi);
  DeployContract _ abi _ _ w := (S w, Ok (1, (""%string, []), abi));
  NewBoundContract _ abi _ _ _ := abi;
  bc_Call c _ name args w := (S w, b_call c name args);
  bc_Transact c _ name args w := (S w, Ok (name, args));
  bc_Transfer c _ w := (S w, Ok (""%string, []));
  bc_FilterLogs _ logs _ w := (S w, Ok {| feed_ready := []; feed_pending := logs; feed_ended := None |});
  bc_WatchLogs _ logs _ w := (S w, Ok {| feed_ready := []; feed_pending := logs; feed_ended := None |});
  bc_UnpackLog _ _ log :=
    if log <? 0 then inl (ErrNew "event signature mismatch") else inr [("blockNumber"%string, log)]
|}.

#[local] Instance b_spec : EthBindSpec nat.
Proof.
  split.
  - intros addr abi p caller transactor filterer opts name args ins outs w w' out [= <-] Hf Ht Hc.
    cbn in Hc. unfold b_call in Hc. rewrite Hf, Ht in Hc.
    destruct (vals_have_types (map _ _) outs) eqn:E; [|done]. injection Hc as <- <-. exact E.
  - intros c opts name args w. cbn. unfold b_call. destruct (abi_function c name) as [[[ins outs] v]|]; [|done].
    by destruct (_ && _).
Qed.

Definition b_sequencer : Sequencer := Sequencer_of SequencerMetaData.
Definition b_session : SequencerSession :=
  {| ss_Contract := b_sequencer; ss_CallOpts := tt; ss_TransactOpts := tt |}.

Lemma session_reads_contract_witness :
  run_op b_session (OpCommitments 3) 0%nat = (1%nat, Ok 7).
Proof.
  pose proof (session_reads_contract 0 tt b_sequencer b_session (OpCommitments 3) 0%nat eq_refl eq_refl)
    as (_ & Hw & z & Ho & Hr).
  injection Ho as <-. destruct (run_op b_session (OpCommitments 3) 0%nat) as [w r].
  cbn in Hw, Hr. by rewrite Hw, Hr.
Defined.

Definition b_filterer : SequencerFilterer := {| sf_contract := SequencerMetaData |}.
Definition b_logs : list Z := [4; 5; -1; 6].

Definition b_feed (ready pending : list Log) : Feed Log :=
  {| feed_ready := ready; feed_pending := pending; feed_ended := None |}.

Definition b_iterator : Iterator (Ev := SequencerNewBlock) :=
  {| it_Event := None; it_contract := SequencerMetaData; it_event := "NewBlock";
     it_done := false; it_fail := None |}.

(** The third log does not parse: the iteration that stops there has used two
    events, and one over the first two logs ends without an error. *)
Lemma iterator_complete_witness :
  (forall evs it', iterate b_iterator {| feed_ready := []; feed_pending := b_logs; feed_ended := None |} evs it' ->
     (length evs <= 2)%nat /\ it_Error it' <> None) /\
  exists it', iterate b_iterator {| feed_ready := []; feed_pending := [4; 5]; feed_ended := None |}
    [ {| nb_BlockNumber := Some 4; nb_Raw := 4 |}; {| nb_BlockNumber := Some 5; nb_Raw := 5 |} ] it' /\
    it_Error it' = None.
Proof.
  split.
  - intros evs it' Hit.
    destruct (iterator_complete b_filterer b_logs 0%nat 1%nat b_iterator (b_feed [] b_logs) b_logs) as [H _];
      [reflexivity|reflexivity|].
    destruct (H evs it' Hit) as (l1 & l2 & Hl & Hall & He).
    assert (forall ev, ParseEvent (Ev := SequencerNewBlock) b_filterer (-1) <> Ok ev) as Hbad by done.
    unfold b_logs in Hl. destruct l1 as [|a [|b [|d l1]]]; simplify_eq/=.
    + apply Forall2_nil_inv_l in Hall as ->. split; [simpl; lia|]. intros E. by specialize (He E).
    + apply Forall2_length in Hall. simpl in Hall. split; [lia|]. intros E. by specialize (He E).
    + apply Forall2_length in Hall. simpl in Hall. split; [lia|]. intros E. by specialize (He E).
    + exfalso. inversion Hall as [|? ? ? ? _ Ha]; subst. inversion Ha as [|? ? ? ? _ Hb]; subst.
      inversion Hb as [|? ? ? ? Hp _]; subst. by apply Hbad in Hp.
  - destruct (iterator_complete b_filterer [4; 5] 0%nat 1%nat b_iterator (b_feed [] [4; 5]) [4; 5]) as [_ H];
      [reflexivity|reflexivity|].
    apply H. by repeat constructor.
Defined.

(** A watch that received and forwarded the first log, and then was quit. *)
Definition b_watch (p : watch_phase) (sink : list SequencerNewBlock) (u : bool) : Watch :=
  {| wa_contract := b_filterer; wa_phase := p; wa_sink := sink; wa_unsubscribed := u |}.
Definition b_event : SequencerNewBlock := {| nb_BlockNumber := Some 4; nb_Raw := 4 |}.

Lemma b_watched : watched (b_watch Receiving [] false, b_feed [] [4; 5])
  (b_watch (Returned None) [b_event] true, b_feed [] [5]).
Proof.
  eapply watched_step; [eapply watched_step; [eapply watched_step; [eapply watched_step|]|]|].
  - apply watched_start.
  - exact (watch_feed (b_watch Receiving [] false) (b_feed [] [4; 5]) (b_feed [4] [5]) (feed_send [] 4 [5])).
  - exact (watch_log (b_watch Receiving [] false) (b_feed [4] [5]) 4 [] eq_refl eq_refl).
  - exact (watch_sink (b_watch (Sending b_event) [] false) (b_feed [] [5]) b_event eq_refl).
  - exact (watch_quit (b_watch Receiving [b_event] false) (b_feed [] [5]) eq_refl).
Qed.

Lemma watch_in_order_witness :
  (exists l1 mid, [4; 5] = l1 ++ mid ++ [5] /\ (length mid <= 1)%nat /\
     Forall2 (fun log ev => ParseEvent b_filterer log = Ok ev) l1 [b_event]) /\ true = true.
Proof.
  destruct (watch_in_order b_filterer [4; 5] 0%nat 1%nat _ _ eq_refl b_watched) as [H1 H2].
  split; [exact H1|exact (H2 eq_refl)].
Defined.
